(** * Offer resolution, effective pricing and branch assignment

    A shallow embedding of the offer engine of the store backend:
    - [OfferService.calculateEffectivePrices]   (modules/offers/offer.service.ts)
    - [OfferController.resolveRelevantOffers],
      [checkProductConflicts], [createOffer], [updateOffer]
                                                (modules/offers/offer.controller.ts)
    - [BranchAssignmentService]                 (services/uploadService.ts)
    - [OrderService.createOrder]                (the order service, unnamed/part_020)

    Conventions of the embedding.
    - A JavaScript [number] is an IEEE-754 binary64 value.  The finite
      ones are rationals, so a number is a [Q], and every arithmetic
      operation of the source is the exact operation followed by the
      rounding [fl] to the nearest binary64 value (ties to even, gradual
      underflow): [x ⊗ y], [x ⊘ y], [x ⊕ y], [x ⊖ y].  A decimal
      literal of the source or of a JSON body is [dec] of its rational.
      [NaN] and the infinities are not values of [Q]: a division by zero
      and an overflow are outside the embedding, and where the source
      can meet [NaN] (a query string turned into a number) the number is
      an [option].  Comparison is the comparison of the rationals, and
      [Math.round] is [floor (x + 1/2)], which is exact.
    - An [ObjectId] is the string of its hexadecimal form, a [Date] the
      integer of its milliseconds.
    - An optional field is an [option]; a missing array is the empty list
      (every test in the source treats the two alike).
    - The document store is a record of collections; a query is a filter
      over the collection, and [populate] is the join with the referenced
      collection ([None] for a reference whose document is gone).
    - A thrown exception is the [Throw] branch of [Result]. *)

From stdpp Require Import gmap strings list pretty.
From Stdlib Require Import QArith Qround Qminmax Qabs Qpower Lqa ZArith Lia Ascii String.
From Stdlib Require Import Permutation Sorted.
Import ListNotations.

Set Default Goal Selector "!".

(** ** Exceptions *)

Inductive Failure : Type :=
| BSONError (input : string)                         (* new ObjectId(badInput) *)
| MongoError                                         (* the store rejects a query *)
| TypeError (what : string)                          (* property read on null *)
| AppError (message : string) (statusCode : Z) (code : string)
| ValidationError (path : string)                    (* a schema validator fails at save *)
| DuplicateKey (path : string)                       (* a unique index rejects the write *)
| JsError (message : string).                        (* new Error(message) *)

Inductive Result (A : Type) : Type :=
| Ok (a : A)
| Throw (e : Failure).
Arguments Ok {A} a.
Arguments Throw {A} e.

Definition bind {A B} (c : Result A) (k : A -> Result B) : Result B :=
  match c with
  | Ok a => k a
  | Throw e => Throw e
  end.

Notation "'let*' x ':=' c 'in' k" := (bind c (fun x => k))
  (at level 10, x pattern, c at level 100, k at level 200).

(** [for (const x of xs) { acc = body(acc, x) }] with a body that may throw. *)
Fixpoint forOf {A S} (body : S -> A -> Result S) (xs : list A) (acc : S) : Result S :=
  match xs with
  | [] => Ok acc
  | x :: xs' => let* acc' := body acc x in forOf body xs' acc'
  end.

(** [xs.map(f)] with a callback that may throw. *)
Fixpoint mapM {A B} (f : A -> Result B) (xs : list A) : Result (list B) :=
  match xs with
  | [] => Ok []
  | x :: xs' => let* y := f x in let* ys := mapM f xs' in Ok (y :: ys)
  end.

(** [try { body } catch (error) { handler }] *)
Definition tryCatch {A} (body : Result A) (handler : Failure -> Result A) : Result A :=
  match body with
  | Ok a => Ok a
  | Throw e => handler e
  end.

(** ** Numbers (IEEE-754 binary64) *)

Definition Qltb (x y : Q) : bool := negb (Qle_bool y x).

Definition pow2 (e : Z) : Q := 2 ^ e.

(** [floor (log2 x)] for [0 < x]: the estimate from the sizes of the
    numerator and the denominator is right or one too high. *)
Definition ilog2 (x : Q) : Z :=
  let k := (Z.log2 (Qnum x) - Z.log2 (Zpos (Qden x)))%Z in
  if Qle_bool (pow2 k) x then k else (k - 1)%Z.

(** The exponent of the last of the 53 bits of the significand of [x]; the
    subnormal numbers share the exponent -1074. *)
Definition ulpExponent (x : Q) : Z := Z.max (ilog2 (Qabs x) - 52) (-1074).

(** The nearest integer, a tie going to the even one. *)
Definition roundHalfEven (x : Q) : Z :=
  let f := Qfloor x in
  match Qcompare (x - inject_Z f) (1 # 2) with
  | Lt => f
  | Gt => (f + 1)%Z
  | Eq => if Z.even f then f else (f + 1)%Z
  end.

(** The binary64 value nearest to [x] (round to nearest, ties to even). *)
Definition fl (x : Q) : Q :=
  if Qeq_bool x 0 then 0
  else let e := ulpExponent x in inject_Z (roundHalfEven (x / pow2 e)) * pow2 e.

(** A decimal literal, as the parser of the language or of JSON reads it. *)
Definition dec (literal : Q) : Q := fl literal.

(** The four operations of the language on numbers. *)
Definition Number_add (x y : Q) : Q := fl (x + y).
Definition Number_sub (x y : Q) : Q := fl (x - y).
Definition Number_mul (x y : Q) : Q := fl (x * y).
Definition Number_div (x y : Q) : Q := fl (x / y).

Notation "x ⊕ y" := (Number_add x y) (at level 50, left associativity).
Notation "x ⊖ y" := (Number_sub x y) (at level 50, left associativity).
Notation "x ⊗ y" := (Number_mul x y) (at level 40, left associativity).
Notation "x ⊘ y" := (Number_div x y) (at level 40, left associativity).

(** [Math.round(x)]: the nearest integer, a tie going up. *)
Definition Math_round (x : Q) : Q := inject_Z (Qfloor (x + (1 # 2))).

(** [Math.round(x * 100) / 100] *)
Definition round2 (x : Q) : Q := Math_round (x ⊗ 100) ⊘ 100.

(** [Math.max(0, x)] and [Math.abs] are [Qmax 0 x] and [Qabs]. *)

(** Truthiness of an optional number: [undefined], [null] and [0] are falsy. *)
Definition truthy (o : option Q) : bool :=
  match o with
  | Some q => negb (Qeq_bool q 0)
  | None => false
  end.

(** [x && x > 0] on an optional number. *)
Definition truthyAndPositive (o : option Q) : bool :=
  match o with
  | Some q => negb (Qeq_bool q 0) && Qltb 0 q
  | None => false
  end.

(** Truthiness of an optional string: [undefined] and [''] are falsy. *)
Definition truthyStr (o : option string) : bool :=
  match o with
  | Some s => negb (String.eqb s "")
  | None => false
  end.

(** ** Data model (offer.model.ts, product.model.ts, branch.model.ts) *)

Inductive ApplyMode : Type := PerItem | BulkPercent | BulkAmount.

Definition ApplyMode_eqb (a b : ApplyMode) : bool :=
  match a, b with
  | PerItem, PerItem | BulkPercent, BulkPercent | BulkAmount, BulkAmount => true
  | _, _ => false
  end.

(** IOfferItem *)
Record OfferItem : Type := {
  product : string;              (* reference to a Product *)
  offerPrice : option Q;
  percent : option Q
}.

(** The [geo] sub-document: [type] with the coordinates it goes with. *)
Inductive Geo : Type :=
| Point (lng lat : Q) (radiusMeters : option Q)
| Polygon (ring : list (Q * Q)).

(** IOfferCampaign *)
Record Offer : Type := {
  o_id : string;
  title : string;
  startsAt : option Z;
  endsAt : option Z;
  isActive : bool;
  applyMode : ApplyMode;
  bulkPercent : option Q;
  bulkAmount : option Q;
  items : list OfferItem;
  branches : list string;
  cities : list string;
  geo : option Geo;
  categoryIds : list string;
  productIds : list string;
  priority : Z;
  stackable : bool;
  branch : option string         (* legacy single branch *)
}.

(** IProduct, the fields the engine reads. *)
Record Product : Type := {
  p_id : string;
  p_title : string;
  category : option string;
  price : Q;
  p_offerPrice : option Q;       (* the product's own static offer price *)
  images : list string;
  p_isActive : bool
}.

(** IBranch *)
Record Branch : Type := {
  b_id : string;
  b_name : string;
  b_city : option string;        (* read by the controller; not a schema field *)
  b_location : Q * Q;            (* [longitude, latitude] *)
  b_isActive : bool
}.

(** IShippingAddress; a required string that is empty is falsy like a
    missing one. *)
Record ShippingAddress : Type := {
  firstName : string;
  lastName : string;
  email : option string;
  phone : string;
  companyName : option string;
  address : string;
  apartment : option string;
  district : string;
  buildingNumber : string;
  secondaryNumber : option string;
  postalCode : option string;
  crNumber : option string;
  vatNumber : option string;
  vatRegistered : bool
}.

(** ISavedAddress: the address fields with an id, a label and the default flag. *)
Record SavedAddress : Type := {
  sa_id : string;
  sa_fields : ShippingAddress;
  isDefault : bool;
  addressLabel : option string
}.

(** ICustomer *)
Record Customer : Type := {
  c_id : string;
  savedAddresses : list SavedAddress
}.

(** IOrderItem *)
Record OrderItem : Type := {
  oi_product : string;
  oi_title : string;
  oi_price : Q;
  oi_offerPrice : option Q;
  oi_quantity : Q;
  oi_subtotal : Q;
  oi_image : string
}.

(** IOrder *)
Record Order : Type := {
  ord_id : string;
  orderNumber : string;
  ord_customer : string;
  ord_branch : option string;
  ord_items : list OrderItem;
  ord_shippingAddress : ShippingAddress;
  paymentMethod : string;
  ord_subtotal : Q;
  ord_shipping : Q;
  ord_total : Q;
  ord_notes : option string;
  ord_customerIpAddress : option string;
  ord_customerLocation : option (Q * Q)
}.

(** The document store.  [connected = false] makes every query reject. *)
Record Db : Type := {
  offerCampaigns : list Offer;
  products : list Product;
  branchDocs : list Branch;
  customers : list Customer;
  orders : list Order;
  connected : bool
}.

(** [Model.find(query)] *)
Definition find {A} (db : Db) (coll : Db -> list A) (query : A -> bool) : Result (list A) :=
  if connected db then Ok (List.filter query (coll db)) else Throw MongoError.

(** [Model.findOne(query)], and [findById] with the id test as the query. *)
Definition findOne {A} (db : Db) (coll : Db -> list A) (query : A -> bool) : Result (option A) :=
  if connected db then Ok (List.find query (coll db)) else Throw MongoError.

(** [.populate('items.product')] of one item: the referenced product, or
    [null] when it no longer exists. *)
Definition populate (db : Db) (item : OfferItem) : option Product :=
  List.find (fun p => String.eqb (p_id p) (product item)) (products db).

(** [new mongoose.Types.ObjectId(s)] accepts the 24 hexadecimal digits of an
    id, in either case.  An ObjectId prints in lower case
    ([toHexString]), which is how the store holds the ids of its documents
    and their references; two ObjectIds are equal when they print alike.
    A query casts the strings it is given the same way. *)
Definition isHexDigit (c : ascii) : bool :=
  let n := nat_of_ascii c in
  ((48 <=? n) && (n <=? 57) || (65 <=? n) && (n <=? 70) || (97 <=? n) && (n <=? 102))%nat.

Definition isValidObjectId (s : string) : bool :=
  (String.length s =? 24)%nat && forallb isHexDigit (list_ascii_of_string s).

Definition lowerHexDigit (c : ascii) : ascii :=
  let n := nat_of_ascii c in
  if ((65 <=? n) && (n <=? 70))%nat then ascii_of_nat (n + 32) else c.

Definition toHexString (s : string) : string :=
  string_of_list_ascii (map lowerHexDigit (list_ascii_of_string s)).

Definition ObjectId (s : string) : Result string :=
  if isValidObjectId s then Ok (toHexString s) else Throw (BSONError s).

(** * The pricing calculator (offer.service.ts) *)

Module OfferService.

(** An entry of [applicableOffers]. *)
Record ApplicableOffer : Type := {
  ao_id : string;
  ao_title : string;
  discount : Q;
  ao_percent : Q;
  ao_applyMode : ApplyMode
}.

(** IProductWithOffer *)
Record IProductWithOffer : Type := {
  _id : string;
  originalPrice : Q;
  effectivePrice : Q;
  hasOffer : bool;
  offerDiscount : option Q;
  offerPercent : option Q;
  applicableOffers : option (list ApplicableOffer)
}.

(** The temporal part of every offer query:
    [isActive: true, $and: [{$or: [{startsAt: null}, {startsAt: {$lte: now}}]},
                            {$or: [{endsAt: null}, {endsAt: {$gte: now}}]}]] *)
Definition activeAt (now : Z) (o : Offer) : bool :=
  isActive o
  && match startsAt o with None => true | Some s => (s <=? now)%Z end
  && match endsAt o with None => true | Some e => (now <=? e)%Z end.

(** [{$or: [{branches: id}, {branch: id}]}] *)
Definition branchCondition (id : string) (o : Offer) : bool :=
  existsb (String.eqb id) (branches o)
  || match branch o with Some b => String.eqb b id | None => false end.

(** The "global offers" condition: no branches, no cities, no geo, no
    legacy branch. *)
Definition globalCondition (o : Offer) : bool :=
  match branches o with [] => true | _ => false end
  && match cities o with [] => true | _ => false end
  && match geo o with None => true | Some _ => false end
  && match branch o with None => true | Some _ => false end.

(** The coverage part of the query:
    [$or: [{'items.product': {$in: ids}}, {productIds: {$in: ids}},
           {categoryIds: {$exists: true, $ne: []}}]] *)
Definition coverageCondition (ids : list string) (o : Offer) : bool :=
  existsb (fun it => existsb (String.eqb (product it)) ids) (items o)
  || existsb (fun pid => existsb (String.eqb pid) ids) (productIds o)
  || match categoryIds o with [] => false | _ => true end.

(** [locationConditions], as the service builds it (lines 56-80): the
    branch condition when [branchId] is truthy, and the global condition.
    The [userLocation] argument is not read. *)
Definition locationConditions (branchId : option string) : Result (list (Offer -> bool)) :=
  let* branchPart :=
    (if truthyStr branchId
     then let* id := ObjectId (default "" branchId) in Ok [branchCondition id]
     else Ok []) in
  Ok (branchPart ++ [globalCondition]).

Definition offerQuery (now : Z) (conds : list (Offer -> bool)) (ids : list string)
    (o : Offer) : bool :=
  activeAt now o
  && (match conds with [] => true | _ => existsb (fun c => c o) conds end)
  && coverageCondition ids o.

(** The state of the loop over the offers, for one product. *)
Record PriceState : Type := {
  st_effectivePrice : Q;
  st_hasOffer : bool;
  st_offerDiscount : Q;
  st_offerPercent : Q;
  st_applicableOffers : list ApplicableOffer
}.

(** [offer.items?.find(item => item.product && item.product._id.toString() === productId)] *)
Definition directItem (db : Db) (offer : Offer) (productId : string) : option OfferItem :=
  List.find (fun item =>
               match populate db item with
               | Some p => String.eqb (p_id p) productId
               | None => false
               end) (items offer).

(** Lines 112-160 of the loop body: does the offer apply to the product,
    and the price it gives. *)
Definition appliesAndPrice (db : Db) (offer : Offer) (prod : Product) : bool * Q :=
  let productId := p_id prod in
  let originalPrice := price prod in
  (* direct product inclusion in the offer items *)
  let '(appliesToProduct, calculatedPrice) :=
    match directItem db offer productId with
    | Some item =>
        (true,
         if ApplyMode_eqb (applyMode offer) PerItem then
           if truthyAndPositive (offerPrice item) then default 0 (offerPrice item)
           else if truthyAndPositive (percent item)
                then originalPrice ⊗ (1 ⊖ default 0 (percent item) ⊘ 100)
                else originalPrice
         else originalPrice)
    | None => (false, originalPrice)
    end in
  (* product in the productIds array *)
  let appliesToProduct :=
    if negb appliesToProduct && (0 <? List.length (productIds offer))%nat
    then if existsb (fun pid => String.eqb pid productId) (productIds offer)
         then true else appliesToProduct
    else appliesToProduct in
  (* category-based offers *)
  let appliesToProduct :=
    if negb appliesToProduct && (0 <? List.length (categoryIds offer))%nat
    then if existsb (fun cid => match category prod with
                                | Some c => String.eqb cid c
                                | None => false
                                end) (categoryIds offer)
         then true else appliesToProduct
    else appliesToProduct in
  (* bulk pricing *)
  let calculatedPrice :=
    if appliesToProduct && negb (ApplyMode_eqb (applyMode offer) PerItem) then
      if ApplyMode_eqb (applyMode offer) BulkPercent && truthy (bulkPercent offer)
      then originalPrice ⊗ (1 ⊖ default 0 (bulkPercent offer) ⊘ 100)
      else if ApplyMode_eqb (applyMode offer) BulkAmount && truthy (bulkAmount offer)
           then Qmax 0 (originalPrice ⊖ default 0 (bulkAmount offer))
           else calculatedPrice
    else calculatedPrice in
  (appliesToProduct, calculatedPrice).

(** Lines 162-176: keep the lowest price. *)
Definition offerStep (db : Db) (prod : Product) (st : PriceState) (offer : Offer) : PriceState :=
  let originalPrice := price prod in
  let '(appliesToProduct, calculatedPrice) := appliesAndPrice db offer prod in
  if appliesToProduct && Qltb calculatedPrice (st_effectivePrice st) then
    let effectivePrice := calculatedPrice in
    let offerDiscount := originalPrice ⊖ effectivePrice in
    let offerPercent := Math_round ((offerDiscount ⊘ originalPrice) ⊗ 100) in
    {| st_effectivePrice := effectivePrice;
       st_hasOffer := true;
       st_offerDiscount := offerDiscount;
       st_offerPercent := offerPercent;
       st_applicableOffers :=
         st_applicableOffers st ++
           [{| ao_id := o_id offer; ao_title := title offer;
               discount := offerDiscount; ao_percent := offerPercent;
               ao_applyMode := applyMode offer |}] |}
  else st.

(** Lines 101-188: the callback of [fullProducts.map]. *)
Definition priceProduct (db : Db) (offers : list Offer) (prod : Product) : IProductWithOffer :=
  let originalPrice := price prod in
  let st := fold_left (offerStep db prod) offers
              {| st_effectivePrice := originalPrice; st_hasOffer := false;
                 st_offerDiscount := 0; st_offerPercent := 0;
                 st_applicableOffers := [] |} in
  {| _id := p_id prod;
     originalPrice := originalPrice;
     effectivePrice := round2 (st_effectivePrice st);
     hasOffer := st_hasOffer st;
     offerDiscount := if st_hasOffer st then Some (round2 (st_offerDiscount st)) else None;
     offerPercent := if st_hasOffer st then Some (st_offerPercent st) else None;
     applicableOffers := if st_hasOffer st then Some (st_applicableOffers st) else None |}.

(** The [catch] branch: every product at its original price. *)
Definition originalPrices (prods : list Product) : list IProductWithOffer :=
  map (fun prod =>
         {| _id := p_id prod;
            originalPrice := price prod;
            effectivePrice := price prod;
            hasOffer := false;
            offerDiscount := None; offerPercent := None; applicableOffers := None |})
      prods.

(** The [try] block of [calculateEffectivePrices]. *)
Definition calculateEffectivePrices_try (db : Db) (now : Z) (prods : list Product)
    (branchId : option string) (userLocation : option (Q * Q))
  : Result (list IProductWithOffer) :=
  let productIds := map p_id prods in
  let* conds := locationConditions branchId in
  let* offers := find db offerCampaigns (offerQuery now conds productIds) in
  Ok (map (priceProduct db offers) prods).

Definition calculateEffectivePrices (db : Db) (now : Z) (prods : list Product)
    (branchId : option string) (userLocation : option (Q * Q))
  : Result (list IProductWithOffer) :=
  tryCatch (calculateEffectivePrices_try db now prods branchId userLocation)
           (fun error => Ok (originalPrices prods)).

(** The product with its pricing fields, as [applyOfferPricing] spreads
    them over the product. *)
Record PricedProduct : Type := {
  pp_product : Product;
  pp_originalPrice : Q;
  pp_effectivePrice : Q;
  pp_offerPrice : option Q;
  pp_hasOffer : bool;
  pp_offerDiscount : option Q;
  pp_offerPercent : option Q;
  pp_applicableOffers : option (list ApplicableOffer)
}.

Definition withPricing (prod : Product) (offerData : IProductWithOffer) : PricedProduct :=
  {| pp_product := prod;
     pp_originalPrice := originalPrice offerData;
     pp_effectivePrice := effectivePrice offerData;
     pp_offerPrice := if hasOffer offerData then Some (effectivePrice offerData)
                      else p_offerPrice prod;
     pp_hasOffer := hasOffer offerData;
     pp_offerDiscount := offerDiscount offerData;
     pp_offerPercent := offerPercent offerData;
     pp_applicableOffers := applicableOffers offerData |}.

(** [applyOfferPricing]: [const [productWithOffer] = await calculateEffectivePrices([product], ...)] *)
Definition applyOfferPricing (db : Db) (now : Z) (prod : Product)
    (branchId : option string) (userLocation : option (Q * Q)) : Result PricedProduct :=
  let* priced := calculateEffectivePrices db now [prod] branchId userLocation in
  match priced with
  | productWithOffer :: _ => Ok (withPricing prod productWithOffer)
  | [] => Throw (TypeError "Cannot read properties of undefined (reading 'originalPrice')")
  end.

End OfferService.

(** * Offer resolution, stacking and write-time conflicts (offer.controller.ts) *)

Module OfferController.

Import OfferService.

(** An offer on its way through [resolveRelevantOffers]: the lean document
    and the transient [relevanceScore] ([undefined] without a cart). *)
Record ScoredOffer : Type := {
  so_offer : Offer;
  relevanceScore : option Z
}.

(** [req.query] of the resolve endpoint; [lat] and [lng] hold the value
    [Number(...)] reads from a non-empty parameter. *)
Record ResolveQuery : Type := {
  q_lat : option Q;
  q_lng : option Q;
  cityName : option string;
  q_branchId : option string;
  cartProductIds : list string
}.

(** The location context the endpoint settles on (lines 97-146). *)
Record LocationContext : Type := {
  userBranchId : option string;
  userCity : option string;
  userCoordinates : option (Q * Q)        (* [lng, lat] *)
}.

(** [(item.product as any)._id.toString()]: a [TypeError] on a reference
    that populated to [null]. *)
Definition itemProductId (db : Db) (item : OfferItem) : Result string :=
  match populate db item with
  | Some p => Ok (p_id p)
  | None => Throw (TypeError "Cannot read properties of null (reading '_id')")
  end.

Section Resolve.

(** The great-circle distance in meters ([calculateDistance], lines 428-442:
    trigonometry on doubles) and the store's answer to the [$geoWithin]
    query of a polygon offer (a match, no match, or an error) are kept
    abstract. *)
Variable calculateDistance : Q -> Q -> Q -> Q -> Q.
Variable geoWithin : Offer -> Q * Q -> Result bool.

(** Lines 106-134: the nearest active branch by the plane distance
    [sqrt (dLat^2 + dLng^2)]; the squares are compared, which orders the
    branches as their roots do.  [None] is [Infinity]. *)
Definition planeNearestStep (lat lng : Q) (st : option Branch * option Q) (b : Branch)
  : option Branch * option Q :=
  let '(branchLng, branchLat) := b_location b in
  let distance2 := (lat - branchLat) * (lat - branchLat) + (lng - branchLng) * (lng - branchLng) in
  match snd st with
  | Some minDistance2 => if Qltb distance2 minDistance2 then (Some b, Some distance2) else st
  | None => (Some b, Some distance2)
  end.

Definition locationContext (db : Db) (q : ResolveQuery) : Result LocationContext :=
  let ctx0 := {| userBranchId := q_branchId q; userCity := cityName q; userCoordinates := None |} in
  let* ctx1 :=
    match q_lat q, q_lng q with
    | Some lat, Some lng =>
        let coords := Some (lng, lat) in
        if negb (truthyStr (q_branchId q)) then
          let* bs := find db branchDocs b_isActive in
          match fst (fold_left (planeNearestStep lat lng) bs (None, None)) with
          | Some nearestBranch =>
              Ok {| userBranchId := Some (b_id nearestBranch);
                    userCity := if truthyStr (cityName q) then cityName q
                                else b_city nearestBranch;
                    userCoordinates := coords |}
          | None => Ok {| userBranchId := q_branchId q; userCity := cityName q;
                          userCoordinates := coords |}
          end
        else Ok {| userBranchId := q_branchId q; userCity := cityName q;
                   userCoordinates := coords |}
    | _, _ => Ok ctx0
    end in
  if truthyStr (userBranchId ctx1) && negb (truthyStr (userCity ctx1)) then
    let* id := ObjectId (default "" (userBranchId ctx1)) in
    let* found := findOne db branchDocs (fun b => String.eqb (b_id b) id) in
    match found with
    | Some b =>
        Ok {| userBranchId := userBranchId ctx1;
              userCity := b_city b;
              userCoordinates := match userCoordinates ctx1 with
                                 | Some c => Some c
                                 | None => Some (b_location b)
                                 end |}
    | None => Ok ctx1
    end
  else Ok ctx1.

(** [{cities: userCity}] *)
Definition cityCondition (city : string) (o : Offer) : bool :=
  existsb (String.eqb city) (cities o).

(** Lines 167-202: the branch condition, the city condition and the global
    condition; the list is pushed onto [baseQuery.$and] as one [$or]. *)
Definition locationConditions (ctx : LocationContext) : Result (list (Offer -> bool)) :=
  let* branchPart :=
    (if truthyStr (userBranchId ctx)
     then let* id := ObjectId (default "" (userBranchId ctx)) in Ok [branchCondition id]
     else Ok []) in
  let cityPart :=
    if truthyStr (userCity ctx) then [cityCondition (default "" (userCity ctx))] else [] in
  Ok (branchPart ++ cityPart ++ [globalCondition]).

(** [baseQuery] once the location conditions are pushed onto it. *)
Definition baseQuery (now : Z) (conds : list (Offer -> bool)) (o : Offer) : bool :=
  activeAt now o
  && (match conds with [] => true | _ => existsb (fun c => c o) conds end).

(** Lines 221-252: does the geofence of [offer] take the coordinates in? *)
Definition includeOffer (coords : Q * Q) (offer : Offer) : Result bool :=
  match geo offer with
  | Some (Point offerLng offerLat radiusMeters) =>
      if truthy radiusMeters then
        let distance := calculateDistance (snd coords) (fst coords) offerLat offerLng in
        Ok (Qle_bool distance (default 0 radiusMeters))
      else Ok false
  | Some (Polygon _) => geoWithin offer coords
  | None => Ok false
  end.

(** Lines 204-269.  The geo query spreads [baseQuery], whose [$and] holds
    the location conditions already, and adds ['geo.type': {$exists: true}]. *)
Definition targetingFilter (db : Db) (now : Z) (ctx : LocationContext) : Result (list Offer) :=
  let* conds := locationConditions ctx in
  let* offers := find db offerCampaigns (baseQuery now conds) in
  match userCoordinates ctx with
  | Some coords =>
      let* geoOffers :=
        find db offerCampaigns
             (fun o => baseQuery now conds o
                       && match geo o with Some _ => true | None => false end) in
      forOf (fun offers offer =>
               let* include := includeOffer coords offer in
               if include
                  && negb (existsb (fun o => String.eqb (o_id o) (o_id offer)) offers)
               then
                 let* populatedOffer :=
                   findOne db offerCampaigns (fun o => String.eqb (o_id o) (o_id offer)) in
                 match populatedOffer with
                 | Some po => Ok (offers ++ [po])
                 | None => Ok offers
                 end
               else Ok offers)
            geoOffers offers
  | None => Ok offers
  end.

(** Lines 271-281: drop the offers without an item whose product is there
    and not switched off. *)
Definition hasActiveProducts (db : Db) (offer : Offer) : bool :=
  existsb (fun item => match populate db item with
                       | Some p => p_isActive p
                       | None => false
                       end) (items offer).

(** Lines 283-327: the relevance of an offer to the cart.  The cart's
    category ids are ObjectId objects, which a [Set] keeps apart, so every
    cart product counts with its category. *)
Definition scoreOffer (db : Db) (cartProducts : list Product) (offer : Offer) : Result ScoredOffer :=
  let* offerProductIds := mapM (itemProductId db) (items offer) in
  let matchingProducts :=
    List.length (List.filter (fun cp => existsb (String.eqb (p_id cp)) offerProductIds)
                             cartProducts) in
  let matchingCategories :=
    List.length (List.filter (fun cp => match category cp with
                                        | Some c => existsb (String.eqb c) (categoryIds offer)
                                        | None => false
                                        end) cartProducts) in
  let matchingSpecificProducts :=
    List.length (List.filter (fun cp => existsb (String.eqb (p_id cp)) (productIds offer))
                             cartProducts) in
  Ok {| so_offer := offer;
        relevanceScore := Some (Z.of_nat matchingProducts * 10
                                + Z.of_nat matchingCategories * 5
                                + Z.of_nat matchingSpecificProducts * 8)%Z |}.

(** Lines 330-354: the comparator of [offers.sort]. *)
Definition compareOffers (a b : ScoredOffer) : Z :=
  let oa := so_offer a in
  let ob := so_offer b in
  if negb (priority oa =? priority ob)%Z then (priority ob - priority oa)%Z
  else
    match (match relevanceScore a, relevanceScore b with
           | Some ra, Some rb => if negb (ra =? rb)%Z then Some (rb - ra)%Z else None
           | _, _ => None
           end) with
    | Some d => d
    | None =>
        match startsAt oa, startsAt ob with
        | Some sa, Some sb => (sa - sb)%Z
        | _, _ =>
            match endsAt oa, endsAt ob with
            | Some ea, Some eb => (ea - eb)%Z
            | _, _ => 0%Z
            end
        end
    end.

(** [Array.prototype.sort] is stable; it is modelled by the stable
    insertion sort. *)
Fixpoint insertSorted {A} (cmp : A -> A -> Z) (x : A) (l : list A) : list A :=
  match l with
  | [] => [x]
  | y :: l' => if (cmp x y <=? 0)%Z then x :: l else y :: insertSorted cmp x l'
  end.

Definition sort {A} (cmp : A -> A -> Z) (l : list A) : list A :=
  fold_right (insertSorted cmp) [] l.

(** The claims of a product: [productOfferMap.get(productId) || []]. *)
Definition claims (m : gmap string (list ScoredOffer)) (productId : string) : list ScoredOffer :=
  default [] (m !! productId).

(** Lines 382-384 *)
Definition isBlocking (offer existingOffer : ScoredOffer) : bool :=
  negb (stackable (so_offer existingOffer))
  && (priority (so_offer offer) <=? priority (so_offer existingOffer))%Z.

(** Lines 375-390: the loop that looks for a blocking offer, left at the
    first one found. *)
Fixpoint canApply (db : Db) (m : gmap string (list ScoredOffer)) (offer : ScoredOffer)
    (its : list OfferItem) : Result bool :=
  match its with
  | [] => Ok true
  | item :: rest =>
      let* productId := itemProductId db item in
      if existsb (isBlocking offer) (claims m productId) then Ok false
      else canApply db m offer rest
  end.

(** Lines 360-402: one turn of the stacking loop. *)
Definition stackingStep (db : Db) (st : list ScoredOffer * gmap string (list ScoredOffer))
    (offer : ScoredOffer) : Result (list ScoredOffer * gmap string (list ScoredOffer)) :=
  let '(appliedOffers, productOfferMap) := st in
  if stackable (so_offer offer) then
    let* m := forOf (fun m item =>
                       let* productId := itemProductId db item in
                       Ok (<[productId := claims m productId ++ [offer]]> m))
                    (items (so_offer offer)) productOfferMap in
    Ok (appliedOffers ++ [offer], m)
  else
    let* ok := canApply db productOfferMap offer (items (so_offer offer)) in
    if ok then
      let* m := forOf (fun m item =>
                         let* productId := itemProductId db item in
                         Ok (<[productId := [offer]]> m))
                      (items (so_offer offer)) productOfferMap in
      Ok (appliedOffers ++ [offer], m)
    else Ok st.

Definition applyStacking (db : Db) (offers : list ScoredOffer) : Result (list ScoredOffer) :=
  let* st := forOf (stackingStep db) offers ([], ∅) in
  Ok (fst st).

(** Lines 329-405: sort, stack, strip the score. *)
Definition stackingResolver (db : Db) (offers : list ScoredOffer) : Result (list Offer) :=
  let* appliedOffers := applyStacking db (sort compareOffers offers) in
  Ok (map so_offer appliedOffers).

(** The endpoint, up to the list of offers it answers with. *)
Definition resolveRelevantOffers (db : Db) (now : Z) (q : ResolveQuery) : Result (list Offer) :=
  let* cartProducts :=
    (match cartProductIds q with
     | [] => Ok []
     | ids => find db products (fun p => existsb (String.eqb (p_id p)) ids)
     end) in
  let* ctx := locationContext db q in
  let* offers := targetingFilter db now ctx in
  let offers := List.filter (hasActiveProducts db) offers in
  let* scored :=
    (if (0 <? List.length cartProducts)%nat
     then mapM (scoreOffer db cartProducts) offers
     else Ok (map (fun o => {| so_offer := o; relevanceScore := None |}) offers)) in
  stackingResolver db scored.

End Resolve.

(** ** Write-time conflicts (lines 585-648, 721-921) *)

Inductive Role : Type := Admin | BranchRole.

(** [req.user] *)
Record User : Type := {
  u_id : string;
  role : Role;
  u_branchId : option string
}.

(** CreateOfferDto *)
Record CreateOfferDto : Type := {
  c_title : string;
  c_startsAt : option Z;
  c_endsAt : option Z;
  c_applyMode : ApplyMode;
  c_bulkPercent : option Q;
  c_bulkAmount : option Q;
  c_items : list OfferItem;
  c_branch : option string
}.

(** UpdateOfferDto: the outer [None] is [undefined]. *)
Record UpdateOfferDto : Type := {
  u_title : option string;
  u_startsAt : option (option Z);
  u_endsAt : option (option Z);
  u_isActive : option bool;
  u_applyMode : option ApplyMode;
  u_bulkPercent : option Q;
  u_bulkAmount : option Q;
  u_branch : option (option string);
  u_items : option (list OfferItem)
}.

(** An entry of [conflictDetails]. *)
Record ConflictDetail : Type := {
  offerTitle : string;
  cd_products : list string
}.

(** An optional id cast to an ObjectId when it is truthy
    ([if (x) { ... new mongoose.Types.ObjectId(x) ... }]). *)
Definition castWhenTruthy (id : option string) : Result (option string) :=
  if truthyStr id then let* cast := ObjectId (default "" id) in Ok (Some cast) else Ok None.

(** The query of [checkProductConflicts] (lines 589-626), over the ids it
    has cast. *)
Definition conflictQuery (now : Z) (productIds : list string) (excludeOfferId : option string)
    (targetBranch : option string) (o : Offer) : bool :=
  isActive o
  && existsb (fun it => existsb (String.eqb (product it)) productIds) (items o)
  && match startsAt o with None => true | Some s => (s <=? now)%Z end
  && match endsAt o with None => true | Some e => (now <=? e)%Z end
  && match targetBranch with
     | Some target => match branch o with
                      | None => true
                      | Some b => String.eqb b target
                      end
     | None => true
     end
  && match excludeOfferId with
     | Some exclude => negb (String.eqb (o_id o) exclude)
     | None => true
     end.

(** Lines 634-636: the titles of the items of a conflicting offer whose
    product is among the submitted ones,
    [productIds.includes(item.product._id.toString())]: the submitted
    strings as they are. *)
Fixpoint conflictingProducts (db : Db) (productIds : list string) (its : list OfferItem)
  : Result (list string) :=
  match its with
  | [] => Ok []
  | item :: rest =>
      match populate db item with
      | None => Throw (TypeError "Cannot read properties of null (reading '_id')")
      | Some p =>
          let* more := conflictingProducts db productIds rest in
          Ok (if existsb (String.eqb (p_id p)) productIds then p_title p :: more else more)
      end
  end.

Definition checkProductConflicts (db : Db) (now : Z) (productIds : list string)
    (excludeOfferId targetBranch : option string) : Result (option (list ConflictDetail)) :=
  let* ids := mapM ObjectId productIds in
  let* target := castWhenTruthy targetBranch in
  let* exclude := castWhenTruthy excludeOfferId in
  let* conflictingOffers :=
    find db offerCampaigns (conflictQuery now ids exclude target) in
  if (0 <? List.length conflictingOffers)%nat then
    let* conflictDetails :=
      mapM (fun offer =>
              let* conflicting := conflictingProducts db productIds (items offer) in
              Ok {| offerTitle := title offer; cd_products := conflicting |})
           conflictingOffers in
    Ok (Some conflictDetails)
  else Ok None.

Definition quote : string := String "034"%char EmptyString.

(** Lines 738-746 *)
Definition conflictMessage (conflicts : list ConflictDetail) : string :=
  String.concat "; "
    (map (fun conflict =>
            quote +:+ offerTitle conflict +:+ quote +:+ " already includes: "
            +:+ String.concat ", " (cd_products conflict))
         conflicts).

Definition productConflict (conflicts : list ConflictDetail) : Failure :=
  AppError ("Product conflict detected. " +:+ conflictMessage conflicts
            +:+ ". Please remove these products from existing offers first.")
           400 "PRODUCT_CONFLICT".

Definition withOffers (db : Db) (offs : list Offer) : Db :=
  {| offerCampaigns := offs; products := products db; branchDocs := branchDocs db;
     customers := customers db; orders := orders db; connected := connected db |}.

(** [{ product: new mongoose.Types.ObjectId(item.product), offerPrice:
    item.offerPrice, percent: item.percent }] *)
Definition castItem (item : OfferItem) : Result OfferItem :=
  let* id := ObjectId (product item) in
  Ok {| product := id; offerPrice := offerPrice item; percent := percent item |}.

(** [createOffer] (lines 721-813); [newId] is the id the driver gives the
    document.  The audit entry and the socket broadcast are left out. *)
Definition createOffer (db : Db) (now : Z) (user : User) (body : CreateOfferDto)
    (newId : string) : Result Offer * Db :=
  let validated : Result unit :=
    let* _ :=
      (if (0 <? List.length (c_items body))%nat then
         let productIds := map product (c_items body) in
         (* Product.find({ _id: { $in: productIds } }) casts the ids *)
         let* ids := mapM ObjectId productIds in
         let* prods := find db products (fun p => existsb (String.eqb (p_id p)) ids) in
         if negb (List.length prods =? List.length productIds)%nat
         then Throw (AppError "One or more products not found" 404 "PRODUCTS_NOT_FOUND")
         else
           let targetBranch :=
             match role user with
             | BranchRole => u_branchId user
             | Admin => if truthyStr (c_branch body) then c_branch body else None
             end in
           let* conflicts := checkProductConflicts db now productIds None targetBranch in
           match conflicts with
           | Some cs => Throw (productConflict cs)
           | None => Ok tt
           end
       else Ok tt) in
    if ApplyMode_eqb (c_applyMode body) BulkPercent && negb (truthy (c_bulkPercent body))
    then Throw (AppError "Bulk percent is required for bulkPercent mode" 400
                         "BULK_PERCENT_REQUIRED")
    else if ApplyMode_eqb (c_applyMode body) BulkAmount && negb (truthy (c_bulkAmount body))
    then Throw (AppError "Bulk amount is required for bulkAmount mode" 400
                         "BULK_AMOUNT_REQUIRED")
    else Ok tt in
  let saved : Result Offer :=
    let* _ := validated in
    let* its := mapM castItem (c_items body) in
    (* the document casts the branch it is given to an ObjectId *)
    let* ownBranch :=
      castWhenTruthy (match role user with
                      | BranchRole => u_branchId user
                      | Admin => c_branch body
                      end) in
    Ok {| o_id := newId;
          title := c_title body;
          startsAt := c_startsAt body;
          endsAt := c_endsAt body;
          isActive := true;
          applyMode := c_applyMode body;
          bulkPercent := if ApplyMode_eqb (c_applyMode body) BulkPercent
                         then c_bulkPercent body else None;
          bulkAmount := if ApplyMode_eqb (c_applyMode body) BulkAmount
                        then c_bulkAmount body else None;
          items := its;
          branches := []; cities := []; geo := None;
          categoryIds := []; productIds := [];
          priority := 0; stackable := false;
          branch := ownBranch |} in
  match saved with
  | Throw e => (Throw e, db)
  | Ok offer =>
      if connected db
      then (Ok offer, withOffers db (offerCampaigns db ++ [offer]))
      else (Throw MongoError, db)
  end.

(** Lines 834-859: the fields of the offer after the update; [newBranch]
    is the branch the administrator submitted, cast to an ObjectId (the
    outer [None]: no branch submitted, or not an administrator). *)
Definition setFields (offer : Offer) (updateData : UpdateOfferDto)
    (newBranch : option (option string)) : Offer :=
  let newMode := default (applyMode offer) (u_applyMode updateData) in
  {| o_id := o_id offer;
     title := default (title offer) (u_title updateData);
     startsAt := default (startsAt offer) (u_startsAt updateData);
     endsAt := default (endsAt offer) (u_endsAt updateData);
     isActive := default (isActive offer) (u_isActive updateData);
     applyMode := newMode;
     bulkPercent :=
       match u_applyMode updateData with
       | Some BulkPercent => if truthy (u_bulkPercent updateData)
                             then u_bulkPercent updateData else bulkPercent offer
       | Some _ => None
       | None => bulkPercent offer
       end;
     bulkAmount :=
       match u_applyMode updateData with
       | Some BulkAmount => if truthy (u_bulkAmount updateData)
                            then u_bulkAmount updateData else bulkAmount offer
       | Some _ => None
       | None => bulkAmount offer
       end;
     items := items offer;
     branches := branches offer; cities := cities offer; geo := geo offer;
     categoryIds := categoryIds offer; productIds := productIds offer;
     priority := priority offer; stackable := stackable offer;
     branch := default (branch offer) newBranch |}.

Definition withItems (offer : Offer) (its : list OfferItem) : Offer :=
  {| o_id := o_id offer; title := title offer; startsAt := startsAt offer;
     endsAt := endsAt offer; isActive := isActive offer; applyMode := applyMode offer;
     bulkPercent := bulkPercent offer; bulkAmount := bulkAmount offer; items := its;
     branches := branches offer; cities := cities offer; geo := geo offer;
     categoryIds := categoryIds offer; productIds := productIds offer;
     priority := priority offer; stackable := stackable offer; branch := branch offer |}.

(** [updateOffer] (lines 815-921), up to [offer.save()]. *)
Definition updateOffer (db : Db) (now : Z) (user : User) (id : string)
    (updateData : UpdateOfferDto) : Result Offer * Db :=
  let updated : Result Offer :=
    let* oid := ObjectId id in
    let* found := findOne db offerCampaigns (fun o => String.eqb (o_id o) oid) in
    match found with
    | None => Throw (AppError "Offer campaign not found" 404 "NOT_FOUND")
    | Some offer =>
        let denied :=
          match role user, branch offer with
          | BranchRole, Some b =>
              negb (match u_branchId user with Some ub => String.eqb b ub | None => false end)
          | _, _ => false
          end in
        if denied then Throw (AppError "Access denied" 403 "FORBIDDEN")
        else
          let* newBranch :=
            match role user, u_branch updateData with
            | Admin, Some b => let* cast := castWhenTruthy b in Ok (Some cast)
            | _, _ => Ok None
            end in
          let offer := setFields offer updateData newBranch in
          match u_items updateData with
          | Some newItems =>
              let productIds := map product newItems in
              let targetBranch :=
                match role user, u_branch updateData with
                | Admin, Some b => b
                | BranchRole, _ => u_branchId user
                | Admin, None => branch offer
                end in
              let* conflicts :=
                checkProductConflicts db now productIds (Some id) targetBranch in
              match conflicts with
              | Some cs => Throw (productConflict cs)
              | None => let* its := mapM castItem newItems in Ok (withItems offer its)
              end
          | None => Ok offer
          end
    end in
  match updated with
  | Throw e => (Throw e, db)
  | Ok offer =>
      (Ok offer,
       withOffers db (map (fun o => if String.eqb (o_id o) (o_id offer) then offer else o)
                          (offerCampaigns db)))
  end.

End OfferController.

(** * Branch assignment (branch-assignment.service.ts) *)

Module BranchAssignmentService.

(** LocationData, the part the assignment reads. *)
Record LocationData : Type := {
  latitude : Q;
  longitude : Q
}.

(** BranchAssignmentResult *)
Record BranchAssignmentResult : Type := {
  bar_branch : Branch;
  distance : Q;
  customerLocation : LocationData
}.

Section Assignment.

(** [GeolocationService.calculateDistance lat1 lon1 lat2 lon2]: the
    haversine distance in kilometers (trigonometry on doubles), and
    [GeolocationService.getLocationFromIP] (an external lookup) are kept
    abstract.  Coordinates and distances are numbers: a [NaN] coordinate
    is outside the embedding. *)
Variable calculateDistance : Q -> Q -> Q -> Q -> Q.
Variable getLocationFromIP : string -> option LocationData.

(** The distance from the customer to a branch, in kilometers. *)
Definition distanceTo (longitude latitude : Q) (b : Branch) : Q :=
  calculateDistance latitude longitude (snd (b_location b)) (fst (b_location b)).

(** Lines 287-299 of [findNearestBranchManual]: one turn of the scan;
    [minDistance = None] is [Infinity]. *)
Definition nearestStep (longitude latitude : Q) (st : option Branch * option Q) (b : Branch)
  : option Branch * option Q :=
  let distance := distanceTo longitude latitude b in
  match snd st with
  | Some minDistance => if Qltb distance minDistance then (Some b, Some distance) else st
  | None => (Some b, Some distance)
  end.

(** The store's [$near] operator with [$maxDistance] is not code of the
    repository.  [findNearestBranchNear] is [findNearestBranchByCoordinates]
    over the answer [near] of the store to the query
    [{isActive: true, location: {$near: {$geometry: ..., $maxDistance: ...}}}]
    (default [maxDistanceKm]: 100); a query that fails is caught and gives
    [null]. *)
Definition findNearestBranchNear (near : Db -> Q -> Q -> Q -> Result (option Branch))
    (db : Db) (longitude latitude maxDistanceKm : Q) : option Branch :=
  match near db longitude latitude (maxDistanceKm ⊗ 1000) with
  | Ok nearestBranch => nearestBranch
  | Throw _ => None
  end.

(** Modelled from the spec: section 4.2 describes the operator as "a
    spatial nearest-query restricted to active branches and a maximum
    distance", measured by the same distance function as the fallback.
    This answer is the nearest active branch within the distance, the first
    such document of the store when several are equally near. *)
Definition nearQuery (db : Db) (longitude latitude maxDistanceMeters : Q) : Result (option Branch) :=
  let* docs :=
    find db branchDocs
         (fun b => b_isActive b
                   && Qle_bool (distanceTo longitude latitude b * 1000) maxDistanceMeters) in
  Ok (fst (fold_left (nearestStep longitude latitude) docs (None, None))).

Definition findNearestBranchByCoordinates (db : Db) (longitude latitude maxDistanceKm : Q)
  : option Branch :=
  findNearestBranchNear nearQuery db longitude latitude maxDistanceKm.

(** [findNearestBranchManual] *)
Definition findNearestBranchManual (db : Db) (longitude latitude : Q) : option Branch :=
  match
    (let* allBranches := find db branchDocs b_isActive in
     if (List.length allBranches =? 0)%nat then Ok None
     else Ok (fst (fold_left (nearestStep longitude latitude) allBranches (None, None))))
  with
  | Ok nearestBranch => nearestBranch
  | Throw _ => None
  end.

(** [findNearestBranchByIP] *)
Definition findNearestBranchByIP (db : Db) (ipAddress : string) : option BranchAssignmentResult :=
  match getLocationFromIP ipAddress with
  | None => None
  | Some customerLocation =>
      let nearestBranch :=
        match findNearestBranchByCoordinates db (longitude customerLocation)
                (latitude customerLocation) 100 with
        | Some b => Some b
        | None => findNearestBranchManual db (longitude customerLocation)
                    (latitude customerLocation)
        end in
      match nearestBranch with
      | None => None
      | Some b =>
          Some {| bar_branch := b;
                  distance := distanceTo (longitude customerLocation)
                                (latitude customerLocation) b;
                  customerLocation := customerLocation |}
      end
  end.

End Assignment.

End BranchAssignmentService.

(** * Saved addresses (address.service.ts) *)

Module AddressService.

Definition withCustomers (db : Db) (cs : list Customer) : Db :=
  {| offerCampaigns := offerCampaigns db; products := products db;
     branchDocs := branchDocs db; customers := cs; orders := orders db;
     connected := connected db |}.

Definition orEmpty (o : option string) : string := default "" o.

(** The duplicate test of [saveAddress]. *)
Definition isDuplicate (addressData : ShippingAddress) (addr : SavedAddress) : bool :=
  let a := sa_fields addr in
  String.eqb (firstName a) (firstName addressData)
  && String.eqb (lastName a) (lastName addressData)
  && String.eqb (phone a) (phone addressData)
  && String.eqb (address a) (address addressData)
  && String.eqb (district a) (district addressData)
  && String.eqb (buildingNumber a) (buildingNumber addressData)
  && Bool.eqb (vatRegistered a) (vatRegistered addressData)
  && String.eqb (orEmpty (postalCode a)) (orEmpty (postalCode addressData))
  && String.eqb (orEmpty (companyName a)) (orEmpty (companyName addressData)).

(** [saveAddress]; the customer is read and written outside any session. *)
Definition saveAddress (db : Db) (customerId : string) (addressData : ShippingAddress)
    (label : option string) (newId : string) : Result SavedAddress * Db :=
  match findOne db customers (fun c => String.eqb (c_id c) customerId) with
  | Throw e => (Throw (JsError "Failed to save address"), db)
  | Ok None => (Throw (JsError "Failed to save address: Error: Customer not found"), db)
  | Ok (Some customer) =>
      if existsb (isDuplicate addressData) (savedAddresses customer)
      then (Throw (JsError "Failed to save address: Error: This address already exists"), db)
      else
        let newAddress := {| sa_id := newId; sa_fields := addressData;
                             isDefault := false; addressLabel := label |} in
        (Ok newAddress,
         withCustomers db
           (map (fun c => if String.eqb (c_id c) customerId
                          then {| c_id := c_id c;
                                  savedAddresses := savedAddresses c ++ [newAddress] |}
                          else c)
                (customers db)))
  end.

End AddressService.

(** * Order creation (order.service.ts) *)

Module OrderService.

Import OfferService.

Record OrderLine : Type := {
  productId : string;
  quantity : Q
}.

(** CreateOrderData *)
Record CreateOrderData : Type := {
  customerId : string;
  od_items : list OrderLine;
  shippingAddress : ShippingAddress;
  od_paymentMethod : string;
  subtotal : Q;
  shipping : Q;
  total : Q;
  notes : option string;
  saveInfo : bool;
  customerIpAddress : option string;
  clientLocation : option BranchAssignmentService.LocationData
}.

(** The store as a transaction sees it: the documents, and the writes made
    under the session, which reach the documents at [commitTransaction] and
    are dropped by [abortTransaction]. *)
Record Tx : Type := {
  store : Db;
  pending : list Order
}.

(** Code that reads and writes the store and may throw. *)
Definition M (A : Type) : Type := Tx -> Result A * Tx.

Definition ret {A} (a : A) : M A := fun tx => (Ok a, tx).

Definition throw {A} (e : Failure) : M A := fun tx => (Throw e, tx).

Definition bindM {A B} (c : M A) (k : A -> M B) : M B :=
  fun tx =>
    match c tx with
    | (Ok a, tx') => k a tx'
    | (Throw e, tx') => (Throw e, tx')
    end.

Notation "'do' x '<-' c ';' k" := (bindM c (fun x => k))
  (at level 10, x pattern, c at level 100, k at level 200).

(** A read of the store. *)
Definition query {A} (q : Db -> Result A) : M A := fun tx => (q (store tx), tx).

(** The validators that [order.save] runs before it writes (order.model.ts
    56-112).  A required string must not be empty; [ShippingAddressSchema]
    trims its strings first, so a blank one fails too. *)
Definition isBlank (s : string) : bool :=
  forallb (fun c => let n := nat_of_ascii c in
                    (((9 <=? n) && (n <=? 13)) || (n =? 32))%nat)
          (list_ascii_of_string s).

Definition validateOrderItem (item : OrderItem) : Result unit :=
  if String.eqb (oi_title item) "" then Throw (ValidationError "items.title")
  else if Qltb (oi_quantity item) 1 then Throw (ValidationError "items.quantity")
  else if String.eqb (oi_image item) "" then Throw (ValidationError "items.image")
  else Ok tt.

Fixpoint requirePaths (paths : list (string * string)) : Result unit :=
  match paths with
  | [] => Ok tt
  | (path, value) :: rest =>
      if isBlank value then Throw (ValidationError path) else requirePaths rest
  end.

Definition validateOrder (order : Order) : Result unit :=
  let* _ := forOf (fun _ item => validateOrderItem item) (ord_items order) tt in
  let a := ord_shippingAddress order in
  let* _ := requirePaths
              [("shippingAddress.firstName", firstName a);
               ("shippingAddress.lastName", lastName a);
               ("shippingAddress.phone", phone a);
               ("shippingAddress.address", address a);
               ("shippingAddress.district", district a);
               ("shippingAddress.buildingNumber", buildingNumber a)] in
  if negb (existsb (String.eqb (paymentMethod order)) ["mada"; "emkan"; "cod"])
  then Throw (ValidationError "paymentMethod")
  else if Qltb (ord_subtotal order) 0 then Throw (ValidationError "subtotal")
  else if Qltb (ord_shipping order) 0 then Throw (ValidationError "shipping")
  else if Qltb (ord_total order) 0 then Throw (ValidationError "total")
  else Ok tt.

(** [order.save({ session })]: the validators, then the write, which the
    unique index on [orderNumber] rejects when the number is taken. *)
Definition saveInSession (order : Order) : M unit :=
  fun tx =>
    match validateOrder order with
    | Throw e => (Throw e, tx)
    | Ok _ =>
        if existsb (fun o => String.eqb (orderNumber o) (orderNumber order))
                   (orders (store tx) ++ pending tx)
        then (Throw (DuplicateKey "orderNumber"), tx)
        else (Ok tt, {| store := store tx; pending := pending tx ++ [order] |})
    end.

(** A write outside the session; [try { ... } catch { }] around it. *)
Definition writeIgnoringFailure {A} (w : Db -> Result A * Db) : M unit :=
  fun tx => (Ok tt, {| store := snd (w (store tx)); pending := pending tx |}).

Definition withOrders (db : Db) (os : list Order) : Db :=
  {| offerCampaigns := offerCampaigns db; products := products db;
     branchDocs := branchDocs db; customers := customers db; orders := os;
     connected := connected db |}.

Definition commitTransaction : M unit :=
  fun tx => (Ok tt, {| store := withOrders (store tx) (orders (store tx) ++ pending tx);
                       pending := [] |}).

Definition abortTransaction (tx : Tx) : Db := store tx.

(** Lines 54-90: one line of the order, priced again on the server. *)
Definition priceLine (db : Db) (now : Z) (st : list OrderItem * Q) (item : OrderLine)
  : Result (list OrderItem * Q) :=
  let '(orderItems, calculatedSubtotal) := st in
  let* found := findOne db products (fun p => String.eqb (p_id p) (productId item)) in
  match found with
  | None => Throw (JsError ("Product not found: " +:+ productId item))
  | Some prod =>
      let* productWithOffer := applyOfferPricing db now prod None None in
      let regularPrice := price prod in
      (* const price = productWithOffer.offerPrice || productWithOffer.price *)
      let price := if truthy (pp_offerPrice productWithOffer)
                   then default 0 (pp_offerPrice productWithOffer)
                   else regularPrice in
      let subtotal := price ⊗ quantity item in
      Ok (orderItems ++
            [{| oi_product := p_id prod; oi_title := p_title prod; oi_price := regularPrice;
                oi_offerPrice := pp_offerPrice productWithOffer;
                oi_quantity := quantity item; oi_subtotal := subtotal;
                oi_image := match images prod with i :: _ => i | [] => "" end |}],
          calculatedSubtotal ⊕ subtotal)
  end.

(** Lines 99-105 *)
Definition validateTotals (calculatedSubtotal : Q) (orderData : CreateOrderData) : Result unit :=
  if Qltb (dec (1 # 100)) (Qabs (calculatedSubtotal ⊖ subtotal orderData))
  then Throw (JsError "Subtotal mismatch")
  else if Qltb (dec (1 # 100))
               (Qabs ((calculatedSubtotal ⊕ shipping orderData) ⊖ total orderData))
       then Throw (JsError "Total amount mismatch")
       else Ok tt.

Fixpoint requireFields (suffix : string) (fields : list (string * string)) : Result unit :=
  match fields with
  | [] => Ok tt
  | (field, value) :: rest =>
      if String.eqb value "" then Throw (JsError (field +:+ suffix))
      else requireFields suffix rest
  end.

(** Lines 107-130 *)
Definition validateAddress (a : ShippingAddress) : Result unit :=
  if vatRegistered a then
    requireFields " is required for VAT registered companies"
      [("companyName", default "" (companyName a)); ("phone", phone a);
       ("crNumber", default "" (crNumber a)); ("vatNumber", default "" (vatNumber a));
       ("address", address a); ("buildingNumber", buildingNumber a);
       ("district", district a); ("postalCode", default "" (postalCode a))]
  else
    let* _ := requireFields " is required for individual customers"
                [("firstName", firstName a); ("lastName", lastName a); ("phone", phone a);
                 ("address", address a); ("buildingNumber", buildingNumber a);
                 ("district", district a)] in
    if truthyStr (email a) then Ok tt
    else Throw (JsError "email is required for individual customers").

(** [String(n).padStart(6, '0')] *)
Fixpoint padZeros (n : nat) (s : string) : string :=
  match n with
  | O => s
  | S n' => if (String.length s <? 6)%nat then padZeros n' ("0" +:+ s) else s
  end.

Definition orderNumberFor (orderCount : nat) : string :=
  "MTC" +:+ padZeros 6 (pretty (S orderCount)).

Section CreateOrder.

Variable calculateDistance : Q -> Q -> Q -> Q -> Q.
Variable getLocationFromIP : string -> option BranchAssignmentService.LocationData.

(** Lines 132-190: the branch of the order and the customer location kept
    with it. *)
Definition assignBranch (db : Db) (orderData : CreateOrderData)
  : option string * option (Q * Q) :=
  match clientLocation orderData with
  | Some loc =>
      let lng := BranchAssignmentService.longitude loc in
      let lat := BranchAssignmentService.latitude loc in
      let branchAssignment :=
        match BranchAssignmentService.findNearestBranchByCoordinates
                calculateDistance db lng lat 10000 with
        | Some b => Some b
        | None => BranchAssignmentService.findNearestBranchManual calculateDistance db lng lat
        end in
      (option_map b_id branchAssignment, Some (lng, lat))
  | None =>
      if truthyStr (customerIpAddress orderData) then
        match BranchAssignmentService.findNearestBranchByIP calculateDistance getLocationFromIP
                db (default "" (customerIpAddress orderData)) with
        | Some r =>
            let loc := BranchAssignmentService.customerLocation r in
            (Some (b_id (BranchAssignmentService.bar_branch r)),
             Some (BranchAssignmentService.longitude loc, BranchAssignmentService.latitude loc))
        | None => (None, None)
        end
      else (None, None)
  end.

(** The [try] block of [createOrder] (lines 43-259); [newOrderId] and
    [newAddressId] are the ids the driver gives the new documents. *)
Definition createOrder_try (now : Z) (orderData : CreateOrderData)
    (newOrderId newAddressId : string) : M Order :=
  do customer <- query (fun db =>
       findOne db customers (fun c => String.eqb (c_id c) (customerId orderData)));
  match customer with
  | None => throw (JsError "Customer not found")
  | Some _ =>
      do priced <- query (fun db => forOf (priceLine db now) (od_items orderData) ([], 0));
      let '(orderItems, calculatedSubtotal) := priced in
      do _ <- query (fun _ => validateTotals calculatedSubtotal orderData);
      do _ <- query (fun _ => validateAddress (shippingAddress orderData));
      do assigned <- query (fun db => Ok (assignBranch db orderData));
      let '(assignedBranch, customerLocation) := assigned in
      do orderCount <- query (fun db =>
           if connected db then Ok (List.length (orders db)) else Throw MongoError);
      let order :=
        {| ord_id := newOrderId;
           orderNumber := orderNumberFor orderCount;
           ord_customer := customerId orderData;
           ord_branch := assignedBranch;
           ord_items := orderItems;
           ord_shippingAddress := shippingAddress orderData;
           paymentMethod := od_paymentMethod orderData;
           ord_subtotal := subtotal orderData;
           ord_shipping := shipping orderData;
           ord_total := total orderData;
           ord_notes := notes orderData;
           ord_customerIpAddress := customerIpAddress orderData;
           ord_customerLocation := customerLocation |} in
      do _ <- saveInSession order;
      do _ <- (if saveInfo orderData
               then writeIgnoringFailure (fun db =>
                      AddressService.saveAddress db (customerId orderData)
                        (shippingAddress orderData)
                        (Some (if vatRegistered (shippingAddress orderData)
                               then "Company Address" else "Home Address"))
                        newAddressId)
               else ret tt);
      do _ <- commitTransaction;
      do populatedOrder <- query (fun db =>
           findOne db orders (fun o => String.eqb (ord_id o) newOrderId));
      match populatedOrder with
      | None => throw (JsError "Failed to retrieve created order")
      | Some o => ret o
      end
  end.

(** [createOrder]: the transaction is started, the [try] block is run, and
    a failure aborts the transaction before it is thrown on. *)
Definition createOrder (db : Db) (now : Z) (orderData : CreateOrderData)
    (newOrderId newAddressId : string) : Result Order * Db :=
  match createOrder_try now orderData newOrderId newAddressId {| store := db; pending := [] |} with
  | (Ok order, tx) => (Ok order, store tx)
  | (Throw e, tx) => (Throw e, abortTransaction tx)
  end.

End CreateOrder.

End OrderService.

(** * Prices on the product endpoints (offer.service.ts, product.controller.ts) *)

Module ProductPricing.

Import OfferService.

(** [applyOfferPricingToProducts] (offer.service.ts, lines 240-265):
    [products.map((product, index) => ... productsWithOffers[index] ...)]. *)
Definition applyOfferPricingToProducts (db : Db) (now : Z) (prods : list Product)
    (branchId : option string) (userLocation : option (Q * Q))
  : Result (list PricedProduct) :=
  let* productsWithOffers := calculateEffectivePrices db now prods branchId userLocation in
  mapM (fun '(index, product) =>
          match productsWithOffers !! index with
          | Some offerData => Ok (withPricing product offerData)
          | None =>
              Throw (TypeError "Cannot read properties of undefined (reading 'originalPrice')")
          end)
       (imap pair prods).

(** [Model.findById(id)] casts the id it is given: a string that is not
    the 24 hexadecimal digits of an ObjectId makes the query reject (a
    CastError, whose reason is the error of [new ObjectId]). *)
Definition findById {A} (db : Db) (coll : Db -> list A) (idOf : A -> string) (id : string)
  : Result (option A) :=
  if isValidObjectId id
  then findOne db coll (fun d => String.eqb (idOf d) (toHexString id))
  else Throw (BSONError id).

(** [req.query] of the product endpoints, as far as the pricing reads it. *)
Record PricingQuery : Type := {
  pq_branchId : option string;
  pq_lat : option Q;
  pq_lng : option Q
}.

(** [lat && lng ? { lat: Number(lat), lng: Number(lng) } : undefined] *)
Definition userLocationOf (q : PricingQuery) : option (Q * Q) :=
  match pq_lat q, pq_lng q with
  | Some lat, Some lng => Some (lat, lng)
  | _, _ => None
  end.

Section Listing.

(** The ids of the Category documents of the store. *)
Variable categoryDocs : list string.

(** A product as [.populate('category', 'name').lean()] hands it to the
    pricing: [category] is the plain object [{_id, name}] of the category
    document, or [null] when that document is gone.  The calculator reads
    it as [product.category?.toString() || product.category], which for the
    plain object is the string [[object Object]]. *)
Definition leanPopulated (prod : Product) : Product :=
  {| p_id := p_id prod;
     p_title := p_title prod;
     category := match category prod with
                 | Some c => if existsb (String.eqb c) categoryDocs
                             then Some "[object Object]" else None
                 | None => None
                 end;
     price := price prod;
     p_offerPrice := p_offerPrice prod;
     images := images prod;
     p_isActive := p_isActive prod |}.

(** [getProduct] (product.controller.ts, lines 81-111) *)
Definition getProduct (db : Db) (now : Z) (id : string) (q : PricingQuery)
  : Result PricedProduct :=
  let* found := findById db products p_id id in
  match found with
  | None => Throw (AppError "Product not found" 404 "NOT_FOUND")
  | Some product =>
      applyOfferPricing db now (leanPopulated product) (pq_branchId q) (userLocationOf q)
  end.

End Listing.

End ProductPricing.

(** * The other offer endpoints (offer.controller.ts) and the methods of the
      campaign schema (offer.model.ts) *)

Module OfferEndpoints.

Import OfferService OfferController ProductPricing.

(** The virtual [isCurrentlyValid] (offer.model.ts, lines 184-189).  A Date
    is truthy, so [!this.startsAt] holds of [null] only. *)
Definition isCurrentlyValid (now : Z) (o : Offer) : bool :=
  let startValid := match startsAt o with None => true | Some s => (s <=? now)%Z end in
  let endValid := match endsAt o with None => true | Some e => (now <=? e)%Z end in
  isActive o && startValid && endValid.

(** The method [appliesToBranch] (offer.model.ts, lines 192-197);
    [ObjectId.equals(null)] is false. *)
Definition appliesToBranch (o : Offer) (branchId : option string) : bool :=
  match branch o with
  | None => true
  | Some b => match branchId with
              | Some id => String.eqb b id
              | None => false
              end
  end.

(** [offer.branch.equals(req.user.branchId)] *)
Definition equalsBranchOf (user : User) (b : string) : bool :=
  match u_branchId user with
  | Some ub => String.eqb b ub
  | None => false
  end.

(** The permission test of [updateOffer], [extendOffer] and
    [toggleOfferStatus]:
    [role === 'branch' && offer.branch && !offer.branch.equals(branchId)]. *)
Definition accessDenied (user : User) (offer : Offer) : bool :=
  match role user, branch offer with
  | BranchRole, Some b => negb (equalsBranchOf user b)
  | _, _ => false
  end.

(** [offer.save()] of a campaign read from the store. *)
Definition saveOffer (db : Db) (offer : Offer) : Db :=
  withOffers db (map (fun o => if String.eqb (o_id o) (o_id offer) then offer else o)
                     (offerCampaigns db)).

Definition withEndsAt (offer : Offer) (e : option Z) : Offer :=
  {| o_id := o_id offer; title := title offer; startsAt := startsAt offer;
     endsAt := e; isActive := isActive offer; applyMode := applyMode offer;
     bulkPercent := bulkPercent offer; bulkAmount := bulkAmount offer; items := items offer;
     branches := branches offer; cities := cities offer; geo := geo offer;
     categoryIds := categoryIds offer; productIds := productIds offer;
     priority := priority offer; stackable := stackable offer; branch := branch offer |}.

Definition withIsActive (offer : Offer) (a : bool) : Offer :=
  {| o_id := o_id offer; title := title offer; startsAt := startsAt offer;
     endsAt := endsAt offer; isActive := a; applyMode := applyMode offer;
     bulkPercent := bulkPercent offer; bulkAmount := bulkAmount offer; items := items offer;
     branches := branches offer; cities := cities offer; geo := geo offer;
     categoryIds := categoryIds offer; productIds := productIds offer;
     priority := priority offer; stackable := stackable offer; branch := branch offer |}.

(** [getPublicOffer] (lines 546-583) *)
Definition getPublicOffer (db : Db) (now : Z) (id : string) : Result Offer :=
  if isValidObjectId id then
    let* offer :=
      findOne db offerCampaigns
              (fun o => String.eqb (o_id o) (toHexString id) && activeAt now o) in
    match offer with
    | None => Throw (AppError "Offer not found or not active" 404 "NOT_FOUND")
    | Some o => Ok o
    end
  else Throw (BSONError id).

(** [extendOffer] (lines 923-976), up to [offer.save()]; the audit entry
    and the socket broadcast are left out, as for [createOffer]. *)
Definition extendOffer (db : Db) (now : Z) (user : User) (id : string) (newEndDate : Z)
  : Result Offer * Db :=
  let extended : Result Offer :=
    let* found := findById db offerCampaigns o_id id in
    match found with
    | None => Throw (AppError "Offer campaign not found" 404 "NOT_FOUND")
    | Some offer =>
        if accessDenied user offer then Throw (AppError "Access denied" 403 "FORBIDDEN")
        else if (newEndDate <=? now)%Z
             then Throw (AppError "End date must be in the future" 400 "INVALID_END_DATE")
             else Ok (withEndsAt offer (Some newEndDate))
    end in
  match extended with
  | Ok offer => (Ok offer, saveOffer db offer)
  | Throw e => (Throw e, db)
  end.

(** [toggleOfferStatus] (lines 978-1024), up to [offer.save()]. *)
Definition toggleOfferStatus (db : Db) (user : User) (id : string) (active : bool)
  : Result Offer * Db :=
  let toggled : Result Offer :=
    let* found := findById db offerCampaigns o_id id in
    match found with
    | None => Throw (AppError "Offer campaign not found" 404 "NOT_FOUND")
    | Some offer =>
        if accessDenied user offer then Throw (AppError "Access denied" 403 "FORBIDDEN")
        else Ok (withIsActive offer active)
    end in
  match toggled with
  | Ok offer => (Ok offer, saveOffer db offer)
  | Throw e => (Throw e, db)
  end.

(** [getOffer] (lines 692-719).  [populate('branch', 'name')] puts the
    branch document in [offer.branch], or [null] when it is gone. *)
Definition getOffer (db : Db) (user : User) (id : string) : Result Offer :=
  let* found := findById db offerCampaigns o_id id in
  match found with
  | None => Throw (AppError "Offer campaign not found" 404 "NOT_FOUND")
  | Some offer =>
      let populatedBranch :=
        match branch offer with
        | Some b => List.find (fun d => String.eqb (b_id d) b) (branchDocs db)
        | None => None
        end in
      match role user, populatedBranch with
      | BranchRole, Some d =>
          if negb (equalsBranchOf user (b_id d))
          then Throw (AppError "Access denied" 403 "FORBIDDEN")
          else Ok offer
      | _, _ => Ok offer
      end
  end.

Section Listings.

(** The timestamp [createdAt] and the reference [createdBy] that every
    campaign document carries are not fields of [Offer]; the listings sort
    by the first and [deleteOffer] reads the second. *)
Variable createdAt : Offer -> Z.
Variable createdBy : Offer -> string.

(** [.sort({ createdAt: -1 })] *)
Definition newestFirst (l : list Offer) : list Offer :=
  sort (fun a b => (createdAt b - createdAt a)%Z) l.

(** [getPublicActiveOffers] (lines 12-57) *)
Definition getPublicActiveOffers (db : Db) (now : Z) : Result (list Offer) :=
  let* offers := find db offerCampaigns (activeAt now) in
  Ok (List.filter (hasActiveProducts db) (newestFirst offers)).

(** The plane distance of lines 460-463,
    [Math.sqrt(Math.pow(Number(lat) - branchLat, 2) +
               Math.pow(Number(lng) - branchLng, 2))],
    of the query strings [lat] and [lng] and the coordinates of a branch
    is kept abstract (a conversion, powers and a square root of doubles);
    it is [None] when it is not a finite number: [NaN] for a string that
    is not numeric, and [Infinity]. *)
Variable planeDistance : string -> string -> Q -> Q -> option Q.

(** Lines 456-469, the callback of [branches.forEach]; a distance that is
    not a finite number is not below [minDistance], which starts at
    [Infinity] ([None]). *)
Definition nearestInPlaneStep (lat lng : string) (st : option Branch * option Q) (b : Branch)
  : option Branch * option Q :=
  let '(branchLng, branchLat) := b_location b in
  match planeDistance lat lng branchLat branchLng with
  | Some distance =>
      match snd st with
      | Some minDistance => if Qltb distance minDistance then (Some b, Some distance) else st
      | None => (Some b, Some distance)
      end
  | None => st
  end.

(** [getLocationBasedOffers] (lines 445-544): the offers and the
    [nearestBranch] of the answer; [lat] and [lng] are the strings of the
    query. *)
Definition getLocationBasedOffers (db : Db) (now : Z) (lat lng : option string)
  : Result (list Offer * option Branch) :=
  let* branchId :=
    if truthyStr lat && truthyStr lng then
      let* branches := find db branchDocs b_isActive in
      Ok (option_map b_id
            (fst (fold_left (nearestInPlaneStep (default "" lat) (default "" lng))
                            branches (None, None))))
    else Ok None in
  let query (o : Offer) : bool :=
    activeAt now o
    && match branchId with
       | Some id =>
           (* $or: [{ branch: null }, { branch: branchId }] *)
           match branch o with None => true | Some b => String.eqb b id end
       | None =>
           (* query.branch = null *)
           match branch o with None => true | Some _ => false end
       end in
  let* offers := find db offerCampaigns query in
  let activeOffers := List.filter (hasActiveProducts db) (newestFirst offers) in
  let* nearestBranch :=
    match branchId with
    | Some id => findOne db branchDocs (fun b => String.eqb (b_id b) id)
    | None => Ok None
    end in
  Ok (activeOffers, nearestBranch).

(** [getAllOffers] (lines 650-690); [scope] and [isActive] are the query
    parameters. *)
Definition getAllOffers (db : Db) (user : User) (scope isActiveParam : option string)
  : Result (list Offer) :=
  let byRole (o : Offer) : bool :=
    match role user with
    | Admin =>
        if String.eqb (default "" scope) "global"
        then match branch o with None => true | Some _ => false end
        else if String.eqb (default "" scope) "branch"
             then match branch o with None => false | Some _ => true end
             else true
    | BranchRole =>
        match branch o with
        | None => true
        | Some b => equalsBranchOf user b
        end
    end in
  let byStatus (o : Offer) : bool :=
    match isActiveParam with
    | Some v => Bool.eqb (isActive o) (String.eqb v "true")
    | None => true
    end in
  let* offers := find db offerCampaigns (fun o => byRole o && byStatus o) in
  Ok (newestFirst offers).

(** [deleteOffer] (lines 1026-1072), up to [offer.deleteOne()]. *)
Definition deleteOffer (db : Db) (user : User) (id : string) : Result unit * Db :=
  let checked : Result Offer :=
    let* found := findById db offerCampaigns o_id id in
    match found with
    | None => Throw (AppError "Offer campaign not found" 404 "NOT_FOUND")
    | Some offer =>
        let refused :=
          match role user with
          | BranchRole =>
              negb (String.eqb (createdBy offer) (u_id user))
              || match branch offer with
                 | Some b => negb (equalsBranchOf user b)
                 | None => false
                 end
          | Admin => false
          end in
        if refused then Throw (AppError "Access denied" 403 "FORBIDDEN") else Ok offer
    end in
  match checked with
  | Ok offer =>
      (Ok tt,
       withOffers db (List.filter (fun o => negb (String.eqb (o_id o) (o_id offer)))
                                  (offerCampaigns db)))
  | Throw e => (Throw e, db)
  end.

End Listings.

End OfferEndpoints.

(** * Locating an address (geolocation.service.ts) *)

Module GeolocationService.

(** LocationData *)
Record LocationData : Type := {
  latitude : Q;
  longitude : Q;
  city : option string;
  country : option string;
  region : option string
}.

(** The environment variables the lookup reads. *)
Record Env : Type := {
  DEV_LOCATION_LAT : option string;
  DEV_LOCATION_LON : option string;
  DEV_LOCATION_CITY : option string
}.

(** [response.data] of ip-api.com, the fields asked for. *)
Record IpApiData : Type := {
  status : string;
  message : option string;
  ia_country : option string;
  regionName : option string;
  ia_city : option string;
  lat : Q;
  lon : Q
}.

(** [[lo-hi]] of a regular expression. *)
Definition charIn (lo hi c : ascii) : bool :=
  ((nat_of_ascii lo <=? nat_of_ascii c) && (nat_of_ascii c <=? nat_of_ascii hi))%nat.

(** [/^172\.(1[6-9]|2[0-9]|3[0-1])\./] *)
Definition range172 (ip : string) : bool :=
  match ip with
  | String "1"%char (String "7"%char (String "2"%char (String "."%char
      (String a (String b rest))))) =>
      ((Ascii.eqb a "1" && charIn "6" "9" b)
       || (Ascii.eqb a "2" && charIn "0" "9" b)
       || (Ascii.eqb a "3" && charIn "0" "1" b))
      && String.prefix "." rest
  | _ => false
  end.

(** [privateRanges], each expression as the test it makes. *)
Definition privateRanges : list (string -> bool) :=
  [ String.prefix "127.";        (* /^127\./  *)
    String.prefix "10.";         (* /^10\./   *)
    range172;
    String.prefix "192.168.";    (* /^192\.168\./ *)
    String.eqb "::1";            (* /^::1$/   *)
    String.prefix "fc00:";       (* /^fc00:/  *)
    String.prefix "fe80:" ].     (* /^fe80:/  *)

(** [isPrivateIP] (lines 130-142) *)
Definition isPrivateIP (ip : string) : bool :=
  existsb (fun range => range ip) privateRanges || String.eqb ip "localhost".

Section Lookup.

(** [parseFloat], the environment and the request to ip-api.com (which
    throws on a network failure or after the timeout) are given. *)
Variable parseFloat : string -> Q.
Variable env : Env.
Variable ipApi : string -> Result IpApiData.

(** The default location, Riyadh. *)
Definition defaultLocation : LocationData :=
  {| latitude := 247136 # 10000; longitude := 466753 # 10000;
     city := Some "Riyadh"; country := Some "Saudi Arabia";
     region := Some "Riyadh Region" |}.

(** [getLocationFromIP] (lines 17-80) *)
Definition getLocationFromIP (ipAddress : string) : option LocationData :=
  let attempt : Result (option LocationData) :=
    if isPrivateIP ipAddress then
      let overrideLat := DEV_LOCATION_LAT env in
      let overrideLon := DEV_LOCATION_LON env in
      let overrideCity := DEV_LOCATION_CITY env in
      if truthyStr overrideLat && truthyStr overrideLon then
        Ok (Some {| latitude := parseFloat (default "" overrideLat);
                    longitude := parseFloat (default "" overrideLon);
                    city := if truthyStr overrideCity then overrideCity
                            else Some "Development Location";
                    country := Some "Development";
                    region := Some "Development" |})
      else Ok (Some defaultLocation)
    else
      let* data := ipApi ipAddress in
      if String.eqb (status data) "success" then
        Ok (Some {| latitude := lat data; longitude := lon data;
                    city := ia_city data; country := ia_country data;
                    region := regionName data |})
      else Ok None in
  match attempt with
  | Ok location => location
  | Throw _ => None
  end.

(** The location as [BranchAssignmentService] reads it. *)
Definition coordinatesOf (l : LocationData) : BranchAssignmentService.LocationData :=
  {| BranchAssignmentService.latitude := latitude l;
     BranchAssignmentService.longitude := longitude l |}.

Definition locate (ipAddress : string) : option BranchAssignmentService.LocationData :=
  option_map coordinatesOf (getLocationFromIP ipAddress).

End Lookup.

End GeolocationService.

(** * The address book (address.service.ts) *)

Module AddressBook.

Import AddressService ProductPricing.

(** The body of the request, which the controller hands over as it is
    (address.controller.ts, [const addressData = req.body]): the strings of
    [ad_fields], and the [vatRegistered], [isDefault] and [addressLabel] it
    carries, [None] for a field it has not.  The [vatRegistered] of
    [ad_fields] is not read. *)
Record AddressData : Type := {
  ad_fields : ShippingAddress;
  ad_vatRegistered : option bool;
  ad_isDefault : option bool;
  ad_addressLabel : option string
}.

(** The fields as the schema stores them: [vatRegistered] is [false] by
    default (customer model, [savedAddresses]). *)
Definition castFields (addressData : AddressData) : ShippingAddress :=
  let f := ad_fields addressData in
  {| firstName := firstName f; lastName := lastName f; email := email f;
     phone := phone f; companyName := companyName f; address := address f;
     apartment := apartment f; district := district f;
     buildingNumber := buildingNumber f; secondaryNumber := secondaryNumber f;
     postalCode := postalCode f; crNumber := crNumber f; vatNumber := vatNumber f;
     vatRegistered := default false (ad_vatRegistered addressData) |}.

(** The duplicate test of lines 31-42 on the body:
    [addr.vatRegistered === addressData.vatRegistered] compares the stored
    boolean with the field of the body, and is false when the body has
    none. *)
Definition duplicateOf (addressData : AddressData) (addr : SavedAddress) : bool :=
  match ad_vatRegistered addressData with
  | None => false
  | Some _ => isDuplicate (castFields addressData) addr
  end.

Definition withDefault (a : SavedAddress) (d : bool) : SavedAddress :=
  {| sa_id := sa_id a; sa_fields := sa_fields a; isDefault := d;
     addressLabel := addressLabel a |}.

Definition withAddresses (c : Customer) (l : list SavedAddress) : Customer :=
  {| c_id := c_id c; savedAddresses := l |}.

(** The validators [customer.save()] runs on the [savedAddresses]: a
    required string must not be empty (customer.model.ts). *)
Definition requiredPresent (a : SavedAddress) : bool :=
  let f := sa_fields a in
  negb (String.eqb (firstName f) "") && negb (String.eqb (lastName f) "")
  && negb (String.eqb (phone f) "") && negb (String.eqb (address f) "")
  && negb (String.eqb (district f) "") && negb (String.eqb (buildingNumber f) "").

(** [customer.save()]: the document is validated and written under its id;
    a failed validation is an error of the store layer. *)
Definition save (db : Db) (customer : Customer) : Result unit * Db :=
  if forallb requiredPresent (savedAddresses customer)
  then (Ok tt,
        withCustomers db
          (map (fun c => if String.eqb (c_id c) (c_id customer) then customer else c)
               (customers db)))
  else (Throw MongoError, db).

Section Addresses.

(** [`${error}`] of an error raised by a library; of [new Error(m)] it is
    ["Error: " + m]. *)
Variable describe : Failure -> string.

Definition errorString (e : Failure) : string :=
  match e with
  | JsError m => "Error: " +:+ m
  | _ => describe e
  end.

(** [try { body } catch (error) { throw new Error(`${prefix}: ${error}`) }];
    a body that throws has written nothing. *)
Definition rethrow {A} (prefix : string) (db : Db) (body : Result A * Db) : Result A * Db :=
  match body with
  | (Ok a, db') => (Ok a, db')
  | (Throw e, _) => (Throw (JsError (prefix +:+ ": " +:+ errorString e)), db)
  end.

(** [getCustomerAddresses] (lines 8-18) *)
Definition getCustomerAddresses (db : Db) (customerId : string) : Result (list SavedAddress) :=
  fst (rethrow "Failed to get addresses" db
         (match findById db customers c_id customerId with
          | Throw e => (Throw e, db)
          | Ok None => (Throw (JsError "Customer not found"), db)
          | Ok (Some customer) => (Ok (savedAddresses customer), db)
          end)).

(** [saveAddress] (lines 23-75), with the [isDefault] flag and the
    validation of [customer.save()]; [newId] is the id of the new address. *)
Definition saveAddress (db : Db) (customerId : string) (addressData : AddressData)
    (newId : string) : Result (string * AddressData) * Db :=
  rethrow "Failed to save address" db
    (match findById db customers c_id customerId with
     | Throw e => (Throw e, db)
     | Ok None => (Throw (JsError "Customer not found"), db)
     | Ok (Some customer) =>
         if existsb (duplicateOf addressData) (savedAddresses customer)
         then (Throw (JsError "This address already exists"), db)
         else
           let others :=
             if default false (ad_isDefault addressData)
             then map (fun addr => withDefault addr false) (savedAddresses customer)
             else savedAddresses customer in
           let stored :=
             {| sa_id := newId;
                sa_fields := castFields addressData;
                isDefault := default false (ad_isDefault addressData);
                addressLabel := Some (default "Address" (ad_addressLabel addressData)) |} in
           match save db (withAddresses customer (others ++ [stored])) with
           | (Ok _, db') => (Ok (newId, addressData), db')
           | (Throw e, _) => (Throw e, db)
           end
     end).

(** [deleteAddress] (lines 115-127) *)
Definition deleteAddress (db : Db) (customerId addressId : string) : Result unit * Db :=
  rethrow "Failed to delete address" db
    (match findById db customers c_id customerId with
     | Throw e => (Throw e, db)
     | Ok None => (Throw (JsError "Customer or address not found"), db)
     | Ok (Some customer) =>
         save db (withAddresses customer
                    (List.filter (fun addr => negb (String.eqb (sa_id addr) addressId))
                                 (savedAddresses customer)))
     end).

(** [address = savedAddresses.find(addr => addr._id?.toString() === addressId)]
    followed by [address.isDefault = true]; [None] when there is no such
    address. *)
Fixpoint markDefault (addressId : string) (l : list SavedAddress) : option (list SavedAddress) :=
  match l with
  | [] => None
  | addr :: rest =>
      if String.eqb (sa_id addr) addressId then Some (withDefault addr true :: rest)
      else option_map (cons addr) (markDefault addressId rest)
  end.

(** [setDefaultAddress] (lines 132-155) *)
Definition setDefaultAddress (db : Db) (customerId addressId : string) : Result unit * Db :=
  rethrow "Failed to set default address" db
    (match findById db customers c_id customerId with
     | Throw e => (Throw e, db)
     | Ok None => (Throw (JsError "Customer or address not found"), db)
     | Ok (Some customer) =>
         let unset := map (fun addr => withDefault addr false) (savedAddresses customer) in
         match markDefault addressId unset with
         | None => (Throw (JsError "Address not found"), db)
         | Some marked => save db (withAddresses customer marked)
         end
     end).

(** The key of an address in [removeDuplicateAddresses] (line 172). *)
Definition addressKey (a : SavedAddress) : string :=
  let f := sa_fields a in
  firstName f +:+ "-" +:+ lastName f +:+ "-" +:+ phone f +:+ "-" +:+ address f
  +:+ "-" +:+ district f +:+ "-" +:+ buildingNumber f
  +:+ "-" +:+ (if vatRegistered f then "true" else "false")
  +:+ "-" +:+ orEmpty (postalCode f) +:+ "-" +:+ orEmpty (companyName f).

(** One turn of the loop of lines 170-178. *)
Definition uniqueStep (st : list SavedAddress * gset string) (addr : SavedAddress)
  : list SavedAddress * gset string :=
  let '(uniqueAddresses, seenAddresses) := st in
  if decide (addressKey addr ∈ seenAddresses) then st
  else (uniqueAddresses ++ [addr], {[ addressKey addr ]} ∪ seenAddresses).

(** [removeDuplicateAddresses] (lines 160-187): an error is thrown on as it
    is; a missing customer is no error. *)
Definition removeDuplicateAddresses (db : Db) (customerId : string) : Result unit * Db :=
  match findById db customers c_id customerId with
  | Throw e => (Throw e, db)
  | Ok None => (Ok tt, db)
  | Ok (Some customer) =>
      let uniqueAddresses := fst (fold_left uniqueStep (savedAddresses customer) ([], ∅)) in
      save db (withAddresses customer uniqueAddresses)
  end.

End Addresses.

End AddressBook.

(** * The life of an order (order.service.ts, order.model.ts) *)

Module OrderLifecycle.

(** [IOrder['status']] and [IOrder['paymentStatus']] *)
Inductive OrderStatus : Type :=
| pending | confirmed | processing | shipped | on_the_way | delivered | cancelled.

Inductive PaymentStatus : Type :=
| payment_pending | paid | failed | refunded.

Definition OrderStatus_eqb (a b : OrderStatus) : bool :=
  match a, b with
  | pending, pending | confirmed, confirmed | processing, processing
  | shipped, shipped | on_the_way, on_the_way | delivered, delivered
  | cancelled, cancelled => true
  | _, _ => false
  end.

Definition statusName (s : OrderStatus) : string :=
  match s with
  | pending => "pending" | confirmed => "confirmed" | processing => "processing"
  | shipped => "shipped" | on_the_way => "on_the_way" | delivered => "delivered"
  | cancelled => "cancelled"
  end.

(** The [enum] of the [status] path of OrderSchema (order.model.ts, line
    111): it has neither ['confirmed'] nor ['on_the_way']. *)
Definition inSchemaEnum (s : OrderStatus) : bool :=
  match s with
  | pending | processing | shipped | delivered | cancelled => true
  | confirmed | on_the_way => false
  end.

(** An order document: the fields of [Order] and the fields of IOrder the
    status operations read and write. *)
Record OrderDoc : Type := {
  fields : Order;
  status : OrderStatus;
  paymentStatus : PaymentStatus;
  trackingNumber : option string;
  estimatedDelivery : option Z;
  deliveredAt : option Z;
  createdAt : Z
}.

(** The orders collection; [reachable = false] makes every operation
    reject. *)
Record OrderStore : Type := {
  orderDocs : list OrderDoc;
  reachable : bool
}.

(** UpdateOrderStatusData *)
Record UpdateOrderStatusData : Type := {
  u_status : option OrderStatus;
  u_paymentStatus : option PaymentStatus;
  u_trackingNumber : option string;
  u_estimatedDelivery : option Z;
  u_notes : option string
}.

Definition withNotes (o : Order) (n : option string) : Order :=
  {| ord_id := ord_id o; orderNumber := orderNumber o; ord_customer := ord_customer o;
     ord_branch := ord_branch o; ord_items := ord_items o;
     ord_shippingAddress := ord_shippingAddress o; paymentMethod := paymentMethod o;
     ord_subtotal := ord_subtotal o; ord_shipping := ord_shipping o;
     ord_total := ord_total o; ord_notes := n;
     ord_customerIpAddress := ord_customerIpAddress o;
     ord_customerLocation := ord_customerLocation o |}.

Definition docId (d : OrderDoc) : string := ord_id (fields d).

(** [Order.findById(orderId)] *)
Definition findOrder (st : OrderStore) (orderId : string) : Result (option OrderDoc) :=
  if isValidObjectId orderId then
    if reachable st
    then Ok (List.find (fun d => String.eqb (docId d) (toHexString orderId))
                       (orderDocs st))
    else Throw MongoError
  else Throw (BSONError orderId).

(** [statusProgression.indexOf(status)] *)
Fixpoint indexOf (s : OrderStatus) (l : list OrderStatus) : Z :=
  match l with
  | [] => -1
  | x :: rest =>
      if OrderStatus_eqb x s then 0
      else let i := indexOf s rest in if (i <? 0)%Z then -1 else (i + 1)%Z
  end.

Definition statusProgression : list OrderStatus := [pending; processing; shipped; delivered].

Section Updates.

(** The [trim] setter of the [notes] and [trackingNumber] paths. *)
Variable trim : string -> string.

(** The fields [$set] by the update, on the document. *)
Definition applyUpdate (d : OrderDoc) (updateData : UpdateOrderStatusData)
    (newDeliveredAt : option Z) : OrderDoc :=
  {| fields := match u_notes updateData with
               | Some n => withNotes (fields d) (Some (trim n))
               | None => fields d
               end;
     status := default (status d) (u_status updateData);
     paymentStatus := default (paymentStatus d) (u_paymentStatus updateData);
     trackingNumber := match u_trackingNumber updateData with
                       | Some t => Some (trim t)
                       | None => trackingNumber d
                       end;
     estimatedDelivery := match u_estimatedDelivery updateData with
                          | Some e => Some e
                          | None => estimatedDelivery d
                          end;
     deliveredAt := match newDeliveredAt with
                    | Some t => Some t
                    | None => deliveredAt d
                    end;
     createdAt := createdAt d |}.

(** [updateOrderStatus] (lines 400-418):
    [findByIdAndUpdate(orderId, updateFields, { new: true, runValidators: true })].
    The update is cast and validated before it is sent: a status outside
    the enum of the schema is refused. *)
Definition updateOrderStatus (st : OrderStore) (now : Z) (orderId : string)
    (updateData : UpdateOrderStatusData) : Result (option OrderDoc) * OrderStore :=
  (* updateFields.deliveredAt = new Date() when the status becomes 'delivered' *)
  let newDeliveredAt :=
    match u_status updateData with
    | Some delivered => Some now
    | _ => None
    end in
  if negb (isValidObjectId orderId) then (Throw (BSONError orderId), st)
  else if match u_status updateData with
          | Some s => negb (inSchemaEnum s)
          | None => false
          end
       then (Throw MongoError, st)
       else if negb (reachable st) then (Throw MongoError, st)
            else
              let id := toHexString orderId in
              match List.find (fun d => String.eqb (docId d) id) (orderDocs st) with
              | None => (Ok None, st)
              | Some d =>
                  let d' := applyUpdate d updateData newDeliveredAt in
                  (Ok (Some d'),
                   {| orderDocs := map (fun x => if String.eqb (docId x) id then d' else x)
                                       (orderDocs st);
                      reachable := reachable st |})
              end.

(** [{ status: previousStatus }] *)
Definition statusOnly (s : option OrderStatus) : UpdateOrderStatusData :=
  {| u_status := s; u_paymentStatus := None; u_trackingNumber := None;
     u_estimatedDelivery := None; u_notes := None |}.

(** [reverseOrderStatus] (lines 420-441) *)
Definition reverseOrderStatus (st : OrderStore) (now : Z) (orderId : string)
  : Result (option OrderDoc) * OrderStore :=
  match findOrder st orderId with
  | Throw e => (Throw e, st)
  | Ok None => (Throw (JsError "Order not found"), st)
  | Ok (Some order) =>
      let currentIndex := indexOf (status order) statusProgression in
      if (currentIndex <=? 0)%Z || OrderStatus_eqb (status order) cancelled
      then (Throw (JsError ("Cannot reverse status from " +:+ statusName (status order))), st)
      else
        let previousStatus := statusProgression !! Z.to_nat (currentIndex - 1) in
        updateOrderStatus st now orderId (statusOnly previousStatus)
  end.

(** [cancelOrder] (lines 443-457) *)
Definition cancelOrder (st : OrderStore) (now : Z) (orderId : string) (reason : option string)
  : Result (option OrderDoc) * OrderStore :=
  match findOrder st orderId with
  | Throw e => (Throw e, st)
  | Ok None => (Throw (JsError "Order not found"), st)
  | Ok (Some order) =>
      if existsb (OrderStatus_eqb (status order)) [delivered; cancelled]
      then (Throw (JsError "Cannot cancel this order"), st)
      else
        updateOrderStatus st now orderId
          {| u_status := Some cancelled; u_paymentStatus := None; u_trackingNumber := None;
             u_estimatedDelivery := None;
             u_notes := Some (if truthyStr reason then "Cancelled: " +:+ default "" reason
                              else "Order cancelled") |}
  end.

End Updates.

(** [getOrderStats] (lines 459-504) *)
Record OrderStats : Type := {
  total : Z;
  n_pending : Z;
  n_processing : Z;
  n_shipped : Z;
  n_delivered : Z;
  n_cancelled : Z;
  totalRevenue : Q
}.

(** [{ $group: { _id: '$status', count: { $sum: 1 } } }]: one entry for each
    status that occurs, with the number of its orders. *)
Fixpoint countInto (s : OrderStatus) (groups : list (OrderStatus * Z))
  : list (OrderStatus * Z) :=
  match groups with
  | [] => [(s, 1%Z)]
  | (s', n) :: rest =>
      if OrderStatus_eqb s' s then (s', (n + 1)%Z) :: rest else (s', n) :: countInto s rest
  end.

Definition groupByStatus (docs : list OrderDoc) : list (OrderStatus * Z) :=
  fold_left (fun groups d => countInto (status d) groups) docs [].

(** [statusCounts[name] || 0], where [statusCounts] is the object the
    [reduce] builds from the groups (a later entry of a key replaces an
    earlier one). *)
Definition countOf (s : OrderStatus) (groups : list (OrderStatus * Z)) : Z :=
  fold_left (fun acc stat => if OrderStatus_eqb (fst stat) s then snd stat else acc) groups 0%Z.

Definition getOrderStats (st : OrderStore) : Result OrderStats :=
  if reachable st then
    let stats := groupByStatus (orderDocs st) in
    (* $match: { status: { $ne: 'cancelled' } }, $group: { _id: null, totalRevenue: { $sum: '$total' } } *)
    let billed := List.filter (fun d => negb (OrderStatus_eqb (status d) cancelled))
                              (orderDocs st) in
    let revenue := match billed with
                   | [] => []
                   | _ => [fold_left (fun sum d => sum + ord_total (fields d)) billed 0]
                   end in
    Ok {| total := fold_left (fun sum stat => (sum + snd stat)%Z) stats 0%Z;
          n_pending := countOf pending stats;
          n_processing := countOf processing stats;
          n_shipped := countOf shipped stats;
          n_delivered := countOf delivered stats;
          n_cancelled := countOf cancelled stats;
          totalRevenue := match revenue with
                          | r :: _ => if Qeq_bool r 0 then 0 else r
                          | [] => 0
                          end |}
  else Throw MongoError.

(** The answer of the paginated listings. *)
Record Page : Type := {
  pg_orders : list OrderDoc;
  pg_total : Z;
  pg_totalPages : option Z       (* [None]: not a finite number *)
}.

Section Paging.

(** What the store answers to a negative limit is left to the store. *)
Variable singleBatch : Z -> list OrderDoc -> list OrderDoc.

(** [.sort({ createdAt: -1 })]; orders of the same timestamp are taken to
    come in the order of the collection, on every call. *)
Definition newestFirst (l : list OrderDoc) : list OrderDoc :=
  OfferController.sort (fun a b => (createdAt b - createdAt a)%Z) l.

(** [.skip(skip).limit(limit)]: a negative skip is refused, a limit of
    zero is no limit. *)
Definition skipLimit (skip limit : Z) (l : list OrderDoc) : Result (list OrderDoc) :=
  if (skip <? 0)%Z then Throw MongoError
  else
    let rest := drop (Z.to_nat skip) l in
    Ok (if (limit =? 0)%Z then rest
        else if (0 <? limit)%Z then take (Z.to_nat limit) rest
             else singleBatch limit rest).

(** [Math.ceil(total / limit)] *)
Definition ceilDiv (total limit : Z) : option Z :=
  if (limit =? 0)%Z then None else Some (- ((- total) / limit))%Z.

(** [getCustomerOrders] (lines 284-313) *)
Definition getCustomerOrders (st : OrderStore) (customerId : string) (page limit : Z)
    (statusFilter : option string) : Result Page :=
  let skip := ((page - 1) * limit)%Z in
  let filter (d : OrderDoc) : bool :=
    String.eqb (ord_customer (fields d)) (toHexString customerId)
    && (if truthyStr statusFilter
        then String.eqb (statusName (status d)) (default "" statusFilter)
        else true) in
  if negb (isValidObjectId customerId) then Throw (BSONError customerId)
  else if negb (reachable st) then Throw MongoError
       else
         let matching := List.filter filter (orderDocs st) in
         let* orders := skipLimit skip limit (newestFirst matching) in
         let total := Z.of_nat (List.length matching) in
         Ok {| pg_orders := orders; pg_total := total; pg_totalPages := ceilDiv total limit |}.

End Paging.

End OrderLifecycle.

(** * The difference recorded in the audit log (audit.service.ts) *)

Module AuditService.

Section Diff.

(** A JavaScript value, with [undefined] among the values, and
    [JSON.stringify], which gives [undefined] for some of them. *)
Variable Value : Type.
Variable undefined : Value.
Variable stringify : Value -> option string.

(** A plain object, as [toObject()] gives it. *)
Definition Obj : Type := gmap string Value.

(** [obj[key]] *)
Definition get (obj : Obj) (key : string) : Value := default undefined (obj !! key).

Definition skipped (key : string) : bool :=
  String.eqb key "_id" || String.eqb key "__v"
  || String.eqb key "createdAt" || String.eqb key "updatedAt".

(** [calculateDiff] (lines 54-68): the keys of the new object are walked;
    an entry holds the old and the new value. *)
Definition calculateDiff (oldObj newObj : Obj) : gmap string (Value * Value) :=
  map_imap (fun key newValue =>
              if skipped key then None
              else if decide (stringify (get oldObj key) = stringify newValue) then None
                   else Some (get oldObj key, newValue))
           newObj.

End Diff.

End AuditService.

(** * Reference definitions for the pricing properties *)

Module PricingSpec.

Import OfferService.

(** Coverage (sections 3 and 4.4 of the specification): a campaign covers
    a product through an entry for it in its item list, through its
    explicit product ids, or through the category of the product. *)

(** The product is a document of the store. *)
Definition stocked (db : Db) (prod : Product) : bool :=
  existsb (fun p => String.eqb (p_id p) (p_id prod)) (products db).

(** The campaign's item entry for the product: the first one. *)
Definition entryFor (db : Db) (o : Offer) (prod : Product) : option OfferItem :=
  if stocked db prod
  then List.find (fun item => String.eqb (product item) (p_id prod)) (items o)
  else None.

Definition covers (db : Db) (o : Offer) (prod : Product) : bool :=
  match entryFor db o prod with Some _ => true | None => false end
  || existsb (String.eqb (p_id prod)) (productIds o)
  || match category prod with
     | Some c => existsb (String.eqb c) (categoryIds o)
     | None => false
     end.

(** An optional number that is set and greater than zero. *)
Definition positive (o : option Q) : option Q :=
  match o with
  | Some q => if Qltb 0 q then Some q else None
  | None => None
  end.

(** An optional number that is set and not zero. *)
Definition nonzero (o : option Q) : option Q :=
  match o with
  | Some q => if Qeq_bool q 0 then None else Some q
  | None => None
  end.

(** [price * (1 - percent/100)] and [max(0, price - amount)], evaluated on
    numbers of the language. *)
Definition percentOff (p pc : Q) : Q := p ⊗ (1 ⊖ pc ⊘ 100).
Definition amountOff (p amount : Q) : Q := Qmax 0 (p ⊖ amount).

(** The price of a product under one campaign, in the words of the
    specification: the matching item's fixed offer price if set, else its
    percent if set, else no discount; the bulk formulas otherwise. *)
Definition statedPrice (db : Db) (o : Offer) (prod : Product) : Q :=
  let p := price prod in
  match applyMode o with
  | PerItem =>
      match entryFor db o prod with
      | Some item =>
          match offerPrice item, percent item with
          | Some fixed, _ => fixed
          | None, Some pc => percentOff p pc
          | None, None => p
          end
      | None => p
      end
  | BulkPercent =>
      match bulkPercent o with Some pc => percentOff p pc | None => p end
  | BulkAmount =>
      match bulkAmount o with Some amount => amountOff p amount | None => p end
  end.

(** The same, with a fixed price or a percent of an item counting only when
    it is greater than zero, and a bulk percent or amount only when it is
    not zero. *)
Definition computedPrice (db : Db) (o : Offer) (prod : Product) : Q :=
  let p := price prod in
  match applyMode o with
  | PerItem =>
      match entryFor db o prod with
      | Some item =>
          match positive (offerPrice item), positive (percent item) with
          | Some fixed, _ => fixed
          | None, Some pc => percentOff p pc
          | None, None => p
          end
      | None => p
      end
  | BulkPercent =>
      match nonzero (bulkPercent o) with Some pc => percentOff p pc | None => p end
  | BulkAmount =>
      match nonzero (bulkAmount o) with Some amount => amountOff p amount | None => p end
  end.

(** The candidate prices of a product: the computed price of every campaign
    of the list that covers it, in the order of the list. *)
Definition candidatePrices (db : Db) (offers : list Offer) (prod : Product) : list Q :=
  map (fun o => computedPrice db o prod) (List.filter (fun o => covers db o prod) offers).

(** [m] is a least element of [l]. *)
Definition isMinimum (m : Q) (l : list Q) : Prop :=
  In m l /\ Forall (fun c => m <= c) l.

(** C1 as the specification states it: the effective price is the least of the
    candidate prices, and without a candidate below the original price the
    product keeps its original price, with [hasOffer] false. *)
Definition statedLowestCandidate (db : Db) (offers : list Offer) (prod : Product) : Prop :=
  let r := OfferService.priceProduct db offers prod in
  let cands := candidatePrices db offers prod in
  ((exists c, In c cands /\ c < price prod) ->
   exists m, isMinimum m cands /\ OfferService.effectivePrice r == m)
  /\ (Forall (fun c => price prod <= c) cands ->
      OfferService.effectivePrice r == price prod /\ OfferService.hasOffer r = false).

(** The same offer with another rank. *)
Definition withRank (o : Offer) (rank : Z * bool) : Offer :=
  {| o_id := o_id o; title := title o; startsAt := startsAt o; endsAt := endsAt o;
     isActive := isActive o; applyMode := applyMode o; bulkPercent := bulkPercent o;
     bulkAmount := bulkAmount o; items := items o; branches := branches o;
     cities := cities o; geo := geo o; categoryIds := categoryIds o;
     productIds := productIds o; priority := fst rank; stackable := snd rank;
     branch := branch o |}.

(** The bounds of OfferItemSchema and OfferCampaignSchema. *)
Definition inRange (lo : Q) (hi : option Q) (o : option Q) : Prop :=
  match o with
  | Some q => lo <= q /\ match hi with Some h => q <= h | None => True end
  | None => True
  end.

Definition itemWithinSchema (item : OfferItem) : Prop :=
  inRange 0 None (offerPrice item) /\ inRange 0 (Some 100) (percent item).

Definition offerWithinSchema (o : Offer) : Prop :=
  inRange 0 (Some 100) (bulkPercent o) /\ inRange 0 None (bulkAmount o)
  /\ Forall itemWithinSchema (items o).

End PricingSpec.

(** * Reference definitions for the stacking properties *)

Module StackingSpec.

Import OfferController.

(** The campaign holds the product among its items: it claims the product
    in the stacking loop, which runs over [offer.items] alone. *)
Definition claimsProduct (o : Offer) (pid : string) : Prop :=
  In pid (map product (items o)).

(** Two campaigns contest a product: both hold it among their items. *)
Definition contest (a b : Offer) : Prop :=
  exists pid, claimsProduct a pid /\ claimsProduct b pid.

(** Every item of the campaign refers to a product of the store. *)
Definition allPopulated (db : Db) (o : Offer) : Prop :=
  Forall (fun item => populate db item <> None) (items o).

(** No two non-stackable campaigns of the list hold the same product among
    their items. *)
Definition noTwoNonStackable (l : list Offer) : Prop :=
  forall (i j : nat) (a b : Offer),
    (i < j)%nat -> l !! i = Some a -> l !! j = Some b ->
    stackable a = false -> stackable b = false -> ~ contest a b.

(** Sorted by priority, the highest first. *)
Definition byPriority (l : list ScoredOffer) : Prop :=
  StronglySorted (fun a b => (priority (so_offer b) <= priority (so_offer a))%Z) l.

(** The claims of the map are campaigns applied so far that cover the
    product, and a product covered by an applied non-stackable campaign
    has a non-stackable claim. *)
Definition claimsSound (applied : list ScoredOffer) (m : gmap string (list ScoredOffer)) : Prop :=
  forall pid e, In e (claims m pid) -> In e applied /\ claimsProduct (so_offer e) pid.

Definition claimsGuard (applied : list ScoredOffer) (m : gmap string (list ScoredOffer)) : Prop :=
  forall pid a,
    In a applied -> stackable (so_offer a) = false -> claimsProduct (so_offer a) pid ->
    exists e, In e (claims m pid) /\ stackable (so_offer e) = false.

(** C4 as the specification states it: of two non-stackable campaigns contesting
    a product the one of higher priority is in the output and the other is
    not, whatever the order of the input. *)
Definition statedPriorityWins (db : Db) (offers : list ScoredOffer) : Prop :=
  forall H L : Offer,
    In H (map so_offer offers) -> In L (map so_offer offers) ->
    stackable H = false -> stackable L = false ->
    (priority L < priority H)%Z -> contest H L ->
    forall offers', Permutation offers offers' ->
      exists out, stackingResolver db offers' = Ok out /\ In H out /\ ~ In L out.

(** The campaign covers the product of that id (section 3 of the
    specification): through an item, through its product ids or through
    the category of the product. *)
Definition coversProduct (db : Db) (o : Offer) (pid : string) : Prop :=
  exists prod, In prod (products db) /\ p_id prod = pid
               /\ PricingSpec.covers db o prod = true.

(** C3 as the specification states it: no two non-stackable campaigns of
    the output cover the same product. *)
Definition statedNoTwoCovering (db : Db) (offers : list ScoredOffer) : Prop :=
  forall out, stackingResolver db offers = Ok out ->
    forall (i j : nat) (a b : Offer),
      (i < j)%nat -> out !! i = Some a -> out !! j = Some b ->
      stackable a = false -> stackable b = false ->
      ~ exists pid, coversProduct db a pid /\ coversProduct db b pid.

End StackingSpec.

(** * Reference definitions for the targeting properties *)

Module TargetingSpec.

Import OfferService OfferController.

(** The targeting dimensions of section 4.3, each an "admits" test.  The
    branch of the context is compared as an ObjectId, that is by its
    lower-case form. *)
Definition admitsByBranch (ctx : LocationContext) (o : Offer) : bool :=
  match userBranchId ctx with
  | Some b => negb (String.eqb b "") && branchCondition (toHexString b) o
  | None => false
  end.

Definition admitsByCity (ctx : LocationContext) (o : Offer) : bool :=
  match userCity ctx with
  | Some c => negb (String.eqb c "") && cityCondition c o
  | None => false
  end.

Definition admitsByGeofence (calculateDistance : Q -> Q -> Q -> Q -> Q)
    (geoWithin : Offer -> Q * Q -> Result bool) (ctx : LocationContext) (o : Offer) : bool :=
  match userCoordinates ctx with
  | Some coords =>
      match includeOffer calculateDistance geoWithin coords o with
      | Ok inside => inside
      | Throw _ => false
      end
  | None => false
  end.

(** C2 as the specification states it: the selected campaigns are the active
    campaigns admitted by the branch, the city, the geofence, or being
    unrestricted. *)
Definition statedTargeting (calculateDistance : Q -> Q -> Q -> Q -> Q)
    (geoWithin : Offer -> Q * Q -> Result bool) (now : Z) (ctx : LocationContext) (o : Offer) : bool :=
  activeAt now o
  && (admitsByBranch ctx o || admitsByCity ctx o
      || admitsByGeofence calculateDistance geoWithin ctx o || globalCondition o).

End TargetingSpec.
(** * Reference definitions for the branch locator *)

Module BranchSpec.

Import BranchAssignmentService.

(** C6 as the specification states it: the two strategies give the same branch,
    the fallback gives none without an active branch, and neither gives a
    branch beyond the search radius. *)
Definition statedAgreement (calculateDistance : Q -> Q -> Q -> Q -> Q) (db : Db)
    (longitude latitude maxDistanceKm : Q) : Prop :=
  findNearestBranchByCoordinates calculateDistance db longitude latitude maxDistanceKm
  = findNearestBranchManual calculateDistance db longitude latitude
  /\ (List.filter b_isActive (branchDocs db) = [] ->
      findNearestBranchManual calculateDistance db longitude latitude = None)
  /\ (forall b,
         findNearestBranchManual calculateDistance db longitude latitude = Some b
         \/ findNearestBranchByCoordinates calculateDistance db longitude latitude
              maxDistanceKm = Some b ->
         distanceTo calculateDistance longitude latitude b <= maxDistanceKm).

Section Nearest.

Variable calculateDistance : Q -> Q -> Q -> Q -> Q.
Variables longitude latitude : Q.

#[local] Abbreviation distanceOf := (distanceTo calculateDistance longitude latitude).

(** An active branch of the store. *)
Definition activeBranch (db : Db) (b : Branch) : Prop :=
  In b (branchDocs db) /\ b_isActive b = true.

(** The branch lies within the distance, given in meters. *)
Definition within (maxDistanceMeters : Q) (b : Branch) : Prop :=
  distanceOf b * 1000 <= maxDistanceMeters.

(** An active branch that no active branch is nearer than. *)
Definition nearestActive (db : Db) (b : Branch) : Prop :=
  activeBranch db b /\ forall x, activeBranch db x -> distanceOf b <= distanceOf x.

(** The spatial nearest-query of section 4.2, as a relation between the
    store and the answer: a branch it answers with is an active branch
    within the distance that no active branch is nearer than; it answers
    with none only when no active branch lies within the distance; it may
    fail, and does when the store cannot be read.  Which of several
    equally near branches it answers with is left open. *)
Definition nearAnswer (db : Db) (maxDistanceMeters : Q) (answer : Result (option Branch))
  : Prop :=
  match answer with
  | Ok (Some b) => nearestActive db b /\ within maxDistanceMeters b
  | Ok None => forall x, activeBranch db x -> ~ within maxDistanceMeters x
  | Throw _ => True
  end
  /\ (connected db = false -> exists e, answer = Throw e).

(** The state of a scan holds a branch nearest among those seen. *)
Definition nearestOf (st : option Branch * option Q) (seen : list Branch) : Prop :=
  (st = (None, None) /\ seen = [])
  \/ exists b,
       st = (Some b, Some (distanceOf b))
       /\ In b seen
       /\ Forall (fun x => distanceOf b <= distanceOf x) seen.

End Nearest.

End BranchSpec.
(** * Reference definitions for the write-time conflicts *)

Module ConflictSpec.

Import OfferController.

(** [sub] occurs in [s]. *)
Definition occursIn (sub s : string) : Prop :=
  exists pre post, s = pre +:+ sub +:+ post.

(** The branch a new offer is written for. *)
Definition createTarget (user : User) (body : CreateOfferDto) : option string :=
  match role user with
  | BranchRole => u_branchId user
  | Admin => if truthyStr (c_branch body) then c_branch body else None
  end.

(** The branch an updated offer is written for. *)
Definition updateTarget (user : User) (updateData : UpdateOfferDto) (offer : Offer)
  : option string :=
  match role user, u_branch updateData with
  | Admin, Some b => b
  | BranchRole, _ => u_branchId user
  | Admin, None => branch offer
  end.

(** A branch account may not touch the offer of another branch. *)
Definition accessDenied (user : User) (offer : Offer) : bool :=
  match role user, branch offer with
  | BranchRole, Some b =>
      negb (match u_branchId user with Some ub => String.eqb b ub | None => false end)
  | _, _ => false
  end.

(** [sub] occurs in [s], decided: [sub] starts one of the suffixes of [s]. *)
Fixpoint containsb (sub s : string) : bool :=
  String.prefix sub s
  || match s with
     | EmptyString => false
     | String _ rest => containsb sub rest
     end.

(** A submitted id: the 24 hexadecimal digits the request schemas ask for;
    written in lower case it is the id as the store holds it. *)
Definition validId (s : string) : Prop := isValidObjectId s = true.
Definition lowerCase (s : string) : Prop := toHexString s = s.

(** An optional id that, when given and not empty, is a valid one. *)
Definition validWhenGiven (id : option string) : Prop :=
  match id with
  | Some s => s = "" \/ validId s
  | None => True
  end.

(** The ObjectId an optional id denotes, when it is given and not empty. *)
Definition given (id : option string) : option string :=
  match id with
  | Some s => if String.eqb s "" then None else Some (toHexString s)
  | None => None
  end.

(** The campaign runs at [now]: it is active, it has started and it has not
    ended. *)
Definition running (now : Z) (o : Offer) : Prop :=
  isActive o = true
  /\ match startsAt o with Some s => (s <= now)%Z | None => True end
  /\ match endsAt o with Some e => (now <= e)%Z | None => True end.

(** The campaign holds one of the submitted products as an item. *)
Definition holdsOneOf (ids : list string) (o : Offer) : Prop :=
  exists item id, In item (items o) /\ In id ids /\ product item = toHexString id.

(** The campaign covers one of the submitted products in the sense of
    sections 3 and 4.4 of the specification: by an item, by its explicit
    product ids or by the category of the product. *)
Definition coversOneOf (db : Db) (ids : list string) (o : Offer) : Prop :=
  exists id p, In id ids /\ In p (products db) /\ p_id p = toHexString id
               /\ PricingSpec.covers db o p = true.

(** The campaign is in the scope of a write for the branch [target]: every
    campaign for a write without a branch, the campaigns without a branch
    and those of the branch (by the legacy branch field) otherwise. *)
Definition inScope (target : option string) (o : Offer) : Prop :=
  match given target with
  | Some t => branch o = None \/ branch o = Some t
  | None => True
  end.

(** The campaign is not the one under update. *)
Definition isOther (exclude : option string) (o : Offer) : Prop :=
  match given exclude with
  | Some x => o_id o <> x
  | None => True
  end.

(** The campaign collides with a write of the products [ids] for the
    branch [target] at [now]. *)
Definition collides (now : Z) (ids : list string) (exclude target : option string)
    (o : Offer) : Prop :=
  running now o /\ holdsOneOf ids o /\ inScope target o /\ isOther exclude o.

(** The campaigns the query of the conflict check finds, on the ids as
    the check casts them. *)
Definition foundByQuery (db : Db) (now : Z) (ids : list string)
    (exclude target : option string) : list Offer :=
  List.filter (conflictQuery now (map toHexString ids) (given exclude) (given target))
              (offerCampaigns db).

(** The titles of the products of a campaign that are among [ids]. *)
Definition overlappingTitles (db : Db) (ids : list string) (o : Offer) : list string :=
  flat_map (fun item =>
              match populate db item with
              | Some p => if existsb (fun id => String.eqb (p_id p) (toHexString id)) ids
                          then [p_title p] else []
              | None => []
              end) (items o).

(** The entry of the report for a colliding campaign. *)
Definition detailOf (db : Db) (ids : list string) (o : Offer) : ConflictDetail :=
  {| offerTitle := title o; cd_products := overlappingTitles db ids o |}.

(** No two products of the store have the same id. *)
Definition uniqueProductIds (db : Db) : Prop := List.NoDup (map p_id (products db)).

(** Every submitted product is a product of the store, and none is
    submitted twice. *)
Definition productsFound (db : Db) (ids : list string) : Prop :=
  List.NoDup (map toHexString ids)
  /\ forall id, In id ids -> exists p, In p (products db) /\ p_id p = toHexString id.

(** C8 as the specification states it, for [createOffer]: a submitted
    product covered by a running campaign in the scope of the write makes
    the write fail with a PRODUCT_CONFLICT error that names the
    campaign. *)
Definition statedConflictRejection (db : Db) (now : Z) (user : User) (body : CreateOfferDto)
    (newId : string) : Prop :=
  let ids := map product (c_items body) in
  forall o,
    In o (offerCampaigns db) ->
    running now o -> coversOneOf db ids o -> inScope (createTarget user body) o ->
    exists message,
      createOffer db now user body newId
      = (Throw (AppError message 400 "PRODUCT_CONFLICT"), db)
      /\ occursIn (title o) message.

(** The same with the overlapping products: the message names the
    overlapping products of every colliding campaign. *)
Definition statedOverlapListed (db : Db) (now : Z) (user : User) (body : CreateOfferDto)
    (newId : string) : Prop :=
  let ids := map product (c_items body) in
  forall o,
    In o (offerCampaigns db) -> collides now ids None (createTarget user body) o ->
    exists message,
      createOffer db now user body newId
      = (Throw (AppError message 400 "PRODUCT_CONFLICT"), db)
      /\ forall t, In t (overlappingTitles db ids o) -> occursIn t message.

End ConflictSpec.

(** * Reference definitions for the product endpoints and the order prices *)

Module ListingSpec.

Import OfferService OfferController.

(** The campaign without its category targeting. *)
Definition withoutCategories (o : Offer) : Offer :=
  {| o_id := o_id o; title := title o; startsAt := startsAt o; endsAt := endsAt o;
     isActive := isActive o; applyMode := applyMode o; bulkPercent := bulkPercent o;
     bulkAmount := bulkAmount o; items := items o; branches := branches o;
     cities := cities o; geo := geo o; categoryIds := [];
     productIds := productIds o; priority := priority o; stackable := stackable o;
     branch := branch o |}.

(** The store with no campaign targeting categories. *)
Definition withoutCategoryTargeting (db : Db) : Db :=
  withOffers db (map withoutCategories (offerCampaigns db)).

(** Every category id of every campaign is an ObjectId. *)
Definition categoryIdsWellFormed (db : Db) : Prop :=
  Forall (fun o => Forall (fun c => isValidObjectId c = true) (categoryIds o))
         (offerCampaigns db).

(** The store with the unrestricted campaigns only: no branch, no city, no
    geofence. *)
Definition globalCampaignsOnly (db : Db) : Db :=
  withOffers db (List.filter globalCondition (offerCampaigns db)).

(** The store without the campaigns of the given id. *)
Definition withoutCampaign (db : Db) (id : string) : Db :=
  withOffers db (List.filter (fun o => negb (String.eqb (o_id o) id)) (offerCampaigns db)).

(** The entry of [applicableOffers] that records a campaign for a product:
    the campaign covers the product, and the entry carries its id, its
    title, its mode and the discount its computed price gives. *)
Definition recordedAs (db : Db) (prod : Product) (o : Offer) (a : ApplicableOffer) : Prop :=
  PricingSpec.covers db o prod = true
  /\ ao_id a = o_id o /\ ao_title a = title o /\ ao_applyMode a = applyMode o
  /\ discount a = price prod ⊖ PricingSpec.computedPrice db o prod.

(** The computed prices of the campaigns fall strictly along the list. *)
Definition falling (db : Db) (prod : Product) (os : list Offer) : Prop :=
  StronglySorted (fun a b => PricingSpec.computedPrice db b prod
                             < PricingSpec.computedPrice db a prod) os.

(** The discounts recorded in [applicableOffers] never go down. *)
Definition improving (l : list ApplicableOffer) : Prop :=
  StronglySorted (fun a b => discount a <= discount b) l.

(** What the loop keeps true of its state: the recorded entries are those
    of campaigns seen so far that cover the product, in the order they were
    met; their computed prices fall strictly and the last one is the
    running price; the recorded discounts never go down. *)
Definition recordedSoFar (db : Db) (prod : Product) (seen : list Offer) (st : PriceState)
  : Prop :=
  st_effectivePrice st <= price prod
  /\ st_hasOffer st = negb (match st_applicableOffers st with [] => true | _ => false end)
  /\ improving (st_applicableOffers st)
  /\ Forall (fun a => 0 <= discount a /\ discount a <= price prod ⊖ st_effectivePrice st)
            (st_applicableOffers st)
  /\ exists os : list Offer,
       Forall2 (recordedAs db prod) os (st_applicableOffers st)
       /\ Forall (fun o => In o seen) os
       /\ falling db prod os
       /\ Forall (fun o => st_effectivePrice st <= PricingSpec.computedPrice db o prod
                           /\ PricingSpec.computedPrice db o prod < price prod) os
       /\ (forall o, last os = Some o ->
                     st_effectivePrice st = PricingSpec.computedPrice db o prod)
       /\ (os = [] -> st_effectivePrice st = price prod).

End ListingSpec.

(** * Reference definitions for the offer endpoints *)

Module EndpointSpec.

Import OfferService OfferController.

(** Offers in the order of their priority, the highest first. *)
Definition byPriorityDesc (l : list Offer) : Prop :=
  StronglySorted (fun a b => (priority b <= priority a)%Z) l.

Section PlaneNearest.

(** The plane distance as [getLocationBasedOffers] computes it. *)
Variable planeDistance : string -> string -> Q -> Q -> option Q.
Variables lat lng : string.

(** The distance of a branch from the place of the query, when it is a
    number. *)
Definition measured (b : Branch) : option Q :=
  planeDistance lat lng (snd (b_location b)) (fst (b_location b)).

(** [b] is an active branch of the store at a distance that is a number,
    and no active branch is at a lesser one. *)
Definition planeNearest (db : Db) (b : Branch) : Prop :=
  In b (branchDocs db) /\ b_isActive b = true
  /\ exists d, measured b = Some d
               /\ forall x dx, In x (branchDocs db) -> b_isActive x = true ->
                               measured x = Some dx -> d <= dx.

(** No active branch of the store is at a distance that is a number. *)
Definition noneMeasured (db : Db) : Prop :=
  forall x, In x (branchDocs db) -> b_isActive x = true -> measured x = None.

(** The state of the scan for the nearest branch holds a nearest one of
    the branches seen, none when none of them is at a distance that is a
    number. *)
Definition planeNearestOf (st : option Branch * option Q) (seen : list Branch) : Prop :=
  (st = (None, None) /\ Forall (fun x => measured x = None) seen)
  \/ exists b d, st = (Some b, Some d) /\ In b seen /\ measured b = Some d
                 /\ Forall (fun x => forall dx, measured x = Some dx -> d <= dx) seen.

End PlaneNearest.

Definition notFound : Failure := AppError "Offer campaign not found" 404 "NOT_FOUND".
Definition notPublic : Failure := AppError "Offer not found or not active" 404 "NOT_FOUND".
Definition forbidden : Failure := AppError "Access denied" 403 "FORBIDDEN".

(** The campaign belongs to a branch other than the user's. *)
Definition ofAnotherBranch (user : User) (offer : Offer) : Prop :=
  exists b, branch offer = Some b /\ u_branchId user <> Some b.

(** The campaign has started by [now]. *)
Definition started (now : Z) (o : Offer) : Prop :=
  match startsAt o with Some s => (s <= now)%Z | None => True end.

(** The campaign has not ended by [now]. *)
Definition notEnded (now : Z) (o : Offer) : Prop :=
  match endsAt o with Some e => (now <= e)%Z | None => True end.

End EndpointSpec.

(** * Private addresses and the default location *)

Module GeolocationSpec.

(** A dotted address that begins with the decimal numbers [a] and [b]. *)
Definition dotted (a b : nat) (rest : string) : string :=
  pretty a +:+ "." +:+ pretty b +:+ "." +:+ rest.

(** The private IPv4 blocks: 127/8, 10/8, 172.16/12 and 192.168/16. *)
Definition inPrivateBlock (a b : nat) : bool :=
  ((a =? 127) || (a =? 10) || ((a =? 172) && (16 <=? b) && (b <=? 31))
   || ((a =? 192) && (b =? 168)))%nat.

(** No [DEV_LOCATION_LAT] and [DEV_LOCATION_LON] pair in the environment. *)
Definition noOverride (env : GeolocationService.Env) : bool :=
  negb (truthyStr (GeolocationService.DEV_LOCATION_LAT env)
        && truthyStr (GeolocationService.DEV_LOCATION_LON env)).

(** The numbers of one part of a dotted address, with their decimal
    numerals. *)
Definition numerals : list (nat * string) := map (fun n => (n, pretty n)) (seq 0 256).

Definition agreeOn (rest : string) (a b : nat * string) : bool :=
  Bool.eqb (GeolocationService.isPrivateIP (snd a +:+ "." +:+ snd b +:+ "." +:+ rest))
           (inPrivateBlock (fst a) (fst b)).

End GeolocationSpec.

(** * The address book of a customer *)

Module AddressSpec.

Import AddressService AddressBook.

(** At most one address of the list is the default one. *)
Definition oneDefault (l : list SavedAddress) : Prop :=
  (List.length (List.filter isDefault l) <= 1)%nat.

(** No address of the list is a duplicate of an earlier one, by the test
    of [saveAddress]. *)
Definition distinct (a b : SavedAddress) : Prop := isDuplicate (sa_fields a) b = false.

Definition noDuplicates (l : list SavedAddress) : Prop := StronglySorted distinct l.

(** A property of the address list of every customer of the store. *)
Definition everyBook (P : list SavedAddress -> Prop) (db : Db) : Prop :=
  Forall (fun c => P (savedAddresses c)) (customers db).

(** Every stored address passes the validators of the schema. *)
Definition validBook (l : list SavedAddress) : Prop := forallb requiredPresent l = true.

(** A request to the address book of a customer. *)
Inductive Request : Type :=
| SaveAddress (addressData : AddressData) (newId : string)
| DeleteAddress (addressId : string)
| SetDefaultAddress (addressId : string)
| RemoveDuplicateAddresses.

(** The store after a request, answered or refused. *)
Definition perform (describe : Failure -> string) (db : Db) (r : string * Request) : Db :=
  match r with
  | (customerId, SaveAddress addressData newId) =>
      snd (saveAddress describe db customerId addressData newId)
  | (customerId, DeleteAddress addressId) => snd (deleteAddress describe db customerId addressId)
  | (customerId, SetDefaultAddress addressId) =>
      snd (setDefaultAddress describe db customerId addressId)
  | (customerId, RemoveDuplicateAddresses) => snd (removeDuplicateAddresses db customerId)
  end.

(** The first address of each key, for the keys not in [seen]. *)
Fixpoint firstOfEachKey (seen : gset string) (l : list SavedAddress) : list SavedAddress :=
  match l with
  | [] => []
  | addr :: rest =>
      if decide (addressKey addr ∈ seen) then firstOfEachKey seen rest
      else addr :: firstOfEachKey ({[ addressKey addr ]} ∪ seen) rest
  end.

(** The address [saveAddress] stores. *)
Definition storedAddress (addressData : AddressData) (newId : string) : SavedAddress :=
  {| sa_id := newId;
     sa_fields := castFields addressData;
     isDefault := default false (ad_isDefault addressData);
     addressLabel := Some (default "Address" (ad_addressLabel addressData)) |}.

(** The addresses already stored, as [saveAddress] leaves them. *)
Definition othersAfter (addressData : AddressData) (l : list SavedAddress) : list SavedAddress :=
  if default false (ad_isDefault addressData)
  then map (fun addr => withDefault addr false) l
  else l.

End AddressSpec.

(** * The life of an order *)

Module OrderSpec.

Import OrderLifecycle.

(** The order with another status and nothing else changed. *)
Definition withStatus (d : OrderDoc) (s : OrderStatus) : OrderDoc :=
  {| fields := fields d; status := s; paymentStatus := paymentStatus d;
     trackingNumber := trackingNumber d; estimatedDelivery := estimatedDelivery d;
     deliveredAt := deliveredAt d; createdAt := createdAt d |}.

(** The status before, on the way from pending to delivered. *)
Definition previous (s : OrderStatus) : option OrderStatus :=
  match s with
  | processing => Some pending
  | shipped => Some processing
  | delivered => Some shipped
  | _ => None
  end.

(** The note a cancellation leaves. *)
Definition cancellationNote (reason : option string) : string :=
  match reason with
  | Some "" | None => "Order cancelled"
  | Some r => "Cancelled: " +:+ r
  end.

(** The order, cancelled. *)
Definition cancelledWith (note : string) (d : OrderDoc) : OrderDoc :=
  {| fields := withNotes (fields d) (Some note); status := cancelled;
     paymentStatus := paymentStatus d; trackingNumber := trackingNumber d;
     estimatedDelivery := estimatedDelivery d; deliveredAt := deliveredAt d;
     createdAt := createdAt d |}.

(** Every stored status is one the schema lists. *)
Definition statusesInEnum (st : OrderStore) : Prop :=
  Forall (fun d => inSchemaEnum (status d) = true) (orderDocs st).

(** A request that changes the status of an order. *)
Inductive Request : Type :=
| Update (orderId : string) (updateData : UpdateOrderStatusData)
| Reverse (orderId : string)
| Cancel (orderId : string) (reason : option string).

(** The store after a request at a time, answered or refused. *)
Definition perform (trim : string -> string) (st : OrderStore) (r : Z * Request) : OrderStore :=
  match r with
  | (now, Update orderId updateData) => snd (updateOrderStatus trim st now orderId updateData)
  | (now, Reverse orderId) => snd (reverseOrderStatus trim st now orderId)
  | (now, Cancel orderId reason) => snd (cancelOrder trim st now orderId reason)
  end.

(** The number of the orders of a status. *)
Definition count (s : OrderStatus) (docs : list OrderDoc) : Z :=
  Z.of_nat (List.length (List.filter (fun d => OrderStatus_eqb (status d) s) docs)).

(** The totals of the orders that are not cancelled, added up. *)
Definition billedTotal (docs : list OrderDoc) : Q :=
  fold_right (fun d sum => sum + ord_total (fields d)) 0
             (List.filter (fun d => negb (OrderStatus_eqb (status d) cancelled)) docs).

(** The count of a status in the groups of the aggregation: that of its
    first group, [0] when it has none. *)
Definition valueOf (s : OrderStatus) (groups : list (OrderStatus * Z)) : Z :=
  match List.find (fun g => OrderStatus_eqb (fst g) s) groups with
  | Some g => snd g
  | None => 0
  end.

(** The orders of a customer that a listing shows, before paging. *)
Definition listed (customerId : string) (statusFilter : option string) (d : OrderDoc) : bool :=
  String.eqb (ord_customer (fields d)) (toHexString customerId)
  && (if truthyStr statusFilter
      then String.eqb (statusName (status d)) (default "" statusFilter)
      else true).

End OrderSpec.

(** * Sample documents *)

Module Samples.

Definition product_ (id ttl : string) (cat : string) (p : Q) : Product :=
  {| p_id := id; p_title := ttl; category := Some cat; price := p;
     p_offerPrice := None; images := ["/uploads/" +:+ id +:+ ".jpg"]; p_isActive := true |}.

Definition item_ (pid : string) (fixed pc : option Q) : OfferItem :=
  {| product := pid; offerPrice := fixed; percent := pc |}.

(** A campaign without targeting, always running. *)
Definition offer_ (id ttl : string) (mode : ApplyMode) (bp ba : option Q)
    (its : list OfferItem) (prio : Z) (stack : bool) : Offer :=
  {| o_id := id; title := ttl; startsAt := None; endsAt := None; isActive := true;
     applyMode := mode; bulkPercent := bp; bulkAmount := ba; items := its;
     branches := []; cities := []; geo := None; categoryIds := []; productIds := [];
     priority := prio; stackable := stack; branch := None |}.

Definition store_ (os : list Offer) (ps : list Product) (bs : list Branch) : Db :=
  {| offerCampaigns := os; products := ps; branchDocs := bs; customers := [];
     orders := []; connected := true |}.

Definition unplug (db : Db) : Db :=
  {| offerCampaigns := offerCampaigns db; products := products db;
     branchDocs := branchDocs db; customers := customers db; orders := orders db;
     connected := false |}.

(** A pen at 9.99, a lamp at 20, a trinket at 10.125. *)
Definition pen : Product := product_ "P1" "Pen" "C1" (dec (999 # 100)).
Definition lamp : Product := product_ "P2" "Lamp" "C1" 20.
Definition trinket : Product := product_ "P3" "Trinket" "C2" (81 # 8).

(** Ten percent off the pen; two off the pen; the lamp at a fixed 50. *)
Definition tenPercentOff : Offer :=
  offer_ "O1" "Ten percent" BulkPercent (Some 10) None [item_ "P1" None None] 0 false.
Definition twoOff : Offer :=
  offer_ "O2" "Two off" BulkAmount None (Some 2) [item_ "P1" None None] 3 true.
Definition lampAtFifty : Offer :=
  offer_ "O3" "Lamp at fifty" PerItem None None [item_ "P2" (Some 50) None] 0 false.

(** The scenarios of the specification on the lamp: ten percent off, a
    fixed price of five, and two stackable campaigns of two off. *)
Definition lampTenPercent : Offer :=
  offer_ "L1" "Lamp ten percent" BulkPercent (Some 10) None [item_ "P2" None None] 0 false.
Definition lampAtFive : Offer :=
  offer_ "L2" "Lamp at five" PerItem None None [item_ "P2" (Some 5) None] 5 false.
Definition lampTwoOffA : Offer :=
  offer_ "L3" "Lamp two off A" BulkAmount None (Some 2) [item_ "P2" None None] 0 true.
Definition lampTwoOffB : Offer :=
  offer_ "L4" "Lamp two off B" BulkAmount None (Some 2) [item_ "P2" None None] 0 true.

Definition catalogue : Db := store_ [tenPercentOff; twoOff; lampAtFifty] [pen; lamp; trinket] [].

(** Three non-stackable campaigns: the first on the lamp, the second on
    the pen and the lamp, the third on the pen. *)
Definition lampOnly : Offer :=
  offer_ "S1" "Lamp week" BulkPercent (Some 5) None [item_ "P2" None None] 7 false.
Definition penAndLamp : Offer :=
  offer_ "S2" "Desk set" BulkPercent (Some 5) None
         [item_ "P1" None None; item_ "P2" None None] 5 false.
Definition penOnly : Offer :=
  offer_ "S3" "Pen days" BulkPercent (Some 5) None [item_ "P1" None None] 3 false.

(** A non-stackable campaign with an item on the lamp that lists the pen
    among its product ids. *)
Definition lampAndListedPen : Offer :=
  {| o_id := "S4"; title := "Lamp and more"; startsAt := None; endsAt := None;
     isActive := true; applyMode := BulkPercent; bulkPercent := Some 5; bulkAmount := None;
     items := [item_ "P2" None None];
     branches := []; cities := []; geo := None;
     categoryIds := []; productIds := ["P1"]; priority := 1; stackable := false;
     branch := None |}.

(** A campaign on the pen for everyone within five kilometres of a
    point, and a store that holds this campaign alone. *)
Definition nearbyOnly : Offer :=
  {| o_id := "G1"; title := "Around the corner"; startsAt := None; endsAt := None;
     isActive := true; applyMode := BulkPercent; bulkPercent := Some 10; bulkAmount := None;
     items := [item_ "P1" None None];
     branches := []; cities := []; geo := Some (Point (467 # 10) (247 # 10) (Some 5000));
     categoryIds := []; productIds := []; priority := 0; stackable := false; branch := None |}.

Definition cornerStore : Db := store_ [nearbyOnly] [pen; lamp; trinket] [].

(** A requester standing on that point. *)
Definition atThePoint : OfferController.LocationContext :=
  {| OfferController.userBranchId := None; OfferController.userCity := None;
     OfferController.userCoordinates := Some (467 # 10, 247 # 10) |}.

Definition fromThePoint : OfferController.ResolveQuery :=
  {| OfferController.q_lat := Some (247 # 10); OfferController.q_lng := Some (467 # 10);
     OfferController.cityName := None; OfferController.q_branchId := None;
     OfferController.cartProductIds := [] |}.

(** Two branches on the meridian of the customer, two degrees and half a
    degree to the north, and a stand-in for the distance in kilometers:
    111 for a degree, along the grid. *)
Definition branch_ (id name : string) (lng lat : Q) : Branch :=
  {| b_id := id; b_name := name; b_city := None; b_location := (lng, lat);
     b_isActive := true |}.

Definition north : Branch := branch_ "B1" "North" 0 2.
Definition depot : Branch := branch_ "B2" "Depot" 0 (1 # 2).

Definition gridDistance (lat1 lon1 lat2 lon2 : Q) : Q :=
  111 * (Qabs (lat2 - lat1) + Qabs (lon2 - lon1)).

Definition farStore : Db := store_ [] [pen] [north].
Definition nearStore : Db := store_ [] [pen] [north; depot].

(** A customer, her address, and two orders for two pens: one at the
    shelf price, one at the price the running campaigns give. *)
Definition alice : Customer := {| c_id := "U1"; savedAddresses := [] |}.

Definition shop : Db :=
  {| offerCampaigns := [tenPercentOff; twoOff; lampAtFifty];
     products := [pen; lamp; trinket]; branchDocs := [north; depot];
     customers := [alice]; orders := []; connected := true |}.

Definition home : ShippingAddress :=
  {| firstName := "Alice"; lastName := "A"; email := Some "alice@example.org";
     phone := "0500000000"; companyName := None; address := "1 Main Street";
     apartment := None; district := "Centre"; buildingNumber := "1";
     secondaryNumber := None; postalCode := None; crNumber := None; vatNumber := None;
     vatRegistered := false |}.

Definition twoPens (sub ship tot : Q) : OrderService.CreateOrderData :=
  {| OrderService.customerId := "U1";
     OrderService.od_items := [{| OrderService.productId := "P1"; OrderService.quantity := 2 |}];
     OrderService.shippingAddress := home;
     OrderService.od_paymentMethod := "cod";
     OrderService.subtotal := sub; OrderService.shipping := ship; OrderService.total := tot;
     OrderService.notes := None; OrderService.saveInfo := true;
     OrderService.customerIpAddress := None; OrderService.clientLocation := None |}.

Definition shelfPriceOrder : OrderService.CreateOrderData :=
  twoPens (dec (1998 # 100)) 10 (dec (2998 # 100)).
Definition campaignPriceOrder : OrderService.CreateOrderData :=
  twoPens (dec (1598 # 100)) 10 (dec (2598 # 100)).

(** A sticker at 0.29 under a campaign of fifty percent, and an order for
    three of them at 0.14 each; an eraser at 0.07 and an order for one at
    0.06. *)
Definition sticker : Product := product_ "P4" "Sticker" "C3" (dec (29 # 100)).
Definition eraser : Product := product_ "P5" "Eraser" "C3" (dec (7 # 100)).

Definition halfPrice : Offer :=
  offer_ "O4" "Half price" BulkPercent (Some 50) None [item_ "P4" None None] 0 false.

Definition kiosk : Db :=
  {| offerCampaigns := [halfPrice]; products := [sticker; eraser]; branchDocs := [];
     customers := [alice]; orders := []; connected := true |}.

Definition basket (pid : string) (qty sub : Q) : OrderService.CreateOrderData :=
  {| OrderService.customerId := "U1";
     OrderService.od_items := [{| OrderService.productId := pid; OrderService.quantity := qty |}];
     OrderService.shippingAddress := home;
     OrderService.od_paymentMethod := "cod";
     OrderService.subtotal := sub; OrderService.shipping := 0; OrderService.total := sub;
     OrderService.notes := None; OrderService.saveInfo := false;
     OrderService.customerIpAddress := None; OrderService.clientLocation := None |}.

Definition threeStickers : OrderService.CreateOrderData := basket "P4" 3 (dec (42 # 100)).
Definition cheapEraser : OrderService.CreateOrderData := basket "P5" 1 (dec (6 # 100)).

Definition noGeolocation (ip : string) : option BranchAssignmentService.LocationData := None.

(** The administrator. *)
Definition admin : OfferController.User :=
  {| OfferController.u_id := "A0"; OfferController.role := OfferController.Admin;
     OfferController.u_branchId := None |}.

Definition unscored (o : Offer) : OfferController.ScoredOffer :=
  {| OfferController.so_offer := o; OfferController.relevanceScore := None |}.

End Samples.

(** * Sample documents with the ids of a store *)

Module Fixtures.

Import OfferController.

(** Ids as the driver writes them: 24 hexadecimal digits. *)
Definition penId : string := "64b0000000000000000000a1".
Definition lampId : string := "64b0000000000000000000a2".
Definition stationeryId : string := "64b0000000000000000000c1".
Definition riyadhId : string := "64b0000000000000000000b1".
Definition jeddahId : string := "64b0000000000000000000b2".
Definition weekId : string := "64b0000000000000000000d1".
Definition saleId : string := "64b0000000000000000000d2".
Definition summerId : string := "64b0000000000000000000d3".
Definition springId : string := "64b0000000000000000000d4".
Definition managerId : string := "64b0000000000000000000e1".
Definition bobId : string := "64b0000000000000000000e2".
Definition homeId : string := "64b0000000000000000000f1".
Definition officeId : string := "64b0000000000000000000f2".
Definition copyId : string := "64b0000000000000000000f3".
Definition firstOrderId : string := "64b000000000000000000101".
Definition secondOrderId : string := "64b000000000000000000102".
Definition thirdOrderId : string := "64b000000000000000000103".

Definition pen : Product := Samples.product_ penId "Pen" stationeryId (dec (999 # 100)).
Definition lamp : Product := Samples.product_ lampId "Lamp" stationeryId 20.

Definition riyadh : Branch :=
  Samples.branch_ riyadhId "Riyadh" (466753 # 10000) (247136 # 10000).
Definition jeddah : Branch :=
  Samples.branch_ jeddahId "Jeddah" (391925 # 10000) (214858 # 10000).

(** A distance in the plane for the sample requests: the numbers of
    ["24.7"] and ["46.7"] are known, any other text is no number. *)
Definition numberOf (s : string) : option Q :=
  if String.eqb s "24.7" then Some (247 # 10)
  else if String.eqb s "46.7" then Some (467 # 10)
  else None.

Definition planeDistance (lat lng : string) (branchLat branchLng : Q) : option Q :=
  match numberOf lat, numberOf lng with
  | Some la, Some ln => Some (Qabs (branchLat - la) + Qabs (branchLng - ln))
  | _, _ => None
  end.

(** Ten percent off the whole stationery category. *)
Definition stationeryWeek : Offer :=
  {| o_id := weekId; title := "Stationery week"; startsAt := None; endsAt := None;
     isActive := true; applyMode := BulkPercent; bulkPercent := Some 10; bulkAmount := None;
     items := []; branches := []; cities := []; geo := None;
     categoryIds := [stationeryId]; productIds := []; priority := 0; stackable := false;
     branch := None |}.

(** The lamp at fifteen, a campaign of the branch in Jeddah. *)
Definition jeddahSale : Offer :=
  {| o_id := saleId; title := "Jeddah sale"; startsAt := None; endsAt := None;
     isActive := true; applyMode := PerItem; bulkPercent := None; bulkAmount := None;
     items := [Samples.item_ lampId (Some 15) None]; branches := []; cities := []; geo := None;
     categoryIds := []; productIds := []; priority := 0; stackable := false;
     branch := Some jeddahId |}.

(** Two off the pen, for everyone, from day 1 on. *)
Definition summer : Offer :=
  {| o_id := summerId; title := "Summer"; startsAt := Some 1%Z; endsAt := None;
     isActive := true; applyMode := BulkAmount; bulkPercent := None; bulkAmount := Some 2;
     items := [Samples.item_ penId None None]; branches := []; cities := []; geo := None;
     categoryIds := []; productIds := []; priority := 2; stackable := false;
     branch := None |}.

(** The lamp at eighteen, from day 1 to day 5. *)
Definition spring : Offer :=
  {| o_id := springId; title := "Spring"; startsAt := Some 1%Z; endsAt := Some 5%Z;
     isActive := true; applyMode := PerItem; bulkPercent := None; bulkAmount := None;
     items := [Samples.item_ lampId (Some 18) None]; branches := []; cities := []; geo := None;
     categoryIds := []; productIds := []; priority := 1; stackable := false;
     branch := None |}.

(** The pen for nothing, and a store that runs this campaign alone. *)
Definition giveaway : Offer :=
  {| o_id := springId; title := "Giveaway"; startsAt := None; endsAt := None;
     isActive := true; applyMode := BulkPercent; bulkPercent := Some 100; bulkAmount := None;
     items := [Samples.item_ penId None None]; branches := []; cities := []; geo := None;
     categoryIds := []; productIds := []; priority := 0; stackable := false;
     branch := None |}.

Definition fair : Db := Samples.store_ [giveaway] [pen; lamp] [].

Definition threePens : OrderService.OrderLine :=
  {| OrderService.productId := penId; OrderService.quantity := 3 |}.

(** A request without a place and without a cart. *)
Definition fromNowhere : ResolveQuery :=
  {| q_lat := None; q_lng := None; cityName := None; q_branchId := None;
     cartProductIds := [] |}.

Definition plainQuery : ProductPricing.PricingQuery :=
  {| ProductPricing.pq_branchId := None; ProductPricing.pq_lat := None;
     ProductPricing.pq_lng := None |}.

(** The manager of the branch in Riyadh. *)
Definition manager : User :=
  {| u_id := managerId; role := BranchRole; u_branchId := Some riyadhId |}.

Definition home : SavedAddress :=
  {| sa_id := homeId; sa_fields := Samples.home; isDefault := true;
     addressLabel := Some "Home" |}.

Definition officeFields : ShippingAddress :=
  {| firstName := "Bob"; lastName := "B"; email := Some "bob@example.org";
     phone := "0500000001"; companyName := Some "Bob and sons"; address := "2 Market Street";
     apartment := None; district := "North"; buildingNumber := "2";
     secondaryNumber := None; postalCode := Some "11564"; crNumber := None;
     vatNumber := None; vatRegistered := false |}.

Definition office : SavedAddress :=
  {| sa_id := officeId; sa_fields := officeFields; isDefault := false;
     addressLabel := Some "Office" |}.

(** The home address once more, under another id. *)
Definition homeCopy : SavedAddress :=
  {| sa_id := copyId; sa_fields := Samples.home; isDefault := false;
     addressLabel := Some "Home again" |}.

Definition bob : Customer := {| c_id := bobId; savedAddresses := [home; office] |}.
Definition bobTwice : Customer := {| c_id := bobId; savedAddresses := [home; office; homeCopy] |}.

Definition market : Db :=
  {| offerCampaigns := [stationeryWeek; jeddahSale; summer; spring];
     products := [pen; lamp]; branchDocs := [riyadh; jeddah];
     customers := [bob]; orders := []; connected := true |}.

Definition marketWithCopy : Db :=
  {| offerCampaigns := []; products := [pen; lamp]; branchDocs := [riyadh; jeddah];
     customers := [bobTwice]; orders := []; connected := true |}.

(** A third address for Bob, to become the default one. *)
Definition cabinFields : ShippingAddress :=
  {| firstName := "Bob"; lastName := "B"; email := None;
     phone := "0500000002"; companyName := None; address := "3 Hill Road";
     apartment := None; district := "South"; buildingNumber := "3";
     secondaryNumber := None; postalCode := None; crNumber := None;
     vatNumber := None; vatRegistered := false |}.

Definition cabin : AddressBook.AddressData :=
  {| AddressBook.ad_fields := cabinFields; AddressBook.ad_vatRegistered := Some false;
     AddressBook.ad_isDefault := Some true;
     AddressBook.ad_addressLabel := None |}.

(** Four requests on the address book of Bob. *)
Definition fourRequests : list (string * AddressSpec.Request) :=
  [ (bobId, AddressSpec.SaveAddress cabin "64b0000000000000000000f4");
    (bobId, AddressSpec.SetDefaultAddress officeId);
    (bobId, AddressSpec.DeleteAddress homeId);
    (bobId, AddressSpec.RemoveDuplicateAddresses) ].

(** A campaign the administrator submits on the lamp for the branch in
    Riyadh. *)
Definition lampForRiyadh : CreateOfferDto :=
  {| c_title := "Riyadh lamps"; c_startsAt := Some 10%Z; c_endsAt := Some 20%Z;
     c_applyMode := PerItem; c_bulkPercent := None; c_bulkAmount := None;
     c_items := [Samples.item_ lampId (Some 16) None]; c_branch := Some riyadhId |}.

(** Campaigns the administrator submits for every branch: on the pen; on
    the pen and a product the store does not have; on the pen, its id
    written in capitals. *)
Definition ghostId : string := "64b0000000000000000000a9".
Definition penIdInCapitals : string := "64B0000000000000000000A1".

Definition forEveryone (its : list OfferItem) : CreateOfferDto :=
  {| c_title := "Back to school"; c_startsAt := None; c_endsAt := None;
     c_applyMode := PerItem; c_bulkPercent := None; c_bulkAmount := None;
     c_items := its; c_branch := None |}.

Definition penAgain : CreateOfferDto := forEveryone [Samples.item_ penId (Some 8) None].
Definition penAndGhost : CreateOfferDto :=
  forEveryone [Samples.item_ penId (Some 8) None; Samples.item_ ghostId (Some 1) None].
Definition penInCapitals : CreateOfferDto :=
  forEveryone [Samples.item_ penIdInCapitals (Some 8) None].

(** Timestamps and authors of the campaigns. *)
Definition createdAt (o : Offer) : Z := priority o.
Definition createdBy (o : Offer) : string := managerId.

(** Errors print as their kind. *)
Definition describe (e : Failure) : string :=
  match e with
  | BSONError _ => "BSONError"
  | MongoError => "MongoError"
  | TypeError m => "TypeError: " +:+ m
  | AppError m _ _ => "Error: " +:+ m
  | ValidationError path => "ValidationError: " +:+ path
  | DuplicateKey path => "MongoServerError: " +:+ path
  | JsError m => "Error: " +:+ m
  end.

(** An order of Bob. *)
Definition order_ (id number : string) (amount : Q) : Order :=
  {| ord_id := id; orderNumber := number; ord_customer := bobId; ord_branch := Some riyadhId;
     ord_items := []; ord_shippingAddress := Samples.home; paymentMethod := "cod";
     ord_subtotal := amount; ord_shipping := 0; ord_total := amount; ord_notes := None;
     ord_customerIpAddress := None; ord_customerLocation := None |}.

Definition doc_ (id number : string) (amount : Q) (s : OrderLifecycle.OrderStatus)
    (delivered : option Z) (created : Z) : OrderLifecycle.OrderDoc :=
  {| OrderLifecycle.fields := order_ id number amount; OrderLifecycle.status := s;
     OrderLifecycle.paymentStatus := OrderLifecycle.payment_pending;
     OrderLifecycle.trackingNumber := None; OrderLifecycle.estimatedDelivery := None;
     OrderLifecycle.deliveredAt := delivered; OrderLifecycle.createdAt := created |}.

(** A delivered order, an order in preparation and a cancelled one. *)
Definition firstOrder : OrderLifecycle.OrderDoc :=
  doc_ firstOrderId "MTC000001" 30 OrderLifecycle.delivered (Some 7%Z) 1.
Definition secondOrder : OrderLifecycle.OrderDoc :=
  doc_ secondOrderId "MTC000002" 12 OrderLifecycle.processing None 2.
Definition thirdOrder : OrderLifecycle.OrderDoc :=
  doc_ thirdOrderId "MTC000003" 8 OrderLifecycle.cancelled None 3.

Definition ledger : OrderLifecycle.OrderStore :=
  {| OrderLifecycle.orderDocs := [firstOrder; secondOrder; thirdOrder];
     OrderLifecycle.reachable := true |}.

(** An update to a status outside the schema, a step back and a
    cancellation. *)
Definition threeRequests : list (Z * OrderSpec.Request) :=
  [ (9%Z, OrderSpec.Update secondOrderId
            (OrderLifecycle.statusOnly (Some OrderLifecycle.confirmed)));
    (10%Z, OrderSpec.Reverse firstOrderId);
    (11%Z, OrderSpec.Cancel secondOrderId (Some "out of stock")) ].

(** An environment without overrides, and a lookup service that is down. *)
Definition production : GeolocationService.Env :=
  {| GeolocationService.DEV_LOCATION_LAT := None; GeolocationService.DEV_LOCATION_LON := None;
     GeolocationService.DEV_LOCATION_CITY := None |}.

Definition offline (ip : string) : Result GeolocationService.IpApiData :=
  Throw (JsError "connect ETIMEDOUT").

(** An order for two pens placed from the loopback address. *)
Definition fromLocalhost : OrderService.CreateOrderData :=
  {| OrderService.customerId := bobId;
     OrderService.od_items :=
       [{| OrderService.productId := penId; OrderService.quantity := 2 |}];
     OrderService.shippingAddress := Samples.home;
     OrderService.od_paymentMethod := "cod";
     OrderService.subtotal := dec (1598 # 100); OrderService.shipping := 10;
     OrderService.total := dec (2598 # 100);
     OrderService.notes := None; OrderService.saveInfo := false;
     OrderService.customerIpAddress := Some "127.0.0.1";
     OrderService.clientLocation := None |}.

End Fixtures.

(** * Properties of the numbers

    The rounding [fl] to the nearest binary64 value is monotone, odd and
    compatible with the equality of the rationals; so are the operations
    built on it. *)

Section NumberFacts.

Lemma Qltb_lt (x y : Q) : Qltb x y = true <-> x < y.
Proof.
  unfold Qltb. rewrite negb_true_iff. split.
  - intros H. apply Qnot_le_lt. intros Hle. apply Qle_bool_iff in Hle. congruence.
  - intros H. destruct (Qle_bool y x) eqn:E; [|reflexivity].
    apply Qle_bool_iff in E. lra.
Qed.

Lemma Qltb_ge (x y : Q) : Qltb x y = false <-> y <= x.
Proof.
  unfold Qltb. rewrite negb_false_iff. apply Qle_bool_iff.
Qed.

Lemma pow2_pos e : 0 < pow2 e.
Proof. apply Qpower_0_lt. reflexivity. Qed.

Lemma pow2_le a b : (a <= b)%Z -> pow2 a <= pow2 b.
Proof. intros H. apply Qpower_le_compat_l; [exact H | discriminate]. Qed.

Lemma pow2_lt a b : (a < b)%Z -> pow2 a < pow2 b.
Proof. intros H. apply Qpower_lt_compat_l; [exact H | reflexivity]. Qed.

Lemma pow2_plus a b : pow2 (a + b) == pow2 a * pow2 b.
Proof. apply Qpower_plus. discriminate. Qed.

Lemma pow2_succ a : pow2 (a + 1) == 2 * pow2 a.
Proof. rewrite pow2_plus. unfold pow2 at 2. rewrite Qpower_1_r. ring. Qed.

Lemma pow2_Z a : (0 <= a)%Z -> pow2 a == inject_Z (2 ^ a).
Proof. intros H. unfold pow2. now rewrite Zpower_Qpower. Qed.

Lemma ilog2_bounds (x : Q) : 0 < x -> pow2 (ilog2 x) <= x /\ x < pow2 (ilog2 x + 1).
Proof.
  intros Hx. destruct x as [n d]. 
  assert (Hn : (0 < n)%Z).
  { unfold Qlt in Hx. simpl in Hx. lia. }
  unfold ilog2. cbn [Qnum Qden].
  set (a := Z.log2 n). set (b := Z.log2 (Z.pos d)).
  destruct (Z.log2_spec n Hn) as [Ha1 Ha2]. fold a in Ha1, Ha2.
  destruct (Z.log2_spec (Z.pos d) eq_refl) as [Hb1 Hb2]. fold b in Hb1, Hb2.
  assert (Ha0 : (0 <= a)%Z) by apply Z.log2_nonneg.
  assert (Hb0 : (0 <= b)%Z) by apply Z.log2_nonneg.
  assert (HA := pow2_Z a Ha0). assert (HB := pow2_Z b Hb0).
  assert (Hx' : n # d == inject_Z n / inject_Z (Z.pos d)) by apply Qmake_Qdiv.
  assert (HD : 0 < inject_Z (Z.pos d)) by reflexivity.
  assert (HN1 : pow2 a <= inject_Z n).
  { rewrite HA. now rewrite <- Zle_Qle. }
  assert (HN2 : inject_Z n < 2 * pow2 a).
  { rewrite <- pow2_succ, (pow2_Z (a + 1)) by lia. rewrite <- Zlt_Qlt.
    replace (a + 1)%Z with (Z.succ a) by lia. exact Ha2. }
  assert (HD1 : pow2 b <= inject_Z (Z.pos d)).
  { rewrite HB. now rewrite <- Zle_Qle. }
  assert (HD2 : inject_Z (Z.pos d) < 2 * pow2 b).
  { rewrite <- pow2_succ, (pow2_Z (b + 1)) by lia. rewrite <- Zlt_Qlt.
    replace (b + 1)%Z with (Z.succ b) by lia. exact Hb2. }
  assert (HPA := pow2_pos a). assert (HPB := pow2_pos b).
  assert (Hk : pow2 a == pow2 (a - b) * pow2 b).
  { rewrite <- pow2_plus. now replace (a - b + b)%Z with a by lia. }
  assert (HPK := pow2_pos (a - b)).
  set (N := inject_Z n) in *. set (D := inject_Z (Z.pos d)) in *.
  assert (Hq : n # d == N / D) by exact Hx'.
  assert (Hmul : (n # d) * D == N).
  { rewrite Hq. field. intros E. rewrite E in HD. inversion HD. }
  set (X := n # d) in *.
  set (K := pow2 (a - b)) in *. set (A := pow2 a) in *. set (B := pow2 b) in *.
  assert (Hup : X < 2 * K).
  { apply Qnot_le_lt. intros Hc.
    assert (2 * K * D <= X * D) by (apply Qmult_le_compat_r; [exact Hc | now apply Qlt_le_weak]).
    assert (2 * K * B <= 2 * K * D).
    { rewrite !(Qmult_comm (2 * K)). apply Qmult_le_compat_r; [exact HD1 | lra]. }
    lra. }
  assert (Hlow : K <= 2 * X).
  { apply Qnot_lt_le. intros Hc.
    assert (2 * X * D < K * D) by (apply Qmult_lt_compat_r; [exact HD | exact Hc]).
    assert (K * D < K * (2 * B)).
    { rewrite !(Qmult_comm K). apply Qmult_lt_compat_r; [exact HPK | exact HD2]. }
    assert (2 * X * D == 2 * N) by (rewrite <- Hmul; ring).
    lra. }
  destruct (Qle_bool K X) eqn:E.
  - apply Qle_bool_iff in E. split; [exact E|]. rewrite pow2_succ. exact Hup.
  - assert (HltK : X < K).
    { apply Qnot_le_lt. intros Hc. apply Qle_bool_iff in Hc. congruence. }
    replace (a - b - 1 + 1)%Z with (a - b)%Z by lia. split; [|exact HltK].
    assert (Hs : pow2 (a - b) == 2 * pow2 (a - b - 1)).
    { rewrite <- pow2_succ. now replace (a - b - 1 + 1)%Z with (a - b)%Z by lia. }
    fold K in Hs. lra.
Qed.

Lemma ilog2_unique (x : Q) (k : Z) : pow2 k <= x -> x < pow2 (k + 1) -> ilog2 x = k.
Proof.
  intros H1 H2.
  assert (Hx : 0 < x) by (eapply Qlt_le_trans; [apply pow2_pos | exact H1]).
  destruct (ilog2_bounds x Hx) as [B1 B2].
  destruct (Z.lt_trichotomy (ilog2 x) k) as [Hlt | [Heq | Hgt]]; [|exact Heq|].
  - exfalso. assert (pow2 (ilog2 x + 1) <= pow2 k) by (apply pow2_le; lia). lra.
  - exfalso. assert (pow2 (k + 1) <= pow2 (ilog2 x)) by (apply pow2_le; lia). lra.
Qed.

Lemma ilog2_comp (x y : Q) : 0 < x -> x == y -> ilog2 x = ilog2 y.
Proof.
  intros Hx E. destruct (ilog2_bounds x Hx) as [B1 B2].
  symmetry. apply ilog2_unique; rewrite <- E; assumption.
Qed.

Lemma ilog2_le (x y : Q) : 0 < x -> x <= y -> (ilog2 x <= ilog2 y)%Z.
Proof.
  intros Hx Hxy. assert (Hy : 0 < y) by lra.
  destruct (ilog2_bounds x Hx) as [B1 B2]. destruct (ilog2_bounds y Hy) as [C1 C2].
  destruct (Z_le_gt_dec (ilog2 x) (ilog2 y)) as [H | H]; [exact H|].
  exfalso. assert (pow2 (ilog2 y + 1) <= pow2 (ilog2 x)) by (apply pow2_le; lia). lra.
Qed.

Lemma Qfloor_unique (x : Q) (z : Z) : inject_Z z <= x -> x < inject_Z z + 1 -> Qfloor x = z.
Proof.
  intros H1 H2.
  assert (L := Qfloor_le x). assert (U := Qlt_floor x).
  assert (A : (Qfloor x < z + 1)%Z).
  { rewrite Zlt_Qlt, inject_Z_plus. change (inject_Z 1) with 1. lra. }
  assert (B : (z < Qfloor x + 1)%Z).
  { rewrite Zlt_Qlt. lra. }
  lia.
Qed.

Lemma roundHalfEven_comp (x y : Q) : x == y -> roundHalfEven x = roundHalfEven y.
Proof.
  intros E. unfold roundHalfEven. rewrite (Qfloor_comp _ _ E).
  assert (E2 : x - inject_Z (Qfloor y) == y - inject_Z (Qfloor y)) by (rewrite E; reflexivity).
  now rewrite (Qcompare_comp _ _ E2 _ _ (Qeq_refl (1 # 2))).
Qed.

Lemma roundHalfEven_range (x : Q) :
  (Qfloor x <= roundHalfEven x <= Qfloor x + 1)%Z.
Proof.
  unfold roundHalfEven.
  destruct (Qcompare _ _); [destruct (Z.even _)| |]; lia.
Qed.

Lemma roundHalfEven_le (x y : Q) : x <= y -> (roundHalfEven x <= roundHalfEven y)%Z.
Proof.
  intros H. assert (Hf := Qfloor_resp_le _ _ H).
  destruct (Z.eq_dec (Qfloor x) (Qfloor y)) as [E | NE].
  - unfold roundHalfEven. rewrite <- E.
    destruct (Qcompare_spec (x - inject_Z (Qfloor x)) (1 # 2)) as [Hx | Hx | Hx];
      destruct (Qcompare_spec (y - inject_Z (Qfloor x)) (1 # 2)) as [Hy | Hy | Hy];
      try destruct (Z.even _); try lia; exfalso; lra.
  - assert (R1 := roundHalfEven_range x). assert (R2 := roundHalfEven_range y). lia.
Qed.

Lemma roundHalfEven_Z (z : Z) : roundHalfEven (inject_Z z) = z.
Proof.
  unfold roundHalfEven. rewrite Qfloor_Z.
  destruct (Qcompare_spec (inject_Z z - inject_Z z) (1 # 2)) as [H | H | H];
    [exfalso; lra | reflexivity | exfalso; lra].
Qed.

Lemma roundHalfEven_opp (x : Q) : roundHalfEven (- x) = (- roundHalfEven x)%Z.
Proof.
  assert (L := Qfloor_le x). assert (U := Qlt_floor x).
  rewrite inject_Z_plus in U. change (inject_Z 1) with 1 in U.
  destruct (Qeq_dec x (inject_Z (Qfloor x))) as [E | NE].
  - rewrite (roundHalfEven_comp x _ E), roundHalfEven_Z.
    assert (E' : - x == inject_Z (- Qfloor x)) by (rewrite inject_Z_opp, <- E; reflexivity).
    now rewrite (roundHalfEven_comp _ _ E'), roundHalfEven_Z.
  - assert (I : inject_Z (- Qfloor x - 1) == - inject_Z (Qfloor x) - 1).
    { replace (- Qfloor x - 1)%Z with (- (Qfloor x + 1))%Z by lia.
      rewrite inject_Z_opp, inject_Z_plus. change (inject_Z 1) with 1. ring. }
    assert (S : inject_Z (Qfloor x) < x).
    { apply Qle_lt_or_eq in L. destruct L as [L | L]; [exact L | exfalso; apply NE; now symmetry]. }
    assert (F : Qfloor (- x) = (- Qfloor x - 1)%Z).
    { apply Qfloor_unique; rewrite I; lra. }
    unfold roundHalfEven. rewrite F.
    assert (E2 : - x - inject_Z (- Qfloor x - 1) == 1 - (x - inject_Z (Qfloor x))).
    { rewrite I. ring. }
    rewrite (Qcompare_comp _ _ E2 _ _ (Qeq_refl (1 # 2))).
    destruct (Qcompare_spec (x - inject_Z (Qfloor x)) (1 # 2)) as [Hx | Hx | Hx];
      destruct (Qcompare_spec (1 - (x - inject_Z (Qfloor x))) (1 # 2)) as [Hy | Hy | Hy];
      try (exfalso; lra); try lia.
    replace (- Qfloor x - 1)%Z with (- (Qfloor x + 1))%Z by lia.
    rewrite Z.even_opp, Z.even_add. change (Z.even 1) with false.
    destruct (Z.even (Qfloor x)); cbn; lia.
Qed.

Lemma Qeq_bool_false_neq (x : Q) : Qeq_bool x 0 = false -> ~ x == 0.
Proof. intros H E. apply Qeq_bool_iff in E. congruence. Qed.

Lemma Qabs_pos_lt (x : Q) : ~ x == 0 -> 0 < Qabs x.
Proof.
  intros H. destruct (Qlt_le_dec 0 x) as [L | L].
  - rewrite Qabs_pos; lra.
  - rewrite Qabs_neg by exact L.
    apply Qle_lt_or_eq in L. destruct L as [L | L]; [lra | contradiction].
Qed.

Lemma ulpExponent_comp (x y : Q) : ~ x == 0 -> x == y -> ulpExponent x = ulpExponent y.
Proof.
  intros H E. unfold ulpExponent.
  rewrite (ilog2_comp (Qabs x) (Qabs y)); [reflexivity | now apply Qabs_pos_lt | now rewrite E].
Qed.

Lemma ulpExponent_opp (x : Q) : ~ x == 0 -> ulpExponent (- x) = ulpExponent x.
Proof.
  intros H. unfold ulpExponent.
  rewrite (ilog2_comp (Qabs (- x)) (Qabs x)); [reflexivity | | apply Qabs_opp].
  apply Qabs_pos_lt. intros E. apply H. lra.
Qed.

Lemma ulpExponent_pos (x : Q) : 0 < x -> ulpExponent x = Z.max (ilog2 x - 52) (-1074).
Proof.
  intros H. unfold ulpExponent.
  rewrite (ilog2_comp (Qabs x) x); [reflexivity | | apply Qabs_pos; lra].
  apply Qabs_pos_lt. intros E. lra.
Qed.

Lemma fl_comp (x y : Q) : x == y -> fl x == fl y.
Proof.
  intros E. unfold fl.
  destruct (Qeq_bool x 0) eqn:Hx; destruct (Qeq_bool y 0) eqn:Hy.
  - reflexivity.
  - apply Qeq_bool_iff in Hx. apply Qeq_bool_false_neq in Hy. exfalso. apply Hy. transitivity x; [now symmetry | exact Hx].
  - apply Qeq_bool_iff in Hy. apply Qeq_bool_false_neq in Hx. exfalso. apply Hx. transitivity y; [exact E | exact Hy].
  - apply Qeq_bool_false_neq in Hx. cbv zeta.
    rewrite <- (ulpExponent_comp x y Hx E).
    rewrite (roundHalfEven_comp (x / pow2 (ulpExponent x)) (y / pow2 (ulpExponent x)));
      [reflexivity | unfold Qdiv; apply Qmult_comp; [exact E | reflexivity]].
Qed.

Lemma fl_0 (x : Q) : x == 0 -> fl x == 0.
Proof. intros E. unfold fl. apply Qeq_bool_iff in E. now rewrite E. Qed.

Lemma fl_nonzero (x : Q) : ~ x == 0 ->
  fl x = inject_Z (roundHalfEven (x / pow2 (ulpExponent x))) * pow2 (ulpExponent x).
Proof.
  intros H. unfold fl. destruct (Qeq_bool x 0) eqn:E; [|reflexivity].
  apply Qeq_bool_iff in E. contradiction.
Qed.

Lemma fl_opp (x : Q) : fl (- x) == - fl x.
Proof.
  destruct (Qeq_dec x 0) as [E | NE].
  - rewrite (fl_0 x E), (fl_0 (- x)); [reflexivity | lra].
  - rewrite (fl_nonzero x NE), (fl_nonzero (- x)) by (intros E; apply NE; lra).
    rewrite (ulpExponent_opp x NE).
    assert (P := pow2_pos (ulpExponent x)).
    rewrite (roundHalfEven_comp (- x / pow2 (ulpExponent x)) (- (x / pow2 (ulpExponent x)))).
    + rewrite roundHalfEven_opp, inject_Z_opp. ring.
    + field. lra.
Qed.

Lemma fl_nonneg (x : Q) : 0 <= x -> 0 <= fl x.
Proof.
  intros H. destruct (Qeq_dec x 0) as [E | NE].
  - rewrite (fl_0 x E). lra.
  - rewrite (fl_nonzero x NE). assert (P := pow2_pos (ulpExponent x)).
    apply Qmult_le_0_compat; [|lra].
    change 0 with (inject_Z 0). rewrite <- Zle_Qle.
    rewrite <- (roundHalfEven_Z 0). apply roundHalfEven_le.
    change (inject_Z 0) with 0. apply Qle_shift_div_l; lra.
Qed.

Lemma fl_le_pos (x y : Q) : 0 < x -> x <= y -> fl x <= fl y.
Proof.
  intros Hx Hxy. assert (Hy : 0 < y) by lra.
  rewrite (fl_nonzero x), (fl_nonzero y) by lra.
  assert (Ex := ulpExponent_pos x Hx). assert (Ey := ulpExponent_pos y Hy).
  assert (Hl := ilog2_le x y Hx Hxy).
  destruct (ilog2_bounds x Hx) as [Bx1 Bx2]. destruct (ilog2_bounds y Hy) as [By1 By2].
  set (ex := ulpExponent x) in *. set (ey := ulpExponent y) in *.
  assert (Px := pow2_pos ex). assert (Py := pow2_pos ey).
  destruct (Z.eq_dec ex ey) as [E | NE].
  - rewrite <- E. apply Qmult_le_compat_r; [|lra].
    rewrite <- Zle_Qle. apply roundHalfEven_le.
    apply Qmult_le_compat_r; [exact Hxy|]. apply Qlt_le_weak, Qinv_lt_0_compat, Px.
  - assert (Hlt : (ex < ey)%Z) by lia.
    assert (Hey : ey = (ilog2 y - 52)%Z) by lia.
    apply Qle_trans with (pow2 (ex + 53)).
    + rewrite (pow2_plus ex 53), (Qmult_comm (pow2 ex)). apply Qmult_le_compat_r; [|lra].
      rewrite (pow2_Z 53) by lia. rewrite <- Zle_Qle.
      rewrite <- (roundHalfEven_Z (2 ^ 53)). apply roundHalfEven_le.
      rewrite <- (pow2_Z 53) by lia.
      apply Qle_shift_div_r; [exact Px|]. rewrite <- pow2_plus.
      apply Qlt_le_weak, Qlt_le_trans with (1 := Bx2). apply pow2_le. lia.
    + apply Qle_trans with (pow2 (ey + 52)); [apply pow2_le; lia|].
      rewrite (pow2_plus ey 52), (Qmult_comm (pow2 ey)). apply Qmult_le_compat_r; [|lra].
      rewrite (pow2_Z 52) by lia. rewrite <- Zle_Qle.
      rewrite <- (roundHalfEven_Z (2 ^ 52)) at 1. apply roundHalfEven_le.
      rewrite <- (pow2_Z 52) by lia.
      apply Qle_shift_div_l; [exact Py|]. rewrite <- pow2_plus.
      replace (52 + ey)%Z with (ilog2 y) by lia. exact By1.
Qed.

Lemma fl_le (x y : Q) : x <= y -> fl x <= fl y.
Proof.
  intros H. destruct (Qlt_le_dec 0 x) as [Hx | Hx].
  - now apply fl_le_pos.
  - destruct (Qlt_le_dec y 0) as [Hy | Hy].
    + assert (L : fl (- y) <= fl (- x)) by (apply fl_le_pos; lra).
      rewrite !fl_opp in L. lra.
    + assert (A : 0 <= fl y) by now apply fl_nonneg.
      assert (B : 0 <= fl (- x)) by (apply fl_nonneg; lra).
      rewrite fl_opp in B. lra.
Qed.

#[global] Instance fl_proper : Proper (Qeq ==> Qeq) fl.
Proof. intros x y E. now apply fl_comp. Qed.

Lemma fl_1 : fl 1 == 1.
Proof. vm_compute. reflexivity. Qed.

Lemma fl_100 : fl 100 == 100.
Proof. vm_compute. reflexivity. Qed.

Lemma Math_round_le (x y : Q) : x <= y -> Math_round x <= Math_round y.
Proof.
  intros H. unfold Math_round. rewrite <- Zle_Qle. apply Qfloor_resp_le. lra.
Qed.

Lemma Number_mul_le_r (x y z : Q) : 0 <= z -> x <= y -> x ⊗ z <= y ⊗ z.
Proof. intros Hz H. apply fl_le. now apply Qmult_le_compat_r. Qed.

Lemma Number_div_le_r (x y z : Q) : 0 < z -> x <= y -> x ⊘ z <= y ⊘ z.
Proof.
  intros Hz H. apply fl_le. apply Qmult_le_compat_r; [exact H|].
  now apply Qlt_le_weak, Qinv_lt_0_compat.
Qed.

Lemma round2_le (x y : Q) : x <= y -> round2 x <= round2 y.
Proof.
  intros H. unfold round2.
  apply Number_div_le_r; [reflexivity|].
  apply Math_round_le. apply Number_mul_le_r; [discriminate | exact H].
Qed.

Lemma round2_comp (x y : Q) : x == y -> round2 x == round2 y.
Proof.
  intros H. apply Qle_antisym; apply round2_le; lra.
Qed.

Lemma round2_0 : round2 0 == 0.
Proof. vm_compute. reflexivity. Qed.

Lemma round2_nonneg (x : Q) : 0 <= x -> 0 <= round2 x.
Proof.
  intros H. rewrite <- round2_0. now apply round2_le.
Qed.

End NumberFacts.

(** * Properties of the pricing calculator *)

Section PricingLoop.

Import OfferService PricingSpec.

Variable db : Db.
Variable prod : Product.

(** The item the loop finds for the product is the campaign's entry for it. *)
Lemma directItem_entryFor (o : Offer) :
  directItem db o (p_id prod) = entryFor db o prod.
Proof.
  unfold directItem, entryFor, populate.
  assert (H : forall item : OfferItem,
             match List.find (fun p => String.eqb (p_id p) (product item)) (products db) with
             | Some p => String.eqb (p_id p) (p_id prod)
             | None => false
             end
             = String.eqb (product item) (p_id prod) && stocked db prod).
  { intros item.
    destruct (List.find _ (products db)) as [p|] eqn:Hfind.
    - apply List.find_some in Hfind. destruct Hfind as [Hin Heq].
      apply String.eqb_eq in Heq. rewrite Heq.
      destruct (String.eqb (product item) (p_id prod)) eqn:E; [|reflexivity].
      symmetry. apply andb_true_iff. split; [reflexivity|].
      apply List.existsb_exists. exists p. split; [exact Hin|].
      apply String.eqb_eq in E. rewrite <- E, Heq. apply String.eqb_refl.
    - destruct (String.eqb (product item) (p_id prod)) eqn:E; [|reflexivity].
      apply String.eqb_eq in E. symmetry. apply not_true_is_false. intros Hs.
      apply List.existsb_exists in Hs. destruct Hs as (p & Hin & Hp).
      pose proof (List.find_none _ _ Hfind p Hin) as Hn. cbn beta in Hn.
      rewrite E in Hn. congruence. }
  induction (items o) as [|item rest IH]; cbn [List.find].
  - now destruct (stocked db prod).
  - rewrite H, IH.
    destruct (String.eqb (product item) (p_id prod)); destruct (stocked db prod); reflexivity.
Qed.

Lemma truthyAndPositive_positive (o : option Q) :
  (truthyAndPositive o = true /\ exists q, o = Some q /\ positive o = Some q /\ 0 < q)
  \/ (truthyAndPositive o = false /\ positive o = None).
Proof.
  destruct o as [q|]; simpl; [|now right].
  destruct (Qltb 0 q) eqn:E.
  - left. apply Qltb_lt in E.
    destruct (Qeq_bool q 0) eqn:E0.
    + apply Qeq_bool_iff in E0. lra.
    + simpl. eauto.
  - right. now rewrite andb_false_r.
Qed.

Lemma truthy_nonzero (o : option Q) :
  (truthy o = true /\ exists q, o = Some q /\ nonzero o = Some q /\ ~ q == 0)
  \/ (truthy o = false /\ nonzero o = None).
Proof.
  destruct o as [q|]; simpl; [|right; auto].
  destruct (Qeq_bool q 0) eqn:E.
  - right. auto.
  - left. split; [reflexivity|]. exists q. split; [reflexivity|]. split; [reflexivity|].
    intros H. apply Qeq_bool_iff in H. congruence.
Qed.

(** The loop's test of a campaign is the coverage of the product, and the
    price it computes for a covering campaign is the computed price. *)
Lemma appliesAndPrice_covers (o : Offer) :
  appliesAndPrice db o prod
  = (covers db o prod, if covers db o prod then computedPrice db o prod else price prod).
Proof.
  unfold appliesAndPrice, covers, computedPrice. rewrite directItem_entryFor.
  assert (Hp : forall l, existsb (fun pid => String.eqb pid (p_id prod)) l
                         = existsb (String.eqb (p_id prod)) l).
  { intros l. induction l as [|x l IH]; [reflexivity|].
    cbn [existsb]. now rewrite IH, String.eqb_sym. }
  assert (Hc : forall l, existsb (fun cid => match category prod with
                                             | Some c => String.eqb cid c
                                             | None => false
                                             end) l
                         = match category prod with
                           | Some c => existsb (String.eqb c) l
                           | None => false
                           end).
  { intros l. destruct (category prod) as [c|].
    - induction l as [|x l IH]; [reflexivity|]. cbn [existsb]. now rewrite IH, String.eqb_sym.
    - induction l as [|x l IH]; [reflexivity|]. cbn [existsb]. exact IH. }
  rewrite Hp, Hc.
  set (inIds := existsb (String.eqb (p_id prod)) (productIds o)).
  set (inCats := match category prod with
                 | Some c => existsb (String.eqb c) (categoryIds o)
                 | None => false
                 end).
  assert (Hids : (0 <? List.length (productIds o))%nat = false -> inIds = false).
  { unfold inIds. destruct (productIds o); [reflexivity | discriminate]. }
  assert (Hcats : (0 <? List.length (categoryIds o))%nat = false -> inCats = false).
  { unfold inCats. destruct (categoryIds o); [now destruct (category prod) | discriminate]. }
  assert (Hstage : forall a test e : bool,
             (test = false -> e = false) ->
             (if negb a && test then if e then true else a else a) = a || e).
  { intros [] [] [] H; try reflexivity; discriminate (H eq_refl). }
  destruct (entryFor db o prod) as [item|].
  - rewrite !Hstage by assumption. cbn [orb andb].
    destruct (applyMode o); cbn [ApplyMode_eqb andb negb].
    + destruct (truthyAndPositive_positive (offerPrice item)) as [(-> & q & -> & -> & _) | (-> & ->)];
        [reflexivity|].
      destruct (truthyAndPositive_positive (percent item)) as [(-> & q & -> & -> & _) | (-> & ->)];
        reflexivity.
    + destruct (truthy_nonzero (bulkPercent o)) as [(-> & q & -> & -> & _) | (-> & ->)];
        reflexivity.
    + destruct (truthy_nonzero (bulkAmount o)) as [(-> & q & -> & -> & _) | (-> & ->)];
        reflexivity.
  - rewrite !Hstage by assumption. cbn [orb].
    destruct (inIds || inCats); cbn [andb]; [|reflexivity].
    destruct (applyMode o); cbn [ApplyMode_eqb andb negb].
    + reflexivity.
    + destruct (truthy_nonzero (bulkPercent o)) as [(-> & q & -> & -> & _) | (-> & ->)];
        reflexivity.
    + destruct (truthy_nonzero (bulkAmount o)) as [(-> & q & -> & -> & _) | (-> & ->)];
        reflexivity.
Qed.

Lemma offerStep_cases (st : PriceState) (o : Offer) :
  (covers db o prod = true /\ computedPrice db o prod < st_effectivePrice st
   /\ st_effectivePrice (offerStep db prod st o) = computedPrice db o prod
   /\ st_hasOffer (offerStep db prod st o) = true)
  \/ ((covers db o prod = false \/ st_effectivePrice st <= computedPrice db o prod)
      /\ offerStep db prod st o = st).
Proof.
  unfold offerStep. rewrite appliesAndPrice_covers.
  destruct (covers db o prod); simpl.
  - destruct (Qltb (computedPrice db o prod) (st_effectivePrice st)) eqn:E.
    + left. apply Qltb_lt in E. auto.
    + right. apply Qltb_ge in E. auto.
  - right. auto.
Qed.

Lemma candidatePrices_cons (o : Offer) (offers : list Offer) :
  candidatePrices db (o :: offers) prod =
    (if covers db o prod then [computedPrice db o prod] else [])
      ++ candidatePrices db offers prod.
Proof.
  unfold candidatePrices. cbn [List.filter]. now destruct (covers db o prod).
Qed.

(** The loop keeps a least element of the start price and the candidate
    prices, and [hasOffer] tells whether the price went down. *)
Lemma fold_offerStep_lowest (offers : list Offer) :
  forall st : PriceState,
    let st' := fold_left (offerStep db prod) offers st in
    In (st_effectivePrice st') (st_effectivePrice st :: candidatePrices db offers prod)
    /\ st_effectivePrice st' <= st_effectivePrice st
    /\ Forall (fun c => st_effectivePrice st' <= c) (candidatePrices db offers prod)
    /\ st_hasOffer st' = st_hasOffer st || Qltb (st_effectivePrice st') (st_effectivePrice st).
Proof.
  induction offers as [|o offers IH]; intros st; cbn [fold_left].
  - simpl. repeat split; auto; try lra.
    destruct (Qltb _ _) eqn:E; [apply Qltb_lt in E; lra | now rewrite orb_false_r].
  - rewrite candidatePrices_cons.
    destruct (IH (offerStep db prod st o)) as (Hin & Hle & Hall & Hhas).
    destruct (offerStep_cases st o) as [(Ha & Hlt & Heff & Hho) | (Hno & Hsame)].
    + rewrite Ha. rewrite Heff in *. rewrite Hho in Hhas. simpl in *.
      repeat split.
      * destruct Hin as [Hin | Hin]; auto.
      * lra.
      * constructor; auto.
      * rewrite Hhas. symmetry. apply orb_true_iff. right. apply Qltb_lt. lra.
    + rewrite Hsame in *. repeat split; auto.
      * destruct Hin as [Hin | Hin]; [now left | right; apply in_or_app; now right].
      * apply Forall_app. split; auto.
        destruct Hno as [Hf | Hge]; [rewrite Hf; constructor|].
        destruct (covers db o prod); constructor; [lra | constructor].
Qed.

Lemma priceProduct_lowest (offers : list Offer) :
  exists m : Q,
    isMinimum m (price prod :: candidatePrices db offers prod)
    /\ effectivePrice (priceProduct db offers prod) = round2 m
    /\ hasOffer (priceProduct db offers prod) = Qltb m (price prod).
Proof.
  pose proof (fold_offerStep_lowest offers
                {| st_effectivePrice := price prod; st_hasOffer := false;
                   st_offerDiscount := 0; st_offerPercent := 0;
                   st_applicableOffers := [] |}) as H.
  simpl in H. destruct H as (Hin & Hle & Hall & Hhas).
  eexists. split; [split; [exact Hin | constructor; [exact Hle | exact Hall]] |].
  split; [reflexivity | exact Hhas].
Qed.

Lemma isMinimum_unique (m m' : Q) (l l' : list Q) :
  Permutation l l' -> isMinimum m l -> isMinimum m' l' -> m == m'.
Proof.
  intros HP [Hin Hall] [Hin' Hall'].
  rewrite List.Forall_forall in Hall, Hall'.
  apply Qle_antisym.
  - apply Hall. eapply Permutation_in; [symmetry; exact HP | exact Hin'].
  - apply Hall'. eapply Permutation_in; [exact HP | exact Hin].
Qed.

Lemma candidatePrices_perm (offers offers' : list Offer) :
  Permutation offers offers' ->
  Permutation (candidatePrices db offers prod) (candidatePrices db offers' prod).
Proof.
  intros HP. induction HP; rewrite ?candidatePrices_cons.
  - constructor.
  - now apply Permutation_app_head.
  - rewrite !app_assoc. apply Permutation_app_tail. apply Permutation_app_comm.
  - etransitivity; eauto.
Qed.

Lemma appliesAndPrice_withRank (o : Offer) (rank : Z * bool) :
  appliesAndPrice db (withRank o rank) prod = appliesAndPrice db o prod.
Proof. reflexivity. Qed.

Lemma offerStep_withRank (st : PriceState) (o : Offer) (rank : Z * bool) :
  offerStep db prod st (withRank o rank) = offerStep db prod st o.
Proof. reflexivity. Qed.

Lemma priceProduct_withRank (rank : Offer -> Z * bool) (offers : list Offer) :
  priceProduct db (map (fun o => withRank o (rank o)) offers) prod
  = priceProduct db offers prod.
Proof.
  unfold priceProduct.
  assert (H : forall st, fold_left (offerStep db prod) (map (fun o => withRank o (rank o)) offers) st
                         = fold_left (offerStep db prod) offers st).
  { induction offers as [|o offers IH]; intros st; simpl; [reflexivity|].
    rewrite offerStep_withRank. apply IH. }
  rewrite H. reflexivity.
Qed.

End PricingLoop.

Section LowestPrice.

Import OfferService PricingSpec.

Lemma isMinimum_le_head (m x : Q) (l : list Q) : isMinimum m (x :: l) -> m <= x.
Proof. intros [_ H]. now inversion H. Qed.

Lemma hasOffer_existsb (db : Db) (offers : list Offer) (prod : Product) :
  hasOffer (priceProduct db offers prod)
  = existsb (fun c => Qltb c (price prod)) (candidatePrices db offers prod).
Proof.
  destruct (priceProduct_lowest db prod offers) as (m & [Hin Hall] & _ & Hhas).
  rewrite Hhas. inversion Hall as [|? ? Hm Hrest]; subst.
  destruct (existsb _ _) eqn:E.
  - apply List.existsb_exists in E. destruct E as (c & Hc & Hlt).
    apply Qltb_lt in Hlt. apply Qltb_lt.
    rewrite List.Forall_forall in Hrest. specialize (Hrest c Hc). lra.
  - destruct (Qltb m (price prod)) eqn:Hlt; [|reflexivity].
    destruct Hin as [Hin | Hin].
    + subst m. apply Qltb_lt in Hlt. lra.
    + assert (Hex : existsb (fun c => Qltb c (price prod)) (candidatePrices db offers prod) = true)
        by (apply List.existsb_exists; eauto).
      congruence.
Qed.

(** C1 (amended): the effective price is the lowest of the original price
    and the prices of the applicable campaigns, rounded to two decimals;
    [hasOffer] holds exactly when some applicable campaign goes below the
    original price; neither depends on the priority or the stackable flag
    of a campaign, nor on the order of the campaigns; and with no campaign
    below the original price the product keeps its (rounded) price. *)
Theorem C1_lowest_price_rounded (db : Db) (offers : list Offer) (prod : Product) :
  (exists m : Q,
      isMinimum m (price prod :: candidatePrices db offers prod)
      /\ effectivePrice (priceProduct db offers prod) = round2 m)
  /\ hasOffer (priceProduct db offers prod)
     = existsb (fun c => Qltb c (price prod)) (candidatePrices db offers prod)
  /\ (Forall (fun c => price prod <= c) (candidatePrices db offers prod) ->
      effectivePrice (priceProduct db offers prod) == round2 (price prod)
      /\ hasOffer (priceProduct db offers prod) = false)
  /\ (forall rank : Offer -> Z * bool,
         priceProduct db (map (fun o => withRank o (rank o)) offers) prod
         = priceProduct db offers prod)
  /\ (forall offers' : list Offer,
         Permutation offers offers' ->
         effectivePrice (priceProduct db offers' prod)
         == effectivePrice (priceProduct db offers prod)
         /\ hasOffer (priceProduct db offers' prod) = hasOffer (priceProduct db offers prod)).
Proof.
  destruct (priceProduct_lowest db prod offers) as (m & Hmin & Heff & Hhas).
  split; [exists m; auto|].
  split; [apply hasOffer_existsb|].
  split.
  { intros Hall. split.
    - rewrite Heff. apply round2_comp. apply Qle_antisym.
      + now apply isMinimum_le_head in Hmin.
      + destruct Hmin as [[Hin | Hin] _]; [subst; lra|].
        rewrite List.Forall_forall in Hall. now apply Hall.
    - rewrite hasOffer_existsb. destruct (existsb _ _) eqn:E; [|reflexivity].
      apply List.existsb_exists in E. destruct E as (c & Hc & Hlt).
      apply Qltb_lt in Hlt. rewrite List.Forall_forall in Hall.
      specialize (Hall c Hc). lra. }
  split; [intros rank; apply priceProduct_withRank|].
  intros offers' HP.
  destruct (priceProduct_lowest db prod offers') as (m' & Hmin' & Heff' & Hhas').
  assert (Hmm : m' == m).
  { eapply isMinimum_unique; [| exact Hmin' | exact Hmin].
    apply Permutation_cons; [reflexivity|].
    apply candidatePrices_perm. now symmetry. }
  split.
  - rewrite Heff, Heff'. now apply round2_comp.
  - rewrite Hhas, Hhas'.
    destruct (Qltb m' (price prod)) eqn:E1, (Qltb m (price prod)) eqn:E2; try reflexivity.
    + apply Qltb_lt in E1. apply Qltb_ge in E2. lra.
    + apply Qltb_lt in E2. apply Qltb_ge in E1. lra.
Qed.

Lemma C1_lowest_price_rounded_witness :
  Permutation [Samples.tenPercentOff; Samples.twoOff] [Samples.twoOff; Samples.tenPercentOff]
  /\ effectivePrice (priceProduct Samples.catalogue
                       [Samples.twoOff; Samples.tenPercentOff] Samples.pen)
     == effectivePrice (priceProduct Samples.catalogue
                          [Samples.tenPercentOff; Samples.twoOff] Samples.pen).
Proof.
  split; [apply perm_swap|].
  apply (C1_lowest_price_rounded Samples.catalogue
           [Samples.tenPercentOff; Samples.twoOff] Samples.pen).
  apply perm_swap.
Defined.

(** C1 as stated fails: ten percent off 9.99 gives the candidate 8.991,
    and the effective price is 8.99. *)
Lemma C1_counterexample :
  ~ statedLowestCandidate Samples.catalogue [Samples.tenPercentOff] Samples.pen.
Proof.
  intros [H _].
  destruct H as (m & [Hin _] & Heq).
  { eexists. split; [left; reflexivity | reflexivity]. }
  destruct Hin as [<- | []].
  vm_compute in Heq. discriminate.
Qed.

End LowestPrice.

Section SingleCampaign.

Import OfferService PricingSpec.

(** C5 (amended): when exactly one campaign of the list covers the product,
    the effective price is the lower of the original price and the
    campaign's computed price, rounded to two decimals; a fixed offer price
    or a percent of an item counts when it is greater than zero, a bulk
    percent or amount when it is not zero. *)
Theorem C5_single_campaign_price (db : Db) (offers : list Offer) (prod : Product) (o : Offer) :
  In o offers ->
  covers db o prod = true ->
  (forall o', In o' offers -> covers db o' prod = true -> o' = o) ->
  effectivePrice (priceProduct db offers prod)
  == round2 (Qmin (price prod) (computedPrice db o prod)).
Proof.
  intros Hin Hcov Hone.
  destruct (priceProduct_lowest db prod offers) as (m & [Hm Hall] & -> & _).
  apply round2_comp.
  assert (Hc : In (computedPrice db o prod) (candidatePrices db offers prod)).
  { unfold candidatePrices. apply List.in_map_iff. exists o. split; [reflexivity|].
    apply List.filter_In. auto. }
  assert (Hcs : forall c, In c (candidatePrices db offers prod) -> c = computedPrice db o prod).
  { intros c Hcin. unfold candidatePrices in Hcin. apply List.in_map_iff in Hcin.
    destruct Hcin as (o' & <- & Ho'). apply List.filter_In in Ho'. destruct Ho' as [Ho' Hc'].
    now rewrite (Hone o' Ho' Hc'). }
  rewrite List.Forall_forall in Hall.
  assert (H1 : m <= price prod) by (apply Hall; now left).
  assert (H2 : m <= computedPrice db o prod) by (apply Hall; now right).
  destruct (Q.min_spec (price prod) (computedPrice db o prod)) as [[H3 ->] | [H3 ->]];
    destruct Hm as [<- | Hm]; try lra; rewrite (Hcs m Hm) in *; lra.
Qed.

Lemma C5_single_campaign_price_witness :
  In Samples.tenPercentOff [Samples.tenPercentOff; Samples.lampAtFifty]
  /\ covers Samples.catalogue Samples.tenPercentOff Samples.pen = true
  /\ effectivePrice (priceProduct Samples.catalogue
                       [Samples.tenPercentOff; Samples.lampAtFifty] Samples.pen)
     == round2 (Qmin (price Samples.pen)
                     (computedPrice Samples.catalogue Samples.tenPercentOff Samples.pen)).
Proof.
  split; [now left|]. split; [reflexivity|].
  apply (C5_single_campaign_price Samples.catalogue
           [Samples.tenPercentOff; Samples.lampAtFifty] Samples.pen Samples.tenPercentOff).
  - now left.
  - reflexivity.
  - intros o' [<- | [<- | []]]; [reflexivity | discriminate].
Defined.

(** C5 as stated fails: the lamp costs 20 and its only campaign fixes its
    price at 50; the effective price stays 20. *)
Lemma C5_counterexample :
  ~ (forall (db : Db) (offers : list Offer) (prod : Product) (o : Offer),
        In o offers ->
        covers db o prod = true ->
        (forall o', In o' offers -> covers db o' prod = true -> o' = o) ->
        effectivePrice (priceProduct db offers prod) == round2 (statedPrice db o prod)).
Proof.
  intros H.
  specialize (H Samples.catalogue [Samples.lampAtFifty] Samples.lamp Samples.lampAtFifty).
  assert (Heq : effectivePrice (priceProduct Samples.catalogue [Samples.lampAtFifty] Samples.lamp)
                == round2 (statedPrice Samples.catalogue Samples.lampAtFifty Samples.lamp)).
  { apply H; [now left | reflexivity |]. now intros o' [<- | []]. }
  vm_compute in Heq. discriminate.
Qed.

End SingleCampaign.

Section PriceBounds.

Import OfferService PricingSpec.

Lemma percentOff_nonneg (p pc : Q) : 0 <= p -> pc <= 100 -> 0 <= percentOff p pc.
Proof.
  intros Hp Hpc. unfold percentOff, Number_mul. apply fl_nonneg.
  apply Qmult_le_0_compat; [assumption|].
  assert (H : pc ⊘ 100 <= 1).
  { rewrite <- fl_1. unfold Number_div. apply fl_le.
    apply Qle_shift_div_r; [reflexivity | lra]. }
  unfold Number_sub. rewrite <- (fl_0 0) by reflexivity. apply fl_le. lra.
Qed.

Lemma positive_Some (o : option Q) (q : Q) : positive o = Some q -> o = Some q /\ 0 < q.
Proof.
  destruct o as [x|]; simpl; [|discriminate].
  destruct (Qltb 0 x) eqn:E; [|discriminate].
  intros [= ->]. apply Qltb_lt in E. auto.
Qed.

Lemma nonzero_Some (o : option Q) (q : Q) : nonzero o = Some q -> o = Some q.
Proof.
  destruct o as [x|]; simpl; [|discriminate].
  destruct (Qeq_bool x 0); [discriminate|]. now intros [= ->].
Qed.

Lemma candidate_nonneg (db : Db) (o : Offer) (prod : Product) :
  0 <= price prod ->
  offerWithinSchema o ->
  0 <= computedPrice db o prod.
Proof.
  intros Hp (Hbp & Hba & Hitems).
  unfold computedPrice. destruct (applyMode o) eqn:Hmode.
  - destruct (entryFor db o prod) as [item|] eqn:Hitem; [|assumption].
    unfold entryFor in Hitem. destruct (stocked db prod); [|discriminate].
    apply List.find_some in Hitem. destruct Hitem as [Hin _].
    rewrite List.Forall_forall in Hitems. destruct (Hitems item Hin) as [_ Hpc].
    destruct (positive (offerPrice item)) as [fixed|] eqn:Hfixed.
    + apply positive_Some in Hfixed. destruct Hfixed as [_ Hfixed]. lra.
    + destruct (positive (percent item)) as [pc|] eqn:Hpercent; [|assumption].
      apply positive_Some in Hpercent. destruct Hpercent as [Heq _].
      rewrite Heq in Hpc. simpl in Hpc. apply percentOff_nonneg; tauto.
  - destruct (nonzero (bulkPercent o)) as [bp|] eqn:E; [|assumption].
    apply nonzero_Some in E. rewrite E in Hbp. simpl in Hbp.
    apply percentOff_nonneg; tauto.
  - destruct (nonzero (bulkAmount o)); [apply Q.le_max_l | assumption].
Qed.

Lemma candidates_nonneg (db : Db) (offers : list Offer) (prod : Product) :
  0 <= price prod ->
  Forall offerWithinSchema offers ->
  Forall (fun c => 0 <= c) (candidatePrices db offers prod).
Proof.
  intros Hp Hall. induction Hall as [|o offers Ho _ IH].
  - constructor.
  - rewrite candidatePrices_cons.
    destruct (covers db o prod) eqn:Ha; simpl; [|assumption].
    constructor; [now apply candidate_nonneg | assumption].
Qed.

(** C9 (amended): for a product priced at zero or more and campaigns within
    the schema bounds the effective price lies between zero and the
    original price rounded to two decimals, hence at or below the original
    price whenever that price has no more than two decimals. *)
Theorem C9_effective_price_bounds (db : Db) (offers : list Offer) (prod : Product) :
  0 <= price prod ->
  Forall offerWithinSchema offers ->
  0 <= effectivePrice (priceProduct db offers prod)
  /\ effectivePrice (priceProduct db offers prod)
     <= round2 (originalPrice (priceProduct db offers prod))
  /\ (round2 (price prod) == price prod ->
      effectivePrice (priceProduct db offers prod)
      <= originalPrice (priceProduct db offers prod)).
Proof.
  intros Hp Hall.
  destruct (priceProduct_lowest db prod offers) as (m & [Hin Hmin] & Heff & _).
  assert (Hm0 : 0 <= m).
  { destruct Hin as [<- | Hin]; [assumption|].
    pose proof (candidates_nonneg db offers prod Hp Hall) as Hc.
    rewrite List.Forall_forall in Hc. now apply Hc. }
  assert (Hmp : m <= price prod) by now inversion Hmin.
  rewrite Heff. simpl.
  split; [now apply round2_nonneg|].
  split; [now apply round2_le|].
  intros Hr. rewrite <- Hr. now apply round2_le.
Qed.

Lemma C9_effective_price_bounds_witness :
  0 <= price Samples.pen
  /\ Forall offerWithinSchema [Samples.tenPercentOff; Samples.twoOff]
  /\ round2 (price Samples.pen) == price Samples.pen
  /\ 0 <= effectivePrice (priceProduct Samples.catalogue
                            [Samples.tenPercentOff; Samples.twoOff] Samples.pen)
  /\ effectivePrice (priceProduct Samples.catalogue
                       [Samples.tenPercentOff; Samples.twoOff] Samples.pen)
     <= originalPrice (priceProduct Samples.catalogue
                         [Samples.tenPercentOff; Samples.twoOff] Samples.pen).
Proof.
  assert (Hp : 0 <= price Samples.pen) by (vm_compute; discriminate).
  assert (Hs : Forall offerWithinSchema [Samples.tenPercentOff; Samples.twoOff]).
  { repeat constructor; vm_compute; discriminate. }
  assert (Hr : round2 (price Samples.pen) == price Samples.pen) by reflexivity.
  split; [exact Hp|]. split; [exact Hs|]. split; [exact Hr|].
  destruct (C9_effective_price_bounds Samples.catalogue
              [Samples.tenPercentOff; Samples.twoOff] Samples.pen Hp Hs) as (H0 & _ & H1).
  split; [exact H0 | exact (H1 Hr)].
Defined.

(** C9 as stated fails: the trinket costs 10.125, no campaign applies, and
    the effective price is 10.13. *)
Lemma C9_counterexample :
  ~ (forall (db : Db) (offers : list Offer) (prod : Product),
        0 <= price prod ->
        Forall offerWithinSchema offers ->
        0 <= effectivePrice (priceProduct db offers prod)
        /\ effectivePrice (priceProduct db offers prod)
           <= originalPrice (priceProduct db offers prod)).
Proof.
  intros H.
  assert (Hp : 0 <= price Samples.trinket) by (vm_compute; discriminate).
  destruct (H Samples.catalogue [] Samples.trinket Hp (List.Forall_nil _)) as [_ Hle].
  vm_compute in Hle. apply Hle. reflexivity.
Qed.

(** C10: [calculateEffectivePrices] always answers; when its [try] block
    throws, the answer lists every product at its original price without an
    offer, and [applyOfferPricing] hands that price on. *)
Theorem C10_failure_gives_original_prices (db : Db) (now : Z) (prods : list Product)
    (branchId : option string) (userLocation : option (Q * Q)) :
  (exists priced, calculateEffectivePrices db now prods branchId userLocation = Ok priced)
  /\ (forall e,
         calculateEffectivePrices_try db now prods branchId userLocation = Throw e ->
         calculateEffectivePrices db now prods branchId userLocation
         = Ok (originalPrices prods)
         /\ Forall2 (fun prod r =>
                       _id r = p_id prod /\ originalPrice r = price prod
                       /\ effectivePrice r = price prod /\ hasOffer r = false)
                    prods (originalPrices prods)
         /\ forall prod,
              calculateEffectivePrices_try db now [prod] branchId userLocation = Throw e ->
              exists pp,
                applyOfferPricing db now prod branchId userLocation = Ok pp
                /\ pp_effectivePrice pp = price prod /\ pp_hasOffer pp = false
                /\ pp_offerPrice pp = p_offerPrice prod).
Proof.
  split.
  - unfold calculateEffectivePrices, tryCatch.
    destruct (calculateEffectivePrices_try db now prods branchId userLocation); eauto.
  - intros e He. split; [|split].
    + unfold calculateEffectivePrices. now rewrite He.
    + unfold originalPrices. induction prods as [|p ps IH]; simpl; constructor; auto.
      clear. induction ps; simpl; constructor; auto.
    + intros prod Hp. eexists. split.
      * unfold applyOfferPricing, calculateEffectivePrices. rewrite Hp. reflexivity.
      * simpl. auto.
Qed.

Lemma C10_failure_gives_original_prices_witness :
  calculateEffectivePrices_try (Samples.unplug Samples.catalogue) 0 [Samples.pen] None None
  = Throw MongoError
  /\ calculateEffectivePrices (Samples.unplug Samples.catalogue) 0 [Samples.pen] None None
     = Ok (originalPrices [Samples.pen]).
Proof.
  split; [reflexivity|].
  apply (C10_failure_gives_original_prices (Samples.unplug Samples.catalogue) 0
           [Samples.pen] None None) with (e := MongoError).
  reflexivity.
Defined.

End PriceBounds.

(** ** The scenarios of the specification *)

Section Scenarios.

Import OfferService.

(** Ten percent off and a fixed price of five on a lamp at twenty: five. *)
Example scenario_lowest_of_two :
  effectivePrice (priceProduct Samples.catalogue
                    [Samples.lampTenPercent; Samples.lampAtFive] Samples.lamp) == 5
  /\ effectivePrice (priceProduct Samples.catalogue
                       [Samples.lampAtFive; Samples.lampTenPercent] Samples.lamp) == 5.
Proof. split; reflexivity. Qed.

(** The campaigns recorded are those that lowered the running price, so
    their number depends on the order the store returns them in. *)
Example scenario_recorded_campaigns :
  option_map (map ao_id)
             (applicableOffers (priceProduct Samples.catalogue
                                  [Samples.lampTenPercent; Samples.lampAtFive] Samples.lamp))
  = Some ["L1"; "L2"]
  /\ option_map (map ao_id)
                (applicableOffers (priceProduct Samples.catalogue
                                     [Samples.lampAtFive; Samples.lampTenPercent]
                                     Samples.lamp))
     = Some ["L2"].
Proof. split; reflexivity. Qed.

(** Two stackable campaigns of two off: both are listed, the price is
    eighteen, not sixteen. *)
Example scenario_stackable_pair :
  effectivePrice (priceProduct Samples.catalogue
                    [Samples.lampTwoOffA; Samples.lampTwoOffB] Samples.lamp) == 18
  /\ OfferController.stackingResolver Samples.catalogue
       (map Samples.unscored [Samples.lampTwoOffA; Samples.lampTwoOffB])
     = Ok [Samples.lampTwoOffA; Samples.lampTwoOffB].
Proof. split; [reflexivity | vm_compute; reflexivity]. Qed.

(** Numbers of the language: half of 0.29 is a little below 0.145 and
    rounds to 0.14; 1.005 is stored a little below and rounds to 1; a
    quarter of 0.10 is a little above 0.025 and rounds to 0.03, while the
    price less the discount recorded for it rounds to 0.02. *)
Example scenario_binary_fractions :
  effectivePrice (priceProduct Samples.kiosk [Samples.halfPrice] Samples.sticker)
  == dec (14 # 100)
  /\ round2 (dec (1005 # 1000)) == 1
  /\ (let p := dec (10 # 100) in
      let c := PricingSpec.percentOff p 75 in
      round2 c == dec (3 # 100) /\ round2 (p ⊖ (p ⊖ c)) == dec (2 # 100)).
Proof. vm_compute. repeat split; reflexivity. Qed.

End Scenarios.

(** * Properties of the stacking resolver *)

Section StackingLoop.

Import OfferController StackingSpec.

Variable db : Db.

Lemma populate_Some (item : OfferItem) (p : Product) :
  populate db item = Some p -> p_id p = product item.
Proof.
  unfold populate. intros H. apply List.find_some in H. destruct H as [_ H].
  now apply String.eqb_eq in H.
Qed.

Lemma itemProductId_Ok (item : OfferItem) (pid : string) :
  itemProductId db item = Ok pid -> pid = product item /\ populate db item <> None.
Proof.
  unfold itemProductId. destruct (populate db item) as [p|] eqn:E; [|discriminate].
  intros [= <-]. split; [now apply populate_Some | discriminate].
Qed.

Lemma itemProductId_populated (item : OfferItem) :
  populate db item <> None -> itemProductId db item = Ok (product item).
Proof.
  unfold itemProductId. destruct (populate db item) as [p|] eqn:E; [|congruence].
  intros _. f_equal. now apply populate_Some.
Qed.

Lemma claims_insert (m : gmap string (list ScoredOffer)) (k pid : string) (v : list ScoredOffer) :
  claims (<[k := v]> m) pid = if decide (k = pid) then v else claims m pid.
Proof.
  unfold claims. rewrite lookup_insert. destruct (decide (k = pid)); reflexivity.
Qed.

(** The loop of a non-stackable campaign over its items. *)
Lemma setClaims_spec (x : ScoredOffer) (its : list OfferItem) :
  forall m m',
    forOf (fun m item => let* productId := itemProductId db item in
                         Ok (<[productId := [x]]> m)) its m = Ok m' ->
    Forall (fun item => populate db item <> None) its
    /\ forall pid,
        (In pid (map product its) -> claims m' pid = [x])
        /\ (~ In pid (map product its) -> claims m' pid = claims m pid).
Proof.
  induction its as [|item rest IH]; intros m m'; simpl.
  - intros [= <-]. split; [constructor|]. intros pid. split; [intros [] | reflexivity].
  - destruct (itemProductId db item) as [pid0|] eqn:E; simpl; [|discriminate].
    apply itemProductId_Ok in E. destruct E as [-> Hpop].
    intros Hrest. apply IH in Hrest. destruct Hrest as [Hall Hrest].
    split; [constructor; assumption|].
    intros pid. destruct (Hrest pid) as [Hin Hout]. split.
    + intros [Heq | Hin'].
      * destruct (in_dec string_dec pid (map product rest)) as [Hi | Hni]; [auto|].
        rewrite (Hout Hni), claims_insert. subst pid. now rewrite decide_True.
      * auto.
    + intros Hn. rewrite Hout by tauto. rewrite claims_insert.
      rewrite decide_False; [reflexivity | tauto].
Qed.

(** The loop of a stackable campaign over its items. *)
Lemma pushClaims_spec (x : ScoredOffer) (its : list OfferItem) :
  forall m m',
    forOf (fun m item => let* productId := itemProductId db item in
                         Ok (<[productId := claims m productId ++ [x]]> m)) its m = Ok m' ->
    Forall (fun item => populate db item <> None) its
    /\ forall pid e,
        In e (claims m' pid) <-> In e (claims m pid) \/ (e = x /\ In pid (map product its)).
Proof.
  induction its as [|item rest IH]; intros m m'; simpl.
  - intros [= <-]. split; [constructor|]. intros pid e. tauto.
  - destruct (itemProductId db item) as [pid0|] eqn:E; simpl; [|discriminate].
    apply itemProductId_Ok in E. destruct E as [-> Hpop].
    intros Hrest. apply IH in Hrest. destruct Hrest as [Hall Hrest].
    split; [constructor; assumption|].
    intros pid e. rewrite Hrest, claims_insert.
    destruct (decide (product item = pid)) as [-> | Hne].
    + rewrite in_app_iff. simpl. intuition (subst; auto).
    + intuition (subst; auto; congruence).
Qed.

Lemma loops_total (f : gmap string (list ScoredOffer) -> string -> gmap string (list ScoredOffer))
    (its : list OfferItem) :
  Forall (fun item => populate db item <> None) its ->
  forall m, exists m',
    forOf (fun m item => let* productId := itemProductId db item in Ok (f m productId)) its m
    = Ok m'.
Proof.
  induction 1 as [|item rest Hpop _ IH]; intros m; simpl; [eauto|].
  rewrite (itemProductId_populated item Hpop). simpl. apply IH.
Qed.

Lemma isBlocking_true (x e : ScoredOffer) :
  isBlocking x e = true
  <-> stackable (so_offer e) = false /\ (priority (so_offer x) <= priority (so_offer e))%Z.
Proof.
  unfold isBlocking. rewrite andb_true_iff, negb_true_iff, Z.leb_le. tauto.
Qed.

Lemma canApply_true (m : gmap string (list ScoredOffer)) (x : ScoredOffer) (its : list OfferItem) :
  canApply db m x its = Ok true ->
  Forall (fun item => populate db item <> None) its
  /\ forall pid e, In pid (map product its) -> In e (claims m pid) ->
                   ~ (stackable (so_offer e) = false
                      /\ (priority (so_offer x) <= priority (so_offer e))%Z).
Proof.
  induction its as [|item rest IH]; simpl.
  - intros _. split; [constructor|]. intros pid e [].
  - destruct (itemProductId db item) as [pid0|] eqn:E; simpl; [|discriminate].
    apply itemProductId_Ok in E. destruct E as [-> Hpop].
    destruct (existsb (isBlocking x) (claims m (product item))) eqn:Hb; [discriminate|].
    intros Hrest. apply IH in Hrest. destruct Hrest as [Hall Hrest].
    split; [constructor; assumption|].
    intros pid e [<- | Hin] He Hblock.
    + assert (Hex : existsb (isBlocking x) (claims m (product item)) = true).
      { apply List.existsb_exists. exists e. split; [assumption|]. now apply isBlocking_true. }
      congruence.
    + exact (Hrest pid e Hin He Hblock).
Qed.

Lemma canApply_false (m : gmap string (list ScoredOffer)) (x : ScoredOffer) (its : list OfferItem) :
  canApply db m x its = Ok false ->
  exists pid e, In pid (map product its) /\ In e (claims m pid)
                /\ stackable (so_offer e) = false
                /\ (priority (so_offer x) <= priority (so_offer e))%Z.
Proof.
  induction its as [|item rest IH]; simpl; [discriminate|].
  destruct (itemProductId db item) as [pid0|] eqn:E; simpl; [|discriminate].
  apply itemProductId_Ok in E. destruct E as [-> Hpop].
  destruct (existsb (isBlocking x) (claims m (product item))) eqn:Hb.
  - intros _. apply List.existsb_exists in Hb. destruct Hb as (e & He & Hblock).
    apply isBlocking_true in Hblock. exists (product item), e. tauto.
  - intros Hrest. destruct (IH Hrest) as (pid & e & Hin & H). exists pid, e. tauto.
Qed.

Lemma canApply_total (m : gmap string (list ScoredOffer)) (x : ScoredOffer) (its : list OfferItem) :
  Forall (fun item => populate db item <> None) its ->
  exists b, canApply db m x its = Ok b.
Proof.
  induction 1 as [|item rest Hpop _ IH]; simpl; [eauto|].
  rewrite (itemProductId_populated item Hpop). simpl.
  destruct (existsb _ _); eauto.
Qed.

(** The three ways a turn of the loop can end. *)
Lemma stackingStep_cases (applied applied' : list ScoredOffer)
    (m m' : gmap string (list ScoredOffer)) (x : ScoredOffer) :
  stackingStep db (applied, m) x = Ok (applied', m') ->
  allPopulated db (so_offer x) /\ applied' = applied ++ [x]
    /\ stackable (so_offer x) = true
    /\ (forall pid e, In e (claims m' pid)
                      <-> In e (claims m pid) \/ (e = x /\ claimsProduct (so_offer x) pid))
  \/ allPopulated db (so_offer x) /\ applied' = applied ++ [x]
     /\ stackable (so_offer x) = false
     /\ (forall pid e, claimsProduct (so_offer x) pid -> In e (claims m pid) ->
                       ~ (stackable (so_offer e) = false
                          /\ (priority (so_offer x) <= priority (so_offer e))%Z))
     /\ (forall pid, (claimsProduct (so_offer x) pid -> claims m' pid = [x])
                     /\ (~ claimsProduct (so_offer x) pid -> claims m' pid = claims m pid))
  \/ applied' = applied /\ m' = m
     /\ stackable (so_offer x) = false
     /\ (exists pid e, claimsProduct (so_offer x) pid /\ In e (claims m pid)
                       /\ stackable (so_offer e) = false
                       /\ (priority (so_offer x) <= priority (so_offer e))%Z).
Proof.
  unfold stackingStep, claimsProduct, allPopulated.
  destruct (stackable (so_offer x)) eqn:Hs.
  - destruct (forOf _ (items (so_offer x)) m) as [m1|] eqn:Hloop; simpl; [|discriminate].
    intros [= <- <-]. apply pushClaims_spec in Hloop. left. tauto.
  - destruct (canApply db m x (items (so_offer x))) as [[|]|] eqn:Hcan; simpl;
      [| |discriminate].
    + destruct (forOf _ (items (so_offer x)) m) as [m1|] eqn:Hloop; simpl; [|discriminate].
      intros [= <- <-]. apply setClaims_spec in Hloop. apply canApply_true in Hcan.
      right. left. intuition eauto.
    + intros [= <- <-]. apply canApply_false in Hcan. right. right. tauto.
Qed.

Lemma stackingStep_total (st : list ScoredOffer * gmap string (list ScoredOffer))
    (x : ScoredOffer) :
  allPopulated db (so_offer x) -> exists st', stackingStep db st x = Ok st'.
Proof.
  intros Hpop. destruct st as [applied m]. unfold stackingStep.
  destruct (stackable (so_offer x)).
  - destruct (loops_total (fun m pid => <[pid := claims m pid ++ [x]]> m) _ Hpop m) as [m' ->].
    simpl. eauto.
  - destruct (canApply_total m x _ Hpop) as [[|] ->]; simpl; [|eauto].
    destruct (loops_total (fun m pid => <[pid := [x]]> m) _ Hpop m) as [m' ->].
    simpl. eauto.
Qed.

End StackingLoop.

Section StackingInvariants.

Import OfferController StackingSpec.

Variable db : Db.

Lemma forOf_cons {A S} (body : S -> A -> Result S) (x : A) (xs : list A) (acc : S) :
  forOf body (x :: xs) acc = bind (body acc x) (fun acc' => forOf body xs acc').
Proof. reflexivity. Qed.

Lemma noTwoNonStackable_snoc (l : list Offer) (x : Offer) :
  noTwoNonStackable l ->
  (forall a, In a l -> stackable a = false -> stackable x = false -> ~ contest a x) ->
  noTwoNonStackable (l ++ [x]).
Proof.
  intros Hl Hx i j a b Hij Ha Hb Hsa Hsb.
  apply lookup_snoc_Some in Ha, Hb.
  destruct Hb as [[Hj Hb] | [Hj <-]].
  - destruct Ha as [[_ Ha] | [Hi _]]; [|lia]. exact (Hl i j a b Hij Ha Hb Hsa Hsb).
  - destruct Ha as [[_ Ha] | [Hi _]]; [|lia].
    apply Hx; [|assumption|assumption].
    apply list_elem_of_In. eapply list_elem_of_lookup_2. exact Ha.
Qed.

Lemma claimsSound_step (applied applied' : list ScoredOffer)
    (m m' : gmap string (list ScoredOffer)) (x : ScoredOffer) :
  stackingStep db (applied, m) x = Ok (applied', m') ->
  claimsSound applied m -> claimsSound applied' m'.
Proof.
  intros Hstep Hsound pid e He.
  apply stackingStep_cases in Hstep.
  destruct Hstep as [(_ & -> & _ & Hm) | [(_ & -> & _ & _ & Hm) | (-> & -> & _)]].
  - apply Hm in He. destruct He as [He | [-> Hc]].
    + destruct (Hsound pid e He). split; [apply in_or_app; now left | assumption].
    + split; [apply in_or_app; right; now left | assumption].
  - destruct (in_dec string_dec pid (map product (items (so_offer x)))) as [Hc | Hc].
    + rewrite (proj1 (Hm pid) Hc) in He. destruct He as [<- | []].
      split; [apply in_or_app; right; now left | assumption].
    + rewrite (proj2 (Hm pid) Hc) in He.
      destruct (Hsound pid e He). split; [apply in_or_app; now left | assumption].
  - now apply Hsound.
Qed.

Lemma stackingStep_incl (applied applied' : list ScoredOffer)
    (m m' : gmap string (list ScoredOffer)) (x : ScoredOffer) :
  stackingStep db (applied, m) x = Ok (applied', m') ->
  incl applied applied' /\ incl applied' (applied ++ [x]).
Proof.
  intros Hstep. apply stackingStep_cases in Hstep.
  destruct Hstep as [(_ & -> & _) | [(_ & -> & _) | (-> & _)]];
    split; try apply incl_refl; apply incl_appl; apply incl_refl.
Qed.

Lemma claimsGuard_step (applied applied' : list ScoredOffer)
    (m m' : gmap string (list ScoredOffer)) (x : ScoredOffer) :
  stackingStep db (applied, m) x = Ok (applied', m') ->
  claimsGuard applied m -> claimsGuard applied' m'.
Proof.
  intros Hstep Hguard pid a Ha Hsa Hca.
  apply stackingStep_cases in Hstep.
  destruct Hstep as [(_ & -> & Hsx & Hm) | [(_ & -> & Hsx & _ & Hm) | (-> & -> & _)]].
  - apply in_app_or in Ha. destruct Ha as [Ha | [<- | []]]; [|congruence].
    destruct (Hguard pid a Ha Hsa Hca) as (e & He & Hse).
    exists e. split; [apply Hm; now left | assumption].
  - destruct (in_dec string_dec pid (map product (items (so_offer x)))) as [Hc | Hc].
    + exists x. rewrite (proj1 (Hm pid) Hc). split; [now left | assumption].
    + rewrite (proj2 (Hm pid) Hc).
      apply in_app_or in Ha. destruct Ha as [Ha | [<- | []]]; [|contradiction].
      exact (Hguard pid a Ha Hsa Hca).
  - exact (Hguard pid a Ha Hsa Hca).
Qed.

Lemma noTwo_step (applied applied' : list ScoredOffer)
    (m m' : gmap string (list ScoredOffer)) (x : ScoredOffer) :
  stackingStep db (applied, m) x = Ok (applied', m') ->
  claimsSound applied m -> claimsGuard applied m ->
  (forall a, In a applied -> (priority (so_offer x) <= priority (so_offer a))%Z) ->
  noTwoNonStackable (map so_offer applied) ->
  noTwoNonStackable (map so_offer applied').
Proof.
  intros Hstep Hsound Hguard Hprio Hno.
  apply stackingStep_cases in Hstep.
  destruct Hstep as [(_ & -> & Hsx & _) | [(_ & -> & Hsx & Hfree & _) | (-> & _)]];
    [| |assumption].
  - rewrite map_app. simpl. apply noTwoNonStackable_snoc; [assumption|]. congruence.
  - rewrite map_app. simpl. apply noTwoNonStackable_snoc; [assumption|].
    intros a0 Ha0 Hsa _ (pid & Hca & Hcx).
    apply in_map_iff in Ha0. destruct Ha0 as (a & <- & Ha).
    destruct (Hguard pid a Ha Hsa Hca) as (e & He & Hse).
    apply (Hfree pid e Hcx He). split; [assumption|].
    apply Hprio. now apply (Hsound pid e He).
Qed.

(** The loop over a list sorted by priority. *)
Lemma stackingLoop_noTwo (xs : list ScoredOffer) :
  forall applied m out m',
    forOf (stackingStep db) xs (applied, m) = Ok (out, m') ->
    byPriority xs ->
    (forall a x, In a applied -> In x xs ->
                 (priority (so_offer x) <= priority (so_offer a))%Z) ->
    claimsSound applied m -> claimsGuard applied m ->
    noTwoNonStackable (map so_offer applied) ->
    noTwoNonStackable (map so_offer out).
Proof.
  induction xs as [|x xs IH]; intros applied m out m'.
  - intros [= <- <-]. auto.
  - rewrite forOf_cons.
    destruct (stackingStep db (applied, m) x) as [[applied1 m1]|] eqn:Hstep; cbn [bind];
      [|discriminate].
    intros Hloop Hsorted Hprio Hsound Hguard Hno.
    apply StronglySorted_inv in Hsorted. destruct Hsorted as [Hsorted Hhead].
    rewrite List.Forall_forall in Hhead.
    apply (IH applied1 m1 out m' Hloop Hsorted).
    + intros a y Ha Hy. apply (stackingStep_incl _ _ _ _ _ Hstep) in Ha.
      apply in_app_or in Ha. destruct Ha as [Ha | [<- | []]].
      * apply Hprio; [assumption | now right].
      * now apply Hhead.
    + eapply claimsSound_step; eauto.
    + eapply claimsGuard_step; eauto.
    + eapply noTwo_step; eauto. intros a Ha. apply Hprio; [assumption | now left].
Qed.

Lemma stackingLoop_total (xs : list ScoredOffer) :
  Forall (fun o => allPopulated db (so_offer o)) xs ->
  forall st, exists st', forOf (stackingStep db) xs st = Ok st'.
Proof.
  induction 1 as [|x xs Hpop _ IH]; intros st; [simpl; eauto|].
  rewrite forOf_cons.
  destruct (stackingStep_total db st x Hpop) as [st1 ->]. cbn [bind]. apply IH.
Qed.

Lemma stackingLoop_incl (xs : list ScoredOffer) :
  forall applied m out m',
    forOf (stackingStep db) xs (applied, m) = Ok (out, m') -> incl applied out.
Proof.
  induction xs as [|x xs IH]; intros applied m out m'.
  - intros [= <- <-]. apply incl_refl.
  - rewrite forOf_cons.
    destruct (stackingStep db (applied, m) x) as [[applied1 m1]|] eqn:Hstep; cbn [bind];
      [|discriminate].
    intros Hloop. eapply incl_tran; [|eapply IH; eauto].
    now apply (stackingStep_incl _ _ _ _ _ Hstep).
Qed.

(** A non-stackable campaign that no other campaign can block is applied. *)
Lemma stackingLoop_applies (H : Offer) (xs : list ScoredOffer) :
  stackable H = false ->
  forall applied m out m',
    forOf (stackingStep db) xs (applied, m) = Ok (out, m') ->
    claimsSound applied m ->
    In H (map so_offer xs) ->
    (forall K, In K (map so_offer (applied ++ xs)) -> stackable K = false ->
               (priority H <= priority K)%Z -> contest K H -> K = H) ->
    In H (map so_offer out).
Proof.
  intros HsH. induction xs as [|x xs IH]; intros applied m out m'; [intros _ _ []|].
  rewrite forOf_cons.
  destruct (stackingStep db (applied, m) x) as [[applied1 m1]|] eqn:Hstep; cbn [bind];
    [|discriminate].
  intros Hloop Hsound Hin Honly.
  assert (Hmono : incl applied1 out) by (eapply stackingLoop_incl; eauto).
  assert (Hsound1 : claimsSound applied1 m1) by (eapply claimsSound_step; eauto).
  destruct Hin as [Hx | Hin].
  - assert (Hdone : In H (map so_offer applied1)).
    { pose proof Hstep as Hcases. apply stackingStep_cases in Hcases.
      destruct Hcases as [(_ & -> & _) | [(_ & -> & _) | (-> & -> & _ & Hblock)]].
      - rewrite map_app, in_app_iff. right. now left.
      - rewrite map_app, in_app_iff. right. now left.
      - destruct Hblock as (pid & e & Hcx & He & Hse & Hpe).
        destruct (Hsound pid e He) as [Hea Hce].
        rewrite Hx in *.
        assert (HeH : so_offer e = H).
        { apply Honly; [| assumption | assumption | now exists pid].
          rewrite map_app, in_app_iff. left. now apply in_map. }
        rewrite <- HeH. now apply in_map. }
    apply in_map_iff in Hdone. destruct Hdone as (h & <- & Hh).
    apply in_map. now apply Hmono.
  - apply (IH applied1 m1 out m' Hloop Hsound1 Hin).
    intros K HK. apply Honly.
    rewrite map_app, in_app_iff in HK. rewrite map_app, in_app_iff. simpl.
    destruct HK as [HK | HK]; [|tauto].
    apply in_map_iff in HK. destruct HK as (k & <- & Hk).
    apply (stackingStep_incl _ _ _ _ _ Hstep) in Hk.
    apply in_app_or in Hk. destruct Hk as [Hk | [<- | []]]; [|tauto].
    left. now apply in_map.
Qed.

End StackingInvariants.

Section Sorting.

Import OfferController StackingSpec.

Lemma compareOffers_le (x y : ScoredOffer) :
  (compareOffers x y <= 0)%Z -> (priority (so_offer y) <= priority (so_offer x))%Z.
Proof.
  unfold compareOffers.
  destruct (priority (so_offer x) =? priority (so_offer y))%Z eqn:E; simpl.
  - apply Z.eqb_eq in E. lia.
  - lia.
Qed.

Lemma compareOffers_gt (x y : ScoredOffer) :
  (0 < compareOffers x y)%Z -> (priority (so_offer x) <= priority (so_offer y))%Z.
Proof.
  unfold compareOffers.
  destruct (priority (so_offer x) =? priority (so_offer y))%Z eqn:E; simpl.
  - apply Z.eqb_eq in E. lia.
  - lia.
Qed.

Lemma insertSorted_perm {A} (cmp : A -> A -> Z) (x : A) (l : list A) :
  Permutation (insertSorted cmp x l) (x :: l).
Proof.
  induction l as [|y l IH]; simpl; [reflexivity|].
  destruct (cmp x y <=? 0)%Z; [reflexivity|].
  etransitivity; [apply perm_skip; exact IH | apply perm_swap].
Qed.

Lemma sort_perm {A} (cmp : A -> A -> Z) (l : list A) : Permutation (sort cmp l) l.
Proof.
  induction l as [|x l IH]; simpl; [reflexivity|].
  etransitivity; [apply insertSorted_perm | now apply perm_skip].
Qed.

Lemma insertSorted_byPriority (x : ScoredOffer) (l : list ScoredOffer) :
  byPriority l -> byPriority (insertSorted compareOffers x l).
Proof.
  unfold byPriority. induction 1 as [|y l Hsorted IH Hhead]; simpl.
  - constructor; constructor.
  - destruct (compareOffers x y <=? 0)%Z eqn:E.
    + apply Z.leb_le, compareOffers_le in E.
      constructor; [now constructor|].
      constructor; [assumption|].
      eapply List.Forall_impl; [|exact Hhead]. simpl. intros z Hz. lia.
    + apply Z.leb_gt, compareOffers_gt in E.
      constructor; [assumption|].
      rewrite List.Forall_forall. intros z Hz.
      eapply Permutation_in in Hz; [|apply insertSorted_perm].
      destruct Hz as [<- | Hz]; [assumption|].
      rewrite List.Forall_forall in Hhead. now apply Hhead.
Qed.

Lemma sort_byPriority (l : list ScoredOffer) : byPriority (sort compareOffers l).
Proof.
  induction l as [|x l IH]; simpl; [constructor|].
  now apply insertSorted_byPriority.
Qed.

End Sorting.

Section StackingResolver.

Import OfferController StackingSpec.

Lemma claimsSound_empty : claimsSound [] ∅.
Proof. intros pid e. unfold claims. rewrite lookup_empty. intros []. Qed.

Lemma claimsGuard_empty : claimsGuard [] ∅.
Proof. intros pid a []. Qed.

Lemma noTwoNonStackable_nil : noTwoNonStackable [].
Proof. intros i j a b _ Ha. rewrite lookup_nil in Ha. discriminate. Qed.

Lemma stackingResolver_Ok (db : Db) (offers : list ScoredOffer) (out : list Offer) :
  stackingResolver db offers = Ok out ->
  exists applied m,
    forOf (stackingStep db) (sort compareOffers offers) ([], ∅) = Ok (applied, m)
    /\ out = map so_offer applied.
Proof.
  unfold stackingResolver, applyStacking.
  destruct (forOf (stackingStep db) (sort compareOffers offers) ([], ∅)) as [[applied m]|];
    simpl; [|discriminate].
  intros [= <-]. eauto.
Qed.

Lemma stackingResolver_total (db : Db) (offers : list ScoredOffer) :
  Forall (fun o => allPopulated db (so_offer o)) offers ->
  exists out, stackingResolver db offers = Ok out.
Proof.
  intros Hpop. unfold stackingResolver, applyStacking.
  assert (Hsorted : Forall (fun o => allPopulated db (so_offer o)) (sort compareOffers offers)).
  { rewrite List.Forall_forall in *. intros o Ho. apply Hpop.
    eapply Permutation_in; [apply sort_perm | exact Ho]. }
  destruct (stackingLoop_total db (sort compareOffers offers) Hsorted
              (@nil ScoredOffer, ∅ : gmap string (list ScoredOffer))) as [[applied m] ->].
  simpl. eauto.
Qed.

Lemma stackingResolver_noTwo (db : Db) (offers : list ScoredOffer) (out : list Offer) :
  stackingResolver db offers = Ok out -> noTwoNonStackable out.
Proof.
  intros Hout. apply stackingResolver_Ok in Hout. destruct Hout as (applied & m & Hloop & ->).
  eapply stackingLoop_noTwo; eauto.
  - apply sort_byPriority.
  - intros a x [].
  - apply claimsSound_empty.
  - apply claimsGuard_empty.
  - apply noTwoNonStackable_nil.
Qed.

Lemma applyStacking_noTwo (db : Db) (offers out : list ScoredOffer) :
  byPriority offers ->
  applyStacking db offers = Ok out -> noTwoNonStackable (map so_offer out).
Proof.
  intros Hsorted. unfold applyStacking.
  destruct (forOf (stackingStep db) offers ([], ∅)) as [[applied m]|] eqn:Hloop;
    simpl; [|discriminate].
  intros [= <-].
  eapply stackingLoop_noTwo; eauto.
  - intros a x [].
  - apply claimsSound_empty.
  - apply claimsGuard_empty.
  - apply noTwoNonStackable_nil.
Qed.

(** C3 (amended): the output of the stacking resolver never holds two
    non-stackable campaigns that hold the same product among their items,
    for every list the endpoint sorts and stacks, and for the stacking loop
    on every list sorted by priority; a non-stackable campaign is taken
    exactly when no campaign claiming one of the products of its items is
    non-stackable with a priority at or above its own; and the resolver
    answers whenever the items of the campaigns refer to existing
    products. *)
Theorem C3_no_two_non_stackable (db : Db) (offers : list ScoredOffer) :
  (forall out, stackingResolver db offers = Ok out -> noTwoNonStackable out)
  /\ (forall out, byPriority offers -> applyStacking db offers = Ok out ->
                  noTwoNonStackable (map so_offer out))
  /\ (Forall (fun o => allPopulated db (so_offer o)) offers ->
      exists out, stackingResolver db offers = Ok out)
  /\ (forall applied applied' m m' x,
         stackable (so_offer x) = false ->
         stackingStep db (applied, m) x = Ok (applied', m') ->
         (applied' = applied ++ [x]
          /\ forall pid e, claimsProduct (so_offer x) pid -> In e (claims m pid) ->
                           ~ (stackable (so_offer e) = false
                              /\ (priority (so_offer x) <= priority (so_offer e))%Z))
         \/ (applied' = applied /\ m' = m
             /\ exists pid e, claimsProduct (so_offer x) pid /\ In e (claims m pid)
                              /\ stackable (so_offer e) = false
                              /\ (priority (so_offer x) <= priority (so_offer e))%Z)).
Proof.
  split; [intros out; apply stackingResolver_noTwo|].
  split; [intros out; apply applyStacking_noTwo|].
  split; [apply stackingResolver_total|].
  intros applied applied' m m' x Hsx Hstep.
  apply stackingStep_cases in Hstep.
  destruct Hstep as [(_ & _ & Hs & _) | [(_ & -> & _ & Hfree & _) | (-> & -> & _ & Hblock)]].
  - congruence.
  - left. auto.
  - right. auto.
Qed.

Lemma C3_no_two_non_stackable_witness :
  stackingResolver Samples.catalogue
    (map Samples.unscored [Samples.penOnly; Samples.penAndLamp; Samples.twoOff])
  = Ok [Samples.penAndLamp; Samples.twoOff]
  /\ noTwoNonStackable [Samples.penAndLamp; Samples.twoOff].
Proof.
  assert (H : stackingResolver Samples.catalogue
                (map Samples.unscored [Samples.penOnly; Samples.penAndLamp; Samples.twoOff])
              = Ok [Samples.penAndLamp; Samples.twoOff]) by (vm_compute; reflexivity).
  split; [exact H|].
  exact (proj1 (C3_no_two_non_stackable Samples.catalogue
                  (map Samples.unscored [Samples.penOnly; Samples.penAndLamp; Samples.twoOff]))
               _ H).
Defined.

(** The sort matters: on a list that puts the lower priority first the loop
    alone applies both campaigns on the pen. *)
(** C3 as stated fails: the loop looks at the items of a campaign only, so
    a non-stackable campaign that covers the pen through its product ids
    is output next to the non-stackable campaign with an item on the
    pen. *)
Lemma C3_counterexample :
  ~ statedNoTwoCovering Samples.catalogue
      (map Samples.unscored [Samples.penOnly; Samples.lampAndListedPen]).
Proof.
  intros Hclaim.
  apply (Hclaim [Samples.penOnly; Samples.lampAndListedPen] eq_refl 0%nat 1%nat
           Samples.penOnly Samples.lampAndListedPen);
    [lia | reflexivity..|].
  exists "P1". split; exists Samples.pen; (split; [left; reflexivity|]); split; reflexivity.
Qed.

Lemma applyStacking_needs_the_sort :
  applyStacking Samples.catalogue (map Samples.unscored [Samples.penOnly; Samples.penAndLamp])
  = Ok (map Samples.unscored [Samples.penOnly; Samples.penAndLamp]).
Proof. vm_compute. reflexivity. Qed.

Lemma noTwoNonStackable_both (l : list Offer) (a b : Offer) :
  noTwoNonStackable l -> In a l -> In b l -> a <> b ->
  stackable a = false -> stackable b = false -> ~ contest a b.
Proof.
  intros Hno Ha Hb Hab Hsa Hsb Hc.
  apply list_elem_of_In, list_elem_of_lookup in Ha, Hb.
  destruct Ha as [i Hi], Hb as [j Hj].
  destruct (Nat.lt_trichotomy i j) as [Hlt | [Heq | Hgt]].
  - exact (Hno i j a b Hlt Hi Hj Hsa Hsb Hc).
  - subst j. congruence.
  - apply (Hno j i b a Hgt Hj Hi Hsb Hsa).
    destruct Hc as (pid & H1 & H2). exists pid. tauto.
Qed.

(** C4 (amended): of two non-stackable campaigns that both hold the same
    product among their items, the one of lower priority is never in the
    output together with the other; and when no other non-stackable
    campaign of equal or higher priority holds, among its items, a product
    of the items of the higher one, the higher one is in the output and the
    lower one is not, for every order of the input. *)
Theorem C4_higher_priority_wins (db : Db) (offers : list ScoredOffer) (H L : Offer) :
  In H (map so_offer offers) -> In L (map so_offer offers) ->
  stackable H = false -> stackable L = false ->
  (priority L < priority H)%Z -> contest H L ->
  forall offers', Permutation offers offers' ->
    (forall out, stackingResolver db offers' = Ok out -> ~ (In H out /\ In L out))
    /\ (Forall (fun o => allPopulated db (so_offer o)) offers ->
        (forall K, In K (map so_offer offers) -> stackable K = false ->
                   (priority H <= priority K)%Z -> contest K H -> K = H) ->
        exists out, stackingResolver db offers' = Ok out /\ In H out /\ ~ In L out).
Proof.
  intros HH HL HsH HsL Hprio Hcontest offers' Hperm.
  assert (Hne : H <> L) by (intros ->; lia).
  assert (Hnever : forall out, stackingResolver db offers' = Ok out -> ~ (In H out /\ In L out)).
  { intros out Hout [HinH HinL].
    apply stackingResolver_noTwo in Hout.
    exact (noTwoNonStackable_both out H L Hout HinH HinL Hne HsH HsL Hcontest). }
  split; [exact Hnever|].
  intros Hpop Honly.
  assert (Hpop' : Forall (fun o => allPopulated db (so_offer o)) offers').
  { rewrite List.Forall_forall in *. intros o Ho. apply Hpop.
    eapply Permutation_in; [symmetry; exact Hperm | exact Ho]. }
  destruct (stackingResolver_total db offers' Hpop') as [out Hout].
  exists out. split; [exact Hout|].
  assert (HinH : In H out).
  { pose proof Hout as Hloop. apply stackingResolver_Ok in Hloop.
    destruct Hloop as (applied & m & Hloop & ->).
    assert (Hsame : Permutation (map so_offer (sort compareOffers offers')) (map so_offer offers)).
    { apply Permutation_map. etransitivity; [apply sort_perm | now symmetry]. }
    eapply (stackingLoop_applies db H); eauto.
    - apply claimsSound_empty.
    - eapply Permutation_in; [symmetry; exact Hsame | exact HH].
    - intros K HK. apply Honly. simpl in HK.
      eapply Permutation_in; [exact Hsame | exact HK]. }
  split; [exact HinH|].
  intros HinL. exact (Hnever out Hout (conj HinH HinL)).
Qed.

Lemma C4_higher_priority_wins_witness :
  In Samples.penAndLamp
     (map so_offer (map Samples.unscored [Samples.penOnly; Samples.penAndLamp]))
  /\ (priority Samples.penOnly < priority Samples.penAndLamp)%Z
  /\ contest Samples.penAndLamp Samples.penOnly
  /\ exists out,
       stackingResolver Samples.catalogue
         (map Samples.unscored [Samples.penAndLamp; Samples.penOnly]) = Ok out
       /\ In Samples.penAndLamp out /\ ~ In Samples.penOnly out.
Proof.
  assert (HH : In Samples.penAndLamp
                  (map so_offer (map Samples.unscored [Samples.penOnly; Samples.penAndLamp])))
    by (right; left; reflexivity).
  assert (HL : In Samples.penOnly
                  (map so_offer (map Samples.unscored [Samples.penOnly; Samples.penAndLamp])))
    by (left; reflexivity).
  assert (Hp : (priority Samples.penOnly < priority Samples.penAndLamp)%Z) by (simpl; lia).
  assert (Hc : contest Samples.penAndLamp Samples.penOnly).
  { exists "P1". split; [left; reflexivity | left; reflexivity]. }
  split; [exact HH|]. split; [exact Hp|]. split; [exact Hc|].
  apply (C4_higher_priority_wins Samples.catalogue
           (map Samples.unscored [Samples.penOnly; Samples.penAndLamp])
           Samples.penAndLamp Samples.penOnly HH HL eq_refl eq_refl Hp Hc
           (map Samples.unscored [Samples.penAndLamp; Samples.penOnly])).
  - apply perm_swap.
  - repeat constructor; discriminate.
  - intros K [<- | [<- | []]] _ Hle _; [simpl in Hle; lia | reflexivity].
Defined.

(** C4 as stated fails: the campaign on the pen and the lamp is blocked by
    the higher campaign on the lamp, and the lower campaign on the pen is
    then applied. *)
Lemma C4_counterexample :
  ~ statedPriorityWins Samples.catalogue
      (map Samples.unscored [Samples.lampOnly; Samples.penAndLamp; Samples.penOnly]).
Proof.
  intros Hclaim.
  destruct (Hclaim Samples.penAndLamp Samples.penOnly) with
    (offers' := map Samples.unscored [Samples.lampOnly; Samples.penAndLamp; Samples.penOnly])
    as (out & Hout & HinH & _).
  - right; left; reflexivity.
  - right; right; left; reflexivity.
  - reflexivity.
  - reflexivity.
  - simpl. lia.
  - exists "P1". split; left; reflexivity.
  - reflexivity.
  - vm_compute in Hout. injection Hout as <-.
    destruct HinH as [Heq | [Heq | []]]; discriminate.
Qed.

End StackingResolver.

(** * Properties of the targeting filter *)

Section Targeting.

Import OfferService OfferController TargetingSpec.

Variable calculateDistance : Q -> Q -> Q -> Q -> Q.
Variable geoWithin : Offer -> Q * Q -> Result bool.

Lemma geoLoop_no_change (db : Db) (coords : Q * Q) (geoOffers : list Offer) :
  forall offers out,
    (forall o, In o geoOffers ->
               existsb (fun o' => String.eqb (o_id o') (o_id o)) offers = true) ->
    forOf (fun offers offer =>
             let* include := includeOffer calculateDistance geoWithin coords offer in
             if include
                && negb (existsb (fun o => String.eqb (o_id o) (o_id offer)) offers)
             then
               let* populatedOffer :=
                 findOne db offerCampaigns (fun o => String.eqb (o_id o) (o_id offer)) in
               match populatedOffer with
               | Some po => Ok (offers ++ [po])
               | None => Ok offers
               end
             else Ok offers)
          geoOffers offers
    = Ok out ->
    out = offers.
Proof.
  induction geoOffers as [|g rest IH]; intros offers out Hin; [now intros [= <-]|].
  rewrite forOf_cons.
  destruct (includeOffer calculateDistance geoWithin coords g) as [include|];
    cbn [bind]; [|discriminate].
  rewrite (Hin g) by now left.
  rewrite andb_false_r. cbn [bind]. apply IH. intros o Ho. apply Hin. now right.
Qed.

(** The geo query asks for [baseQuery] again, so whatever it finds the
    main query has found already: an answer of the filter is the answer of
    the main query. *)
Lemma targetingFilter_is_baseQuery (db : Db) (now : Z) (ctx : LocationContext)
    (selected : list Offer) :
  targetingFilter calculateDistance geoWithin db now ctx = Ok selected ->
  (let* conds := locationConditions ctx in find db offerCampaigns (baseQuery now conds))
  = Ok selected.
Proof.
  unfold targetingFilter.
  destruct (locationConditions ctx) as [conds|]; [|discriminate]. cbn [bind].
  unfold find. destruct (connected db); [|discriminate]. cbn [bind].
  destruct (userCoordinates ctx) as [coords|]; [|auto].
  intros Hloop. apply geoLoop_no_change in Hloop; [now subst|].
  intros o Ho. apply List.filter_In in Ho. destruct Ho as [Hcoll Hq].
  apply andb_true_iff in Hq. destruct Hq as [Hbase _].
  apply List.existsb_exists. exists o. split.
  - apply List.filter_In. auto.
  - apply String.eqb_refl.
Qed.

(** What the filter selects: the active campaigns admitted by the branch,
    by the city, or by being unrestricted. *)
Lemma targetingFilter_selects (db : Db) (now : Z) (ctx : LocationContext) (selected : list Offer) :
  targetingFilter calculateDistance geoWithin db now ctx = Ok selected ->
  forall o, In o selected
            <-> In o (offerCampaigns db)
                /\ activeAt now o = true
                /\ (admitsByBranch ctx o || admitsByCity ctx o || globalCondition o) = true.
Proof.
  intros Hsel o. apply targetingFilter_is_baseQuery in Hsel.
  assert (Hconds : forall conds,
             locationConditions ctx = Ok conds ->
             (match conds with [] => true | _ => existsb (fun c => c o) conds end)
             = admitsByBranch ctx o || admitsByCity ctx o || globalCondition o).
  { intros conds.
    unfold locationConditions, admitsByBranch, admitsByCity, truthyStr, ObjectId.
    destruct (userBranchId ctx) as [b|]; destruct (userCity ctx) as [c|]; simpl;
      repeat match goal with
             | |- context [String.eqb ?s ""] => destruct (String.eqb s "") eqn:?; simpl
             | |- context [isValidObjectId ?s] => destruct (isValidObjectId s); simpl
             end;
      intros [= <-]; simpl; rewrite ?orb_false_r, ?orb_assoc; try reflexivity;
      try discriminate. }
  destruct (locationConditions ctx) as [conds|]; [|discriminate Hsel].
  cbn [bind] in Hsel. unfold find in Hsel.
  destruct (connected db); [|discriminate Hsel].
  injection Hsel as <-. rewrite List.filter_In. unfold baseQuery.
  rewrite andb_true_iff, (Hconds conds eq_refl). tauto.
Qed.

(** The query of the pricing calculator: the active campaigns admitted by
    the branch or by being unrestricted, that cover one of the products;
    the user location plays no part. *)
Lemma offerQuery_selects (now : Z) (branchId : option string) (ids : list string)
    (conds : list (Offer -> bool)) (o : Offer) :
  OfferService.locationConditions branchId = Ok conds ->
  offerQuery now conds ids o
  = activeAt now o
    && ((match branchId with
         | Some b => negb (String.eqb b "") && branchCondition (toHexString b) o
         | None => false
         end) || globalCondition o)
    && coverageCondition ids o.
Proof.
  unfold OfferService.locationConditions, offerQuery, truthyStr, ObjectId.
  destruct branchId as [b|]; simpl.
  - destruct (String.eqb b ""); simpl.
    + intros [= <-]. simpl. now rewrite orb_false_r.
    + destruct (isValidObjectId b); simpl; [|discriminate].
      intros [= <-]. simpl. now rewrite orb_false_r.
  - intros [= <-]. simpl. now rewrite orb_false_r.
Qed.

(** C2 fails on the code: a running campaign whose circle holds the
    requester's coordinates, and that names no branch and no city, is
    selected neither by the resolve endpoint (its geo query repeats the
    location conditions, so the geofence admits nothing) nor by the query
    of the pricing calculator (which never reads the user location); and
    in every store and context a campaign the filter selects is admitted
    by the branch, by the city, or by being unrestricted. *)
Theorem C2_geofence_never_admits :
  calculateDistance (247 # 10) (467 # 10) (247 # 10) (467 # 10) <= 5000 ->
  statedTargeting calculateDistance geoWithin 0 Samples.atThePoint Samples.nearbyOnly = true
  /\ targetingFilter calculateDistance geoWithin Samples.cornerStore 0 Samples.atThePoint
     = Ok []
  /\ resolveRelevantOffers calculateDistance geoWithin Samples.cornerStore 0
       Samples.fromThePoint = Ok []
  /\ calculateEffectivePrices Samples.cornerStore 0 [Samples.pen] None
       (Some (247 # 10, 467 # 10))
     = Ok (originalPrices [Samples.pen])
  /\ (forall db now ctx selected o,
         targetingFilter calculateDistance geoWithin db now ctx = Ok selected ->
         In o selected ->
         (admitsByBranch ctx o || admitsByCity ctx o || globalCondition o) = true).
Proof.
  intros Hnear. split; [|split; [|split; [|split]]].
  - unfold statedTargeting, admitsByGeofence, includeOffer. simpl.
    apply Qle_bool_iff in Hnear. rewrite Hnear. reflexivity.
  - reflexivity.
  - reflexivity.
  - reflexivity.
  - intros db now ctx selected o Hsel Ho.
    apply (targetingFilter_selects db now ctx selected Hsel o) in Ho. tauto.
Qed.

End Targeting.

Lemma C2_geofence_never_admits_witness :
  (fun _ _ _ _ : Q => 0) (247 # 10) (467 # 10) (247 # 10) (467 # 10) <= 5000
  /\ OfferController.targetingFilter (fun _ _ _ _ => 0) (fun _ _ => Ok false)
       Samples.cornerStore 0 Samples.atThePoint = Ok [].
Proof.
  assert (H : (fun _ _ _ _ : Q => 0) (247 # 10) (467 # 10) (247 # 10) (467 # 10) <= 5000)
    by (vm_compute; discriminate).
  split; [exact H|].
  exact (proj1 (proj2 (C2_geofence_never_admits (fun _ _ _ _ => 0) (fun _ _ => Ok false) H))).
Defined.
(** * Properties of the branch locator *)

Section NearestBranch.

Import BranchAssignmentService BranchSpec.

Variable calculateDistance : Q -> Q -> Q -> Q -> Q.
Variables longitude latitude : Q.

#[local] Abbreviation distanceOf := (distanceTo calculateDistance longitude latitude).
#[local] Abbreviation scanStep := (nearestStep calculateDistance longitude latitude).

Lemma nearestStep_nearestOf (st : option Branch * option Q) (seen : list Branch) (x : Branch) :
  nearestOf calculateDistance longitude latitude st seen ->
  nearestOf calculateDistance longitude latitude (scanStep st x) (seen ++ [x]).
Proof.
  intros [[-> ->] | (b & -> & Hin & Hall)]; unfold nearestStep; simpl.
  - right. exists x. split; [reflexivity|]. split; [now left|].
    constructor; [lra | constructor].
  - right. destruct (Qltb (distanceOf x) (distanceOf b)) eqn:E.
    + apply Qltb_lt in E. exists x. split; [reflexivity|].
      split; [apply in_or_app; right; now left|].
      apply Forall_app. split; [|constructor; [lra | constructor]].
      eapply List.Forall_impl; [|exact Hall]. simpl. intros y Hy. lra.
    + apply Qltb_ge in E. exists b. split; [reflexivity|].
      split; [apply in_or_app; now left|].
      apply Forall_app. split; [assumption | constructor; [assumption | constructor]].
Qed.

Lemma scan_nearestOf (l : list Branch) :
  forall st seen,
    nearestOf calculateDistance longitude latitude st seen ->
    nearestOf calculateDistance longitude latitude (fold_left scanStep l st) (seen ++ l).
Proof.
  induction l as [|x l IH]; intros st seen Hst; simpl.
  - now rewrite app_nil_r.
  - replace (seen ++ x :: l) with ((seen ++ [x]) ++ l) by now rewrite <- app_assoc.
    apply IH. now apply nearestStep_nearestOf.
Qed.

(** A scan from the start gives none on the empty list only, and else a
    branch of the list that none of the list is nearer than. *)
Lemma scan_nearest (l : list Branch) :
  match fst (fold_left scanStep l (None, None)) with
  | Some b => In b l /\ Forall (fun x => distanceOf b <= distanceOf x) l
  | None => l = []
  end.
Proof.
  pose proof (scan_nearestOf l (None, None) []) as H.
  specialize (H (or_introl (conj eq_refl eq_refl))). cbn [app] in H.
  destruct H as [[-> Hl] | (b & -> & Hin & Hall)]; [exact Hl | split; assumption].
Qed.

Lemma filter_andb {A} (f g : A -> bool) (l : list A) :
  List.filter (fun a => f a && g a) l = List.filter g (List.filter f l).
Proof.
  induction l as [|a l IH]; simpl; [reflexivity|].
  destruct (f a); simpl; [destruct (g a); now rewrite IH | assumption].
Qed.

Lemma manual_unfold (db : Db) :
  findNearestBranchManual calculateDistance db longitude latitude
  = if connected db
    then fst (fold_left scanStep (List.filter b_isActive (branchDocs db)) (None, None))
    else None.
Proof.
  unfold findNearestBranchManual, find. destruct (connected db); [|reflexivity].
  cbn [bind]. destruct (List.filter b_isActive (branchDocs db)); reflexivity.
Qed.

Lemma byCoordinates_unfold (db : Db) (maxDistanceKm : Q) :
  findNearestBranchByCoordinates calculateDistance db longitude latitude maxDistanceKm
  = if connected db
    then fst (fold_left scanStep
                (List.filter (fun b => Qle_bool (distanceOf b * 1000) (maxDistanceKm ⊗ 1000))
                             (List.filter b_isActive (branchDocs db)))
                (None, None))
    else None.
Proof.
  unfold findNearestBranchByCoordinates, findNearestBranchNear, nearQuery, find.
  destruct (connected db); [|reflexivity]. cbn [bind]. now rewrite filter_andb.
Qed.

(** The fallback answers with a nearest active branch, and with none only
    when the store has no active branch or cannot be read. *)
Lemma manual_nearest (db : Db) :
  match findNearestBranchManual calculateDistance db longitude latitude with
  | Some b => connected db = true /\ nearestActive calculateDistance longitude latitude db b
  | None => connected db = false \/ List.filter b_isActive (branchDocs db) = []
  end.
Proof.
  rewrite manual_unfold. destruct (connected db); [|now left].
  pose proof (scan_nearest (List.filter b_isActive (branchDocs db))) as H.
  destruct (fst (fold_left _ _ _)) as [b|]; [|now right].
  destruct H as [Hin Hall]. split; [reflexivity|].
  apply List.filter_In in Hin. split; [exact Hin|].
  intros x Hx. rewrite List.Forall_forall in Hall. apply Hall.
  apply List.filter_In. exact Hx.
Qed.

(** The scan of the active branches within the distance is an answer of
    the spatial query. *)
Lemma nearQuery_answers (db : Db) (maxDistanceMeters : Q) :
  nearAnswer calculateDistance longitude latitude db maxDistanceMeters
    (nearQuery calculateDistance db longitude latitude maxDistanceMeters).
Proof.
  unfold nearAnswer, nearQuery, find.
  destruct (connected db); cbn [bind]; [|split; [exact I | eauto]].
  split; [|discriminate].
  rewrite filter_andb.
  set (inside := fun b => Qle_bool (distanceOf b * 1000) maxDistanceMeters).
  pose proof (scan_nearest (List.filter inside (List.filter b_isActive (branchDocs db)))) as H.
  destruct (fst (fold_left _ _ _)) as [b|].
  - destruct H as [Hin Hall].
    apply List.filter_In in Hin. destruct Hin as [Hin Hb].
    apply List.filter_In in Hin. apply Qle_bool_iff in Hb.
    split; [split; [exact Hin|] | exact Hb].
    intros x Hx. destruct (inside x) eqn:Ex.
    + rewrite List.Forall_forall in Hall. apply Hall.
      apply List.filter_In. split; [apply List.filter_In; exact Hx | exact Ex].
    + assert (Hfar : maxDistanceMeters < distanceOf x * 1000).
      { apply Qnot_le_lt. intros Hle. apply Qle_bool_iff in Hle. unfold inside in Ex. congruence. }
      lra.
  - intros x Hx Hwithin.
    assert (Hx' : In x (List.filter inside (List.filter b_isActive (branchDocs db)))).
    { apply List.filter_In. split; [apply List.filter_In; exact Hx|].
      apply Qle_bool_iff. exact Hwithin. }
    rewrite H in Hx'. destruct Hx'.
Qed.

Section SpatialQuery.

(** The answer of the store to the spatial query, whatever it is within
    its description. *)
Variable near : Db -> Q -> Q -> Q -> Result (option Branch).
Hypothesis near_answers :
  forall (db : Db) (maxDistanceMeters : Q),
    nearAnswer calculateDistance longitude latitude db maxDistanceMeters
      (near db longitude latitude maxDistanceMeters).

(** C6 (amended): a branch the spatial query returns lies within the
    radius and is as near as the branch the fallback returns, which is the
    same branch when no other active branch is at that distance; the
    fallback has no radius and returns a nearest active branch at whatever
    distance; when that branch lies beyond the radius the spatial query
    returns none, and when it lies within and the spatial query answers,
    it answers with a branch at that distance. *)
Theorem C6_nearest_branch_agreement (db : Db) (maxDistanceKm : Q) :
  (forall b,
      findNearestBranchNear near db longitude latitude maxDistanceKm = Some b ->
      within calculateDistance longitude latitude (maxDistanceKm ⊗ 1000) b
      /\ exists b',
           findNearestBranchManual calculateDistance db longitude latitude = Some b'
           /\ distanceOf b' == distanceOf b
           /\ ((forall x, activeBranch db x -> distanceOf x == distanceOf b -> x = b) ->
               b' = b))
  /\ (forall b,
         findNearestBranchManual calculateDistance db longitude latitude = Some b ->
         nearestActive calculateDistance longitude latitude db b
         /\ (~ within calculateDistance longitude latitude (maxDistanceKm ⊗ 1000) b ->
             findNearestBranchNear near db longitude latitude maxDistanceKm = None)
         /\ (within calculateDistance longitude latitude (maxDistanceKm ⊗ 1000) b ->
             forall answer,
               near db longitude latitude (maxDistanceKm ⊗ 1000) = Ok answer ->
               exists b', answer = Some b' /\ distanceOf b' == distanceOf b)).
Proof.
  pose proof (near_answers db (maxDistanceKm ⊗ 1000)) as [Hanswer Hread].
  pose proof (manual_nearest db) as Hmanual.
  unfold findNearestBranchNear.
  split.
  - intros b Hb.
    destruct (near db longitude latitude (maxDistanceKm ⊗ 1000)) as [[nb|]|e] eqn:Hnear;
      try discriminate.
    injection Hb as ->. destruct Hanswer as [[Hact Hmin] Hwithin].
    split; [exact Hwithin|].
    destruct (findNearestBranchManual calculateDistance db longitude latitude) as [b'|].
    + destruct Hmanual as [_ [Hact' Hmin']].
      assert (Heq : distanceOf b' == distanceOf b).
      { apply Qle_antisym; [now apply Hmin' | now apply Hmin]. }
      exists b'. split; [reflexivity|]. split; [exact Heq|].
      intros Hunique. now apply Hunique.
    + exfalso. destruct Hmanual as [Hc | Hempty].
      * destruct (Hread Hc) as [e He]. discriminate He.
      * destruct Hact as [Hin Hb]. 
        assert (Hf : In b (List.filter b_isActive (branchDocs db)))
          by (apply List.filter_In; auto).
        rewrite Hempty in Hf. destruct Hf.
  - intros b Hb. rewrite Hb in Hmanual. destruct Hmanual as [Hc [Hact Hmin]].
    split; [split; assumption|]. split.
    + intros Hfar.
      destruct (near db longitude latitude (maxDistanceKm ⊗ 1000)) as [[nb|]|e];
        try reflexivity.
      exfalso. destruct Hanswer as [[Hact' _] Hwithin]. apply Hfar.
      unfold within in *. specialize (Hmin nb Hact'). lra.
    + intros Hwithin answer Hnear. rewrite Hnear in Hanswer.
      destruct answer as [nb|].
      * destruct Hanswer as [[Hact' Hmin'] _]. exists nb. split; [reflexivity|].
        apply Qle_antisym; [now apply Hmin' | now apply Hmin].
      * exfalso. exact (Hanswer b Hact Hwithin).
Qed.

End SpatialQuery.

End NearestBranch.

Lemma C6_nearest_branch_agreement_witness :
  BranchAssignmentService.findNearestBranchByCoordinates Samples.gridDistance
    Samples.nearStore 0 0 100 = Some Samples.depot
  /\ exists b',
       BranchAssignmentService.findNearestBranchManual Samples.gridDistance
         Samples.nearStore 0 0 = Some b'
       /\ BranchAssignmentService.distanceTo Samples.gridDistance 0 0 b'
          == BranchAssignmentService.distanceTo Samples.gridDistance 0 0 Samples.depot.
Proof.
  assert (H : BranchAssignmentService.findNearestBranchNear
                (BranchAssignmentService.nearQuery Samples.gridDistance)
                Samples.nearStore 0 0 100 = Some Samples.depot) by (vm_compute; reflexivity).
  split; [exact H|].
  destruct (proj1 (C6_nearest_branch_agreement Samples.gridDistance 0 0
                     (BranchAssignmentService.nearQuery Samples.gridDistance)
                     (nearQuery_answers Samples.gridDistance 0 0)
                     Samples.nearStore 100) Samples.depot H)
    as (_ & b' & Hb' & Heq & _).
  exists b'. split; [exact Hb' | exact Heq].
Defined.

(** C6 as stated fails: with one active branch 222 km away and a radius of
    100 km the fallback returns the branch (and the spatial query none). *)
Lemma C6_counterexample :
  ~ (forall (calculateDistance : Q -> Q -> Q -> Q -> Q) (db : Db)
            (longitude latitude maxDistanceKm : Q),
        BranchSpec.statedAgreement calculateDistance db longitude latitude maxDistanceKm).
Proof.
  intros H.
  destruct (H Samples.gridDistance Samples.farStore 0 0 100) as (_ & _ & Hwithin).
  specialize (Hwithin Samples.north (or_introl eq_refl)).
  vm_compute in Hwithin. apply Hwithin. reflexivity.
Qed.

(** * Properties of order creation *)

Section OrderCreation.

Import OfferService OrderService.

Variable calculateDistance : Q -> Q -> Q -> Q -> Q.
Variable getLocationFromIP : string -> option BranchAssignmentService.LocationData.

Lemma validateTotals_mismatch (calculatedSubtotal : Q) (orderData : CreateOrderData) :
  dec (1 # 100) < Qabs (calculatedSubtotal ⊖ subtotal orderData)
  \/ dec (1 # 100) < Qabs ((calculatedSubtotal ⊕ shipping orderData) ⊖ total orderData) ->
  validateTotals calculatedSubtotal orderData = Throw (JsError "Subtotal mismatch")
  \/ validateTotals calculatedSubtotal orderData = Throw (JsError "Total amount mismatch").
Proof.
  intros H. unfold validateTotals.
  destruct (Qltb (dec (1 # 100)) (Qabs (calculatedSubtotal ⊖ subtotal orderData))) eqn:E1;
    [now left|].
  destruct (Qltb (dec (1 # 100))
                 (Qabs ((calculatedSubtotal ⊕ shipping orderData) ⊖ total orderData)))
    eqn:E2; [now right|].
  apply Qltb_ge in E1, E2. destruct H; lra.
Qed.

(** C7: when the subtotal computed on the server is more than 0.01 away
    from the submitted one, or the subtotal plus shipping more than 0.01
    away from the submitted total (the differences and the sum being
    those of binary64 numbers, as the server computes them),
    [createOrder] throws and the store is what it was before the call: no
    order, no address. *)
Theorem C7_mismatch_rejects_order (db : Db) (now : Z) (orderData : CreateOrderData)
    (newOrderId newAddressId : string) (orderItems : list OrderItem) (calculatedSubtotal : Q) :
  forOf (priceLine db now) (od_items orderData) ([], 0) = Ok (orderItems, calculatedSubtotal) ->
  dec (1 # 100) < Qabs (calculatedSubtotal ⊖ subtotal orderData)
  \/ dec (1 # 100) < Qabs ((calculatedSubtotal ⊕ shipping orderData) ⊖ total orderData) ->
  exists e,
    createOrder calculateDistance getLocationFromIP db now orderData newOrderId newAddressId
    = (Throw e, db)
    /\ (forall c,
           findOne db customers (fun c => String.eqb (c_id c) (customerId orderData))
           = Ok (Some c) ->
           e = JsError "Subtotal mismatch" \/ e = JsError "Total amount mismatch").
Proof.
  intros Hpriced Hmismatch.
  unfold createOrder, createOrder_try, bindM, query, throw. cbn [store pending].
  destruct (findOne db customers _) as [[c|]|e0] eqn:Hc.
  - change (store {| store := db; pending := [] |}) with db.
    rewrite Hpriced. cbn beta iota.
    destruct (validateTotals_mismatch calculatedSubtotal orderData Hmismatch) as [-> | ->];
      eexists; (split; [reflexivity | intros _ _; auto]).
  - eexists. split; [reflexivity | discriminate].
  - eexists. split; [reflexivity | discriminate].
Qed.

Lemma saveAddress_keeps_orders (db0 : Db) (customerId : string) (a : ShippingAddress)
    (label : option string) (newId : string) :
  orders (snd (AddressService.saveAddress db0 customerId a label newId)) = orders db0
  /\ connected (snd (AddressService.saveAddress db0 customerId a label newId)) = connected db0.
Proof.
  unfold AddressService.saveAddress.
  destruct (findOne db0 customers _) as [[c|]|]; simpl; auto.
  destruct (existsb _ _); simpl; auto.
Qed.

Lemma find_last {A} (f : A -> bool) (l : list A) (x : A) :
  f x = true -> exists y, List.find f (l ++ [x]) = Some y.
Proof.
  intros Hx. induction l as [|a l IH]; simpl.
  - rewrite Hx. eauto.
  - destruct (f a); eauto.
Qed.

(** Whatever makes [createOrder] throw, the store is left as it was: the
    checks come before the first write, and nothing after the commit
    fails. *)
Lemma createOrder_failure_leaves_store (db db' : Db) (now : Z) (orderData : CreateOrderData)
    (newOrderId newAddressId : string) (e : Failure) :
  createOrder calculateDistance getLocationFromIP db now orderData newOrderId newAddressId
  = (Throw e, db') ->
  db' = db.
Proof.
  unfold createOrder, createOrder_try, bindM, query, throw, ret, abortTransaction.
  cbv beta iota. cbn [store pending].
  destruct (findOne db customers _) as [[c|]|];
    cbv beta iota; cbn [store pending]; try (intros [= _ <-]; reflexivity).
  destruct (forOf (priceLine db now) (od_items orderData) ([], 0)) as [[orderItems sub]|];
    cbv beta iota; cbn [store pending]; try (intros [= _ <-]; reflexivity).
  destruct (validateTotals sub orderData);
    cbv beta iota; cbn [store pending]; try (intros [= _ <-]; reflexivity).
  destruct (validateAddress (shippingAddress orderData));
    cbv beta iota; cbn [store pending]; try (intros [= _ <-]; reflexivity).
  destruct (assignBranch calculateDistance getLocationFromIP db orderData)
    as [assignedBranch customerLocation].
  cbv beta iota; cbn [store pending].
  destruct (connected db) eqn:Hc;
    cbv beta iota; cbn [store pending]; try (intros [= _ <-]; reflexivity).
  unfold saveInSession.
  destruct (validateOrder _); cbv beta iota; cbn [store pending];
    try (intros [= _ <-]; reflexivity).
  destruct (existsb _ (orders db ++ [])); cbv beta iota; cbn [store pending];
    try (intros [= _ <-]; reflexivity).
  unfold commitTransaction, writeIgnoringFailure.
  cbv beta iota; cbn [store pending app].
  destruct (saveInfo orderData); cbv beta iota; cbn [store pending app].
  - destruct (saveAddress_keeps_orders db (customerId orderData) (shippingAddress orderData)
                (Some (if vatRegistered (shippingAddress orderData)
                       then "Company Address" else "Home Address")) newAddressId)
      as [Ho Hconn].
    unfold findOne, withOrders. cbn [connected orders].
    rewrite Hconn, Hc.
    match goal with
    | |- context [List.find ?f (?l ++ [?x])] =>
        destruct (find_last f l x) as [y ->]; [apply String.eqb_refl|]
    end.
    discriminate.
  - unfold findOne, withOrders. cbn [connected orders]. rewrite Hc.
    match goal with
    | |- context [List.find ?f (?l ++ [?x])] =>
        destruct (find_last f l x) as [y ->]; [apply String.eqb_refl|]
    end.
    discriminate.
Qed.

End OrderCreation.

Lemma C7_mismatch_rejects_order_witness :
  (exists orderItems calculatedSubtotal,
      forOf (OrderService.priceLine Samples.shop 0)
            (OrderService.od_items Samples.shelfPriceOrder) ([], 0)
      = Ok (orderItems, calculatedSubtotal)
      /\ dec (1 # 100)
         < Qabs (calculatedSubtotal ⊖ OrderService.subtotal Samples.shelfPriceOrder))
  /\ exists e,
       OrderService.createOrder Samples.gridDistance Samples.noGeolocation Samples.shop 0
         Samples.shelfPriceOrder "N1" "A1" = (Throw e, Samples.shop).
Proof.
  destruct (forOf (OrderService.priceLine Samples.shop 0)
                  (OrderService.od_items Samples.shelfPriceOrder) ([], 0))
    as [[orderItems calculatedSubtotal]|e] eqn:Hp; [|vm_compute in Hp; discriminate Hp].
  assert (Hs : calculatedSubtotal = 0 ⊕ dec (799 # 100) ⊗ 2).
  { vm_compute in Hp. injection Hp as _ <-. vm_compute. reflexivity. }
  assert (Hm : dec (1 # 100)
               < Qabs (calculatedSubtotal ⊖ OrderService.subtotal Samples.shelfPriceOrder)).
  { rewrite Hs. vm_compute. reflexivity. }
  split; [exists orderItems, calculatedSubtotal; split; [reflexivity | exact Hm]|].
  destruct (C7_mismatch_rejects_order Samples.gridDistance Samples.noGeolocation Samples.shop 0
              Samples.shelfPriceOrder "N1" "A1" _ _ Hp (or_introl Hm)) as (e & He & _).
  exists e. exact He.
Defined.

(** An order at the recomputed prices is persisted, with the address. *)
Lemma createOrder_accepts_matching_totals :
  exists order db',
    OrderService.createOrder Samples.gridDistance Samples.noGeolocation Samples.shop 0
      Samples.campaignPriceOrder "N1" "A1" = (Ok order, db')
    /\ orders db' = [order]
    /\ orderNumber order = "MTC000001"
    /\ map (fun c => List.length (savedAddresses c)) (customers db') = [1%nat].
Proof.
  eexists. eexists. split; [vm_compute; reflexivity|].
  repeat split; reflexivity.
Qed.

(** Three stickers at half of 0.29: the server prices one at 0.14 and the
    three at 0.42000000000000004, and the order submitted at 0.42 is
    persisted. *)
Example createOrder_three_stickers :
  OfferService.effectivePrice
    (OfferService.priceProduct Samples.kiosk [Samples.halfPrice] Samples.sticker)
  == dec (14 # 100)
  /\ (exists orderItems calculatedSubtotal,
         forOf (OrderService.priceLine Samples.kiosk 0)
               (OrderService.od_items Samples.threeStickers) ([], 0)
         = Ok (orderItems, calculatedSubtotal)
         /\ calculatedSubtotal == 7566047373982434 # 18014398509481984
         /\ ~ calculatedSubtotal == dec (42 # 100))
  /\ exists order db',
       OrderService.createOrder Samples.gridDistance Samples.noGeolocation Samples.kiosk 0
         Samples.threeStickers "N1" "A1" = (Ok order, db')
       /\ orders db' = [order].
Proof.
  split; [vm_compute; reflexivity|]. split.
  - eexists. eexists. split; [vm_compute; reflexivity|].
    split; [vm_compute; reflexivity | vm_compute; discriminate].
  - eexists. eexists. split; [vm_compute; reflexivity | reflexivity].
Qed.

(** An eraser at 0.07 ordered at 0.06: the difference of the two numbers
    is 0.010000000000000009, above the tolerance, and the order is
    refused. *)
Example createOrder_one_cent_short :
  dec (1 # 100) < dec (7 # 100) ⊖ dec (6 # 100)
  /\ OrderService.createOrder Samples.gridDistance Samples.noGeolocation Samples.kiosk 0
       Samples.cheapEraser "N1" "A1"
     = (Throw (JsError "Subtotal mismatch"), Samples.kiosk).
Proof. split; vm_compute; reflexivity. Qed.

(** * Properties of the write-time conflict check *)

Section Strings.

Import ConflictSpec.

Lemma append_nil_r (s : string) : s +:+ "" = s.
Proof.
  induction s as [|c s IH]; [reflexivity|].
  change (String c (s +:+ "") = String c s). now rewrite IH.
Qed.

Lemma append_assoc (a b c : string) : (a +:+ b) +:+ c = a +:+ (b +:+ c).
Proof.
  induction a as [|x a IH]; [reflexivity|].
  change (String x ((a +:+ b) +:+ c) = String x (a +:+ (b +:+ c))). now rewrite IH.
Qed.

Lemma occursIn_refl (s : string) : occursIn s s.
Proof. exists "", "". now rewrite append_nil_r. Qed.

Lemma occursIn_app_l (x a b : string) : occursIn x a -> occursIn x (a +:+ b).
Proof.
  intros (pre & post & ->). exists pre, (post +:+ b).
  now rewrite !append_assoc.
Qed.

Lemma occursIn_app_r (x a b : string) : occursIn x b -> occursIn x (a +:+ b).
Proof.
  intros (pre & post & ->). exists (a +:+ pre), post.
  now rewrite !append_assoc.
Qed.

Lemma occursIn_trans (a b c : string) : occursIn a b -> occursIn b c -> occursIn a c.
Proof.
  intros (p1 & q1 & ->) (p2 & q2 & ->). exists (p2 +:+ p1), (q1 +:+ q2).
  now rewrite !append_assoc.
Qed.

Lemma occursIn_concat (sep x : string) (l : list string) :
  In x l -> occursIn x (String.concat sep l).
Proof.
  induction l as [|y l IH]; [intros []|].
  intros Hin. destruct l as [|z l].
  - destruct Hin as [-> | []]. apply occursIn_refl.
  - change (String.concat sep (y :: z :: l)) with (y +:+ sep +:+ String.concat sep (z :: l)).
    destruct Hin as [-> | Hin].
    + apply occursIn_app_l, occursIn_refl.
    + apply occursIn_app_r, occursIn_app_r. now apply IH.
Qed.

Lemma prefix_append (sub post : string) : String.prefix sub (sub +:+ post) = true.
Proof.
  induction sub as [|c sub IH]; [now destruct post|].
  change (String c sub +:+ post) with (String c (sub +:+ post)).
  cbn [String.prefix].
  destruct (Ascii.ascii_dec c c) as [_ | Hne]; [exact IH | now destruct Hne].
Qed.

Lemma occursIn_containsb (sub s : string) : occursIn sub s -> containsb sub s = true.
Proof.
  intros (pre & post & ->). induction pre as [|c pre IH].
  - change ("" +:+ sub +:+ post) with (sub +:+ post).
    destruct (sub +:+ post) eqn:E; cbn [containsb]; rewrite <- E, prefix_append; reflexivity.
  - change (String c pre +:+ sub +:+ post) with (String c (pre +:+ sub +:+ post)).
    cbn [containsb]. rewrite IH. apply orb_true_r.
Qed.

End Strings.

Section Conflicts.

Import OfferController StackingSpec ConflictSpec.

Variable db : Db.
Variable now : Z.

(** The casts of the submitted ids. *)
Lemma ObjectId_valid (s : string) : validId s -> ObjectId s = Ok (toHexString s).
Proof. unfold validId, ObjectId. now intros ->. Qed.

Lemma ObjectId_Ok (s c : string) : ObjectId s = Ok c -> validId s /\ c = toHexString s.
Proof.
  unfold validId, ObjectId. destruct (isValidObjectId s); [|discriminate].
  intros [= <-]. auto.
Qed.

Lemma mapM_ObjectId_valid (ids : list string) :
  Forall validId ids -> mapM ObjectId ids = Ok (map toHexString ids).
Proof.
  induction 1 as [|id ids Hid _ IH]; [reflexivity|].
  cbn [mapM map]. rewrite (ObjectId_valid id Hid). cbn [bind]. now rewrite IH.
Qed.

Lemma mapM_ObjectId_Ok (ids cast : list string) :
  mapM ObjectId ids = Ok cast -> Forall validId ids /\ cast = map toHexString ids.
Proof.
  revert cast. induction ids as [|id ids IH]; intros cast H.
  - injection H as <-. split; [constructor | reflexivity].
  - cbn [mapM] in H. destruct (ObjectId id) as [c|] eqn:Hc; [|discriminate].
    cbn [bind] in H. destruct (mapM ObjectId ids) as [cs|]; [|discriminate].
    cbn [bind] in H. injection H as <-.
    apply ObjectId_Ok in Hc. destruct Hc as [Hv ->].
    destruct (IH cs eq_refl) as [Hvs ->].
    split; [constructor; assumption | reflexivity].
Qed.

Lemma castWhenTruthy_Ok (id cast : option string) :
  castWhenTruthy id = Ok cast -> validWhenGiven id /\ cast = given id.
Proof.
  unfold castWhenTruthy, truthyStr, given, validWhenGiven.
  destruct id as [s|]; [|cbn; intros [= <-]; auto].
  destruct (String.eqb s "") eqn:E; cbn [negb].
  - intros [= <-]. apply String.eqb_eq in E. auto.
  - change (default "" (Some s)) with s.
    destruct (ObjectId s) as [c|] eqn:Hc; cbn [bind]; [|discriminate].
    intros [= <-]. apply ObjectId_Ok in Hc. destruct Hc as [Hv ->]. auto.
Qed.

Lemma castWhenTruthy_valid (id : option string) :
  validWhenGiven id -> castWhenTruthy id = Ok (given id).
Proof.
  unfold castWhenTruthy, truthyStr, given, validWhenGiven.
  destruct id as [s|]; [|reflexivity].
  destruct (String.eqb s "") eqn:E; cbn [negb]; [reflexivity|].
  intros [-> | Hv]; [discriminate E|].
  change (default "" (Some s)) with s. now rewrite (ObjectId_valid s Hv).
Qed.

(** The query of the conflict check selects the colliding campaigns. *)
Lemma conflictQuery_collides (ids : list string) (exclude target : option string) (o : Offer) :
  conflictQuery now (map toHexString ids) (given exclude) (given target) o = true
  <-> collides now ids exclude target o.
Proof.
  unfold conflictQuery, collides, running, holdsOneOf, inScope, isOther.
  rewrite !andb_true_iff.
  assert (Hitems : existsb (fun it => existsb (String.eqb (product it)) (map toHexString ids))
                           (items o) = true
                   <-> exists item id, In item (items o) /\ In id ids
                                       /\ product item = toHexString id).
  { rewrite List.existsb_exists. split.
    - intros (item & Hin & Hex). apply List.existsb_exists in Hex.
      destruct Hex as (c & Hc & Heq). apply List.in_map_iff in Hc.
      destruct Hc as (id & <- & Hid). apply String.eqb_eq in Heq. eauto.
    - intros (item & id & Hin & Hid & Heq). exists item. split; [exact Hin|].
      apply List.existsb_exists. exists (toHexString id).
      split; [now apply List.in_map | now apply String.eqb_eq]. }
  assert (Hs : match startsAt o with None => true | Some s => (s <=? now)%Z end = true
               <-> match startsAt o with Some s => (s <= now)%Z | None => True end).
  { destruct (startsAt o); [apply Z.leb_le | tauto]. }
  assert (He : match endsAt o with None => true | Some e => (now <=? e)%Z end = true
               <-> match endsAt o with Some e => (now <= e)%Z | None => True end).
  { destruct (endsAt o); [apply Z.leb_le | tauto]. }
  assert (Ht : match given target with
               | Some t => match branch o with None => true | Some b => String.eqb b t end
               | None => true
               end = true
               <-> match given target with
                   | Some t => branch o = None \/ branch o = Some t
                   | None => True
                   end).
  { destruct (given target) as [t|]; [|tauto].
    destruct (branch o) as [b|]; [|tauto]. rewrite String.eqb_eq. split.
    - intros ->. now right.
    - intros [H | [= ->]]; [discriminate | reflexivity]. }
  assert (Hx : match given exclude with
               | Some x => negb (String.eqb (o_id o) x)
               | None => true
               end = true
               <-> match given exclude with Some x => o_id o <> x | None => True end).
  { destruct (given exclude) as [x|]; [|tauto].
    rewrite negb_true_iff. apply String.eqb_neq. }
  rewrite Hitems, Hs, He, Ht, Hx. tauto.
Qed.

(** The titles the check lists are the overlapping ones when the ids are
    submitted in lower case. *)
Lemma includes_lowerCase (ids : list string) (s : string) :
  Forall lowerCase ids ->
  existsb (String.eqb s) ids = existsb (fun id => String.eqb s (toHexString id)) ids.
Proof.
  induction 1 as [|id ids Hid _ IH]; [reflexivity|].
  cbn [existsb]. now rewrite IH, Hid.
Qed.

Lemma conflictingProducts_populated (ids : list string) (o : Offer) :
  Forall lowerCase ids ->
  allPopulated db o ->
  conflictingProducts db ids (items o) = Ok (overlappingTitles db ids o).
Proof.
  intros Hlow. unfold allPopulated, overlappingTitles.
  induction 1 as [|item rest Hpop _ IH]; simpl; [reflexivity|].
  destruct (populate db item) as [p|]; [|congruence].
  rewrite IH. cbn [bind]. rewrite (includes_lowerCase ids (p_id p) Hlow).
  destruct (existsb _ ids); reflexivity.
Qed.

Lemma conflictDetails_populated (ids : list string) (conflicting : list Offer) :
  Forall lowerCase ids ->
  Forall (allPopulated db) conflicting ->
  mapM (fun offer =>
          let* conflicting := conflictingProducts db ids (items offer) in
          Ok {| offerTitle := title offer; cd_products := conflicting |})
       conflicting
  = Ok (map (detailOf db ids) conflicting).
Proof.
  intros Hlow. induction 1 as [|o rest Hpop _ IH]; simpl; [reflexivity|].
  rewrite (conflictingProducts_populated ids o Hlow Hpop). simpl.
  rewrite IH. reflexivity.
Qed.

Lemma find_connected {A} (coll : Db -> list A) (query : A -> bool) :
  connected db = true -> find db coll query = Ok (List.filter query (coll db)).
Proof. intros Hc. unfold find. now rewrite Hc. Qed.

Lemma nonempty_length {A} (l : list A) : l <> [] -> (0 <? List.length l)%nat = true.
Proof. destruct l; [congruence | reflexivity]. Qed.

#[local] Abbreviation found := (foundByQuery db now).

Lemma found_collides (ids : list string) (exclude target : option string) (o : Offer) :
  In o (found ids exclude target)
  <-> In o (offerCampaigns db) /\ collides now ids exclude target o.
Proof. unfold foundByQuery. now rewrite List.filter_In, conflictQuery_collides. Qed.

(** With a colliding campaign in the store the check never answers that
    there is no conflict. *)
Lemma checkProductConflicts_collision (ids : list string) (exclude target : option string)
    (o : Offer) :
  In o (offerCampaigns db) -> collides now ids exclude target o ->
  checkProductConflicts db now ids exclude target <> Ok None.
Proof.
  intros Hin Hcol. unfold checkProductConflicts.
  destruct (mapM ObjectId ids) as [cast|] eqn:Hids; [|discriminate].
  apply mapM_ObjectId_Ok in Hids. destruct Hids as [_ ->]. cbn [bind].
  destruct (castWhenTruthy target) as [ct|] eqn:Ht; [|discriminate].
  apply castWhenTruthy_Ok in Ht. destruct Ht as [_ ->]. cbn [bind].
  destruct (castWhenTruthy exclude) as [cx|] eqn:Hx; [|discriminate].
  apply castWhenTruthy_Ok in Hx. destruct Hx as [_ ->]. cbn [bind].
  unfold find. destruct (connected db); [|discriminate]. cbn [bind].
  fold (found ids exclude target).
  assert (Hne : found ids exclude target <> []).
  { intros E. assert (Ho : In o (found ids exclude target)) by (apply found_collides; auto).
    rewrite E in Ho. destruct Ho. }
  rewrite (nonempty_length _ Hne).
  destruct (mapM _ (found ids exclude target)); cbn [bind]; discriminate.
Qed.

(** The report of the check on a request that reaches it. *)
Lemma checkProductConflicts_details (ids : list string) (exclude target : option string) :
  connected db = true ->
  Forall validId ids -> Forall lowerCase ids ->
  validWhenGiven exclude -> validWhenGiven target ->
  found ids exclude target <> [] ->
  Forall (allPopulated db) (found ids exclude target) ->
  checkProductConflicts db now ids exclude target
  = Ok (Some (map (detailOf db ids) (found ids exclude target))).
Proof.
  intros Hc Hvalid Hlow Hx Ht Hne Hpop. unfold checkProductConflicts.
  rewrite (mapM_ObjectId_valid ids Hvalid). cbn [bind].
  rewrite (castWhenTruthy_valid target Ht). cbn [bind].
  rewrite (castWhenTruthy_valid exclude Hx). cbn [bind].
  unfold find. rewrite Hc. cbn [bind]. fold (found ids exclude target).
  rewrite (nonempty_length _ Hne), (conflictDetails_populated ids _ Hlow Hpop). reflexivity.
Qed.

(** The message names every conflicting campaign and every overlapping
    product. *)
Lemma productConflict_lists (details : list ConflictDetail) :
  exists message,
    productConflict details = AppError message 400 "PRODUCT_CONFLICT"
    /\ forall d, In d details ->
                 occursIn (offerTitle d) message
                 /\ forall t, In t (cd_products d) -> occursIn t message.
Proof.
  eexists. split; [reflexivity|].
  intros d Hd.
  assert (Hentry : occursIn (quote +:+ offerTitle d +:+ quote +:+ " already includes: "
                             +:+ String.concat ", " (cd_products d))
                            (conflictMessage details)).
  { unfold conflictMessage. apply occursIn_concat.
    apply in_map_iff. exists d. split; [reflexivity | assumption]. }
  assert (Hmsg : forall x, occursIn x (conflictMessage details) ->
                           occursIn x ("Product conflict detected. " +:+ conflictMessage details
                                       +:+ ". Please remove these products from existing offers first.")).
  { intros x Hx. apply occursIn_app_r, occursIn_app_l. exact Hx. }
  split.
  - apply Hmsg. eapply occursIn_trans; [|exact Hentry].
    apply occursIn_app_r, occursIn_app_l, occursIn_refl.
  - intros t Ht. apply Hmsg. eapply occursIn_trans; [|exact Hentry].
    do 4 apply occursIn_app_r. now apply occursIn_concat.
Qed.

Lemma details_list_conflicts (ids : list string) (conflicting : list Offer) :
  exists message,
    productConflict (map (detailOf db ids) conflicting) = AppError message 400 "PRODUCT_CONFLICT"
    /\ forall o, In o conflicting ->
                 occursIn (title o) message
                 /\ forall t, In t (overlappingTitles db ids o) -> occursIn t message.
Proof.
  destruct (productConflict_lists (map (detailOf db ids) conflicting)) as (message & Hm & Hall).
  exists message. split; [exact Hm|].
  intros o Ho. exact (Hall (detailOf db ids o) (in_map _ _ _ Ho)).
Qed.

(** Every submitted product is found, once: the test of [createOffer]
    passes. *)
Lemma productsFound_length (ids : list string) :
  uniqueProductIds db -> productsFound db ids ->
  List.length (List.filter (fun p => existsb (String.eqb (p_id p)) (map toHexString ids))
                           (products db))
  = List.length ids.
Proof.
  intros Huniq [Hnodup Hall].
  set (hits := List.filter _ (products db)).
  rewrite <- (List.length_map p_id hits), <- (List.length_map toHexString ids).
  apply Permutation_length. apply Stdlib.Sorting.Permutation.NoDup_Permutation.
  - unfold hits, uniqueProductIds in *. clear Hall Hnodup.
    induction (products db) as [|p ps IH]; cbn [List.filter map]; [constructor|].
    cbn [map] in Huniq. apply List.NoDup_cons_iff in Huniq. destruct Huniq as [Hp Hps].
    destruct (existsb _ _); [|now apply IH].
    cbn [map]. constructor; [|now apply IH].
    intros Hin. apply Hp. apply List.in_map_iff in Hin. destruct Hin as (q & Hq & Hin).
    apply List.filter_In in Hin. rewrite <- Hq. apply List.in_map. tauto.
  - exact Hnodup.
  - intros c. split.
    + intros Hc. apply List.in_map_iff in Hc. destruct Hc as (p & <- & Hp).
      apply List.filter_In in Hp. destruct Hp as [_ Hp].
      apply List.existsb_exists in Hp. destruct Hp as (c & Hc & Heq).
      apply String.eqb_eq in Heq. now rewrite Heq.
    + intros Hc. apply List.in_map_iff in Hc. destruct Hc as (id & <- & Hid).
      destruct (Hall id Hid) as (p & Hp & Heq). rewrite <- Heq.
      apply List.in_map. apply List.filter_In. split; [exact Hp|].
      apply List.existsb_exists. exists (toHexString id).
      split; [now apply List.in_map | now apply String.eqb_eq].
Qed.

End Conflicts.

Section ConflictingWrites.

Import OfferController StackingSpec ConflictSpec.

Lemma holdsOneOf_nonempty (ids : list string) (o : Offer) : holdsOneOf ids o -> ids <> [].
Proof. intros (item & id & _ & Hid & _) ->. destruct Hid. Qed.

Lemma createOffer_conflict (db : Db) (now : Z) (user : User) (body : CreateOfferDto)
    (newId : string) (o : Offer) :
  In o (offerCampaigns db) ->
  collides now (map product (c_items body)) None (createTarget user body) o ->
  exists e, createOffer db now user body newId = (Throw e, db).
Proof.
  intros Hin Hcol.
  assert (Hitems : (0 <? List.length (c_items body))%nat = true).
  { destruct Hcol as (_ & Hholds & _). apply holdsOneOf_nonempty in Hholds.
    destruct (c_items body); [now destruct Hholds | reflexivity]. }
  pose proof (checkProductConflicts_collision db now _ None (createTarget user body) o Hin Hcol)
    as Hcheck.
  unfold createOffer. cbv zeta. rewrite Hitems.
  fold (createTarget user body).
  destruct (mapM ObjectId (map product (c_items body))); cbn [bind]; [|eauto].
  destruct (find db products _); cbn [bind]; [|eauto].
  destruct (negb _); cbn [bind]; [eauto|].
  destruct (checkProductConflicts db now (map product (c_items body)) None
              (createTarget user body)) as [[cs|]|e]; cbn [bind]; eauto.
  congruence.
Qed.

Lemma createOffer_conflict_details (db : Db) (now : Z) (user : User) (body : CreateOfferDto)
    (newId : string) :
  let ids := map product (c_items body) in
  connected db = true ->
  uniqueProductIds db -> productsFound db ids ->
  Forall validId ids -> Forall lowerCase ids ->
  validWhenGiven (createTarget user body) ->
  foundByQuery db now ids None (createTarget user body) <> [] ->
  Forall (allPopulated db) (foundByQuery db now ids None (createTarget user body)) ->
  createOffer db now user body newId
  = (Throw (productConflict
              (map (detailOf db ids) (foundByQuery db now ids None (createTarget user body)))), db).
Proof.
  intros ids Hc Huniq Hfound Hvalid Hlow Htarget Hne Hpop.
  assert (Hitems : (0 <? List.length (c_items body))%nat = true).
  { destruct (c_items body) as [|item its] eqn:E; [|reflexivity].
    exfalso. apply Hne. unfold foundByQuery, ids. cbn [map].
    induction (offerCampaigns db) as [|x xs IH]; [reflexivity|].
    cbn [List.filter]. unfold conflictQuery at 1. cbn [existsb].
    assert (Hex : existsb (fun _ : OfferItem => false) (items x) = false)
      by (induction (items x); simpl; auto).
    rewrite Hex, andb_false_r. exact IH. }
  unfold createOffer. cbv zeta. rewrite Hitems.
  fold (createTarget user body). fold ids.
  rewrite (mapM_ObjectId_valid ids Hvalid). cbn [bind].
  rewrite (find_connected db products _ Hc). cbn [bind].
  rewrite (productsFound_length db ids Huniq Hfound).
  rewrite Nat.eqb_refl. cbn [negb].
  rewrite (checkProductConflicts_details db now ids None (createTarget user body)
             Hc Hvalid Hlow I Htarget Hne Hpop).
  reflexivity.
Qed.

Lemma updateOffer_lookup (db : Db) (id : string) (offer : Offer) :
  ProductPricing.findById db offerCampaigns o_id id = Ok (Some offer) ->
  validId id /\ id <> ""
  /\ ObjectId id = Ok (toHexString id)
  /\ findOne db offerCampaigns (fun o => String.eqb (o_id o) (toHexString id)) = Ok (Some offer).
Proof.
  unfold ProductPricing.findById, validId, ObjectId.
  destruct (isValidObjectId id) eqn:Hv; [|discriminate].
  intros H. split; [reflexivity|]. split; [|split; [reflexivity | exact H]].
  intros ->. discriminate Hv.
Qed.

Lemma updateTarget_setFields (user : User) (updateData : UpdateOfferDto) (offer : Offer)
    (newBranch : option (option string)) :
  (role user = BranchRole \/ u_branch updateData = None -> newBranch = None) ->
  match role user, u_branch updateData with
  | Admin, Some b => b
  | BranchRole, _ => u_branchId user
  | Admin, None => branch (setFields offer updateData newBranch)
  end = updateTarget user updateData offer.
Proof.
  intros H. unfold updateTarget, setFields. cbn [branch].
  destruct (role user), (u_branch updateData); try reflexivity.
  now rewrite H by auto.
Qed.

Lemma updateOffer_conflict (db : Db) (now : Z) (user : User) (id : string)
    (updateData : UpdateOfferDto) (offer : Offer) (its : list OfferItem) (o : Offer) :
  ProductPricing.findById db offerCampaigns o_id id = Ok (Some offer) ->
  accessDenied user offer = false ->
  u_items updateData = Some its ->
  In o (offerCampaigns db) ->
  collides now (map product its) (Some id) (updateTarget user updateData offer) o ->
  exists e, updateOffer db now user id updateData = (Throw e, db).
Proof.
  intros Hfound Hallowed Hits Hin Hcol.
  apply updateOffer_lookup in Hfound. destruct Hfound as (_ & _ & Hcast & Hfound).
  pose proof (checkProductConflicts_collision db now _ (Some id)
                (updateTarget user updateData offer) o Hin Hcol) as Hcheck.
  unfold updateOffer. cbv zeta. rewrite Hcast. cbn [bind]. rewrite Hfound. cbn [bind].
  fold (accessDenied user offer). rewrite Hallowed, Hits.
  destruct (role user) eqn:Hrole.
  - destruct (u_branch updateData) as [b|] eqn:Hb.
    + destruct (castWhenTruthy b); cbn [bind]; [|eauto].
      unfold updateTarget in Hcheck. rewrite Hrole, Hb in Hcheck.
      destruct (checkProductConflicts db now (map product its) (Some id) b) as [[cs|]|e];
        cbn [bind]; eauto. congruence.
    + cbn [bind]. unfold updateTarget in Hcheck. rewrite Hrole, Hb in Hcheck.
      change (branch (setFields offer updateData None)) with (branch offer).
      destruct (checkProductConflicts db now (map product its) (Some id) (branch offer))
        as [[cs|]|e]; cbn [bind]; eauto. congruence.
  - cbn [bind]. unfold updateTarget in Hcheck. rewrite Hrole in Hcheck.
    destruct (checkProductConflicts db now (map product its) (Some id) (u_branchId user))
      as [[cs|]|e]; cbn [bind]; eauto. congruence.
Qed.

Lemma updateOffer_conflict_details (db : Db) (now : Z) (user : User) (id : string)
    (updateData : UpdateOfferDto) (offer : Offer) (its : list OfferItem) :
  let ids := map product its in
  let target := updateTarget user updateData offer in
  ProductPricing.findById db offerCampaigns o_id id = Ok (Some offer) ->
  accessDenied user offer = false ->
  u_items updateData = Some its ->
  Forall validId ids -> Forall lowerCase ids ->
  validWhenGiven target ->
  foundByQuery db now ids (Some id) target <> [] ->
  Forall (allPopulated db) (foundByQuery db now ids (Some id) target) ->
  updateOffer db now user id updateData
  = (Throw (productConflict (map (detailOf db ids) (foundByQuery db now ids (Some id) target))), db).
Proof.
  intros ids target Hfound Hallowed Hits Hvalid Hlow Htarget Hne Hpop.
  assert (Hc : connected db = true).
  { unfold ProductPricing.findById, findOne in Hfound.
    destruct (isValidObjectId id); [|discriminate].
    destruct (connected db); [reflexivity | discriminate]. }
  apply updateOffer_lookup in Hfound. destruct Hfound as (Hid & _ & Hcast & Hfound).
  assert (Hx : validWhenGiven (Some id)) by (right; exact Hid).
  pose proof (checkProductConflicts_details db now ids (Some id) target
                Hc Hvalid Hlow Hx Htarget Hne Hpop) as Hcheck.
  unfold updateOffer. cbv zeta. rewrite Hcast. cbn [bind]. rewrite Hfound. cbn [bind].
  fold (accessDenied user offer). rewrite Hallowed, Hits. fold ids.
  subst target. unfold updateTarget in *.
  destruct (role user) eqn:Hrole.
  - destruct (u_branch updateData) as [b|] eqn:Hb.
    + rewrite (castWhenTruthy_valid b Htarget). cbn [bind]. now rewrite Hcheck.
    + cbn [bind]. change (branch (setFields offer updateData None)) with (branch offer).
      now rewrite Hcheck.
  - cbn [bind]. now rewrite Hcheck.
Qed.

(** C8 (amended): a create or an update whose submitted products include a
    product that a running campaign in the scope of the write holds as an
    item is rejected and writes nothing.  When the request reaches the
    conflict check (the ids are valid and in lower case; create: every
    submitted product is found, once; update: the offer exists and may be
    modified) and the items of the colliding campaigns refer to existing
    products, the rejection is the PRODUCT_CONFLICT error whose message
    names every colliding campaign and each of its overlapping products. *)
Theorem C8_conflicting_write_rejected (db : Db) (now : Z) :
  (forall user body newId,
      let ids := map product (c_items body) in
      let target := createTarget user body in
      (exists o, In o (offerCampaigns db) /\ collides now ids None target o) ->
      (exists e, createOffer db now user body newId = (Throw e, db))
      /\ (connected db = true ->
          uniqueProductIds db -> productsFound db ids ->
          Forall validId ids -> Forall lowerCase ids -> validWhenGiven target ->
          (forall o, In o (offerCampaigns db) -> collides now ids None target o ->
                     allPopulated db o) ->
          exists message,
            createOffer db now user body newId
            = (Throw (AppError message 400 "PRODUCT_CONFLICT"), db)
            /\ forall o,
                In o (offerCampaigns db) -> collides now ids None target o ->
                occursIn (title o) message
                /\ forall t, In t (overlappingTitles db ids o) -> occursIn t message))
  /\ (forall user id updateData offer its,
         let ids := map product its in
         let target := updateTarget user updateData offer in
         ProductPricing.findById db offerCampaigns o_id id = Ok (Some offer) ->
         accessDenied user offer = false ->
         u_items updateData = Some its ->
         (exists o, In o (offerCampaigns db) /\ collides now ids (Some id) target o) ->
         (exists e, updateOffer db now user id updateData = (Throw e, db))
         /\ (Forall validId ids -> Forall lowerCase ids -> validWhenGiven target ->
             (forall o, In o (offerCampaigns db) -> collides now ids (Some id) target o ->
                        allPopulated db o) ->
             exists message,
               updateOffer db now user id updateData
               = (Throw (AppError message 400 "PRODUCT_CONFLICT"), db)
               /\ forall o,
                   In o (offerCampaigns db) -> collides now ids (Some id) target o ->
                   occursIn (title o) message
                   /\ forall t, In t (overlappingTitles db ids o) -> occursIn t message)).
Proof.
  split.
  - intros user body newId ids target (o & Hin & Hcol). subst ids target.
    set (ids := map product (c_items body)) in *. set (target := createTarget user body) in *.
    split; [exact (createOffer_conflict db now user body newId o Hin Hcol)|].
    intros Hc Huniq Hfound Hvalid Hlow Htarget Hpop.
    assert (Hne : foundByQuery db now ids None target <> []).
    { intros E. assert (Ho : In o (foundByQuery db now ids None target))
        by (apply found_collides; auto).
      rewrite E in Ho. destruct Ho. }
    assert (Hpop' : Forall (allPopulated db) (foundByQuery db now ids None target)).
    { apply List.Forall_forall. intros x Hx. apply found_collides in Hx.
      destruct Hx. now apply Hpop. }
    destruct (details_list_conflicts db ids (foundByQuery db now ids None target))
      as (message & Hm & Hall).
    exists message. split.
    + pose proof (createOffer_conflict_details db now user body newId
                    Hc Huniq Hfound Hvalid Hlow Htarget Hne Hpop') as Hd.
      cbv zeta in Hd. fold ids target in Hd. now rewrite Hd, Hm.
    + intros x Hx Hxcol. apply Hall. apply found_collides. auto.
  - intros user id updateData offer its ids target Hfound Hallowed Hits (o & Hin & Hcol).
    subst ids target.
    set (ids := map product its) in *.
    set (target := updateTarget user updateData offer) in *.
    split; [exact (updateOffer_conflict db now user id updateData offer its o
                     Hfound Hallowed Hits Hin Hcol)|].
    intros Hvalid Hlow Htarget Hpop.
    assert (Hne : foundByQuery db now ids (Some id) target <> []).
    { intros E. assert (Ho : In o (foundByQuery db now ids (Some id) target))
        by (apply found_collides; auto).
      rewrite E in Ho. destruct Ho. }
    assert (Hpop' : Forall (allPopulated db) (foundByQuery db now ids (Some id) target)).
    { apply List.Forall_forall. intros x Hx. apply found_collides in Hx.
      destruct Hx. now apply Hpop. }
    destruct (details_list_conflicts db ids (foundByQuery db now ids (Some id) target))
      as (message & Hm & Hall).
    exists message. split.
    + pose proof (updateOffer_conflict_details db now user id updateData offer its
                    Hfound Hallowed Hits Hvalid Hlow Htarget Hne Hpop') as Hd.
      cbv zeta in Hd. fold ids target in Hd. now rewrite Hd, Hm.
    + intros x Hx Hxcol. apply Hall. apply found_collides. auto.
Qed.

End ConflictingWrites.

Lemma C8_conflicting_write_rejected_witness :
  (exists o, In o (offerCampaigns Fixtures.market)
             /\ ConflictSpec.collides 3 (map product (OfferController.c_items Fixtures.penAgain))
                  None (ConflictSpec.createTarget Samples.admin Fixtures.penAgain) o)
  /\ exists message,
       OfferController.createOffer Fixtures.market 3 Samples.admin Fixtures.penAgain
         "64b0000000000000000000d9"
       = (Throw (AppError message 400 "PRODUCT_CONFLICT"), Fixtures.market)
       /\ ConflictSpec.occursIn "Summer" message /\ ConflictSpec.occursIn "Pen" message.
Proof.
  assert (Hcol : ConflictSpec.collides 3
                   (map product (OfferController.c_items Fixtures.penAgain)) None
                   (ConflictSpec.createTarget Samples.admin Fixtures.penAgain) Fixtures.summer).
  { split; [|split; [|split]].
    - split; [reflexivity|]. split; [cbn; lia | exact I].
    - exists (Samples.item_ Fixtures.penId None None), Fixtures.penId.
      split; [now left|]. split; [now left | reflexivity].
    - exact I.
    - exact I. }
  assert (Hin : In Fixtures.summer (offerCampaigns Fixtures.market))
    by (right; right; left; reflexivity).
  assert (Hex : exists o, In o (offerCampaigns Fixtures.market)
                          /\ ConflictSpec.collides 3
                               (map product (OfferController.c_items Fixtures.penAgain)) None
                               (ConflictSpec.createTarget Samples.admin Fixtures.penAgain) o)
    by (exists Fixtures.summer; auto).
  split; [exact Hex|].
  destruct (proj1 (C8_conflicting_write_rejected Fixtures.market 3)
              Samples.admin Fixtures.penAgain "64b0000000000000000000d9" Hex) as [_ Hdet].
  destruct Hdet as (message & Hm & Hall).
  - reflexivity.
  - unfold ConflictSpec.uniqueProductIds. cbn.
    repeat constructor; cbn; intuition discriminate.
  - split.
    + cbn. repeat constructor; cbn; intuition discriminate.
    + intros id [<- | []]. exists Fixtures.pen. split; [now left | reflexivity].
  - repeat constructor.
  - repeat constructor.
  - exact I.
  - intros o [<- | [<- | [<- | [<- | []]]]] _; repeat constructor; discriminate.
  - exists message. split; [exact Hm|].
    destruct (Hall Fixtures.summer Hin Hcol) as [Ht Hp].
    split; [exact Ht|]. apply Hp. now left.
Defined.

(** C8 as stated fails in three ways.  An offer on the pen, which a
    running campaign holds, and on a product the store does not have is
    answered with PRODUCTS_NOT_FOUND, which names no campaign.  An offer
    on the lamp for the branch in Riyadh is accepted although a running
    campaign for every branch covers the lamp through its category.  An
    offer on the pen with the id written in capitals is answered with
    PRODUCT_CONFLICT naming the campaign and no product. *)
Lemma C8_counterexample :
  ~ ConflictSpec.statedConflictRejection Fixtures.market 3 Samples.admin Fixtures.penAndGhost
      "64b0000000000000000000d9"
  /\ ~ ConflictSpec.statedConflictRejection Fixtures.market 10 Samples.admin
        Fixtures.lampForRiyadh "64b0000000000000000000d9"
  /\ ~ ConflictSpec.statedOverlapListed Fixtures.market 3 Samples.admin Fixtures.penInCapitals
        "64b0000000000000000000d9".
Proof.
  split; [|split].
  - intros H. destruct (H Fixtures.summer) as (message & Hm & _).
    + right; right; left; reflexivity.
    + split; [reflexivity|]. split; [cbn; lia | exact I].
    + exists Fixtures.penId, Fixtures.pen.
      split; [now left|]. split; [now left|]. split; reflexivity.
    + exact I.
    + vm_compute in Hm. discriminate Hm.
  - intros H. destruct (H Fixtures.stationeryWeek) as (message & Hm & _).
    + left; reflexivity.
    + split; [reflexivity|]. split; exact I.
    + exists Fixtures.lampId, Fixtures.lamp.
      split; [now left|]. split; [right; now left|]. split; reflexivity.
    + now left.
    + vm_compute in Hm. discriminate Hm.
  - intros H. destruct (H Fixtures.summer) as (message & Hm & Hp).
    + right; right; left; reflexivity.
    + split; [|split; [|split]].
      * split; [reflexivity|]. split; [cbn; lia | exact I].
      * exists (Samples.item_ Fixtures.penId None None), Fixtures.penIdInCapitals.
        split; [now left|]. split; [now left | reflexivity].
      * exact I.
      * exact I.
    + assert (Hpen : ConflictSpec.occursIn "Pen" message) by (apply Hp; now left).
      apply occursIn_containsb in Hpen.
      vm_compute in Hm. injection Hm as <-. vm_compute in Hpen. discriminate Hpen.
Qed.

(** * Properties of the prices on the product endpoints *)

Section AppliesTo.

Import OfferService.

Variable db : Db.
Variable prod : Product.

(** When the loop body takes an offer to apply to the product. *)
Lemma appliesAndPrice_applies (o : Offer) :
  fst (appliesAndPrice db o prod)
  = match directItem db o (p_id prod) with Some _ => true | None => false end
    || existsb (fun pid => String.eqb pid (p_id prod)) (productIds o)
    || existsb (fun cid => match category prod with
                           | Some c => String.eqb cid c
                           | None => false
                           end) (categoryIds o).
Proof.
  unfold appliesAndPrice.
  destruct (directItem db o (p_id prod)) as [item|]; cbn [negb andb orb fst].
  - repeat match goal with |- context [if ?b then _ else _] => destruct b end; reflexivity.
  - destruct (category prod) as [pc|];
      destruct (productIds o) as [|x xs], (categoryIds o) as [|c cs];
      cbn [List.length Nat.ltb Nat.leb existsb andb orb negb fst];
      repeat match goal with
             | |- context [existsb ?f ?l] =>
                 let b := fresh "b" in set (b := existsb f l); clearbody b
             | |- context [String.eqb ?x ?y] =>
                 let b := fresh "b" in set (b := String.eqb x y); clearbody b
             end;
      repeat match goal with b : bool |- _ => destruct b end; reflexivity.
Qed.

Lemma directItem_product (o : Offer) (item : OfferItem) :
  directItem db o (p_id prod) = Some item ->
  In item (items o) /\ product item = p_id prod.
Proof.
  unfold directItem. intros H. apply List.find_some in H. destruct H as [Hin Hp].
  split; [assumption|].
  destruct (populate db item) as [p|] eqn:Hpop; [|discriminate].
  apply populate_Some in Hpop. apply String.eqb_eq in Hp. congruence.
Qed.

(** An offer that applies to the product is one the query keeps, whatever
    other products are asked for with it. *)
Lemma applies_covered (o : Offer) (ids : list string) :
  In (p_id prod) ids ->
  fst (appliesAndPrice db o prod) = true -> coverageCondition ids o = true.
Proof.
  intros Hid. rewrite appliesAndPrice_applies. unfold coverageCondition.
  rewrite !orb_true_iff. intros [[Hd | Hp] | Hc].
  - left. left. destruct (directItem db o (p_id prod)) as [item|] eqn:Hitem; [|discriminate].
    apply directItem_product in Hitem. destruct Hitem as [Hin Hprod].
    apply List.existsb_exists. exists item. split; [assumption|].
    apply List.existsb_exists. exists (p_id prod). split; [assumption|].
    apply String.eqb_eq. assumption.
  - left. right. apply List.existsb_exists in Hp. destruct Hp as (pid & Hin & Heq).
    apply List.existsb_exists. exists pid. split; [assumption|].
    apply List.existsb_exists. exists (p_id prod). split; [assumption|]. assumption.
  - right. destruct (categoryIds o); [discriminate | reflexivity].
Qed.

Lemma offerStep_skip (st : PriceState) (o : Offer) :
  fst (appliesAndPrice db o prod) = false -> offerStep db prod st o = st.
Proof.
  unfold offerStep. destruct (appliesAndPrice db o prod) as [a c]. simpl.
  now intros ->.
Qed.

(** The loop over the offers sees only the offers that apply. *)
Lemma fold_offerStep_applying (offers : list Offer) :
  forall st,
    fold_left (offerStep db prod) offers st
    = fold_left (offerStep db prod)
        (List.filter (fun o => fst (appliesAndPrice db o prod)) offers) st.
Proof.
  induction offers as [|o offers IH]; intros st; [reflexivity|].
  cbn [fold_left List.filter].
  destruct (fst (appliesAndPrice db o prod)) eqn:Ha.
  - cbn [fold_left]. apply IH.
  - rewrite offerStep_skip by assumption. apply IH.
Qed.

Lemma priceProduct_applying (offers offers' : list Offer) :
  List.filter (fun o => fst (appliesAndPrice db o prod)) offers
  = List.filter (fun o => fst (appliesAndPrice db o prod)) offers' ->
  priceProduct db offers prod = priceProduct db offers' prod.
Proof.
  intros H. unfold priceProduct.
  rewrite (fold_offerStep_applying offers), (fold_offerStep_applying offers'), H.
  reflexivity.
Qed.

End AppliesTo.

Section FilterFacts.

Lemma filter_filter_comm {A} (f g : A -> bool) (l : list A) :
  List.filter f (List.filter g l) = List.filter (fun a => g a && f a) l.
Proof.
  induction l as [|a l IH]; simpl; [reflexivity|].
  destruct (g a); simpl; [destruct (f a); now rewrite IH | assumption].
Qed.

Lemma filter_ext_In {A} (f g : A -> bool) (l : list A) :
  (forall a, In a l -> f a = g a) -> List.filter f l = List.filter g l.
Proof.
  induction l as [|a l IH]; intros H; simpl; [reflexivity|].
  rewrite (H a) by now left. rewrite IH; [reflexivity|].
  intros b Hb. apply H. now right.
Qed.

End FilterFacts.

Section BatchPricing.

Import OfferService ProductPricing.

Variable db : Db.
Variable now : Z.
Variable branchId : option string.
Variable userLocation : option (Q * Q).

(** The offers found for a batch of products price each product as the
    offers found for that product alone. *)
Lemma priceProduct_query (conds : list (Offer -> bool)) (ids : list string) (prod : Product) :
  In (p_id prod) ids ->
  priceProduct db (List.filter (offerQuery now conds ids) (offerCampaigns db)) prod
  = priceProduct db (List.filter (offerQuery now conds [p_id prod]) (offerCampaigns db)) prod.
Proof.
  intros Hid. apply priceProduct_applying.
  rewrite !filter_filter_comm. apply filter_ext_In. intros o _.
  unfold offerQuery. destruct (fst (appliesAndPrice db o prod)) eqn:Ha.
  - rewrite (applies_covered db prod o ids Hid Ha).
    rewrite (applies_covered db prod o [p_id prod]); [reflexivity | now left | assumption].
  - now rewrite !andb_false_r.
Qed.

(** What [calculateEffectivePrices] answers for one product of a batch. *)
Lemma calculateEffectivePrices_pointwise (prods : list Product) :
  exists f : Product -> IProductWithOffer,
    calculateEffectivePrices db now prods branchId userLocation = Ok (map f prods)
    /\ forall p, calculateEffectivePrices db now [p] branchId userLocation = Ok [f p].
Proof.
  unfold calculateEffectivePrices, calculateEffectivePrices_try, tryCatch.
  destruct (locationConditions branchId) as [conds|] eqn:Hc; cbn [bind].
  - unfold find. destruct (connected db); cbn [bind].
    + exists (fun p => priceProduct db
                         (List.filter (offerQuery now conds [p_id p]) (offerCampaigns db)) p).
      split; [|reflexivity].
      f_equal. apply map_ext_in. intros p Hp. apply priceProduct_query.
      apply in_map_iff. eauto.
    + exists (fun p => {| _id := p_id p; originalPrice := price p; effectivePrice := price p;
                          hasOffer := false; offerDiscount := None; offerPercent := None;
                          applicableOffers := None |}).
      split; reflexivity.
  - exists (fun p => {| _id := p_id p; originalPrice := price p; effectivePrice := price p;
                        hasOffer := false; offerDiscount := None; offerPercent := None;
                        applicableOffers := None |}).
    split; reflexivity.
Qed.

Lemma mapM_indexed {A B C} (f : A -> B) (g : A -> B -> C) (e : Failure) (l : list A) :
  forall pre : list A,
    mapM (fun '(index, a) =>
            match map f (pre ++ l) !! index with
            | Some b => Ok (g a b)
            | None => Throw e
            end)
         (imap (fun i => pair (List.length pre + i)%nat) l)
    = Ok (map (fun a => g a (f a)) l).
Proof.
  induction l as [|a l IH]; intros pre; [reflexivity|].
  cbn [imap mapM map].
  rewrite Nat.add_0_r.
  assert (Hl : map f (pre ++ a :: l) !! List.length pre = Some (f a)).
  { rewrite list_lookup_fmap.
    rewrite lookup_app_r by reflexivity. now rewrite Nat.sub_diag. }
  rewrite Hl. cbn [bind].
  specialize (IH (pre ++ [a])).
  rewrite <- app_assoc in IH. cbn [app] in IH.
  assert (Himap : imap (fun i => pair (List.length (pre ++ [a]) + i)%nat) l
                  = imap ((fun i => pair (List.length pre + i)%nat) ∘ S) l).
  { apply imap_ext. intros i x _. unfold compose. rewrite length_app. simpl.
    f_equal. lia. }
  rewrite Himap in IH. rewrite IH. reflexivity.
Qed.

Lemma mapM_pointwise {A B} (f : A -> Result B) (g : A -> B) (l : list A) :
  (forall a, In a l -> f a = Ok (g a)) -> mapM f l = Ok (map g l).
Proof.
  induction l as [|a l IH]; intros H; [reflexivity|].
  cbn [mapM map]. rewrite (H a) by now left. cbn [bind].
  rewrite IH; [reflexivity|]. intros b Hb. apply H. now right.
Qed.

(** X1: pricing a list of products at once gives every product the pricing it
    gets when it is priced alone, in the order of the list; neither way
    throws. *)
Theorem applyOfferPricingToProducts_pointwise (prods : list Product) :
  exists priced : list PricedProduct,
    applyOfferPricingToProducts db now prods branchId userLocation = Ok priced
    /\ mapM (fun p => applyOfferPricing db now p branchId userLocation) prods = Ok priced
    /\ map pp_product priced = prods.
Proof.
  destruct (calculateEffectivePrices_pointwise prods) as (f & Hall & Hone).
  exists (map (fun p => withPricing p (f p)) prods). split; [|split].
  - unfold applyOfferPricingToProducts. rewrite Hall. cbn [bind].
    exact (mapM_indexed f withPricing _ prods []).
  - apply mapM_pointwise. intros p _. unfold applyOfferPricing.
    rewrite Hone. reflexivity.
  - rewrite map_map. cbn [withPricing pp_product]. apply map_id.
Qed.

End BatchPricing.

Section CategoryCampaigns.

Import OfferService OfferController ProductPricing ListingSpec.

Variable categoryDocs : list string.

Lemma leanPopulated_category (prod : Product) (cid : string) :
  isValidObjectId cid = true ->
  match category (leanPopulated categoryDocs prod) with
  | Some c => String.eqb cid c
  | None => false
  end = false.
Proof.
  intros Hv. unfold leanPopulated. cbn [category].
  destruct (category prod) as [c|]; [|reflexivity].
  destruct (existsb (String.eqb c) categoryDocs); [|reflexivity].
  apply String.eqb_neq. intros ->. discriminate Hv.
Qed.

(** No category of a campaign is the category the calculator reads off a
    product of the product endpoints. *)
Lemma leanPopulated_no_category (prod : Product) (o : Offer) :
  Forall (fun c => isValidObjectId c = true) (categoryIds o) ->
  existsb (fun cid => match category (leanPopulated categoryDocs prod) with
                      | Some c => String.eqb cid c
                      | None => false
                      end) (categoryIds o) = false.
Proof.
  induction 1 as [|cid cids Hv _ IH]; [reflexivity|].
  cbn [existsb]. rewrite (leanPopulated_category prod cid Hv). exact IH.
Qed.

Lemma if_same {A} (c : bool) (x : A) : (if c then x else x) = x.
Proof. now destruct c. Qed.

Lemma appliesAndPrice_withoutCategories (db : Db) (prod : Product) (o : Offer) :
  Forall (fun c => isValidObjectId c = true) (categoryIds o) ->
  appliesAndPrice db (withoutCategories o) (leanPopulated categoryDocs prod)
  = appliesAndPrice db o (leanPopulated categoryDocs prod).
Proof.
  intros Hv. unfold appliesAndPrice.
  change (directItem db (withoutCategories o)) with (directItem db o).
  cbn [withoutCategories applyMode productIds categoryIds bulkPercent bulkAmount].
  destruct (directItem db o (p_id (leanPopulated categoryDocs prod))) as [item|];
    cbv beta iota; cbn [List.length Nat.ltb Nat.leb existsb negb andb];
    rewrite ?(leanPopulated_no_category prod o Hv), ?andb_false_r;
    cbv iota; rewrite ?if_same; reflexivity.
Qed.

Lemma offerStep_withoutCategories (db : Db) (prod : Product) (st : PriceState) (o : Offer) :
  Forall (fun c => isValidObjectId c = true) (categoryIds o) ->
  offerStep db (leanPopulated categoryDocs prod) st (withoutCategories o)
  = offerStep db (leanPopulated categoryDocs prod) st o.
Proof.
  intros Hv. unfold offerStep. rewrite (appliesAndPrice_withoutCategories db prod o Hv).
  reflexivity.
Qed.

Lemma fold_withoutCategories (db : Db) (prod : Product) (offers : list Offer) :
  Forall (fun o => Forall (fun c => isValidObjectId c = true) (categoryIds o)) offers ->
  forall st,
    fold_left (offerStep db (leanPopulated categoryDocs prod)) (map withoutCategories offers) st
    = fold_left (offerStep db (leanPopulated categoryDocs prod)) offers st.
Proof.
  induction 1 as [|o offers Hv _ IH]; intros st; [reflexivity|].
  cbn [map fold_left]. rewrite (offerStep_withoutCategories db prod st o Hv). apply IH.
Qed.

Lemma filter_map_comm {A B} (f : A -> B) (g : B -> bool) (l : list A) :
  List.filter g (map f l) = map f (List.filter (fun a => g (f a)) l).
Proof.
  induction l as [|a l IH]; simpl; [reflexivity|].
  destruct (g (f a)); simpl; now rewrite IH.
Qed.

Lemma Forall_filter_keeps {A} (P : A -> Prop) (f : A -> bool) (l : list A) :
  Forall P l -> Forall P (List.filter f l).
Proof.
  induction 1 as [|a l Ha _ IH]; simpl; [constructor|].
  destruct (f a); [constructor; assumption | assumption].
Qed.

Lemma applying_withoutCategories (db : Db) (now : Z) (branchId : option string)
    (conds : list (Offer -> bool)) (prod : Product) :
  categoryIdsWellFormed db ->
  OfferService.locationConditions branchId = Ok conds ->
  List.filter (fun o => fst (appliesAndPrice db o (leanPopulated categoryDocs prod)))
    (List.filter (offerQuery now conds [p_id prod])
       (map withoutCategories (offerCampaigns db)))
  = map withoutCategories
      (List.filter (fun o => fst (appliesAndPrice db o (leanPopulated categoryDocs prod)))
         (List.filter (offerQuery now conds [p_id prod]) (offerCampaigns db))).
Proof.
  intros Hwf Hconds.
  rewrite !filter_filter_comm. rewrite filter_map_comm.
  f_equal. apply filter_ext_In. intros o Ho.
  assert (Hv : Forall (fun c => isValidObjectId c = true) (categoryIds o)).
  { unfold categoryIdsWellFormed in Hwf. rewrite List.Forall_forall in Hwf. now apply Hwf. }
  rewrite (appliesAndPrice_withoutCategories db prod o Hv).
  destruct (fst (appliesAndPrice db o (leanPopulated categoryDocs prod))) eqn:Ha;
    [|now rewrite !andb_false_r].
  rewrite !andb_true_r.
  rewrite !(offerQuery_selects now branchId _ conds _ Hconds).
  assert (Hc : coverageCondition [p_id prod] o = true)
    by (apply (applies_covered db (leanPopulated categoryDocs prod));
        [now left | assumption]).
  assert (Hc' : coverageCondition [p_id prod] (withoutCategories o) = true).
  { apply (applies_covered db (leanPopulated categoryDocs prod)); [now left|].
    now rewrite (appliesAndPrice_withoutCategories db prod o Hv). }
  rewrite Hc, Hc'. reflexivity.
Qed.

(** The offers the calculator finds, and the price they give a product of
    the product endpoints, with and without the category targeting. *)
Lemma priceProduct_withoutCategories (db : Db) (now : Z) (branchId : option string)
    (conds : list (Offer -> bool)) (prod : Product) :
  categoryIdsWellFormed db ->
  OfferService.locationConditions branchId = Ok conds ->
  priceProduct db
    (List.filter (offerQuery now conds [p_id prod]) (map withoutCategories (offerCampaigns db)))
    (leanPopulated categoryDocs prod)
  = priceProduct db (List.filter (offerQuery now conds [p_id prod]) (offerCampaigns db))
      (leanPopulated categoryDocs prod).
Proof.
  intros Hwf Hconds. unfold priceProduct.
  rewrite (fold_offerStep_applying db _ (List.filter _ (map withoutCategories _))).
  rewrite (fold_offerStep_applying db _ (List.filter _ (offerCampaigns db))).
  rewrite (applying_withoutCategories db now branchId conds prod Hwf Hconds).
  rewrite fold_withoutCategories; [reflexivity|].
  do 2 apply Forall_filter_keeps. exact Hwf.
Qed.

Lemma calculateEffectivePrices_withoutCategories (db : Db) (now : Z)
    (branchId : option string) (userLocation : option (Q * Q)) (prod : Product) :
  categoryIdsWellFormed db ->
  calculateEffectivePrices (withoutCategoryTargeting db) now
    [leanPopulated categoryDocs prod] branchId userLocation
  = calculateEffectivePrices db now [leanPopulated categoryDocs prod] branchId userLocation.
Proof.
  intros Hwf.
  unfold calculateEffectivePrices, calculateEffectivePrices_try, tryCatch.
  destruct (OfferService.locationConditions branchId) as [conds|] eqn:Hc; cbn [bind];
    [|reflexivity].
  unfold find, withoutCategoryTargeting, withOffers. cbn [connected offerCampaigns].
  destruct (connected db); cbn [bind]; [|reflexivity].
  cbn [map]. do 2 f_equal.
  exact (priceProduct_withoutCategories db now branchId conds prod Hwf Hc).
Qed.

(** X2: the price the product endpoint answers with does not depend on the
    category targeting of any campaign: the calculator is handed the
    populated category, an object that reads as [[object Object]] and is
    the id of no category, so a campaign that covers the product through
    its [categoryIds] only never applies there. *)
Theorem getProduct_ignores_category_campaigns (db : Db) (now : Z) (id : string)
    (q : PricingQuery) :
  categoryIdsWellFormed db ->
  getProduct categoryDocs db now id q
  = getProduct categoryDocs (withoutCategoryTargeting db) now id q.
Proof.
  intros Hwf. unfold getProduct, findById, findOne.
  change (connected (withoutCategoryTargeting db)) with (connected db).
  change (products (withoutCategoryTargeting db)) with (products db).
  destruct (isValidObjectId id); [|reflexivity].
  destruct (connected db); [|reflexivity]. cbn [bind].
  destruct (List.find _ (products db)) as [product|]; [|reflexivity].
  unfold applyOfferPricing.
  now rewrite (calculateEffectivePrices_withoutCategories db now _ _ product Hwf).
Qed.

End CategoryCampaigns.

Section RecordedCampaigns.

Import OfferService ListingSpec.

Variable db : Db.
Variable prod : Product.

Lemma StronglySorted_snoc {A} (R : A -> A -> Prop) (l : list A) (x : A) :
  StronglySorted R l -> Forall (fun a => R a x) l -> StronglySorted R (l ++ [x]).
Proof.
  induction 1 as [|a l Hl IH Ha]; intros Hx; simpl.
  - constructor; constructor.
  - inversion Hx as [|? ? Hax Hlx]; subst. constructor; [now apply IH|].
    apply Forall_app. split; [assumption | constructor; [assumption | constructor]].
Qed.

#[local] Abbreviation recordedSoFar := (ListingSpec.recordedSoFar db prod).

Lemma fold_offerStep_recorded (offers : list Offer) :
  forall (seen : list Offer) (st : PriceState),
    recordedSoFar seen st ->
    recordedSoFar (seen ++ offers) (fold_left (offerStep db prod) offers st).
Proof.
  induction offers as [|o offers IH]; intros seen st Hinv.
  - cbn [fold_left]. now rewrite app_nil_r.
  - cbn [fold_left].
    replace (seen ++ o :: offers) with ((seen ++ [o]) ++ offers) by now rewrite <- app_assoc.
    apply IH. clear IH.
    destruct Hinv as (Hle & Hhas & Hsorted & Hall & os & Hrec & Hseen & Hfall & Hos & Hlast & Hnone).
    unfold offerStep. rewrite appliesAndPrice_covers.
    destruct (PricingSpec.covers db o prod) eqn:Hcov; cbn [andb].
    + destruct (Qltb (PricingSpec.computedPrice db o prod) (st_effectivePrice st)) eqn:Hc.
      * apply Qltb_lt in Hc. unfold ListingSpec.recordedSoFar.
        cbn [st_effectivePrice st_hasOffer st_applicableOffers].
        set (c := PricingSpec.computedPrice db o prod) in *.
        assert (Hd : price prod ⊖ st_effectivePrice st <= price prod ⊖ c).
        { unfold Number_sub. apply fl_le. lra. }
        assert (Hd0 : 0 <= price prod ⊖ c).
        { unfold Number_sub. apply fl_nonneg. lra. }
        split; [lra|]. split; [now destruct (st_applicableOffers st)|].
        split; [|split].
        -- apply StronglySorted_snoc; [assumption|].
           eapply List.Forall_impl; [|exact Hall]. cbn [discount].
           intros a (_ & Ha). lra.
        -- apply Forall_app. split.
           ++ eapply List.Forall_impl; [|exact Hall]. cbv beta.
              intros a (Hpos & Ha). split; [assumption | lra].
           ++ constructor; [|constructor]. cbn [discount]. split; [exact Hd0 | lra].
        -- exists (os ++ [o]). split; [|split; [|split; [|split; [|split]]]].
           ++ apply List.Forall2_app; [exact Hrec|]. constructor; [|constructor].
              unfold recordedAs. cbn [discount ao_id ao_title ao_applyMode]. auto.
           ++ apply Forall_app. split.
              ** eapply List.Forall_impl; [|exact Hseen]. intros o' Ho'.
                 apply in_or_app. now left.
              ** constructor; [|constructor]. apply in_or_app. right. now left.
           ++ apply StronglySorted_snoc; [exact Hfall|].
              eapply List.Forall_impl; [|exact Hos]. cbv beta. fold c. intros o' [Ho' _]. lra.
           ++ apply Forall_app. split.
              ** eapply List.Forall_impl; [|exact Hos]. cbv beta. fold c. intros o' [Ho' Hp].
                 split; [lra | exact Hp].
              ** constructor; [|constructor]. fold c. split; lra.
           ++ intros o'. rewrite last_snoc. now intros [= <-].
           ++ intros E. symmetry in E. now apply app_cons_not_nil in E.
      * unfold ListingSpec.recordedSoFar. split; [assumption|]. split; [assumption|].
        split; [assumption|]. split; [assumption|].
        exists os. split; [assumption|]. split; [|auto].
        eapply List.Forall_impl; [|exact Hseen]. intros o' Ho'. apply in_or_app. now left.
    + unfold ListingSpec.recordedSoFar. split; [assumption|]. split; [assumption|].
      split; [assumption|]. split; [assumption|].
      exists os. split; [assumption|]. split; [|auto].
      eapply List.Forall_impl; [|exact Hseen]. intros o' Ho'. apply in_or_app. now left.
Qed.


End RecordedCampaigns.

Section OrderPrices.

Import OfferService OfferController OrderService ListingSpec.

Lemma forOf_ext {A S} (f g : S -> A -> Result S) (xs : list A) :
  (forall acc x, f acc x = g acc x) -> forall acc, forOf f xs acc = forOf g xs acc.
Proof.
  intros H. induction xs as [|x xs IH]; intros acc; [reflexivity|].
  cbn [forOf]. rewrite H. destruct (g acc x); cbn [bind]; auto.
Qed.

Lemma filter_implied {A} (f g : A -> bool) (l : list A) :
  (forall a, f a = true -> g a = true) ->
  List.filter f (List.filter g l) = List.filter f l.
Proof.
  intros H. induction l as [|a l IH]; simpl; [reflexivity|].
  destruct (g a) eqn:Hg; simpl.
  - destruct (f a); now rewrite IH.
  - destruct (f a) eqn:Hf; [|assumption]. apply H in Hf. congruence.
Qed.

(** Without a branch the calculator finds unrestricted campaigns only. *)
Lemma calculateEffectivePrices_global (db : Db) (now : Z) (prods : list Product)
    (userLocation : option (Q * Q)) :
  calculateEffectivePrices (globalCampaignsOnly db) now prods None userLocation
  = calculateEffectivePrices db now prods None userLocation.
Proof.
  unfold calculateEffectivePrices, calculateEffectivePrices_try, tryCatch.
  cbn [OfferService.locationConditions truthyStr bind app].
  unfold find, globalCampaignsOnly, withOffers. cbn [connected offerCampaigns].
  destruct (connected db); cbn [bind]; [|reflexivity].
  rewrite filter_implied; [reflexivity|].
  intros o. unfold offerQuery. cbn [existsb].
  rewrite !andb_true_iff, orb_false_r. tauto.
Qed.

(** X4: the prices [createOrder] recomputes are the prices of the
    unrestricted campaigns: the order lines and the subtotal are the same
    in the store that keeps only the campaigns without branch, city and
    geofence.  A campaign restricted to a branch, a city or a geofence
    never lowers the price an order is held to. *)
Theorem order_prices_ignore_targeted_campaigns (db : Db) (now : Z)
    (lines : list OrderLine) (acc : list OrderItem * Q) :
  forOf (priceLine (globalCampaignsOnly db) now) lines acc
  = forOf (priceLine db now) lines acc.
Proof.
  apply forOf_ext. clear acc. intros [orderItems calculatedSubtotal] item.
  unfold priceLine, findOne.
  change (connected (globalCampaignsOnly db)) with (connected db).
  change (products (globalCampaignsOnly db)) with (products db).
  destruct (connected db); [|reflexivity]. cbn [bind].
  destruct (List.find _ (products db)) as [prod|]; [|reflexivity].
  unfold applyOfferPricing. now rewrite calculateEffectivePrices_global.
Qed.

(** X5: a campaign that brings the price of a product down to zero is not
    honoured at checkout: [offerPrice || price] reads the zero as no offer
    price, so the order line is charged the regular price, while it
    records an offer price of zero. *)
Theorem free_campaign_is_charged_in_full (db : Db) (now : Z) (acc : list OrderItem * Q)
    (item : OrderLine) (prod : Product) (priced : IProductWithOffer) :
  findOne db products (fun p => String.eqb (p_id p) (productId item)) = Ok (Some prod) ->
  calculateEffectivePrices db now [prod] None None = Ok [priced] ->
  hasOffer priced = true ->
  effectivePrice priced == 0 ->
  exists line,
    priceLine db now acc item
    = Ok (fst acc ++ [line], snd acc ⊕ price prod ⊗ quantity item)
    /\ oi_offerPrice line = Some (effectivePrice priced)
    /\ oi_price line = price prod
    /\ oi_subtotal line = price prod ⊗ quantity item.
Proof.
  intros Hfound Hpriced Hhas Hzero. destruct acc as [orderItems calculatedSubtotal].
  unfold priceLine. rewrite Hfound. cbn [bind].
  unfold applyOfferPricing. rewrite Hpriced. cbn [bind].
  unfold withPricing. cbn [pp_offerPrice]. rewrite Hhas.
  assert (Hfalsy : truthy (Some (effectivePrice priced)) = false).
  { cbn [truthy]. apply negb_false_iff. now apply Qeq_bool_iff. }
  rewrite Hfalsy. eexists. split; [reflexivity|]. cbn [fst snd]. auto.
Qed.

End OrderPrices.


(** * Properties of the offer endpoints *)

Section PublicListing.

Import OfferService OfferController OfferEndpoints.

Variable createdAt : Offer -> Z.

Lemma In_newestFirst (l : list Offer) (o : Offer) :
  In o (newestFirst createdAt l) <-> In o l.
Proof.
  unfold newestFirst. split; apply Permutation_in;
    [apply sort_perm | symmetry; apply sort_perm].
Qed.

(** What [getPublicActiveOffers] lists. *)
Lemma getPublicActiveOffers_lists (db : Db) (now : Z) (listed : list Offer) :
  getPublicActiveOffers createdAt db now = Ok listed ->
  forall o, In o listed
            <-> In o (offerCampaigns db) /\ activeAt now o = true
                /\ hasActiveProducts db o = true.
Proof.
  unfold getPublicActiveOffers, find. destruct (connected db); [|discriminate].
  cbn [bind]. intros [= <-] o.
  rewrite List.filter_In, In_newestFirst, List.filter_In. tauto.
Qed.

End PublicListing.

Section ResolveAnswers.

Import OfferService OfferController OfferEndpoints StackingSpec EndpointSpec.

Variable calculateDistance : Q -> Q -> Q -> Q -> Q.
Variable geoWithin : Offer -> Q * Q -> Result bool.
Variable createdAt : Offer -> Z.

Lemma sublist_In {A} (l k : list A) (x : A) : sublist k l -> In x k -> In x l.
Proof.
  induction 1 as [|y k l Hkl IH|y k l Hkl IH]; intros Hx.
  - assumption.
  - destruct Hx as [-> | Hx]; [now left | right; auto].
  - right. auto.
Qed.

Lemma StronglySorted_sublist {A} (R : A -> A -> Prop) (l k : list A) :
  sublist k l -> StronglySorted R l -> StronglySorted R k.
Proof.
  induction 1 as [|x k l Hkl IH|x k l Hkl IH]; intros Hs.
  - constructor.
  - inversion Hs as [|? ? Hl Hx]; subst. constructor; [now apply IH|].
    rewrite List.Forall_forall in Hx |- *. intros y Hy. apply Hx.
    eapply sublist_In; eassumption.
  - inversion Hs; subst. now apply IH.
Qed.

(** The stacking loop appends offers of its input, in their order. *)
Lemma stackingLoop_sublist (db : Db) (xs : list ScoredOffer) :
  forall applied m out m',
    forOf (stackingStep db) xs (applied, m) = Ok (out, m') ->
    exists ys, sublist ys xs /\ out = applied ++ ys.
Proof.
  induction xs as [|x xs IH]; intros applied m out m' H.
  - injection H as <- <-. exists []. split; [constructor | now rewrite app_nil_r].
  - rewrite forOf_cons in H.
    destruct (stackingStep db (applied, m) x) as [[applied1 m1]|] eqn:Hstep; [|discriminate].
    cbn [bind] in H. apply IH in H. destruct H as (ys & Hsub & ->).
    unfold stackingStep in Hstep.
    destruct (stackable (so_offer x)).
    + destruct (forOf _ (items (so_offer x)) m) as [mm|]; [|discriminate].
      injection Hstep as <- <-. exists (x :: ys).
      split; [now constructor | now rewrite <- app_assoc].
    + destruct (canApply db m x (items (so_offer x))) as [[|]|]; [| |discriminate].
      * destruct (forOf _ (items (so_offer x)) m) as [mm|]; [|discriminate].
        injection Hstep as <- <-. exists (x :: ys).
        split; [now constructor | now rewrite <- app_assoc].
      * injection Hstep as <- <-. exists ys. split; [now constructor | reflexivity].
Qed.

Lemma byPriority_map (l : list ScoredOffer) :
  byPriority l -> byPriorityDesc (map so_offer l).
Proof.
  induction 1 as [|a l Hl IH Ha]; [constructor|].
  cbn [map]. constructor; [exact IH|].
  rewrite List.Forall_forall in Ha |- *. intros o Ho.
  apply in_map_iff in Ho. destruct Ho as (b & <- & Hb). now apply Ha.
Qed.

Lemma mapM_scoreOffer (db : Db) (cart : list Product) (offers : list Offer) :
  forall scored, mapM (scoreOffer db cart) offers = Ok scored -> map so_offer scored = offers.
Proof.
  induction offers as [|o offers IH]; intros scored H.
  - injection H as <-. reflexivity.
  - cbn [mapM] in H. unfold scoreOffer at 1 in H.
    destruct (mapM (itemProductId db) (items o)); [|discriminate].
    cbn [bind] in H.
    destruct (mapM (scoreOffer db cart) offers) as [rest|]; [|discriminate].
    cbn [bind] in H. injection H as <-. cbn [map so_offer]. f_equal. now apply IH.
Qed.

(** What [resolveRelevantOffers] answers with: offers the targeting filter
    selected that have an active product, in the order of the sort. *)
Lemma resolveRelevantOffers_answer (db : Db) (now : Z) (q : ResolveQuery) (out : list Offer) :
  resolveRelevantOffers calculateDistance geoWithin db now q = Ok out ->
  byPriorityDesc out
  /\ forall o, In o out ->
               In o (offerCampaigns db) /\ activeAt now o = true
               /\ hasActiveProducts db o = true.
Proof.
  unfold resolveRelevantOffers.
  destruct (match cartProductIds q with [] => _ | _ => _ end) as [cartProducts|];
    [|discriminate]. cbn [bind].
  destruct (locationContext db q) as [ctx|]; [|discriminate]. cbn [bind].
  destruct (targetingFilter calculateDistance geoWithin db now ctx) as [selected|] eqn:Hsel;
    [|discriminate]. cbn [bind].
  set (offers := List.filter (hasActiveProducts db) selected).
  destruct (if (0 <? List.length cartProducts)%nat then _ else _) as [scored|] eqn:Hscored;
    [|discriminate]. cbn [bind].
  assert (Hoffers : map so_offer scored = offers).
  { destruct (0 <? List.length cartProducts)%nat.
    - now apply (mapM_scoreOffer db cartProducts).
    - injection Hscored as <-. rewrite map_map. cbn [so_offer]. apply map_id. }
  intros Hres. apply stackingResolver_Ok in Hres.
  destruct Hres as (applied & m & Hloop & ->).
  apply stackingLoop_sublist in Hloop. destruct Hloop as (ys & Hsub & ->). cbn [app].
  split.
  - apply byPriority_map. eapply StronglySorted_sublist; [exact Hsub|].
    apply sort_byPriority.
  - intros o Ho. apply in_map_iff in Ho. destruct Ho as (s & <- & Hs).
    assert (Hin : In (so_offer s) offers).
    { rewrite <- Hoffers. apply in_map.
      eapply Permutation_in; [apply sort_perm|].
      eapply sublist_In; eassumption. }
    unfold offers in Hin. apply List.filter_In in Hin. destruct Hin as [Hsel' Hact].
    apply (targetingFilter_selects calculateDistance geoWithin db now ctx selected Hsel) in Hsel'.
    tauto.
Qed.

(** X6: the offers [resolveRelevantOffers] answers with come in the order
    of their priority, the highest first, and each of them is a campaign of
    the store that runs at the time of the request and has a product that
    is not switched off: [getPublicActiveOffers] lists every one of
    them. *)
Theorem resolveRelevantOffers_answers_listed_offers (db : Db) (now : Z) (q : ResolveQuery)
    (out : list Offer) :
  resolveRelevantOffers calculateDistance geoWithin db now q = Ok out ->
  byPriorityDesc out
  /\ (forall o, In o out ->
                In o (offerCampaigns db) /\ activeAt now o = true
                /\ hasActiveProducts db o = true)
  /\ exists listed,
       getPublicActiveOffers createdAt db now = Ok listed /\ incl out listed.
Proof.
  intros Hres. pose proof (resolveRelevantOffers_answer db now q out Hres) as [Hsorted Hall].
  split; [assumption|]. split; [assumption|].
  assert (Hc : connected db = true).
  { unfold resolveRelevantOffers in Hres.
    destruct (match cartProductIds q with [] => _ | _ => _ end); [|discriminate].
    cbn [bind] in Hres.
    destruct (locationContext db q) as [ctx|]; [|discriminate]. cbn [bind] in Hres.
    destruct (targetingFilter calculateDistance geoWithin db now ctx) as [selected|] eqn:Hsel;
      [|discriminate].
    unfold targetingFilter in Hsel.
    destruct (OfferController.locationConditions ctx); [|discriminate]. cbn [bind] in Hsel.
    unfold find in Hsel. destruct (connected db); [reflexivity | discriminate]. }
  destruct (getPublicActiveOffers createdAt db now) as [listed|] eqn:Hl.
  - exists listed. split; [reflexivity|]. intros o Ho.
    apply (getPublicActiveOffers_lists createdAt db now listed Hl). auto.
  - unfold getPublicActiveOffers, find in Hl. rewrite Hc in Hl. discriminate.
Qed.

End ResolveAnswers.

Section LocationBased.

Import OfferService OfferController OfferEndpoints EndpointSpec.

Variable createdAt : Offer -> Z.
Variable planeDistance : string -> string -> Q -> Q -> option Q.

Lemma nearestInPlaneStep_nearestOf (lat lng : string) (st : option Branch * option Q)
    (seen : list Branch) (x : Branch) :
  planeNearestOf planeDistance lat lng st seen ->
  planeNearestOf planeDistance lat lng
    (nearestInPlaneStep planeDistance lat lng st x) (seen ++ [x]).
Proof.
  unfold nearestInPlaneStep.
  assert (Hm : measured planeDistance lat lng x
               = let '(branchLng, branchLat) := b_location x in
                 planeDistance lat lng branchLat branchLng).
  { unfold measured. now destruct (b_location x). }
  destruct (b_location x) as [branchLng branchLat]. cbv zeta beta iota in Hm.
  rewrite <- Hm. clear Hm.
  intros [[-> Hnone] | (b & d & -> & Hin & Hb & Hall)].
  - destruct (measured planeDistance lat lng x) as [dx|] eqn:Hx; cbn [snd].
    + right. exists x, dx. split; [reflexivity|]. split; [apply in_or_app; right; now left|].
      split; [exact Hx|]. apply Forall_app. split.
      * eapply List.Forall_impl; [|exact Hnone]. cbv beta. intros y Hy dy Hdy. congruence.
      * constructor; [|constructor]. intros dy Hdy. rewrite Hx in Hdy.
        injection Hdy as <-. lra.
    + left. split; [reflexivity|]. apply Forall_app. split; [exact Hnone|].
      constructor; [exact Hx | constructor].
  - right. destruct (measured planeDistance lat lng x) as [dx|] eqn:Hx; cbn [snd].
    + destruct (Qltb dx d) eqn:E.
      * apply Qltb_lt in E. exists x, dx. split; [reflexivity|].
        split; [apply in_or_app; right; now left|]. split; [exact Hx|].
        apply Forall_app. split.
        -- eapply List.Forall_impl; [|exact Hall]. cbv beta. intros y Hy dy Hdy.
           specialize (Hy dy Hdy). lra.
        -- constructor; [|constructor]. intros dy Hdy. rewrite Hx in Hdy.
           injection Hdy as <-. lra.
      * apply Qltb_ge in E. exists b, d. split; [reflexivity|].
        split; [apply in_or_app; now left|]. split; [exact Hb|].
        apply Forall_app. split; [exact Hall|].
        constructor; [|constructor]. intros dy Hdy. rewrite Hx in Hdy.
        injection Hdy as <-. exact E.
    + exists b, d. split; [reflexivity|]. split; [apply in_or_app; now left|].
      split; [exact Hb|]. apply Forall_app. split; [exact Hall|].
      constructor; [|constructor]. intros dy Hdy. congruence.
Qed.

Lemma planeScan_nearestOf (lat lng : string) (l : list Branch) :
  forall st seen,
    planeNearestOf planeDistance lat lng st seen ->
    planeNearestOf planeDistance lat lng
      (fold_left (nearestInPlaneStep planeDistance lat lng) l st) (seen ++ l).
Proof.
  induction l as [|x l IH]; intros st seen Hst; simpl.
  - now rewrite app_nil_r.
  - replace (seen ++ x :: l) with ((seen ++ [x]) ++ l) by now rewrite <- app_assoc.
    apply IH. now apply nearestInPlaneStep_nearestOf.
Qed.

Lemma planeScan_nearest (db : Db) (lat lng : string) :
  match fst (fold_left (nearestInPlaneStep planeDistance lat lng)
                       (List.filter b_isActive (branchDocs db)) (None, None)) with
  | Some b => planeNearest planeDistance lat lng db b
  | None => noneMeasured planeDistance lat lng db
  end.
Proof.
  pose proof (planeScan_nearestOf lat lng (List.filter b_isActive (branchDocs db))
                (None, None) []) as H.
  cbn [app] in H. specialize (H (or_introl (conj eq_refl (List.Forall_nil _)))).
  destruct H as [[-> Hnone] | (b & d & -> & Hin & Hb & Hall)]; cbn [fst].
  - intros x Hx Hact. rewrite List.Forall_forall in Hnone. apply Hnone.
    apply List.filter_In. auto.
  - apply List.filter_In in Hin. destruct Hin as [Hin Hact].
    split; [exact Hin|]. split; [exact Hact|]. exists d. split; [exact Hb|].
    intros x dx Hx Hxact Hdx. rewrite List.Forall_forall in Hall.
    apply (Hall x); [apply List.filter_In; auto | exact Hdx].
Qed.

Lemma find_by_id {A} (idOf : A -> string) (l : list A) (x : A) :
  In x l -> exists d, List.find (fun y => String.eqb (idOf y) (idOf x)) l = Some d
                      /\ idOf d = idOf x.
Proof.
  intros Hin. destruct (List.find _ l) as [d|] eqn:E.
  - exists d. split; [reflexivity|]. apply List.find_some in E. now apply String.eqb_eq.
  - exfalso. pose proof (List.find_none _ _ E x Hin) as Hn. cbn beta in Hn.
    now rewrite String.eqb_refl in Hn.
Qed.

(** X7: what [getLocationBasedOffers] answers with.  The offers run at the
    time of the request and have a product that is not switched off; each
    is a campaign without a branch or a campaign of the branch named in the
    answer (by the legacy [branch] field: the [branches], [cities] and
    [geo] of a campaign play no part).  A branch is named only when [lat]
    and [lng] are both given and not empty, and it is then an active
    branch at a distance that is a number, with no active branch at a
    lesser one; no branch is named when [lat] or [lng] is missing or empty,
    or when no active branch is at a distance that is a number (a [lat] or
    [lng] that is not numeric, or no active branch at all). *)
Theorem getLocationBasedOffers_answers (db : Db) (now : Z) (lat lng : option string)
    (offers : list Offer) (nearest : option Branch) :
  getLocationBasedOffers createdAt planeDistance db now lat lng = Ok (offers, nearest) ->
  (forall o, In o offers ->
             In o (offerCampaigns db) /\ activeAt now o = true
             /\ hasActiveProducts db o = true
             /\ (branch o = None \/ exists b, nearest = Some b /\ branch o = Some (b_id b)))
  /\ (forall b, nearest = Some b ->
                exists la ln nb, lat = Some la /\ la <> "" /\ lng = Some ln /\ ln <> ""
                                 /\ planeNearest planeDistance la ln db nb
                                 /\ b_id nb = b_id b)
  /\ (nearest = None ->
      truthyStr lat = false \/ truthyStr lng = false
      \/ noneMeasured planeDistance (default "" lat) (default "" lng) db).
Proof.
  unfold getLocationBasedOffers.
  destruct (connected db) eqn:Hc.
  2:{ unfold find. rewrite Hc. destruct (truthyStr lat && truthyStr lng); cbn [bind];
      discriminate. }
  assert (Hbranch : exists branchId : option string,
             (if truthyStr lat && truthyStr lng then
                let* branches := find db branchDocs b_isActive in
                Ok (option_map b_id
                      (fst (fold_left (nearestInPlaneStep planeDistance (default "" lat)
                                         (default "" lng)) branches (None, None))))
              else Ok None) = Ok branchId
             /\ match branchId with
                | Some id => exists la ln nb, lat = Some la /\ la <> "" /\ lng = Some ln
                                              /\ ln <> ""
                                              /\ planeNearest planeDistance la ln db nb
                                              /\ b_id nb = id
                | None => truthyStr lat = false \/ truthyStr lng = false
                          \/ noneMeasured planeDistance (default "" lat) (default "" lng) db
                end).
  { destruct (truthyStr lat) eqn:Hlat; [|exists None; auto].
    destruct (truthyStr lng) eqn:Hlng; [|exists None; auto].
    cbn [andb]. unfold find. rewrite Hc. cbn [bind].
    destruct lat as [la|]; [|discriminate Hlat].
    destruct lng as [ln|]; [|discriminate Hlng].
    change (default "" (Some la)) with la. change (default "" (Some ln)) with ln.
    pose proof (planeScan_nearest db la ln) as Hn.
    destruct (fst (fold_left _ _ _)) as [nb|].
    - exists (Some (b_id nb)). split; [reflexivity|]. exists la, ln, nb.
      cbn [truthyStr] in Hlat, Hlng. apply negb_true_iff in Hlat, Hlng.
      apply String.eqb_neq in Hlat, Hlng. auto 10.
    - exists None. auto. }
  destruct Hbranch as (branchId & -> & Hid). cbn [bind].
  unfold find, findOne. rewrite Hc. cbn [bind].
  destruct branchId as [id|].
  - destruct Hid as (la & ln & nb & -> & Hla & -> & Hln & Hnb & <-).
    destruct (find_by_id b_id (branchDocs db) nb (proj1 Hnb)) as (d & -> & Hd).
    cbn [bind]. intros [= <- <-]. split; [|split].
    + intros o Ho. apply List.filter_In in Ho. destruct Ho as [Ho Hact].
      apply In_newestFirst in Ho. apply List.filter_In in Ho. destruct Ho as [Ho Hq].
      apply andb_true_iff in Hq. destruct Hq as [Ha Hb].
      split; [assumption|]. split; [assumption|]. split; [assumption|].
      destruct (branch o) as [b|]; [|now left].
      right. exists d. split; [reflexivity|]. apply String.eqb_eq in Hb. congruence.
    + intros b [= <-]. exists la, ln, nb. auto 10.
    + discriminate.
  - cbn [bind]. intros [= <- <-]. split; [|split].
    + intros o Ho. apply List.filter_In in Ho. destruct Ho as [Ho Hact].
      apply In_newestFirst in Ho. apply List.filter_In in Ho. destruct Ho as [Ho Hq].
      apply andb_true_iff in Hq. destruct Hq as [Ha Hb].
      split; [assumption|]. split; [assumption|]. split; [assumption|].
      destruct (branch o); [discriminate | now left].
    + discriminate.
    + intros _. exact Hid.
Qed.

End LocationBased.

Section CampaignWrites.

Import OfferService OfferController ProductPricing OfferEndpoints EndpointSpec ListingSpec.

Variable createdAt : Offer -> Z.
Variable createdBy : Offer -> string.

Lemma accessDenied_ofAnotherBranch (user : User) (offer : Offer) :
  role user = BranchRole -> ofAnotherBranch user offer -> accessDenied user offer = true.
Proof.
  intros Hr (b & Hb & Hne). unfold accessDenied, equalsBranchOf. rewrite Hr, Hb.
  destruct (u_branchId user) as [ub|]; [|reflexivity].
  apply negb_true_iff. apply String.eqb_neq. congruence.
Qed.

(** X8: a branch account cannot touch the campaign of another branch.
    [extendOffer], [toggleOfferStatus], [deleteOffer] and [updateOffer]
    answer 403 and leave the store as it was; [getOffer] answers 403 as
    long as the branch document of the campaign exists; and the listing of
    [getAllOffers] does not show the campaign. *)
Theorem branch_account_cannot_touch_other_branch (db : Db) (now : Z) (user : User)
    (id : string) (offer : Offer) :
  role user = BranchRole ->
  ofAnotherBranch user offer ->
  (findById db offerCampaigns o_id id = Ok (Some offer) ->
   (forall newEndDate, extendOffer db now user id newEndDate = (Throw forbidden, db))
   /\ (forall active, toggleOfferStatus db user id active = (Throw forbidden, db))
   /\ deleteOffer createdBy db user id = (Throw forbidden, db)
   /\ (forall d, In d (branchDocs db) -> branch offer = Some (b_id d) ->
                 getOffer db user id = Throw forbidden))
  /\ (forall updateData,
         findById db offerCampaigns o_id id = Ok (Some offer) ->
         updateOffer db now user id updateData = (Throw forbidden, db))
  /\ (forall scope isActiveParam listed,
         getAllOffers createdAt db user scope isActiveParam = Ok listed ->
         ~ In offer listed).
Proof.
  intros Hrole Hother.
  pose proof (accessDenied_ofAnotherBranch user offer Hrole Hother) as Hdenied.
  split; [|split].
  - intros Hfound. split; [|split; [|split]].
    + intros newEndDate. unfold extendOffer. rewrite Hfound. cbn [bind].
      now rewrite Hdenied.
    + intros active. unfold toggleOfferStatus. rewrite Hfound. cbn [bind].
      now rewrite Hdenied.
    + unfold deleteOffer. rewrite Hfound. cbn [bind]. rewrite Hrole.
      destruct Hother as (b & Hb & Hne). rewrite Hb.
      assert (E : equalsBranchOf user b = false).
      { unfold equalsBranchOf. destruct (u_branchId user) as [ub|]; [|reflexivity].
        apply String.eqb_neq. congruence. }
      rewrite E. cbn [negb]. now rewrite orb_true_r.
    + intros d Hd Hbd. unfold getOffer. rewrite Hfound. cbn [bind]. rewrite Hbd, Hrole.
      destruct (find_by_id b_id (branchDocs db) d Hd) as (d' & -> & Hd').
      destruct Hother as (b & Hb & Hne).
      assert (E : equalsBranchOf user (b_id d') = false).
      { unfold equalsBranchOf. destruct (u_branchId user) as [ub|]; [|reflexivity].
        apply String.eqb_neq. congruence. }
      now rewrite E.
  - intros updateData Hfound.
    apply updateOffer_lookup in Hfound. destruct Hfound as (_ & _ & Hcast & Hfound).
    unfold updateOffer. rewrite Hcast. cbn [bind]. rewrite Hfound. cbn [bind].
    unfold accessDenied, equalsBranchOf in Hdenied. rewrite Hrole in Hdenied |- *.
    destruct (branch offer) as [b|]; [|discriminate]. now rewrite Hdenied.
  - intros scope isActiveParam listed. unfold getAllOffers, find.
    destruct (connected db); [|discriminate]. cbn [bind]. intros [= <-] Hin.
    apply In_newestFirst in Hin. apply List.filter_In in Hin. destruct Hin as [_ Hq].
    apply andb_true_iff in Hq. destruct Hq as [Hq _]. rewrite Hrole in Hq.
    destruct Hother as (b & Hb & Hne). rewrite Hb in Hq.
    unfold equalsBranchOf in Hq. destruct (u_branchId user) as [ub|]; [|discriminate].
    apply String.eqb_eq in Hq. congruence.
Qed.

(** The campaigns of the store after [offer.save()]. *)
Lemma saveOffer_In (db : Db) (offer x : Offer) :
  In x (offerCampaigns (saveOffer db offer)) ->
  (x = offer \/ (In x (offerCampaigns db) /\ o_id x <> o_id offer)).
Proof.
  unfold saveOffer, withOffers. cbn [offerCampaigns]. intros H.
  apply in_map_iff in H. destruct H as (y & Hy & Hin).
  destruct (String.eqb (o_id y) (o_id offer)) eqn:E.
  - left. now symmetry.
  - right. subst y. split; [assumption | now apply String.eqb_neq].
Qed.

Lemma findById_Some {A} (db : Db) (coll : Db -> list A) (idOf : A -> string) (id : string)
    (x : A) :
  findById db coll idOf id = Ok (Some x) ->
  isValidObjectId id = true /\ connected db = true /\ In x (coll db)
  /\ idOf x = toHexString id.
Proof.
  unfold findById, findOne. destruct (isValidObjectId id); [|discriminate].
  destruct (connected db); [|discriminate]. intros [= H].
  apply List.find_some in H. destruct H as [Hin Heq].
  apply String.eqb_eq in Heq. auto.
Qed.

(** A query that rejects the saved campaign finds, after the save, what it
    finds in the store without the campaigns of that id. *)
Lemma filter_saveOffer (db : Db) (offer : Offer) (query : Offer -> bool) :
  query offer = false ->
  List.filter query (offerCampaigns (saveOffer db offer))
  = List.filter query (offerCampaigns (withoutCampaign db (o_id offer))).
Proof.
  intros Hq. unfold saveOffer, withoutCampaign, withOffers. cbn [offerCampaigns].
  induction (offerCampaigns db) as [|x l IH]; [reflexivity|].
  cbn [map List.filter]. destruct (String.eqb (o_id x) (o_id offer)) eqn:E; cbn [negb].
  - rewrite Hq. exact IH.
  - cbn [List.filter]. destruct (query x); now rewrite IH.
Qed.

(** X9: a campaign that is switched off is gone for the public.  After a
    successful [toggleOfferStatus] with [isActive: false] the public
    endpoint answers 404 for the campaign, [getPublicActiveOffers] does not
    list it, and the pricing calculator prices every product as in the
    store without the campaign. *)
Theorem switched_off_campaign_is_gone (db db' : Db) (now : Z) (user : User) (id : string)
    (offer : Offer) :
  toggleOfferStatus db user id false = (Ok offer, db') ->
  getPublicOffer db' now id = Throw notPublic
  /\ (forall listed, getPublicActiveOffers createdAt db' now = Ok listed ->
                     forall x, In x listed -> o_id x <> o_id offer)
  /\ (forall prods branchId userLocation,
         calculateEffectivePrices db' now prods branchId userLocation
         = calculateEffectivePrices (withoutCampaign db (o_id offer)) now prods branchId
             userLocation).
Proof.
  unfold toggleOfferStatus.
  destruct (findById db offerCampaigns o_id id) as [[found|]|] eqn:Hfound;
    cbn [bind]; try discriminate.
  destruct (accessDenied user found); [discriminate|]. intros [= <- <-].
  apply findById_Some in Hfound. destruct Hfound as (Hvalid & Hc & Hin & Hid).
  assert (Hoff : forall t, activeAt t (withIsActive found false) = false) by reflexivity.
  split; [|split].
  - unfold getPublicOffer, findOne. rewrite Hvalid.
    change (connected (saveOffer db (withIsActive found false))) with (connected db).
    rewrite Hc. cbn [bind].
    destruct (List.find _ _) as [x|] eqn:Hx; [|reflexivity].
    apply List.find_some in Hx. destruct Hx as [Hx Hq].
    apply andb_true_iff in Hq. destruct Hq as [Hq Ha].
    apply saveOffer_In in Hx. destruct Hx as [-> | [_ Hne]].
    + rewrite Hoff in Ha. discriminate.
    + apply String.eqb_eq in Hq. cbn [withIsActive o_id] in Hne. congruence.
  - intros listed Hl x Hx.
    apply (getPublicActiveOffers_lists createdAt _ now listed Hl) in Hx.
    destruct Hx as (Hx & Ha & _).
    apply saveOffer_In in Hx. destruct Hx as [-> | [_ Hne]]; [|assumption].
    rewrite Hoff in Ha. discriminate.
  - intros prods branchId userLocation.
    unfold calculateEffectivePrices, calculateEffectivePrices_try, tryCatch.
    destruct (OfferService.locationConditions branchId) as [conds|]; cbn [bind];
      [|reflexivity].
    unfold find.
    change (connected (saveOffer db (withIsActive found false))) with (connected db).
    change (connected (withoutCampaign db (o_id (withIsActive found false))))
      with (connected db).
    destruct (connected db); cbn [bind]; [|reflexivity].
    rewrite filter_saveOffer; [reflexivity|].
    unfold offerQuery. now rewrite Hoff.
Qed.

Lemma find_saved (db : Db) (offer : Offer) (query : Offer -> bool) (x : Offer) :
  In x (offerCampaigns db) -> o_id x = o_id offer -> query offer = true ->
  (forall y, query y = true -> o_id y = o_id offer) ->
  List.find query (offerCampaigns (saveOffer db offer)) = Some offer.
Proof.
  intros Hin Hid Hq Honly. unfold saveOffer, withOffers. cbn [offerCampaigns].
  induction (offerCampaigns db) as [|y l IH]; [destruct Hin|].
  cbn [map List.find]. destruct (String.eqb (o_id y) (o_id offer)) eqn:E.
  - now rewrite Hq.
  - destruct (query y) eqn:Hy.
    + apply Honly in Hy. apply String.eqb_neq in E. contradiction.
    + apply IH. destruct Hin as [-> | Hin]; [|assumption].
      rewrite Hid, String.eqb_refl in E. discriminate.
Qed.

(** X10: [extendOffer] accepts an end date in the future only, writes it
    and nothing else, and so brings an ended campaign back: a campaign that
    is switched on and has started is public again. *)
Theorem extended_campaign_is_public (db db' : Db) (now : Z) (user : User) (id : string)
    (newEndDate : Z) (offer : Offer) :
  extendOffer db now user id newEndDate = (Ok offer, db') ->
  (now < newEndDate)%Z
  /\ (exists before, findById db offerCampaigns o_id id = Ok (Some before)
                     /\ offer = withEndsAt before (Some newEndDate))
  /\ db' = saveOffer db offer
  /\ (isActive offer = true -> started now offer -> getPublicOffer db' now id = Ok offer).
Proof.
  unfold extendOffer.
  destruct (findById db offerCampaigns o_id id) as [[found|]|] eqn:Hfound;
    cbn [bind]; try discriminate.
  destruct (accessDenied user found); [discriminate|].
  destruct (newEndDate <=? now)%Z eqn:Hle; [discriminate|]. intros [= <- <-].
  apply Z.leb_gt in Hle.
  split; [assumption|]. split; [eauto|]. split; [reflexivity|].
  intros Hactive Hstarted.
  apply findById_Some in Hfound. destruct Hfound as (Hvalid & Hc & Hin & Hid).
  unfold getPublicOffer, findOne. rewrite Hvalid.
  change (connected (saveOffer db (withEndsAt found (Some newEndDate)))) with (connected db).
  rewrite Hc. cbn [bind].
  rewrite (find_saved db (withEndsAt found (Some newEndDate)) _ found Hin eq_refl);
    [reflexivity | |].
  - cbn [withEndsAt o_id]. rewrite Hid, String.eqb_refl. cbn [andb].
    unfold activeAt. cbn [withEndsAt isActive startsAt endsAt] in *.
    rewrite Hactive. unfold started in Hstarted. cbn [withEndsAt startsAt] in Hstarted.
    destruct (startsAt found) as [s|].
    + apply Z.leb_le in Hstarted. rewrite Hstarted. cbn [andb]. apply Z.leb_le. lia.
    + cbn [andb]. apply Z.leb_le. lia.
  - intros y Hy. apply andb_true_iff in Hy. destruct Hy as [Hy _].
    apply String.eqb_eq in Hy. cbn [withEndsAt o_id]. congruence.
Qed.

Lemma find_none_all {A} (f : A -> bool) (l : list A) :
  (forall x, In x l -> f x = false) -> List.find f l = None.
Proof.
  induction l as [|a l IH]; intros H; [reflexivity|].
  cbn [List.find]. rewrite (H a) by now left. apply IH. intros x Hx. apply H. now right.
Qed.

(** X11: [deleteOffer] removes the campaigns of the id and nothing else;
    the campaign is then unknown to [getOffer] and to the public endpoint.
    An administrator may delete any campaign; a branch account only a
    campaign it created that has no branch or its own. *)
Theorem deleteOffer_removes_the_campaign (db db' : Db) (now : Z) (user : User) (id : string) :
  deleteOffer createdBy db user id = (Ok tt, db') ->
  exists offer,
    findById db offerCampaigns o_id id = Ok (Some offer)
    /\ db' = withoutCampaign db (o_id offer)
    /\ (role user = BranchRole ->
        createdBy offer = u_id user
        /\ (branch offer = None \/ branch offer = u_branchId user))
    /\ (forall reader, getOffer db' reader id = Throw notFound)
    /\ getPublicOffer db' now id = Throw notPublic.
Proof.
  unfold deleteOffer.
  destruct (findById db offerCampaigns o_id id) as [[found|]|] eqn:Hfound;
    cbn [bind]; try discriminate.
  destruct (match role user with BranchRole => _ | Admin => _ end) eqn:Hrefused;
    [discriminate|].
  intros [= <-]. exists found. split; [reflexivity|]. split; [reflexivity|].
  apply findById_Some in Hfound. destruct Hfound as (Hvalid & Hc & Hin & Hid).
  assert (Hgone : forall x, In x (offerCampaigns (withoutCampaign db (o_id found))) ->
                            String.eqb (o_id x) (toHexString id) = false).
  { intros x Hx. unfold withoutCampaign, withOffers in Hx. cbn [offerCampaigns] in Hx.
    apply List.filter_In in Hx. destruct Hx as [_ Hne].
    apply negb_true_iff in Hne. now rewrite Hid in Hne. }
  split; [|split].
  - intros Hrole. rewrite Hrole in Hrefused.
    apply orb_false_iff in Hrefused. destruct Hrefused as [Hby Hbr].
    apply negb_false_iff in Hby. apply String.eqb_eq in Hby.
    split; [assumption|].
    destruct (branch found) as [b|]; [|now left]. right.
    apply negb_false_iff in Hbr. unfold equalsBranchOf in Hbr.
    destruct (u_branchId user) as [ub|]; [|discriminate].
    apply String.eqb_eq in Hbr. congruence.
  - intros reader. unfold getOffer, findById, findOne. rewrite Hvalid.
    cbn [withOffers connected]. rewrite Hc. cbn [bind].
    rewrite find_none_all; [reflexivity | exact Hgone].
  - unfold getPublicOffer, findOne. rewrite Hvalid.
    cbn [withOffers connected]. rewrite Hc. cbn [bind].
    rewrite find_none_all; [reflexivity|].
    intros x Hx. now rewrite (Hgone x Hx).
Qed.

End CampaignWrites.

Section ConflictReports.

Import OfferService OfferController OfferEndpoints ConflictSpec EndpointSpec StackingSpec.

Lemma conflictQuery_reads (now : Z) (ids : list string) (exclude target : option string)
    (o : Offer) :
  conflictQuery now (map toHexString ids) (given exclude) (given target) o = true ->
  isCurrentlyValid now o = true
  /\ (exists item id, In item (items o) /\ In id ids /\ product item = toHexString id)
  /\ (truthyStr target = true -> appliesToBranch o (option_map toHexString target) = true)
  /\ (truthyStr exclude = true -> Some (o_id o) <> option_map toHexString exclude).
Proof.
  unfold conflictQuery, isCurrentlyValid, appliesToBranch.
  rewrite !andb_true_iff. intros (((((Ha & Hitems) & Hs) & He) & Ht) & Hx).
  split; [now rewrite Ha, Hs, He|]. split; [|split].
  - apply List.existsb_exists in Hitems. destruct Hitems as (item & Hin & Hid).
    apply List.existsb_exists in Hid. destruct Hid as (c & Hc & Heq).
    apply List.in_map_iff in Hc. destruct Hc as (id & <- & Hid).
    apply String.eqb_eq in Heq. eauto.
  - intros Htruthy. destruct target as [t|]; [|discriminate].
    unfold truthyStr in Htruthy. apply negb_true_iff in Htruthy.
    unfold given in Ht. rewrite Htruthy in Ht. cbn [option_map].
    destruct (branch o) as [b|]; [exact Ht | reflexivity].
  - intros Htruthy. destruct exclude as [x|]; [|discriminate].
    unfold truthyStr in Htruthy. apply negb_true_iff in Htruthy.
    unfold given in Hx. rewrite Htruthy in Hx. cbn [option_map].
    apply negb_true_iff in Hx. apply String.eqb_neq in Hx.
    intros [= E]. apply Hx. exact E.
Qed.

Lemma conflictingProducts_titles (db : Db) (ids : list string) (its : list OfferItem) :
  forall titles, conflictingProducts db ids its = Ok titles ->
                 Forall (fun t => exists p, In p (products db) /\ p_title p = t
                                            /\ In (p_id p) ids) titles.
Proof.
  induction its as [|item its IH]; intros titles H.
  - injection H as <-. constructor.
  - cbn [conflictingProducts] in H.
    destruct (populate db item) as [p|] eqn:Hp; [|discriminate].
    destruct (conflictingProducts db ids its) as [more|]; [|discriminate].
    cbn [bind] in H. injection H as <-.
    destruct (existsb (String.eqb (p_id p)) ids) eqn:E; [|now apply IH].
    constructor; [|now apply IH].
    exists p. split; [|split; [reflexivity|]].
    + unfold populate in Hp. apply List.find_some in Hp. tauto.
    + apply List.existsb_exists in E. destruct E as (x & Hx & Heq).
      apply String.eqb_eq in Heq. congruence.
Qed.

Lemma mapM_Forall2 {A B} (f : A -> Result B) (l : list A) :
  forall out, mapM f l = Ok out -> Forall2 (fun a b => f a = Ok b) l out.
Proof.
  induction l as [|a l IH]; intros out H.
  - injection H as <-. constructor.
  - cbn [mapM] in H. destruct (f a) as [b|] eqn:Hb; [|discriminate]. cbn [bind] in H.
    destruct (mapM f l) as [bs|]; [|discriminate]. cbn [bind] in H. injection H as <-.
    constructor; [assumption | now apply IH].
Qed.

(** X12: what [checkProductConflicts] reports.  Every entry is a campaign
    of the store that is currently valid (the virtual [isCurrentlyValid] of
    the schema), has an item on a submitted product, applies to the target
    branch when there is one (the method [appliesToBranch] of the schema)
    and is not the campaign under update, the submitted ids being read as
    ObjectIds; the products listed with it are titles of products of the
    store whose id is among the submitted strings.  No entry, no
    report. *)
Theorem conflict_report_names_valid_campaigns (db : Db) (now : Z) (ids : list string)
    (exclude target : option string) (report : list ConflictDetail) :
  checkProductConflicts db now ids exclude target = Ok (Some report) ->
  report <> []
  /\ Forall (fun entry =>
               (exists o, In o (offerCampaigns db) /\ offerTitle entry = title o
                          /\ isCurrentlyValid now o = true
                          /\ (exists item id, In item (items o) /\ In id ids
                                              /\ product item = toHexString id)
                          /\ (truthyStr target = true ->
                              appliesToBranch o (option_map toHexString target) = true)
                          /\ (truthyStr exclude = true ->
                              Some (o_id o) <> option_map toHexString exclude))
               /\ Forall (fun t => exists p, In p (products db) /\ p_title p = t
                                             /\ In (p_id p) ids)
                         (cd_products entry))
            report.
Proof.
  unfold checkProductConflicts.
  destruct (mapM ObjectId ids) as [cast|] eqn:Hids; [|discriminate].
  apply mapM_ObjectId_Ok in Hids. destruct Hids as [_ ->]. cbn [bind].
  destruct (castWhenTruthy target) as [ct|] eqn:Ht; [|discriminate].
  apply castWhenTruthy_Ok in Ht. destruct Ht as [_ ->]. cbn [bind].
  destruct (castWhenTruthy exclude) as [cx|] eqn:Hx; [|discriminate].
  apply castWhenTruthy_Ok in Hx. destruct Hx as [_ ->]. cbn [bind].
  unfold find. destruct (connected db); [|discriminate].
  cbn [bind].
  destruct (List.filter _ (offerCampaigns db)) as [|c cs] eqn:Hconf; [discriminate|].
  cbn [List.length Nat.ltb Nat.leb].
  destruct (mapM _ (c :: cs)) as [details|] eqn:Hd; [|discriminate].
  cbn [bind]. intros [= <-].
  apply mapM_Forall2 in Hd.
  assert (Hall : Forall (fun o => In o (offerCampaigns db)
                                  /\ conflictQuery now (map toHexString ids) (given exclude)
                                                   (given target) o = true)
                        (c :: cs)).
  { rewrite <- Hconf. apply List.Forall_forall. intros o Ho.
    now apply List.filter_In in Ho. }
  split.
  - inversion Hd. discriminate.
  - clear Hconf. induction Hd as [|o entry os entries Hentry _ IH]; [constructor|].
    inversion Hall as [|? ? [Hin Hq] Hrest]; subst.
    constructor; [|now apply IH].
    destruct (conflictingProducts db ids (items o)) as [titles|] eqn:Ht; [|discriminate].
    cbn [bind] in Hentry. injection Hentry as <-. cbn [offerTitle cd_products].
    split.
    + exists o. split; [assumption|]. split; [reflexivity|].
      now apply conflictQuery_reads.
    + now apply (conflictingProducts_titles db ids (items o)).
Qed.

Lemma mapM_castItem (its cast : list OfferItem) :
  mapM castItem its = Ok cast ->
  cast = map (fun item => {| product := toHexString (product item);
                             offerPrice := offerPrice item; percent := percent item |}) its.
Proof.
  revert cast. induction its as [|item its IH]; intros cast H.
  - now injection H as <-.
  - cbn [mapM] in H. unfold castItem at 1 in H.
    destruct (ObjectId (product item)) as [c|] eqn:Hc; [|discriminate].
    apply ObjectId_Ok in Hc. destruct Hc as [_ ->]. cbn [bind] in H.
    destruct (mapM castItem its) as [cs|]; [|discriminate].
    cbn [bind] in H. injection H as <-. cbn [map]. now rewrite (IH cs eq_refl).
Qed.

(** X13: a campaign that [createOffer] accepts collides with no running
    campaign in its scope: no campaign of the store that is active, has
    started and has not ended holds one of the submitted products as an
    item while being without a branch or of the target branch.  The store
    then holds the old campaigns followed by the new one, which is active,
    carries the submitted items (their products as ObjectIds) and dates
    and belongs to the target branch. *)
Theorem createOffer_accepts_only_without_conflict (db db' : Db) (now : Z) (user : User)
    (body : CreateOfferDto) (newId : string) (offer : Offer) :
  createOffer db now user body newId = (Ok offer, db') ->
  (forall o, In o (offerCampaigns db) ->
             ~ collides now (map product (c_items body)) None (createTarget user body) o)
  /\ db' = withOffers db (offerCampaigns db ++ [offer])
  /\ o_id offer = newId
  /\ items offer
     = map (fun item => {| product := toHexString (product item);
                           offerPrice := offerPrice item; percent := percent item |})
           (c_items body)
  /\ isActive offer = true
  /\ startsAt offer = c_startsAt body /\ endsAt offer = c_endsAt body
  /\ branch offer = given (createTarget user body).
Proof.
  intros Hok. split.
  - intros o Hin Hcol.
    destruct (createOffer_conflict db now user body newId o Hin Hcol) as [e He].
    rewrite He in Hok. discriminate Hok.
  - revert Hok. unfold createOffer. cbv zeta.
    match goal with
    | |- context [let* _ := ?v in let* its := mapM castItem _ in _] =>
        destruct v as [[]|]; cbn [bind]; [|discriminate]
    end.
    destruct (mapM castItem (c_items body)) as [its|] eqn:Hits; cbn [bind]; [|discriminate].
    apply mapM_castItem in Hits.
    destruct (castWhenTruthy _) as [own|] eqn:Hown; cbn [bind]; [|discriminate].
    apply castWhenTruthy_Ok in Hown. destruct Hown as [_ ->].
    destruct (connected db); [|discriminate]. intros [= <- <-].
    cbn [o_id items isActive startsAt endsAt branch].
    split; [reflexivity|]. split; [reflexivity|]. split; [exact Hits|].
    split; [reflexivity|]. split; [reflexivity|]. split; [reflexivity|].
    unfold createTarget, given, truthyStr.
    destruct (role user); [|reflexivity].
    destruct (c_branch body) as [b|]; [|reflexivity].
    destruct (String.eqb b "") eqn:E; cbn [negb]; [|now rewrite E].
    reflexivity.
Qed.

End ConflictReports.


Section PrivateAddresses.

Import GeolocationService GeolocationSpec.

Lemma agreeOn_all (rest : string) :
  forallb (fun a => forallb (agreeOn rest a) numerals) numerals = true.
Proof. destruct rest as [|c rest]; vm_compute; reflexivity. Qed.

Lemma In_numerals (n : nat) : (n < 256)%nat -> In (n, pretty n) numerals.
Proof.
  intros Hn. unfold numerals. apply List.in_map_iff. exists n.
  split; [reflexivity | apply in_seq; lia].
Qed.

(** X14: which IPv4 addresses [isPrivateIP] takes for private.  Of an
    address that begins with two numbers below 256 in decimal notation, each
    followed by a dot, it holds exactly in the blocks 127/8, 10/8,
    172.16/12 and 192.168/16, whatever follows. *)
Theorem isPrivateIP_blocks (a b : nat) (rest : string) :
  (a < 256)%nat -> (b < 256)%nat ->
  isPrivateIP (dotted a b rest) = inPrivateBlock a b.
Proof.
  intros Ha Hb. pose proof (agreeOn_all rest) as H.
  rewrite List.forallb_forall in H. specialize (H _ (In_numerals a Ha)).
  rewrite List.forallb_forall in H. specialize (H _ (In_numerals b Hb)).
  apply Bool.eqb_prop. exact H.
Qed.

End PrivateAddresses.

Section PrivateOrders.

Import OrderService GeolocationService GeolocationSpec BranchSpec.

Variable calculateDistance : Q -> Q -> Q -> Q -> Q.
Variable parseFloat : string -> Q.
Variable env : Env.
Variable ipApi : string -> Result IpApiData.

Lemma locate_private (ip : string) :
  isPrivateIP ip = true -> noOverride env = true ->
  locate parseFloat env ipApi ip
  = Some {| BranchAssignmentService.latitude := 247136 # 10000;
            BranchAssignmentService.longitude := 466753 # 10000 |}.
Proof.
  intros Hp Hno. unfold locate, getLocationFromIP. rewrite Hp.
  unfold noOverride in Hno. apply negb_true_iff in Hno. rewrite Hno. reflexivity.
Qed.

Lemma scan_active (longitude latitude : Q) (l : list Branch) :
  match fst (fold_left (BranchAssignmentService.nearestStep calculateDistance longitude latitude)
                       l (None, None)) with
  | Some b => In b l
  | None => l = []
  end.
Proof.
  pose proof (scan_nearestOf calculateDistance longitude latitude l (None, None) []) as H.
  specialize (H (or_introl (conj eq_refl eq_refl))). cbn [app] in H.
  destruct H as [[-> Hl] | (b & -> & Hin & _)]; [exact Hl | exact Hin].
Qed.

(** X15: an order placed from a private address, with no location sent by
    the client and no development override in the environment, is located
    at the default position in Riyadh (longitude 46.6753, latitude
    24.7136) and given to an active branch of the store.  When the store
    has no active branch, the order gets neither a branch nor a location. *)
Theorem order_from_private_address (db : Db) (orderData : CreateOrderData) (ip : string) :
  clientLocation orderData = None ->
  customerIpAddress orderData = Some ip ->
  isPrivateIP ip = true ->
  noOverride env = true ->
  connected db = true ->
  (List.filter b_isActive (branchDocs db) = [] ->
   OrderService.assignBranch calculateDistance (locate parseFloat env ipApi) db orderData
   = (None, None))
  /\ (List.filter b_isActive (branchDocs db) <> [] ->
      exists b, In b (branchDocs db) /\ b_isActive b = true
                /\ OrderService.assignBranch calculateDistance (locate parseFloat env ipApi)
                     db orderData
                   = (Some (b_id b), Some (466753 # 10000, 247136 # 10000))).
Proof.
  intros Hloc Hip Hp Hno Hc.
  assert (Htruthy : truthyStr (customerIpAddress orderData) = true).
  { rewrite Hip. destruct ip; [discriminate Hp | reflexivity]. }
  unfold OrderService.assignBranch. rewrite Hloc, Htruthy, Hip.
  change (default "" (Some ip)) with ip.
  unfold BranchAssignmentService.findNearestBranchByIP.
  rewrite (locate_private ip Hp Hno).
  cbn [BranchAssignmentService.longitude BranchAssignmentService.latitude].
  rewrite byCoordinates_unfold, manual_unfold, Hc.
  set (lng := 466753 # 10000). set (lat := 247136 # 10000).
  pose proof (scan_active lng lat (List.filter b_isActive (branchDocs db))) as Hall.
  pose proof (scan_active lng lat
                (List.filter (fun b => Qle_bool (BranchAssignmentService.distanceTo
                                                   calculateDistance lng lat b * 1000)
                                                (100 ⊗ 1000))
                             (List.filter b_isActive (branchDocs db)))) as Hnear.
  split.
  - intros Hnone. rewrite Hnone in *. reflexivity.
  - intros Hsome.
    destruct (fst (fold_left _ (List.filter (fun b => Qle_bool _ _) _) (None, None)))
      as [b|] eqn:E1.
    + exists b. apply List.filter_In in Hnear. destruct Hnear as [Hnear _].
      apply List.filter_In in Hnear. destruct Hnear as [Hin Hact].
      split; [assumption|]. split; [assumption | reflexivity].
    + destruct (fst (fold_left _ (List.filter b_isActive (branchDocs db)) (None, None)))
        as [b|] eqn:E2; [|contradiction].
      exists b. apply List.filter_In in Hall. destruct Hall as [Hin Hact].
      split; [assumption|]. split; [assumption | reflexivity].
Qed.

End PrivateOrders.


Section AddressBookFacts.

Import AddressService AddressBook AddressSpec ProductPricing.

Variable describe : Failure -> string.

Lemma save_everyBook (P : list SavedAddress -> Prop) (db : Db) (customer : Customer) :
  everyBook P db -> P (savedAddresses customer) -> everyBook P (snd (save db customer)).
Proof.
  intros Hall Hc. unfold save.
  destruct (forallb requiredPresent (savedAddresses customer)); [|exact Hall].
  cbn [snd]. unfold everyBook, withCustomers. cbn [customers].
  unfold everyBook in Hall. induction Hall as [|c l Hc' _ IH]; [constructor|].
  cbn [map]. constructor; [|exact IH].
  destruct (String.eqb (c_id c) (c_id customer)); assumption.
Qed.

Lemma rethrow_snd {A} (prefix : string) (db : Db) (body : Result A * Db) :
  snd (rethrow describe prefix db body) = snd body \/ snd (rethrow describe prefix db body) = db.
Proof. destruct body as [[a|e] db']; [left | right]; reflexivity. Qed.

Lemma everyBook_found (P : list SavedAddress -> Prop) (db : Db) (customerId : string)
    (customer : Customer) :
  everyBook P db -> findById db customers c_id customerId = Ok (Some customer) ->
  P (savedAddresses customer).
Proof.
  intros Hall Hfound. apply findById_Some in Hfound. destruct Hfound as (_ & _ & Hin & _).
  unfold everyBook in Hall. rewrite List.Forall_forall in Hall. now apply Hall.
Qed.

Lemma fold_uniqueStep (l : list SavedAddress) :
  forall acc seen,
    fst (fold_left uniqueStep l (acc, seen)) = acc ++ firstOfEachKey seen l.
Proof.
  induction l as [|addr l IH]; intros acc seen; cbn [fold_left firstOfEachKey].
  - cbn [fst]. now rewrite app_nil_r.
  - unfold uniqueStep at 2. destruct (decide (addressKey addr ∈ seen)).
    + apply IH.
    + rewrite IH. now rewrite <- app_assoc.
Qed.

(** What a request does to the store: nothing, or it saves the customer it
    found with another list of addresses. *)
Lemma perform_cases (db : Db) (customerId : string) (r : Request) :
  perform describe db (customerId, r) = db
  \/ exists customer,
       findById db customers c_id customerId = Ok (Some customer)
       /\ perform describe db (customerId, r)
          = snd (save db (withAddresses customer
                  match r with
                  | SaveAddress addressData newId =>
                      othersAfter addressData (savedAddresses customer)
                      ++ [storedAddress addressData newId]
                  | DeleteAddress addressId =>
                      List.filter (fun addr => negb (String.eqb (sa_id addr) addressId))
                                  (savedAddresses customer)
                  | SetDefaultAddress addressId =>
                      default []
                        (markDefault addressId
                           (map (fun addr => withDefault addr false) (savedAddresses customer)))
                  | RemoveDuplicateAddresses => firstOfEachKey ∅ (savedAddresses customer)
                  end))
       /\ match r with
          | SaveAddress addressData _ =>
              existsb (duplicateOf addressData) (savedAddresses customer) = false
          | SetDefaultAddress addressId =>
              markDefault addressId
                (map (fun addr => withDefault addr false) (savedAddresses customer)) <> None
          | _ => True
          end.
Proof.
  destruct r as [addressData newId | addressId | addressId |]; cbn [perform].
  - unfold saveAddress.
    destruct (findById db customers c_id customerId) as [[customer|]|e]; [|now left..].
    destruct (existsb (duplicateOf addressData) (savedAddresses customer)) eqn:Hdup;
      [now left|].
    right. exists customer. split; [reflexivity|]. split; [|exact Hdup].
    fold (othersAfter addressData (savedAddresses customer)).
    fold (storedAddress addressData newId).
    unfold save.
    destruct (forallb requiredPresent _); reflexivity.
  - unfold deleteAddress.
    destruct (findById db customers c_id customerId) as [[customer|]|e]; [|now left..].
    right. exists customer. split; [reflexivity|]. split; [|exact I].
    unfold save. destruct (forallb requiredPresent _); reflexivity.
  - unfold setDefaultAddress.
    destruct (findById db customers c_id customerId) as [[customer|]|e]; [|now left..].
    destruct (markDefault addressId _) as [marked|] eqn:Hm; [|now left].
    right. exists customer. split; [reflexivity|]. split; [|now rewrite Hm].
    rewrite Hm. cbn [default]. unfold save. destruct (forallb requiredPresent _); reflexivity.
  - unfold removeDuplicateAddresses.
    destruct (findById db customers c_id customerId) as [[customer|]|e]; [|now left..].
    right. exists customer. split; [reflexivity|]. split; [|exact I].
    rewrite fold_uniqueStep. reflexivity.
Qed.

(** The list a request saves has a property that the list it found has,
    for a property kept by the four changes. *)
Lemma perform_everyBook (P : list SavedAddress -> Prop) :
  (forall l addressData newId,
      P l -> existsb (duplicateOf addressData) l = false ->
      P (othersAfter addressData l ++ [storedAddress addressData newId])) ->
  (forall l addressId,
      P l -> P (List.filter (fun addr => negb (String.eqb (sa_id addr) addressId)) l)) ->
  (forall l addressId marked,
      P l -> markDefault addressId (map (fun addr => withDefault addr false) l) = Some marked ->
      P marked) ->
  (forall l, P l -> P (firstOfEachKey ∅ l)) ->
  forall (requests : list (string * Request)) (db : Db),
    everyBook P db -> everyBook P (fold_left (perform describe) requests db).
Proof.
  intros Hsave Hdelete Hdefault Hunique requests.
  induction requests as [|[customerId r] requests IH]; intros db Hdb; [exact Hdb|].
  cbn [fold_left]. apply IH.
  destruct (perform_cases db customerId r) as [-> | (customer & Hfound & -> & Hr)];
    [exact Hdb|].
  apply save_everyBook; [exact Hdb|]. cbn [withAddresses savedAddresses].
  pose proof (everyBook_found P db customerId customer Hdb Hfound) as Hc.
  destruct r as [addressData newId | addressId | addressId |].
  - now apply Hsave.
  - now apply Hdelete.
  - destruct (markDefault addressId _) as [marked|] eqn:Hm; [|contradiction].
    cbn [default]. exact (Hdefault _ addressId marked Hc Hm).
  - now apply Hunique.
Qed.

Lemma filter_sublist {A} (f : A -> bool) (l : list A) : sublist (List.filter f l) l.
Proof.
  induction l as [|x l IH]; cbn [List.filter]; [constructor|].
  destruct (f x); now constructor.
Qed.

Lemma firstOfEachKey_sublist (l : list SavedAddress) :
  forall seen, sublist (firstOfEachKey seen l) l.
Proof.
  induction l as [|addr l IH]; intros seen; cbn [firstOfEachKey]; [constructor|].
  destruct (decide (addressKey addr ∈ seen)); constructor; apply IH.
Qed.

Lemma sublist_defaults (k l : list SavedAddress) :
  sublist k l ->
  (List.length (List.filter isDefault k) <= List.length (List.filter isDefault l))%nat.
Proof.
  induction 1 as [|x k l _ IH|x k l _ IH]; cbn [List.filter].
  - lia.
  - destruct (isDefault x); cbn [List.length]; lia.
  - destruct (isDefault x); cbn [List.length]; lia.
Qed.

Lemma unset_no_default (l : list SavedAddress) :
  List.filter isDefault (map (fun addr => withDefault addr false) l) = [].
Proof. induction l as [|a l IH]; [reflexivity | exact IH]. Qed.

Lemma markDefault_one (addressId : string) (l : list SavedAddress) :
  forall marked,
    markDefault addressId l = Some marked ->
    List.length (List.filter isDefault marked) = S (List.length (List.filter isDefault l))
    \/ List.length (List.filter isDefault marked) = List.length (List.filter isDefault l).
Proof.
  induction l as [|a l IH]; intros marked H; [discriminate|].
  cbn [markDefault] in H. destruct (String.eqb (sa_id a) addressId).
  - injection H as <-. cbn [List.filter withDefault isDefault].
    destruct (isDefault a); cbn [List.length]; auto.
  - destruct (markDefault addressId l) as [m|]; [|discriminate].
    injection H as <-. cbn [List.filter].
    destruct (IH m eq_refl) as [E | E]; destruct (isDefault a); cbn [List.length];
      rewrite E; auto.
Qed.

(** X16: the address book keeps at most one default address.  Whatever
    requests are made, in any order and for any customers, answered or
    refused: saving an address, deleting one, choosing the default one,
    removing the duplicates. *)
Theorem one_default_address_is_kept (requests : list (string * Request)) (db : Db) :
  everyBook oneDefault db ->
  everyBook oneDefault (fold_left (perform describe) requests db).
Proof.
  apply perform_everyBook; unfold oneDefault.
  - intros l addressData newId Hl _. unfold othersAfter, storedAddress.
    rewrite List.filter_app. cbn [List.filter isDefault].
    destruct (default false (ad_isDefault addressData)).
    + rewrite unset_no_default. cbn. lia.
    + rewrite app_nil_r. exact Hl.
  - intros l addressId Hl.
    pose proof (sublist_defaults _ _
                  (filter_sublist (fun addr => negb (String.eqb (sa_id addr) addressId)) l)).
    lia.
  - intros l addressId marked _ Hm. apply markDefault_one in Hm.
    rewrite unset_no_default in Hm. cbn [List.length] in Hm. lia.
  - intros l Hl. pose proof (sublist_defaults _ _ (firstOfEachKey_sublist l ∅)). lia.
Qed.

End AddressBookFacts.

Section AddressBookAnswers.

Import AddressService AddressBook AddressSpec ProductPricing.

Variable describe : Failure -> string.

Lemma save_found (db : Db) (customerId : string) (customer saved : Customer) :
  findById db customers c_id customerId = Ok (Some customer) ->
  c_id saved = c_id customer ->
  validBook (savedAddresses saved) ->
  exists db', save db saved = (Ok tt, db')
              /\ findById db' customers c_id customerId = Ok (Some saved)
              /\ connected db' = true.
Proof.
  intros Hfound Hid Hvalid. unfold save. rewrite Hvalid. eexists. split; [reflexivity|].
  pose proof (findById_Some _ _ _ _ _ Hfound) as (Hv & Hc & _ & Hhex).
  revert Hfound. unfold findById, findOne. rewrite Hv.
  cbn [withCustomers connected customers]. rewrite Hc. intros [= Hfind].
  split; [|reflexivity]. f_equal. rewrite Hid, Hhex.
  induction (customers db) as [|x l IH]; [discriminate|].
  cbn [List.find map] in *.
  destruct (String.eqb (c_id x) (toHexString customerId)) eqn:E.
  - now rewrite Hid, Hhex, String.eqb_refl.
  - rewrite E. now apply IH.
Qed.

Lemma getCustomerAddresses_found (db : Db) (customerId : string) (customer : Customer) :
  findById db customers c_id customerId = Ok (Some customer) ->
  getCustomerAddresses describe db customerId = Ok (savedAddresses customer).
Proof. intros H. unfold getCustomerAddresses. now rewrite H. Qed.

Lemma isDuplicate_key (a b : SavedAddress) :
  isDuplicate (sa_fields a) b = true -> addressKey a = addressKey b.
Proof.
  unfold isDuplicate, addressKey. rewrite !andb_true_iff.
  intros ((((((((H1 & H2) & H3) & H4) & H5) & H6) & H7) & H8) & H9).
  apply String.eqb_eq in H1, H2, H3, H4, H5, H6, H8, H9. apply Bool.eqb_prop in H7.
  now rewrite H1, H2, H3, H4, H5, H6, H7, H8, H9.
Qed.

Lemma isDuplicate_same (fields : ShippingAddress) (a : SavedAddress) :
  sa_fields a = fields -> isDuplicate fields a = true.
Proof.
  intros <-. unfold isDuplicate. rewrite !String.eqb_refl.
  now destruct (vatRegistered (sa_fields a)).
Qed.

Lemma firstOfEachKey_keys (l : list SavedAddress) :
  forall seen,
    Forall (fun a => addressKey a ∉ seen) (firstOfEachKey seen l)
    /\ List.NoDup (map addressKey (firstOfEachKey seen l))
    /\ Forall (fun a => addressKey a ∈ seen
                        \/ exists b, In b (firstOfEachKey seen l)
                                     /\ addressKey b = addressKey a) l.
Proof.
  induction l as [|addr l IH]; intros seen; cbn [firstOfEachKey].
  - repeat split; constructor.
  - destruct (decide (addressKey addr ∈ seen)) as [Hin | Hout].
    + destruct (IH seen) as (Hnew & Hnodup & Hcover).
      split; [assumption|]. split; [assumption|]. constructor; [now left | assumption].
    + destruct (IH ({[ addressKey addr ]} ∪ seen)) as (Hnew & Hnodup & Hcover).
      split; [|split].
      * constructor; [assumption|]. revert Hnew. apply List.Forall_impl.
        intros a Ha Hin. apply Ha. apply elem_of_union. now right.
      * cbn [map]. apply List.NoDup_cons_iff. split; [|assumption].
        intros Hk. apply List.in_map_iff in Hk. destruct Hk as (b & Hkey & Hb).
        rewrite List.Forall_forall in Hnew.
        apply (Hnew b Hb). apply elem_of_union. left. now apply elem_of_singleton.
      * constructor.
        -- right. exists addr. split; [now left | reflexivity].
        -- revert Hcover. apply List.Forall_impl. intros a [Ha | (b & Hb & Hkey)].
           ++ apply elem_of_union in Ha. destruct Ha as [Ha | Ha]; [|now left].
              apply elem_of_singleton in Ha. right. exists addr.
              split; [now left | now symmetry].
           ++ right. exists b. split; [now right | assumption].
Qed.

Lemma NoDup_keys_noDuplicates (l : list SavedAddress) :
  List.NoDup (map addressKey l) -> noDuplicates l.
Proof.
  unfold noDuplicates. induction l as [|a l IH]; intros Hl; [constructor|].
  cbn [map] in Hl. apply List.NoDup_cons_iff in Hl. destruct Hl as [Ha Hl].
  constructor; [now apply IH|]. apply List.Forall_forall. intros b Hb.
  unfold distinct. destruct (isDuplicate (sa_fields a) b) eqn:E; [|reflexivity].
  exfalso. apply Ha. apply isDuplicate_key in E. rewrite E.
  apply List.in_map_iff. exists b. split; [reflexivity | assumption].
Qed.

Lemma sublist_validBook (k l : list SavedAddress) :
  sublist k l -> validBook l -> validBook k.
Proof.
  unfold validBook. intros Hs Hl. rewrite List.forallb_forall in Hl |- *.
  intros a Ha. apply Hl. eapply sublist_In; eassumption.
Qed.

(** X18: [removeDuplicateAddresses] leaves the first address of each key.
    For a customer whose addresses pass the validators, the listing
    afterwards is a selection of the addresses in their order, it begins
    with the same address, its keys are pairwise distinct, every key of
    before is still there, and no address of it is a duplicate of another
    by the test of [saveAddress]. *)
Theorem removeDuplicateAddresses_keeps_first_of_each_key (db : Db) (customerId : string)
    (customer : Customer) :
  findById db customers c_id customerId = Ok (Some customer) ->
  validBook (savedAddresses customer) ->
  exists db' kept,
    removeDuplicateAddresses db customerId = (Ok tt, db')
    /\ getCustomerAddresses describe db' customerId = Ok kept
    /\ sublist kept (savedAddresses customer)
    /\ hd_error kept = hd_error (savedAddresses customer)
    /\ List.NoDup (map addressKey kept)
    /\ (forall a, In a (savedAddresses customer) ->
                  exists b, In b kept /\ addressKey b = addressKey a)
    /\ noDuplicates kept.
Proof.
  intros Hfound Hvalid.
  pose proof (firstOfEachKey_sublist (savedAddresses customer) ∅) as Hsub.
  destruct (save_found db customerId customer
              (withAddresses customer (firstOfEachKey ∅ (savedAddresses customer)))
              Hfound eq_refl (sublist_validBook _ _ Hsub Hvalid)) as (db' & Hsave & Hafter & _).
  exists db', (firstOfEachKey ∅ (savedAddresses customer)).
  destruct (firstOfEachKey_keys (savedAddresses customer) ∅) as (_ & Hnodup & Hcover).
  split; [|split; [|split; [|split; [|split; [|split]]]]].
  - unfold removeDuplicateAddresses. rewrite Hfound, fold_uniqueStep. exact Hsave.
  - now rewrite (getCustomerAddresses_found _ _ _ Hafter).
  - exact Hsub.
  - destruct (savedAddresses customer) as [|a l]; [reflexivity|].
    cbn [firstOfEachKey]. destruct (decide (addressKey a ∈ ∅)) as [Hin|]; [|reflexivity].
    set_solver.
  - exact Hnodup.
  - intros a Ha. rewrite List.Forall_forall in Hcover.
    destruct (Hcover a Ha) as [Hin | Hb]; [set_solver | exact Hb].
  - now apply NoDup_keys_noDuplicates.
Qed.

(** X19: [saveAddress] and the listing.  A new address that passes the
    validators and is no duplicate is stored after the addresses of the
    customer, with the label ["Address"] when none is given and
    [vatRegistered] false when the body has none; the other addresses stop
    being the default when the new one is.  Saving the same strings again
    with the [vatRegistered] that was stored, under any label or flag, is
    refused and changes nothing; a body without [vatRegistered] is never
    taken for a duplicate, and the address is stored once more. *)
Theorem saveAddress_then_listing (db : Db) (customerId : string) (customer : Customer)
    (addressData : AddressData) (newId : string) :
  findById db customers c_id customerId = Ok (Some customer) ->
  validBook (savedAddresses customer) ->
  requiredPresent (storedAddress addressData newId) = true ->
  existsb (duplicateOf addressData) (savedAddresses customer) = false ->
  exists db',
    saveAddress describe db customerId addressData newId = (Ok (newId, addressData), db')
    /\ getCustomerAddresses describe db' customerId
       = Ok (othersAfter addressData (savedAddresses customer)
             ++ [storedAddress addressData newId])
    /\ (forall again otherId,
         ad_fields again = ad_fields addressData ->
         ad_vatRegistered again = Some (default false (ad_vatRegistered addressData)) ->
         saveAddress describe db' customerId again otherId
         = (Throw (JsError "Failed to save address: Error: This address already exists"), db'))
    /\ (forall again otherId,
         ad_fields again = ad_fields addressData ->
         ad_vatRegistered again = None ->
         exists db'',
           saveAddress describe db' customerId again otherId = (Ok (otherId, again), db'')
           /\ getCustomerAddresses describe db'' customerId
              = Ok (othersAfter again
                      (othersAfter addressData (savedAddresses customer)
                       ++ [storedAddress addressData newId])
                    ++ [storedAddress again otherId])).
Proof.
  intros Hfound Hvalid Hnew Hdup.
  assert (Hothers : forall data l, validBook l -> validBook (othersAfter data l)).
  { intros data l Hl. unfold othersAfter.
    destruct (default false (ad_isDefault data)); [|exact Hl].
    unfold validBook in *. rewrite List.forallb_forall in Hl |- *.
    intros a Ha. apply List.in_map_iff in Ha. destruct Ha as (a0 & <- & Ha0).
    exact (Hl a0 Ha0). }
  assert (Hsnoc : forall l a, validBook l -> requiredPresent a = true -> validBook (l ++ [a])).
  { intros l a Hl Ha. unfold validBook in *. rewrite List.forallb_app. cbn [forallb].
    now rewrite Hl, Ha. }
  assert (Hbook : validBook (othersAfter addressData (savedAddresses customer)
                             ++ [storedAddress addressData newId])).
  { apply Hsnoc; [now apply Hothers | exact Hnew]. }
  destruct (save_found db customerId customer
              (withAddresses customer (othersAfter addressData (savedAddresses customer)
                                       ++ [storedAddress addressData newId]))
              Hfound eq_refl Hbook) as (db' & Hsave & Hafter & _).
  exists db'. split; [|split; [|split]].
  - unfold saveAddress. rewrite Hfound, Hdup.
    fold (othersAfter addressData (savedAddresses customer)).
    fold (storedAddress addressData newId). now rewrite Hsave.
  - now rewrite (getCustomerAddresses_found _ _ _ Hafter).
  - intros again otherId Hsame Hvat. unfold saveAddress. rewrite Hafter.
    cbn [withAddresses savedAddresses]. rewrite List.existsb_app. cbn [existsb].
    unfold duplicateOf at 2. rewrite Hvat.
    rewrite (isDuplicate_same (castFields again) (storedAddress addressData newId)).
    + rewrite orb_true_r. reflexivity.
    + cbn [storedAddress sa_fields]. unfold castFields. now rewrite Hsame, Hvat.
  - intros again otherId Hsame Hvat.
    set (book := othersAfter addressData (savedAddresses customer)
                 ++ [storedAddress addressData newId]) in *.
    assert (Hagain : requiredPresent (storedAddress again otherId) = true).
    { revert Hnew. unfold requiredPresent, storedAddress, castFields. cbn. now rewrite Hsame. }
    assert (Hbook' : validBook (othersAfter again book ++ [storedAddress again otherId])).
    { apply Hsnoc; [now apply Hothers | exact Hagain]. }
    assert (Hc : c_id (withAddresses customer book) = c_id customer) by reflexivity.
    destruct (save_found db' customerId (withAddresses customer book)
                (withAddresses (withAddresses customer book)
                   (othersAfter again book ++ [storedAddress again otherId]))
                Hafter eq_refl Hbook') as (db'' & Hsave' & Hafter' & _).
    exists db''. split.
    + unfold saveAddress. rewrite Hafter.
      assert (Hno : existsb (duplicateOf again) (savedAddresses (withAddresses customer book))
                    = false).
      { apply Bool.not_true_is_false. intros H. apply List.existsb_exists in H.
        destruct H as (a & _ & Ha). unfold duplicateOf in Ha. now rewrite Hvat in Ha. }
      rewrite Hno.
      fold (othersAfter again (savedAddresses (withAddresses customer book))).
      fold (storedAddress again otherId).
      cbn [withAddresses savedAddresses] in *. now rewrite Hsave'.
    + now rewrite (getCustomerAddresses_found _ _ _ Hafter').
Qed.

Lemma filter_other_ids (addressId : string) (l : list SavedAddress) :
  (forall a, In a l -> sa_id a <> addressId) ->
  List.filter (fun addr => negb (String.eqb (sa_id addr) addressId)) l = l.
Proof.
  induction l as [|a l IH]; intros Hnone; [reflexivity|].
  cbn [List.filter]. destruct (String.eqb (sa_id a) addressId) eqn:E.
  - apply String.eqb_eq in E. exfalso. exact (Hnone a (or_introl eq_refl) E).
  - cbn [negb]. f_equal. apply IH. intros b Hb. apply Hnone. now right.
Qed.

(** X20: [deleteAddress] and the listing.  For a customer whose addresses
    pass the validators the request succeeds, and the listing afterwards
    is the addresses of before without those of the given id, in their
    order.  An id that no address has is no error: the request succeeds
    and the listing is as before. *)
Theorem deleteAddress_then_listing (db : Db) (customerId addressId : string)
    (customer : Customer) :
  findById db customers c_id customerId = Ok (Some customer) ->
  validBook (savedAddresses customer) ->
  exists db',
    deleteAddress describe db customerId addressId = (Ok tt, db')
    /\ getCustomerAddresses describe db' customerId
       = Ok (List.filter (fun addr => negb (String.eqb (sa_id addr) addressId))
                         (savedAddresses customer))
    /\ ((forall a, In a (savedAddresses customer) -> sa_id a <> addressId) ->
        getCustomerAddresses describe db' customerId
        = getCustomerAddresses describe db customerId).
Proof.
  intros Hfound Hvalid.
  pose proof (filter_sublist (fun addr => negb (String.eqb (sa_id addr) addressId))
                             (savedAddresses customer)) as Hsub.
  destruct (save_found db customerId customer
              (withAddresses customer
                 (List.filter (fun addr => negb (String.eqb (sa_id addr) addressId))
                              (savedAddresses customer)))
              Hfound eq_refl (sublist_validBook _ _ Hsub Hvalid)) as (db' & Hsave & Hafter & _).
  exists db'. split; [|split].
  - unfold deleteAddress. rewrite Hfound. now rewrite Hsave.
  - now rewrite (getCustomerAddresses_found _ _ _ Hafter).
  - intros Hnone. rewrite (getCustomerAddresses_found _ _ _ Hafter),
      (getCustomerAddresses_found _ _ _ Hfound).
    cbn [withAddresses savedAddresses]. f_equal. now apply filter_other_ids.
Qed.

Lemma validBook_fields (k l : list SavedAddress) :
  map sa_fields k = map sa_fields l -> validBook l -> validBook k.
Proof.
  unfold validBook. revert k. induction l as [|a l IH]; intros [|b k] Heq Hl;
    try discriminate; [reflexivity|].
  cbn [map] in Heq. injection Heq as Hb Hk. cbn [forallb] in *.
  apply andb_true_iff in Hl. destruct Hl as [Ha Hl].
  rewrite (IH k Hk Hl), andb_true_r. unfold requiredPresent in *. now rewrite Hb.
Qed.

Lemma markDefault_found (addressId : string) (l : list SavedAddress) :
  match List.find (fun x => String.eqb (sa_id x) addressId) l with
  | None => markDefault addressId (map (fun addr => withDefault addr false) l) = None
  | Some a =>
      exists marked,
        markDefault addressId (map (fun addr => withDefault addr false) l) = Some marked
        /\ List.filter isDefault marked = [withDefault a true]
        /\ map sa_id marked = map sa_id l
        /\ map sa_fields marked = map sa_fields l
        /\ map addressLabel marked = map addressLabel l
  end.
Proof.
  induction l as [|x l IH]; [reflexivity|].
  cbn [List.find map markDefault withDefault sa_id].
  destruct (String.eqb (sa_id x) addressId).
  - eexists. split; [reflexivity|]. cbn [List.filter isDefault withDefault map].
    rewrite unset_no_default, !map_map. cbn [withDefault sa_id sa_fields addressLabel].
    repeat split; reflexivity.
  - destruct (List.find _ l) as [a|].
    + destruct IH as (marked & -> & Hd & Hi & Hf & Hl). eexists. split; [reflexivity|].
      cbn [List.filter isDefault map sa_id sa_fields addressLabel].
      rewrite Hd, Hi, Hf, Hl. repeat split; reflexivity.
    + now rewrite IH.
Qed.

(** X21: [setDefaultAddress] and the listing.  For a customer whose
    addresses pass the validators: with an id that no address has, the
    request is refused and nothing is written, the flags stay as they were;
    otherwise the first address of that id becomes the only default one,
    and the ids, fields and labels of the listing are those of before. *)
Theorem setDefaultAddress_then_listing (db : Db) (customerId addressId : string)
    (customer : Customer) :
  findById db customers c_id customerId = Ok (Some customer) ->
  validBook (savedAddresses customer) ->
  match List.find (fun x => String.eqb (sa_id x) addressId) (savedAddresses customer) with
  | None =>
      setDefaultAddress describe db customerId addressId
      = (Throw (JsError "Failed to set default address: Error: Address not found"), db)
  | Some a =>
      exists db' listing,
        setDefaultAddress describe db customerId addressId = (Ok tt, db')
        /\ getCustomerAddresses describe db' customerId = Ok listing
        /\ List.filter isDefault listing = [withDefault a true]
        /\ map sa_id listing = map sa_id (savedAddresses customer)
        /\ map sa_fields listing = map sa_fields (savedAddresses customer)
        /\ map addressLabel listing = map addressLabel (savedAddresses customer)
  end.
Proof.
  intros Hfound Hvalid.
  pose proof (markDefault_found addressId (savedAddresses customer)) as Hm.
  destruct (List.find _ (savedAddresses customer)) as [a|].
  - destruct Hm as (marked & Hm & Hd & Hi & Hf & Hl).
    destruct (save_found db customerId customer (withAddresses customer marked)
                Hfound eq_refl (validBook_fields _ _ Hf Hvalid)) as (db' & Hsave & Hafter & _).
    exists db', marked. split; [|split; [|auto]].
    + unfold setDefaultAddress. rewrite Hfound, Hm. now rewrite Hsave.
    + now rewrite (getCustomerAddresses_found _ _ _ Hafter).
  - unfold setDefaultAddress. rewrite Hfound, Hm. reflexivity.
Qed.

End AddressBookAnswers.


Section OrderStatusFacts.

Import OrderLifecycle OrderSpec ProductPricing.

Variable trim : string -> string.

Lemma OrderStatus_eqb_eq (a b : OrderStatus) : OrderStatus_eqb a b = true <-> a = b.
Proof. destruct a, b; split; intros H; try reflexivity; discriminate. Qed.

Lemma findOrder_Some (st : OrderStore) (orderId : string) (d : OrderDoc) :
  findOrder st orderId = Ok (Some d) ->
  isValidObjectId orderId = true /\ reachable st = true
  /\ List.find (fun x => String.eqb (docId x) (toHexString orderId)) (orderDocs st) = Some d
  /\ In d (orderDocs st) /\ docId d = toHexString orderId.
Proof.
  unfold findOrder. destruct (isValidObjectId orderId); [|discriminate].
  destruct (reachable st); [|discriminate]. intros [= H].
  pose proof (List.find_some _ _ H) as [Hin Heq]. apply String.eqb_eq in Heq. auto.
Qed.

Lemma find_replaced (id : string) (d' : OrderDoc) (l : list OrderDoc) (d : OrderDoc) :
  List.find (fun x => String.eqb (docId x) id) l = Some d ->
  docId d' = id ->
  List.find (fun x => String.eqb (docId x) id)
            (map (fun x => if String.eqb (docId x) id then d' else x) l) = Some d'.
Proof.
  intros Hfind Hid. induction l as [|x l IH]; [discriminate|].
  cbn [List.find map] in *. destruct (String.eqb (docId x) id) eqn:E.
  - now rewrite Hid, String.eqb_refl.
  - rewrite E. now apply IH.
Qed.

Lemma docId_applyUpdate (d : OrderDoc) (updateData : UpdateOrderStatusData)
    (newDeliveredAt : option Z) :
  docId (applyUpdate trim d updateData newDeliveredAt) = docId d.
Proof. unfold docId, applyUpdate. cbn [fields]. now destruct (u_notes updateData). Qed.

(** An update of an order that is there, with a status of the schema or
    none: the document is written and read back. *)
Lemma updateOrderStatus_found (st : OrderStore) (now : Z) (orderId : string)
    (updateData : UpdateOrderStatusData) (d : OrderDoc) :
  findOrder st orderId = Ok (Some d) ->
  match u_status updateData with Some s => inSchemaEnum s = true | None => True end ->
  let d' := applyUpdate trim d updateData
              match u_status updateData with Some delivered => Some now | _ => None end in
  exists st',
    updateOrderStatus trim st now orderId updateData = (Ok (Some d'), st')
    /\ findOrder st' orderId = Ok (Some d')
    /\ orderDocs st'
       = map (fun x => if String.eqb (docId x) (toHexString orderId) then d' else x)
             (orderDocs st).
Proof.
  intros Hfound Henum d'. apply findOrder_Some in Hfound.
  destruct Hfound as (Hv & Hr & Hfind & _ & Hid).
  assert (Hs : match u_status updateData with
               | Some s => negb (inSchemaEnum s)
               | None => false
               end = false).
  { destruct (u_status updateData) as [s|]; [now rewrite Henum | reflexivity]. }
  assert (Hu : updateOrderStatus trim st now orderId updateData
               = (Ok (Some d'),
                  {| orderDocs := map (fun x => if String.eqb (docId x) (toHexString orderId)
                                                then d' else x) (orderDocs st);
                     reachable := reachable st |})).
  { unfold updateOrderStatus. rewrite Hv, Hs, Hr, Hfind. reflexivity. }
  eexists. split; [exact Hu|]. split; [|reflexivity].
  unfold findOrder. rewrite Hv. cbn [reachable orderDocs]. rewrite Hr. do 2 f_equal.
  apply (find_replaced _ _ _ d); [exact Hfind|].
  unfold d'. now rewrite docId_applyUpdate.
Qed.

(** X22: [reverseOrderStatus] takes an order one step back on the way
    pending, processing, shipped, delivered.  Of an order that is there it
    changes the status and nothing else (an order stepped back from
    delivered keeps its delivery date), and the order reads back so; a
    pending or a cancelled order, and an order whose status is not on the
    way, is refused and nothing is written. *)
Theorem reverseOrderStatus_steps_back (st : OrderStore) (now : Z) (orderId : string)
    (d : OrderDoc) :
  findOrder st orderId = Ok (Some d) ->
  match previous (status d) with
  | Some s =>
      exists st',
        reverseOrderStatus trim st now orderId = (Ok (Some (withStatus d s)), st')
        /\ findOrder st' orderId = Ok (Some (withStatus d s))
        /\ orderDocs st'
           = map (fun x => if String.eqb (docId x) (toHexString orderId)
                           then withStatus d s else x)
                 (orderDocs st)
  | None =>
      reverseOrderStatus trim st now orderId
      = (Throw (JsError ("Cannot reverse status from " +:+ statusName (status d))), st)
  end.
Proof.
  intros Hfound. unfold reverseOrderStatus. rewrite Hfound.
  destruct (status d) eqn:Hs; cbn [previous]; try reflexivity.
  - destruct (updateOrderStatus_found st now orderId (statusOnly (Some pending)) d Hfound
                eq_refl) as (st' & Hu & Hf & Hdocs).
    exists st'. exact (conj Hu (conj Hf Hdocs)).
  - destruct (updateOrderStatus_found st now orderId (statusOnly (Some processing)) d Hfound
                eq_refl) as (st' & Hu & Hf & Hdocs).
    exists st'. exact (conj Hu (conj Hf Hdocs)).
  - destruct (updateOrderStatus_found st now orderId (statusOnly (Some shipped)) d Hfound
                eq_refl) as (st' & Hu & Hf & Hdocs).
    exists st'. exact (conj Hu (conj Hf Hdocs)).
Qed.

Lemma cancellationNote_reads (reason : option string) :
  (if truthyStr reason then "Cancelled: " +:+ default "" reason else "Order cancelled")
  = cancellationNote reason.
Proof. destruct reason as [[|c r]|]; reflexivity. Qed.

Lemma cancel_found (st : OrderStore) (now : Z) (orderId : string) (reason : option string)
    (d : OrderDoc) :
  findOrder st orderId = Ok (Some d) ->
  if existsb (OrderStatus_eqb (status d)) [delivered; cancelled]
  then cancelOrder trim st now orderId reason
       = (Throw (JsError "Cannot cancel this order"), st)
  else exists st',
      cancelOrder trim st now orderId reason
      = (Ok (Some (cancelledWith (trim (cancellationNote reason)) d)), st')
      /\ findOrder st' orderId = Ok (Some (cancelledWith (trim (cancellationNote reason)) d))
      /\ orderDocs st'
         = map (fun x => if String.eqb (docId x) (toHexString orderId)
                         then cancelledWith (trim (cancellationNote reason)) d else x)
               (orderDocs st).
Proof.
  intros Hfound. unfold cancelOrder. rewrite Hfound.
  destruct (existsb (OrderStatus_eqb (status d)) [delivered; cancelled]); [reflexivity|].
  rewrite cancellationNote_reads.
  destruct (updateOrderStatus_found st now orderId
              {| u_status := Some cancelled; u_paymentStatus := None;
                 u_trackingNumber := None; u_estimatedDelivery := None;
                 u_notes := Some (cancellationNote reason) |} d Hfound eq_refl)
    as (st' & Hu & Hf & Hdocs).
  exists st'. exact (conj Hu (conj Hf Hdocs)).
Qed.

(** X23: [cancelOrder] cancels an order that is neither delivered nor
    cancelled: the status becomes cancelled, the notes become the trimmed
    note of the cancellation, nothing else changes, and the order reads
    back so.  A cancelled order stays cancelled: cancelling it again and
    stepping it back are both refused, and write nothing.  A delivered or a
    cancelled order is refused. *)
Theorem cancelOrder_is_final (st : OrderStore) (now : Z) (orderId : string)
    (reason : option string) (d : OrderDoc) :
  findOrder st orderId = Ok (Some d) ->
  if existsb (OrderStatus_eqb (status d)) [delivered; cancelled]
  then cancelOrder trim st now orderId reason
       = (Throw (JsError "Cannot cancel this order"), st)
  else exists st',
      cancelOrder trim st now orderId reason
      = (Ok (Some (cancelledWith (trim (cancellationNote reason)) d)), st')
      /\ findOrder st' orderId = Ok (Some (cancelledWith (trim (cancellationNote reason)) d))
      /\ (forall later again,
             cancelOrder trim st' later orderId again
             = (Throw (JsError "Cannot cancel this order"), st'))
      /\ (forall later,
             reverseOrderStatus trim st' later orderId
             = (Throw (JsError "Cannot reverse status from cancelled"), st')).
Proof.
  intros Hfound. pose proof (cancel_found st now orderId reason d Hfound) as H.
  destruct (existsb (OrderStatus_eqb (status d)) [delivered; cancelled]); [exact H|].
  destruct H as (st' & Hcancel & Hafter & _). exists st'.
  split; [exact Hcancel|]. split; [exact Hafter|]. split.
  - intros later again. unfold cancelOrder. rewrite Hafter. reflexivity.
  - intros later. unfold reverseOrderStatus. rewrite Hafter. reflexivity.
Qed.

(** X24: the refusal to cancel a delivered order does not hold against
    two requests.  A delivered order cannot be cancelled; stepped back to
    shipped it can, and the cancelled order still carries the date of its
    delivery. *)
Theorem delivered_order_is_cancelled_in_two_steps (st : OrderStore) (now later : Z)
    (orderId : string) (reason : option string) (d : OrderDoc) :
  findOrder st orderId = Ok (Some d) ->
  status d = delivered ->
  cancelOrder trim st now orderId reason = (Throw (JsError "Cannot cancel this order"), st)
  /\ exists st1 st2 final,
       reverseOrderStatus trim st now orderId = (Ok (Some (withStatus d shipped)), st1)
       /\ cancelOrder trim st1 later orderId reason = (Ok (Some final), st2)
       /\ findOrder st2 orderId = Ok (Some final)
       /\ status final = cancelled
       /\ deliveredAt final = deliveredAt d.
Proof.
  intros Hfound Hs. split.
  - pose proof (cancel_found st now orderId reason d Hfound) as H. now rewrite Hs in H.
  - destruct (updateOrderStatus_found st now orderId (statusOnly (Some shipped)) d Hfound
                eq_refl) as (st1 & Hu & Hf & _).
    pose proof (cancel_found st1 later orderId reason _ Hf) as H.
    cbn [applyUpdate statusOnly u_status status default existsb OrderStatus_eqb orb] in H.
    destruct H as (st2 & Hcancel & Hafter & _).
    exists st1, st2. eexists. split; [|split; [exact Hcancel | split; [exact Hafter|]]].
    + unfold reverseOrderStatus. rewrite Hfound, Hs. exact Hu.
    + split; reflexivity.
Qed.

Lemma updateOrderStatus_cases (st : OrderStore) (now : Z) (orderId : string)
    (updateData : UpdateOrderStatusData) :
  snd (updateOrderStatus trim st now orderId updateData) = st
  \/ exists d d',
       In d (orderDocs st)
       /\ status d' = default (status d) (u_status updateData)
       /\ match u_status updateData with Some s => inSchemaEnum s = true | None => True end
       /\ orderDocs (snd (updateOrderStatus trim st now orderId updateData))
          = map (fun x => if String.eqb (docId x) (toHexString orderId) then d' else x)
                (orderDocs st).
Proof.
  unfold updateOrderStatus.
  destruct (negb (isValidObjectId orderId)); [now left|].
  destruct (match u_status updateData with
            | Some s => negb (inSchemaEnum s)
            | None => false
            end) eqn:Hs; [now left|].
  destruct (negb (reachable st)); [now left|].
  destruct (List.find _ (orderDocs st)) as [d|] eqn:Hfind; [|now left].
  right. exists d. eexists. split; [apply List.find_some in Hfind; tauto|].
  split; [|split; [|reflexivity]].
  - reflexivity.
  - destruct (u_status updateData) as [s|]; [|exact I].
    now apply negb_false_iff in Hs.
Qed.

Lemma update_statusesInEnum (st : OrderStore) (now : Z) (orderId : string)
    (updateData : UpdateOrderStatusData) :
  statusesInEnum st ->
  statusesInEnum (snd (updateOrderStatus trim st now orderId updateData)).
Proof.
  intros Hst.
  destruct (updateOrderStatus_cases st now orderId updateData)
    as [-> | (d & d' & Hin & Hstatus & Henum & Hdocs)]; [exact Hst|].
  unfold statusesInEnum in *. rewrite Hdocs. apply List.Forall_map.
  rewrite List.Forall_forall in Hst |- *. intros x Hx.
  destruct (String.eqb (docId x) (toHexString orderId)); [|now apply Hst].
  rewrite Hstatus. destruct (u_status updateData) as [s|]; [exact Henum | now apply Hst].
Qed.

(** X25: no stored order gets a status that the schema does not list.
    When every stored status is one of pending, processing, shipped,
    delivered and cancelled, that is still so after any updates, steps
    back and cancellations, answered or refused: an update to confirmed
    or to on_the_way, which the type of the update allows, is refused by
    the validators. *)
Theorem statuses_stay_in_schema_enum (requests : list (Z * Request)) (st : OrderStore) :
  statusesInEnum st -> statusesInEnum (fold_left (perform trim) requests st).
Proof.
  revert st. induction requests as [|[now r] requests IH]; intros st Hst; [exact Hst|].
  cbn [fold_left]. apply IH. destruct r as [orderId updateData | orderId | orderId reason];
    cbn [perform].
  - now apply update_statusesInEnum.
  - unfold reverseOrderStatus. destruct (findOrder st orderId) as [[d|]|e]; try exact Hst.
    destruct ((indexOf (status d) statusProgression <=? 0)%Z
              || OrderStatus_eqb (status d) cancelled); [exact Hst|].
    now apply update_statusesInEnum.
  - unfold cancelOrder. destruct (findOrder st orderId) as [[d|]|e]; try exact Hst.
    destruct (existsb (OrderStatus_eqb (status d)) [delivered; cancelled]); [exact Hst|].
    now apply update_statusesInEnum.
Qed.

End OrderStatusFacts.

Section OrderStatistics.

Import OrderLifecycle OrderSpec.

Lemma countInto_valueOf (s s' : OrderStatus) (groups : list (OrderStatus * Z)) :
  valueOf s' (countInto s groups)
  = (valueOf s' groups + if OrderStatus_eqb s s' then 1 else 0)%Z.
Proof.
  unfold valueOf. induction groups as [|[s0 n] rest IH]; cbn [countInto List.find fst snd].
  - destruct (OrderStatus_eqb s s'); reflexivity.
  - destruct (OrderStatus_eqb s0 s) eqn:E0; cbn [List.find fst snd].
    + apply OrderStatus_eqb_eq in E0. subst s0.
      destruct (OrderStatus_eqb s s'); [reflexivity | lia].
    + destruct (OrderStatus_eqb s0 s') eqn:E1; [|exact IH].
      apply OrderStatus_eqb_eq in E1. subst s0.
      destruct (OrderStatus_eqb s s') eqn:E2; [|lia].
      apply OrderStatus_eqb_eq in E2. subst s'. destruct s; discriminate.
Qed.

Lemma countInto_sum (s : OrderStatus) (groups : list (OrderStatus * Z)) :
  forall acc,
    fold_left (fun sum stat => (sum + snd stat)%Z) (countInto s groups) acc
    = (fold_left (fun sum stat => (sum + snd stat)%Z) groups acc + 1)%Z.
Proof.
  induction groups as [|[s0 n] rest IH]; intros acc; cbn [countInto fold_left snd].
  - reflexivity.
  - destruct (OrderStatus_eqb s0 s); cbn [fold_left snd].
    + assert (Hshift : forall (l : list (OrderStatus * Z)) a,
                 fold_left (fun sum stat => (sum + snd stat)%Z) l (a + 1)%Z
                 = (fold_left (fun sum stat => (sum + snd stat)%Z) l a + 1)%Z).
      { induction l as [|x l IHl]; intros a; cbn [fold_left]; [reflexivity|].
        rewrite <- IHl. f_equal. lia. }
      rewrite <- Hshift. f_equal. lia.
    + apply IH.
Qed.

Lemma countInto_keys (s : OrderStatus) (groups : list (OrderStatus * Z)) :
  List.NoDup (map fst groups) ->
  List.NoDup (map fst (countInto s groups))
  /\ forall k, In k (map fst (countInto s groups)) -> k = s \/ In k (map fst groups).
Proof.
  induction groups as [|[s0 n] rest IH]; intros Hnd; cbn [countInto map fst].
  - split; [repeat constructor; intros [] | intros k [<- | []]; now left].
  - cbn [map fst] in Hnd. apply List.NoDup_cons_iff in Hnd. destruct Hnd as [Hs0 Hrest].
    destruct (OrderStatus_eqb s0 s) eqn:E; cbn [map fst].
    + split; [now apply List.NoDup_cons_iff | intros k Hk; now right].
    + destruct (IH Hrest) as [Hnd Hkeys]. split.
      * apply List.NoDup_cons_iff. split; [|exact Hnd].
        intros Hin. destruct (Hkeys s0 Hin) as [-> | Hold]; [|contradiction].
        destruct s; discriminate E.
      * intros k [<- | Hk]; [right; now left|].
        destruct (Hkeys k Hk) as [-> | Hold]; [now left | right; now right].
Qed.

Lemma countOf_valueOf (s : OrderStatus) (groups : list (OrderStatus * Z)) :
  List.NoDup (map fst groups) -> countOf s groups = valueOf s groups.
Proof.
  unfold countOf, valueOf. generalize 0%Z as acc.
  induction groups as [|[s0 n] rest IH]; intros acc Hnd; cbn [fold_left List.find fst snd];
    [reflexivity|].
  cbn [map fst] in Hnd. apply List.NoDup_cons_iff in Hnd. destruct Hnd as [Hs0 Hrest].
  rewrite (IH _ Hrest). destruct (OrderStatus_eqb s0 s) eqn:E; [|reflexivity].
  apply OrderStatus_eqb_eq in E. subst s0.
  destruct (List.find _ rest) as [g|] eqn:Hfind; [|reflexivity].
  exfalso. apply Hs0. apply List.find_some in Hfind. destruct Hfind as [Hin Hg].
  apply OrderStatus_eqb_eq in Hg. rewrite <- Hg. now apply List.in_map.
Qed.

Lemma count_cons (s : OrderStatus) (d : OrderDoc) (docs : list OrderDoc) :
  count s (d :: docs) = ((if OrderStatus_eqb (status d) s then 1 else 0) + count s docs)%Z.
Proof.
  unfold count. cbn [List.filter]. destruct (OrderStatus_eqb (status d) s);
    cbn [List.length]; lia.
Qed.

Lemma groupByStatus_counts (docs : list OrderDoc) :
  forall groups,
    List.NoDup (map fst groups) ->
    List.NoDup (map fst (fold_left (fun g d => countInto (status d) g) docs groups))
    /\ (forall s, valueOf s (fold_left (fun g d => countInto (status d) g) docs groups)
                  = (valueOf s groups + count s docs)%Z)
    /\ fold_left (fun sum stat => (sum + snd stat)%Z)
                 (fold_left (fun g d => countInto (status d) g) docs groups) 0%Z
       = (fold_left (fun sum stat => (sum + snd stat)%Z) groups 0 + Z.of_nat (List.length docs))%Z.
Proof.
  induction docs as [|d docs IH]; intros groups Hnd; cbn [fold_left].
  - split; [exact Hnd|]. split; [intros s; unfold count; cbn; lia | cbn; lia].
  - destruct (IH (countInto (status d) groups) (proj1 (countInto_keys _ _ Hnd)))
      as (Hnd' & Hvalue & Hsum).
    split; [exact Hnd'|]. split.
    + intros s. rewrite Hvalue, countInto_valueOf, count_cons. lia.
    + rewrite Hsum, countInto_sum. cbn [List.length]. lia.
Qed.

Lemma count_partition (docs : list OrderDoc) :
  Z.of_nat (List.length docs)
  = (count pending docs + count processing docs + count shipped docs + count delivered docs
     + count cancelled docs + count confirmed docs + count on_the_way docs)%Z.
Proof.
  induction docs as [|d docs IH]; [reflexivity|].
  rewrite !count_cons. cbn [List.length]. destruct (status d); cbn [OrderStatus_eqb]; lia.
Qed.

Lemma count_outside_enum (s : OrderStatus) (docs : list OrderDoc) :
  inSchemaEnum s = false ->
  Forall (fun d => inSchemaEnum (status d) = true) docs -> count s docs = 0%Z.
Proof.
  intros Hs. induction 1 as [|d docs Hd _ IH]; [reflexivity|].
  rewrite count_cons, IH. destruct (OrderStatus_eqb (status d) s) eqn:E; [|reflexivity].
  apply OrderStatus_eqb_eq in E. congruence.
Qed.

Lemma fold_left_billed (l : list OrderDoc) :
  forall acc,
    fold_left (fun sum d => sum + ord_total (fields d)) l acc
    == acc + fold_right (fun d sum => sum + ord_total (fields d)) 0 l.
Proof.
  induction l as [|d l IH]; intros acc; cbn [fold_left fold_right]; [ring|].
  rewrite IH. ring.
Qed.

(** X26: the figures of [getOrderStats] add up.  [total] is the number of
    the stored orders, each of the five counts is the number of the orders
    of its status, and [totalRevenue] is the sum of the totals of the
    orders that are not cancelled.  When every stored status is one the
    schema lists, the five counts sum to [total]. *)
Theorem getOrderStats_adds_up (st : OrderStore) :
  reachable st = true ->
  exists stats,
    getOrderStats st = Ok stats
    /\ total stats = Z.of_nat (List.length (orderDocs st))
    /\ n_pending stats = count pending (orderDocs st)
    /\ n_processing stats = count processing (orderDocs st)
    /\ n_shipped stats = count shipped (orderDocs st)
    /\ n_delivered stats = count delivered (orderDocs st)
    /\ n_cancelled stats = count cancelled (orderDocs st)
    /\ totalRevenue stats == billedTotal (orderDocs st)
    /\ (statusesInEnum st ->
        total stats = (n_pending stats + n_processing stats + n_shipped stats
                       + n_delivered stats + n_cancelled stats)%Z).
Proof.
  intros Hr. unfold getOrderStats. rewrite Hr. eexists. split; [reflexivity|].
  cbn [total n_pending n_processing n_shipped n_delivered n_cancelled totalRevenue].
  destruct (groupByStatus_counts (orderDocs st) [] (List.NoDup_nil _))
    as (Hnd & Hvalue & Hsum).
  fold (groupByStatus (orderDocs st)) in Hnd, Hvalue, Hsum.
  assert (Hcount : forall s, countOf s (groupByStatus (orderDocs st)) = count s (orderDocs st)).
  { intros s. rewrite (countOf_valueOf _ _ Hnd), Hvalue. reflexivity. }
  rewrite !Hcount, Hsum. cbn [fold_left].
  repeat (split; [reflexivity|]). split.
  - unfold billedTotal.
    destruct (List.filter _ (orderDocs st)) as [|d l] eqn:Hbilled; [reflexivity|].
    pose proof (fold_left_billed (d :: l) 0) as Hsum'.
    set (r := fold_left _ (d :: l) 0) in *.
    destruct (Qeq_bool r 0) eqn:Hz.
    + apply Qeq_bool_iff in Hz. transitivity r; [now symmetry|].
      etransitivity; [exact Hsum' | ring].
    + etransitivity; [exact Hsum' | ring].
  - intros Henum. rewrite (count_partition (orderDocs st)).
    rewrite (count_outside_enum confirmed _ eq_refl Henum),
            (count_outside_enum on_the_way _ eq_refl Henum). lia.
Qed.

End OrderStatistics.

Section OrderPages.

Import OrderLifecycle OrderSpec ProductPricing.

Variable singleBatch : Z -> list OrderDoc -> list OrderDoc.

Lemma getCustomerOrders_page (st : OrderStore) (customerId : string) (page limit : Z)
    (statusFilter : option string) :
  isValidObjectId customerId = true -> reachable st = true ->
  (0 < limit)%Z -> (1 <= page)%Z ->
  getCustomerOrders singleBatch st customerId page limit statusFilter
  = Ok {| pg_orders :=
            take (Z.to_nat limit)
                 (drop (Z.to_nat ((page - 1) * limit))
                       (newestFirst (List.filter (listed customerId statusFilter)
                                                 (orderDocs st))));
          pg_total := Z.of_nat (List.length (List.filter (listed customerId statusFilter)
                                                         (orderDocs st)));
          pg_totalPages :=
            Some (- (- Z.of_nat (List.length (List.filter (listed customerId statusFilter)
                                                          (orderDocs st))) / limit))%Z |}.
Proof.
  intros Hv Hr Hlimit Hpage. unfold getCustomerOrders, skipLimit, ceilDiv.
  rewrite Hv, Hr. cbn [negb].
  assert (Hskip : ((page - 1) * limit <? 0)%Z = false) by (apply Z.ltb_ge; nia).
  assert (Hzero : (limit =? 0)%Z = false) by (apply Z.eqb_neq; lia).
  assert (Hpos : (0 <? limit)%Z = true) by (apply Z.ltb_lt; lia).
  rewrite Hskip, Hzero, Hpos. reflexivity.
Qed.

(** X27: the pages of [getCustomerOrders] hold every order of the listing
    once, in its order.  With a positive limit, the order at position [i]
    of the listing of a customer, newest first, is on page [i / limit + 1]
    at position [i mod limit]; that page is one of the [totalPages], no
    page has more than [limit] orders, [total] is the number of the orders
    listed, and a page after the last one is empty. *)
Theorem getCustomerOrders_pages (st : OrderStore) (customerId : string) (limit : Z)
    (statusFilter : option string) (i : nat) (d : OrderDoc) :
  isValidObjectId customerId = true -> reachable st = true ->
  (0 < limit)%Z ->
  newestFirst (List.filter (listed customerId statusFilter) (orderDocs st)) !! i = Some d ->
  exists pg pages,
    getCustomerOrders singleBatch st customerId (Z.of_nat i / limit + 1) limit statusFilter
    = Ok pg
    /\ pg_orders pg !! Z.to_nat (Z.of_nat i mod limit) = Some d
    /\ (Z.of_nat (List.length (pg_orders pg)) <= limit)%Z
    /\ pg_total pg = Z.of_nat (List.length (List.filter (listed customerId statusFilter)
                                                        (orderDocs st)))
    /\ pg_totalPages pg = Some pages
    /\ (Z.of_nat i / limit + 1 <= pages)%Z
    /\ forall page, (pages < page)%Z ->
         exists beyond,
           getCustomerOrders singleBatch st customerId page limit statusFilter = Ok beyond
           /\ pg_orders beyond = [] /\ pg_totalPages beyond = Some pages.
Proof.
  intros Hv Hr Hlimit Hi.
  set (matching := List.filter (listed customerId statusFilter) (orderDocs st)) in *.
  assert (Hlen : List.length (newestFirst matching) = List.length matching).
  { apply Permutation_length. apply sort_perm. }
  assert (Hlt : (i < List.length matching)%nat).
  { rewrite <- Hlen. now apply lookup_lt_Some in Hi. }
  pose proof (Z.div_mod (Z.of_nat i) limit ltac:(lia)) as Hdm.
  pose proof (Z.mod_pos_bound (Z.of_nat i) limit Hlimit) as Hmod.
  assert (Hq : (0 <= Z.of_nat i / limit)%Z) by (apply Z.div_pos; lia).
  set (total := Z.of_nat (List.length matching)) in *.
  assert (Hceil1 : (Z.of_nat i / limit + 1 <= - (- total / limit))%Z).
  { assert (- total / limit < - (Z.of_nat i / limit))%Z; [|lia].
    apply Z.div_lt_upper_bound; [lia|]. unfold total. nia. }
  assert (Hceil2 : (total <= - (- total / limit) * limit)%Z).
  { pose proof (Z.mul_div_le (- total) limit Hlimit). lia. }
  eexists. exists (- (- total / limit))%Z.
  split; [apply getCustomerOrders_page; try assumption; lia|].
  cbn [pg_orders pg_total pg_totalPages]. fold matching. fold total.
  split; [|split; [|split; [reflexivity|split; [reflexivity|split; [exact Hceil1|]]]]].
  - rewrite lookup_take_lt by lia. rewrite lookup_drop. rewrite <- Hi. f_equal.
    replace (Z.of_nat i / limit + 1 - 1)%Z with (Z.of_nat i / limit)%Z by lia.
    rewrite <- Z2Nat.inj_add by nia. rewrite <- (Nat2Z.id i) at 3. f_equal. lia.
  - rewrite length_take. lia.
  - intros page Hpage. eexists.
    split; [apply getCustomerOrders_page; try assumption; lia|].
    cbn [pg_orders pg_totalPages]. fold matching. fold total. split; [|reflexivity].
    rewrite drop_ge; [apply take_nil|]. rewrite Hlen. unfold total in *. nia.
Qed.

End OrderPages.


Section AuditDiff.

Import AuditService.

Variable Value : Type.
Variable undefined : Value.
Variable stringify : Value -> option string.

Lemma calculateDiff_lookup (oldObj newObj : Obj Value) (key : string) :
  calculateDiff Value undefined stringify oldObj newObj !! key
  = match newObj !! key with
    | Some newValue =>
        if skipped key then None
        else if decide (stringify (get Value undefined oldObj key) = stringify newValue) then None
             else Some (get Value undefined oldObj key, newValue)
    | None => None
    end.
Proof.
  unfold calculateDiff, Obj in *. rewrite map_lookup_imap.
  destruct (newObj !! key) as [v|] eqn:E; rewrite ?E; reflexivity.
Qed.

(** X28: what [calculateDiff] records.  An entry is a key of the new
    object, other than [_id], [__v], [createdAt] and [updatedAt], whose old
    and new values print differently, with these two values; every such
    key has its entry.  So a key that the new object no longer has leaves
    no entry, and the difference of an object with itself is empty. *)
Theorem calculateDiff_records (oldObj newObj : Obj Value) :
  (forall key oldValue newValue,
      calculateDiff Value undefined stringify oldObj newObj !! key = Some (oldValue, newValue) <->
      newObj !! key = Some newValue /\ skipped key = false
      /\ oldValue = get Value undefined oldObj key
      /\ stringify oldValue <> stringify newValue)
  /\ (forall key, newObj !! key = None ->
                  calculateDiff Value undefined stringify oldObj newObj !! key = None)
  /\ calculateDiff Value undefined stringify newObj newObj = ∅.
Proof.
  split; [|split].
  - intros key oldValue newValue. rewrite calculateDiff_lookup.
    destruct (newObj !! key) as [v|]; [|split; [discriminate | intros [H _]; discriminate]].
    destruct (skipped key).
    { split; [discriminate | intros (_ & H & _); discriminate]. }
    destruct (decide (stringify (get Value undefined oldObj key) = stringify v)) as [Heq | Hne].
    + split; [discriminate|]. intros ([= ->] & _ & -> & Hdiff). contradiction.
    + split.
      * intros [= <- <-]. auto.
      * intros ([= ->] & _ & -> & _). reflexivity.
  - intros key Hnone. rewrite calculateDiff_lookup. now rewrite Hnone.
  - apply map_eq. intros key. rewrite calculateDiff_lookup, lookup_empty.
    destruct (newObj !! key) as [v|] eqn:Hv; [|reflexivity].
    destruct (skipped key); [reflexivity|].
    assert (Hget : get Value undefined newObj key = v) by (unfold get; now rewrite Hv).
    rewrite Hget.
    destruct (decide (stringify v = stringify v)); [reflexivity | contradiction].
Qed.

End AuditDiff.


(** * The theorems on the sample store *)

Section OnTheSampleStore.

Import OfferService OfferController OfferEndpoints ProductPricing ListingSpec EndpointSpec
       ConflictSpec.

Lemma getProduct_ignores_category_campaigns_witness :
  categoryIdsWellFormed Fixtures.market
  /\ getProduct [Fixtures.stationeryId] Fixtures.market 10 Fixtures.lampId Fixtures.plainQuery
     = getProduct [Fixtures.stationeryId] (withoutCategoryTargeting Fixtures.market) 10
         Fixtures.lampId Fixtures.plainQuery.
Proof.
  assert (H : categoryIdsWellFormed Fixtures.market).
  { repeat constructor. }
  split; [exact H|].
  exact (getProduct_ignores_category_campaigns [Fixtures.stationeryId] Fixtures.market 10
           Fixtures.lampId Fixtures.plainQuery H).
Defined.

Lemma free_campaign_is_charged_in_full_witness :
  exists line,
    OrderService.priceLine Fixtures.fair 0 ([], 0) Fixtures.threePens
    = Ok ([line], 0 ⊕ price Fixtures.pen ⊗ 3)
    /\ oi_offerPrice line = Some 0
    /\ oi_subtotal line = price Fixtures.pen ⊗ 3.
Proof.
  edestruct (free_campaign_is_charged_in_full Fixtures.fair 0 ([], 0) Fixtures.threePens
               Fixtures.pen)
    as (line & Hline & Hoffer & _ & Hsub).
  - reflexivity.
  - vm_compute. reflexivity.
  - reflexivity.
  - reflexivity.
  - exists line. split; [exact Hline|]. split; [exact Hoffer | exact Hsub].
Defined.

Lemma resolveRelevantOffers_answers_listed_offers_witness :
  resolveRelevantOffers Samples.gridDistance (fun _ _ => Ok false) Fixtures.market 3
    Fixtures.fromNowhere = Ok [Fixtures.summer; Fixtures.spring]
  /\ byPriorityDesc [Fixtures.summer; Fixtures.spring]
  /\ exists listed,
       getPublicActiveOffers Fixtures.createdAt Fixtures.market 3 = Ok listed
       /\ incl [Fixtures.summer; Fixtures.spring] listed.
Proof.
  assert (H : resolveRelevantOffers Samples.gridDistance (fun _ _ => Ok false) Fixtures.market 3
                Fixtures.fromNowhere = Ok [Fixtures.summer; Fixtures.spring])
    by (vm_compute; reflexivity).
  split; [exact H|].
  destruct (resolveRelevantOffers_answers_listed_offers Samples.gridDistance
              (fun _ _ => Ok false) Fixtures.createdAt Fixtures.market 3 Fixtures.fromNowhere
              [Fixtures.summer; Fixtures.spring] H) as (Hsorted & _ & Hlisted).
  split; [exact Hsorted | exact Hlisted].
Defined.

Lemma getLocationBasedOffers_answers_witness :
  getLocationBasedOffers Fixtures.createdAt Fixtures.planeDistance Fixtures.market 3
    (Some "24.7") (Some "46.7")
  = Ok ([Fixtures.summer; Fixtures.spring], Some Fixtures.riyadh)
  /\ exists nb, planeNearest Fixtures.planeDistance "24.7" "46.7" Fixtures.market nb
                /\ b_id nb = Fixtures.riyadhId.
Proof.
  assert (H : getLocationBasedOffers Fixtures.createdAt Fixtures.planeDistance Fixtures.market 3
                (Some "24.7") (Some "46.7")
              = Ok ([Fixtures.summer; Fixtures.spring], Some Fixtures.riyadh))
    by (vm_compute; reflexivity).
  split; [exact H|].
  destruct (getLocationBasedOffers_answers Fixtures.createdAt Fixtures.planeDistance
              Fixtures.market 3 _ _ _ _ H)
    as (_ & Hnearest & _).
  destruct (Hnearest Fixtures.riyadh eq_refl) as (la & ln & nb & Hla & _ & Hln & _ & Hnb & Hid).
  injection Hla as <-. injection Hln as <-. exists nb. split; [exact Hnb | exact Hid].
Defined.

Lemma branch_account_cannot_touch_other_branch_witness :
  deleteOffer Fixtures.createdBy Fixtures.market Fixtures.manager Fixtures.saleId
  = (Throw forbidden, Fixtures.market)
  /\ toggleOfferStatus Fixtures.market Fixtures.manager Fixtures.saleId false
     = (Throw forbidden, Fixtures.market)
  /\ extendOffer Fixtures.market 3 Fixtures.manager Fixtures.saleId 30
     = (Throw forbidden, Fixtures.market)
  /\ getOffer Fixtures.market Fixtures.manager Fixtures.saleId = Throw forbidden.
Proof.
  assert (Hrole : role Fixtures.manager = BranchRole) by reflexivity.
  assert (Hother : ofAnotherBranch Fixtures.manager Fixtures.jeddahSale).
  { exists Fixtures.jeddahId. split; [reflexivity | discriminate]. }
  destruct (branch_account_cannot_touch_other_branch Fixtures.createdAt Fixtures.createdBy
              Fixtures.market 3 Fixtures.manager Fixtures.saleId Fixtures.jeddahSale
              Hrole Hother) as (Hwrite & _ & _).
  destruct Hwrite as (Hextend & Htoggle & Hdelete & Hget); [reflexivity|].
  split; [exact Hdelete|]. split; [exact (Htoggle false)|]. split; [exact (Hextend 30%Z)|].
  apply (Hget Fixtures.jeddah); [right; left; reflexivity | reflexivity].
Defined.

Lemma switched_off_campaign_is_gone_witness :
  fst (toggleOfferStatus Fixtures.market Samples.admin Fixtures.summerId false)
  = Ok (withIsActive Fixtures.summer false)
  /\ getPublicOffer (snd (toggleOfferStatus Fixtures.market Samples.admin Fixtures.summerId
                            false)) 3 Fixtures.summerId
     = Throw notPublic.
Proof.
  split; [reflexivity|].
  refine (proj1 (switched_off_campaign_is_gone Fixtures.createdAt Fixtures.market _ 3
                   Samples.admin Fixtures.summerId (withIsActive Fixtures.summer false) _)).
  reflexivity.
Defined.

Lemma extended_campaign_is_public_witness :
  getPublicOffer Fixtures.market 10 Fixtures.springId = Throw notPublic
  /\ getPublicOffer (snd (extendOffer Fixtures.market 10 Samples.admin Fixtures.springId 20))
       10 Fixtures.springId
     = Ok (withEndsAt Fixtures.spring (Some 20%Z)).
Proof.
  split; [reflexivity|].
  refine (proj2 (proj2 (proj2
            (extended_campaign_is_public Fixtures.market _ 10 Samples.admin Fixtures.springId 20
               (withEndsAt Fixtures.spring (Some 20%Z)) _))) _ _).
  - reflexivity.
  - reflexivity.
  - unfold started. cbn. lia.
Defined.

Lemma createOffer_accepts_only_without_conflict_witness :
  exists offer,
    fst (createOffer Fixtures.market 10 Samples.admin Fixtures.lampForRiyadh
           "64b0000000000000000000d9") = Ok offer
    /\ (forall o, In o (offerCampaigns Fixtures.market) ->
                   ~ collides 10 [Fixtures.lampId] None (Some Fixtures.riyadhId) o)
    /\ branch offer = Some Fixtures.riyadhId.
Proof.
  destruct (createOffer Fixtures.market 10 Samples.admin Fixtures.lampForRiyadh
              "64b0000000000000000000d9") as [[offer|e] db'] eqn:E;
    [|vm_compute in E; discriminate E].
  exists offer. split; [reflexivity|].
  destruct (createOffer_accepts_only_without_conflict _ _ _ _ _ _ _ E)
    as (Hnone & _ & _ & _ & _ & _ & _ & Hbranch).
  split; [exact Hnone | exact Hbranch].
Defined.

Lemma deleteOffer_removes_the_campaign_witness :
  snd (deleteOffer Fixtures.createdBy Fixtures.market Samples.admin Fixtures.summerId)
  = withoutCampaign Fixtures.market Fixtures.summerId
  /\ getPublicOffer (withoutCampaign Fixtures.market Fixtures.summerId) 3 Fixtures.summerId
     = Throw notPublic.
Proof.
  split; [reflexivity|].
  destruct (deleteOffer_removes_the_campaign Fixtures.createdBy Fixtures.market
              (withoutCampaign Fixtures.market Fixtures.summerId) 3 Samples.admin
              Fixtures.summerId eq_refl) as (offer & _ & _ & _ & _ & Hpublic).
  exact Hpublic.
Defined.

Lemma conflict_report_names_valid_campaigns_witness :
  exists report,
    checkProductConflicts Fixtures.market 3 [Fixtures.lampId] None (Some Fixtures.riyadhId)
    = Ok (Some report)
    /\ report <> []
    /\ Forall (fun entry => offerTitle entry = "Spring") report.
Proof.
  destruct (checkProductConflicts Fixtures.market 3 [Fixtures.lampId] None
              (Some Fixtures.riyadhId)) as [[report|]|e] eqn:E;
    [|vm_compute in E; discriminate E..].
  exists report. split; [reflexivity|].
  destruct (conflict_report_names_valid_campaigns _ _ _ _ _ _ E) as [Hsome _].
  split; [exact Hsome|].
  vm_compute in E. injection E as <-. repeat constructor.
Defined.

End OnTheSampleStore.

Section OnTheSampleBooks.

Import OfferController ProductPricing GeolocationService GeolocationSpec AddressService
       AddressBook AddressSpec.

Lemma isPrivateIP_blocks_witness :
  (192 < 256)%nat /\ (168 < 256)%nat
  /\ isPrivateIP (dotted 192 168 "1.20") = inPrivateBlock 192 168.
Proof.
  assert (Ha : (192 < 256)%nat) by lia.
  assert (Hb : (168 < 256)%nat) by lia.
  split; [exact Ha|]. split; [exact Hb|].
  exact (isPrivateIP_blocks 192 168 "1.20" Ha Hb).
Defined.

Lemma order_from_private_address_witness :
  isPrivateIP "127.0.0.1" = true
  /\ noOverride Fixtures.production = true
  /\ exists b,
       In b (branchDocs Fixtures.market) /\ b_isActive b = true
       /\ OrderService.assignBranch Samples.gridDistance
            (locate (fun _ => 0) Fixtures.production Fixtures.offline)
            Fixtures.market Fixtures.fromLocalhost
          = (Some (b_id b), Some (466753 # 10000, 247136 # 10000)).
Proof.
  assert (Hp : isPrivateIP "127.0.0.1" = true) by reflexivity.
  assert (Hno : noOverride Fixtures.production = true) by reflexivity.
  split; [exact Hp|]. split; [exact Hno|].
  apply (order_from_private_address Samples.gridDistance (fun _ => 0) Fixtures.production
           Fixtures.offline Fixtures.market Fixtures.fromLocalhost "127.0.0.1"
           eq_refl eq_refl Hp Hno eq_refl).
  discriminate.
Defined.

Lemma one_default_address_is_kept_witness :
  everyBook oneDefault Fixtures.market
  /\ everyBook oneDefault
       (fold_left (perform Fixtures.describe) Fixtures.fourRequests Fixtures.market).
Proof.
  assert (H : everyBook oneDefault Fixtures.market).
  { constructor; [|constructor]. unfold oneDefault. cbn. lia. }
  split; [exact H|].
  exact (one_default_address_is_kept Fixtures.describe Fixtures.fourRequests Fixtures.market H).
Defined.

Lemma removeDuplicateAddresses_keeps_first_of_each_key_witness :
  exists db',
    removeDuplicateAddresses Fixtures.marketWithCopy Fixtures.bobId = (Ok tt, db')
    /\ getCustomerAddresses Fixtures.describe db' Fixtures.bobId
       = Ok [Fixtures.home; Fixtures.office].
Proof.
  destruct (removeDuplicateAddresses_keeps_first_of_each_key Fixtures.describe
              Fixtures.marketWithCopy Fixtures.bobId Fixtures.bobTwice eq_refl eq_refl)
    as (db' & kept & Hrun & Hlisting & _).
  exists db'. split; [exact Hrun|].
  vm_compute in Hrun. injection Hrun as <-. reflexivity.
Defined.

Lemma saveAddress_then_listing_witness :
  exists db',
    saveAddress Fixtures.describe Fixtures.market Fixtures.bobId Fixtures.cabin
      "64b0000000000000000000f4"
    = (Ok ("64b0000000000000000000f4", Fixtures.cabin), db')
    /\ getCustomerAddresses Fixtures.describe db' Fixtures.bobId
       = Ok [withDefault Fixtures.home false; withDefault Fixtures.office false;
             storedAddress Fixtures.cabin "64b0000000000000000000f4"]
    /\ saveAddress Fixtures.describe db' Fixtures.bobId Fixtures.cabin
         "64b0000000000000000000f5"
       = (Throw (JsError "Failed to save address: Error: This address already exists"), db').
Proof.
  destruct (saveAddress_then_listing Fixtures.describe Fixtures.market Fixtures.bobId
              Fixtures.bob Fixtures.cabin "64b0000000000000000000f4"
              eq_refl eq_refl eq_refl eq_refl)
    as (db' & Hsave & Hlisting & Hagain & _).
  exists db'. split; [exact Hsave|]. split; [exact Hlisting|].
  exact (Hagain Fixtures.cabin "64b0000000000000000000f5" eq_refl eq_refl).
Defined.

Lemma deleteAddress_then_listing_witness :
  exists db',
    deleteAddress Fixtures.describe Fixtures.market Fixtures.bobId Fixtures.homeId
    = (Ok tt, db')
    /\ getCustomerAddresses Fixtures.describe db' Fixtures.bobId = Ok [Fixtures.office].
Proof.
  destruct (deleteAddress_then_listing Fixtures.describe Fixtures.market Fixtures.bobId
              Fixtures.homeId Fixtures.bob eq_refl eq_refl) as (db' & Hdelete & Hlisting & _).
  exists db'. split; [exact Hdelete | exact Hlisting].
Defined.

Lemma setDefaultAddress_then_listing_witness :
  exists db' listing,
    setDefaultAddress Fixtures.describe Fixtures.market Fixtures.bobId Fixtures.officeId
    = (Ok tt, db')
    /\ getCustomerAddresses Fixtures.describe db' Fixtures.bobId = Ok listing
    /\ List.filter isDefault listing = [withDefault Fixtures.office true].
Proof.
  pose proof (setDefaultAddress_then_listing Fixtures.describe Fixtures.market Fixtures.bobId
                Fixtures.officeId Fixtures.bob eq_refl eq_refl) as H.
  cbn in H. destruct H as (db' & listing & Hset & Hlisting & Hdefault & _).
  exists db', listing. split; [exact Hset|]. split; [exact Hlisting | exact Hdefault].
Defined.

End OnTheSampleBooks.

Section OnTheSampleLedger.

Import OrderLifecycle OrderSpec.

Lemma reverseOrderStatus_steps_back_witness :
  exists st',
    reverseOrderStatus (fun s => s) Fixtures.ledger 9 Fixtures.firstOrderId
    = (Ok (Some (withStatus Fixtures.firstOrder shipped)), st')
    /\ findOrder st' Fixtures.firstOrderId = Ok (Some (withStatus Fixtures.firstOrder shipped))
    /\ deliveredAt (withStatus Fixtures.firstOrder shipped) = Some 7%Z.
Proof.
  pose proof (reverseOrderStatus_steps_back (fun s => s) Fixtures.ledger 9
                Fixtures.firstOrderId Fixtures.firstOrder eq_refl) as H.
  cbn [previous status Fixtures.firstOrder Fixtures.doc_] in H.
  destruct H as (st' & Hrun & Hread & _).
  exists st'. split; [exact Hrun|]. split; [exact Hread | reflexivity].
Defined.

Lemma cancelOrder_is_final_witness :
  exists st',
    cancelOrder (fun s => s) Fixtures.ledger 9 Fixtures.secondOrderId (Some "out of stock")
    = (Ok (Some (cancelledWith "Cancelled: out of stock" Fixtures.secondOrder)), st')
    /\ cancelOrder (fun s => s) st' 10 Fixtures.secondOrderId None
       = (Throw (JsError "Cannot cancel this order"), st')
    /\ reverseOrderStatus (fun s => s) st' 10 Fixtures.secondOrderId
       = (Throw (JsError "Cannot reverse status from cancelled"), st').
Proof.
  pose proof (cancelOrder_is_final (fun s => s) Fixtures.ledger 9 Fixtures.secondOrderId
                (Some "out of stock") Fixtures.secondOrder eq_refl) as H.
  cbn [existsb OrderStatus_eqb status Fixtures.secondOrder Fixtures.doc_ orb] in H.
  destruct H as (st' & Hrun & _ & Hagain & Hback).
  exists st'. split; [exact Hrun|]. split; [exact (Hagain 10%Z None) | exact (Hback 10%Z)].
Defined.

Lemma delivered_order_is_cancelled_in_two_steps_witness :
  cancelOrder (fun s => s) Fixtures.ledger 9 Fixtures.firstOrderId None
  = (Throw (JsError "Cannot cancel this order"), Fixtures.ledger)
  /\ exists st1 st2 final,
       reverseOrderStatus (fun s => s) Fixtures.ledger 9 Fixtures.firstOrderId
       = (Ok (Some (withStatus Fixtures.firstOrder shipped)), st1)
       /\ cancelOrder (fun s => s) st1 10 Fixtures.firstOrderId None = (Ok (Some final), st2)
       /\ status final = cancelled
       /\ deliveredAt final = Some 7%Z.
Proof.
  destruct (delivered_order_is_cancelled_in_two_steps (fun s => s) Fixtures.ledger 9 10
              Fixtures.firstOrderId None Fixtures.firstOrder eq_refl eq_refl)
    as (Hrefused & st1 & st2 & final & Hback & Hcancel & _ & Hstatus & Hdate).
  split; [exact Hrefused|]. exists st1, st2, final.
  split; [exact Hback|]. split; [exact Hcancel|]. split; [exact Hstatus | exact Hdate].
Defined.

Lemma statuses_stay_in_schema_enum_witness :
  statusesInEnum Fixtures.ledger
  /\ statusesInEnum (fold_left (perform (fun s => s)) Fixtures.threeRequests Fixtures.ledger).
Proof.
  assert (H : statusesInEnum Fixtures.ledger) by (repeat constructor).
  split; [exact H|].
  exact (statuses_stay_in_schema_enum (fun s => s) Fixtures.threeRequests Fixtures.ledger H).
Defined.

Lemma getOrderStats_adds_up_witness :
  exists stats,
    getOrderStats Fixtures.ledger = Ok stats
    /\ total stats = 3%Z
    /\ n_delivered stats = 1%Z /\ n_processing stats = 1%Z /\ n_cancelled stats = 1%Z
    /\ totalRevenue stats == 42.
Proof.
  destruct (getOrderStats_adds_up Fixtures.ledger eq_refl)
    as (stats & Hrun & Htotal & _ & Hprocessing & _ & Hdelivered & Hcancelled & Hrevenue & _).
  exists stats. split; [exact Hrun|]. split; [exact Htotal|].
  split; [exact Hdelivered|]. split; [exact Hprocessing|]. split; [exact Hcancelled|].
  rewrite Hrevenue. reflexivity.
Defined.

Lemma getCustomerOrders_pages_witness :
  newestFirst (List.filter (listed Fixtures.bobId None) (orderDocs Fixtures.ledger)) !! 2%nat
  = Some Fixtures.firstOrder
  /\ exists pg,
       getCustomerOrders (fun _ l => l) Fixtures.ledger Fixtures.bobId 2 2 None = Ok pg
       /\ pg_orders pg !! 0%nat = Some Fixtures.firstOrder
       /\ pg_total pg = 3%Z
       /\ pg_totalPages pg = Some 2%Z.
Proof.
  assert (H : newestFirst (List.filter (listed Fixtures.bobId None)
                                       (orderDocs Fixtures.ledger)) !! 2%nat
              = Some Fixtures.firstOrder) by reflexivity.
  split; [exact H|].
  destruct (getCustomerOrders_pages (fun _ l => l) Fixtures.ledger Fixtures.bobId 2 None 2
              Fixtures.firstOrder eq_refl eq_refl eq_refl H)
    as (pg & pages & Hrun & Hat & _ & Htotal & Hpages & _).
  exists pg. split; [exact Hrun|]. split; [exact Hat|]. split; [exact Htotal|].
  rewrite Hpages. vm_compute in Hrun. injection Hrun as <-. cbn in Hpages.
  injection Hpages as <-. reflexivity.
Defined.

End OnTheSampleLedger.
